(* ===== verification/_CoqProject ===== *)
-Q . S2P
Prelude.v
PyStr.v
Errors.v
Floats.v
FloatConv.v
Json.v
Decoding.v
Sha256.v
Serialization.v
StateMachine.v
Retry.v
Signing.v
DemoRuns.v
Models.v
Datetime.v
Database.v
Repositories.v
Invariant.v
Transport.v
Utf8.v
Regex.v
Url.v
Config.v
EnvFile.v
Deployment.v
Health.v
Worker.v
Claiming.v
Finalizing.v
Generations.v
Services.v
Fixtures.v
Publishing.v
Replaying.v
Maintenance.v
System.v
Examples.v
Polling.v
ReceiverLab.v
Codecs.v
Cursor.v
Paging.v
ControlRoom.v
Listings.v
Schemas.v
Routers.v
Responses.v
Validated.v
ApiExamples.v
Demo.v
Secrets.v
Sql.v
Schema.v
SqlText.v
Migrations.v
Metadata.v
SchemaSound.v
Revisions.v
StoredRows.v
HeadSchema.v
Backfills.v
Ledger.v
MigrationExamples.v
