(* ===== verification/Prelude.v ===== *)
(** EventHarbor: a verification development of the webhook delivery service under
    src/backend/src/eventharbor, of its migrations and of the checks of its deployment.

    * The program

    EventHarbor accepts events over HTTP, stores each with a first delivery in one PostgreSQL
    transaction, and sends the deliveries from background workers.  A worker claims a due delivery
    (a lease with a token, and an attempt row that is committed before any request starts), sends
    one signed request, and finalizes the attempt behind a fence on that lease: delivered, waiting
    for a retry, or dead-lettered.  An operator can replay a dead letter, which adds a generation to
    the chain of the event's deliveries; a retention job deletes events whose work has ended; the
    Control Room lists and counts all of this; Receiver Lab is a receiver with scripted failures,
    and the demo service configures it.  Alembic migrations build the schema; a validator and a
    health probe guard the deployment.

    * Files and the code they model

    The language and its library.  PyStr (str and bytes), Errors (exceptions, the error monad,
    errors.py), Floats and FloatConv (binary64 on the Standard Library's spec_float), Json (json
    values, loads and dumps), Decoding (loads of bytes), Utf8 (the strict codec), Codecs (base64,
    int(s, 16), UUID text), Sha256 (SHA-256, HMAC), Regex (the patterns of the scripts), Url
    (urllib.parse), Datetime.

    The core.  Serialization (serialization.py), StateMachine (deliveries/state_machine.py), Retry
    (deliveries/retry.py), Signing (deliveries/signing.py), DemoRuns (demo_runs.py), Models
    (models.py: rows, types, CHECKs, unique indexes and foreign keys), Config (config.py: every
    setting, its bounds and the production checks of the database URL).

    Transactions.  Database is a state and error monad over the four tables with PostgreSQL's
    constraint checks on every write, commit and rollback (run_tx), and weakest preconditions (wp).
    Repositories (repositories.py), Services (services.py), Worker (deliveries/worker.py), Transport
    (deliveries/transport.py), Maintenance (maintenance.py) are programs in it, one definition per
    method, named as in the code; helpers of a method are the parts its map entry names.  Where a
    worker talks to a database that may be away, Worker.transact runs the transaction under an
    Outage: it fails before or after its commit.

    The edge.  ControlRoom, Cursor and Paging (control_room.py), Schemas (schemas.py), Routers
    (routers/v1.py), ReceiverLab (receiver_lab/api.py), Demo (demo.py), Health (the health routes of
    api.py and the worker's probe), EnvFile (src/infra/azure-economy/runtime: validate_env.py, the
    URL of worker-health.py, the settings of compose.yaml).

    The schema.  Sql and Schema are tables of named columns with catalogs, constraints and the SQL
    statements the revisions use; SqlText reads their CHECK and WHERE texts; Migrations is
    src/backend/alembic, both directions of each revision; Metadata is models.py as the catalog
    SQLAlchemy makes of it; StoredRows writes the rows of Models as rows of those tables.

    Results.  Invariant is the invariant of the database; Claiming, Finalizing, Generations,
    Publishing, Replaying and Maintenance prove what each operation does and that it keeps the
    invariant; System puts requests, workers, retention, operators and crashes together as a step
    relation and proves properties of every reachable state; Polling is the worker's loop; Listings,
    Responses, Validated and Secrets are about the answers of the API; SchemaSound, Revisions,
    HeadSchema, Backfills and Ledger are about the migrations; Deployment is about the validator,
    the settings and the probe together.  Fixtures, Examples, ApiExamples and MigrationExamples hold
    a concrete history and the applications of the theorems to it.

    * What the theorems show

    Reachable states (System): the invariant, the attempt budget and the allow-list of targets hold
    whatever interleaves; a step moves a delivery only along the state machine and never a terminal
    one, and only the deletions of a selected retention batch remove any; a retention run is a
    sequence of steps with the commits of others in between; at most one request holds the lease of a
    delivery; due work is always claimable, and every delivery ends in the dead letters if no worker
    survives its claim, within its budget; the polling loop of a worker refines the steps of the
    system, survives every failure, those of the database included, pauses after every failure and
    cannot spin (Polling).

    Operations: a claim refines an abstract decision and never fails on a sound database, takes the
    earliest due row and commits its evidence first; finalize is fenced, commits all evidence of the
    transport and computes the documented outcome and schedule; publish refuses reused keys; replay
    refines an abstract decision table; a purge deletes exactly the oldest expired events within its
    bounds and terminates.

    Answers: a repeated publication or replay is answered with the same event or generation, however
    the system has moved on, until retention removes it; following the cursors of a list shows every
    matching row once, newest first; the overview adds up; a dead letter's replay flag is the decision
    of the replay endpoint; the operator routes end in internal errors only for a cursor whose time is
    outside the calendar, and a validated publication only on text that cannot be stored; no answer
    but the creation of an endpoint depends on a signing secret; cursors read back.

    Receiver Lab: it keeps at most 100 named runs and of each its 100 latest requests whatever is sent, it
    answers a run as configured, failure by failure, and its refusals are classified for replays; a
    preset applied through the demo service is in force and read back.

    Schema: the catalog after every revision, in both directions, is the one stated, and the head's is
    that of the models, whose SQL texts admit exactly the rows that Models admits; the backfill of the
    digests and the move of the leases into the attempt ledger are row-exact.

    Deployment: an input the validator accepts starts the services, with the exact condition under
    which the worker's probe passes; a prepared input passes the check.

    Bytes and numbers: the canonical JSON does not depend on the order of keys, requests carry a
    signature that verifies, evidence is bounded, retry delays stay within the configured range with
    binary64 rounding.

    * Recursion and bounds

    json_loads runs its parser with fuel 2n+1 for n characters, which parse_fuel proves enough.
    purge_loop has the bound of events as fuel: purge_terminates shows it ends by itself.  follow
    and pages, the client that walks a list, get one step per row and one more, which the listing
    theorems show to reach the last page.  All other recursion is structural.  Integers of columns
    have their 32- or 64-bit range in the types of Models; a datetime addition or a timedelta out
    of range raises.  Claims assume that the clock is far enough from the ends of the datetime range
    (near), and that fresh identifiers are unused, as random UUIDs are.

    * Arguments of the model

    Clocks, random identifiers and fractions, the secret factory, locked rows, the commits of
    other transactions and the outages of the database are arguments of the operations that meet
    them.  Third-party code is too: the HTTP clients (httpx), parsedate_to_datetime,
    datetime.fromisoformat, pydantic's parser of UUID text, its validation of the two Receiver Lab
    responses and the framework's text of a datetime in them.

    * Not modelled

    The framework: routing, parsing of parameters into the handlers' arguments, rendering of
    response models as JSON, the application factory, the engine and the main entry points; the
    reading of environment variables by pydantic-settings.  Interleaving inside a transaction: a
    transaction is one step, which the row locks are for; the one place where the code reads
    candidates without a lock, a retention batch, is two steps with those of others in between (the
    deletions of a run become visible with its commit; until then the rows are locked, and whoever
    needs one waits).  The recursion limit of the interpreter.  The offline mode of Alembic, which
    prints SQL.  The copy scripts under src/infra/azure-shared-postgres and the smoke test under
    src/scripts, which are subprocess and network commands; the TypeScript frontend.

    * What modelling showed

    A replay that commits inside a retention batch loses its delivery (Maintenance.purge_race); a
    NUL byte in a receiver's answer keeps an attempt from being recorded
    (Finalizing.finalize_nul_excerpt); a Retry-After date of the last hour of year 9999 raises
    (Transport.retry_after_date_overflow); lone surrogates and NUL characters in event data end in
    internal errors (Serialization.canonical_surrogate_escapes, Validated.publish_answers), and so do
    a cursor whose time is outside the calendar (Responses.operator_answers) and a NUL character in
    the filter of the event list (Listings.events_listed); the replay guard does not know one of the
    receiver's payload errors (ReceiverLab.receiver_evidence); one odd header makes a run's state
    unreadable (Demo.preset_applied); the validator accepts database URLs that the worker's probe
    rejects (Deployment.accepted_input_starts).

    This file is the prelude: tactics, sort keys and ORDER BY, tables with primary keys, and
    the results of queries that return at most one row. *)
From stdpp Require Export base numbers option list sorting gmap.
From stdpp Require Export strings.
From Stdlib Require Export Lia.

#[global] Set Default Goal Selector "!".

Declare Scope eh_scope.
Delimit Scope eh_scope with eh.

(** ** Tactics shared by the development *)

(** Destruct the discriminee of a match or of an [if] in a hypothesis or in the goal. *)
Ltac case_in H :=
  match type of H with
  | context [match ?x with _ => _ end] => destruct x eqn:?
  end.

Ltac case_goal :=
  match goal with
  | |- context [match ?x with _ => _ end] => destruct x eqn:?
  end.

(** Turn boolean facts into propositions and split conjunctions. *)
Ltac bool_simpl :=
  repeat match goal with
  | H : _ && _ = true |- _ => apply andb_true_iff in H; destruct H
  | H : _ || _ = false |- _ => apply orb_false_iff in H; destruct H
  | H : negb _ = true |- _ => apply negb_true_iff in H
  | H : negb _ = false |- _ => apply negb_false_iff in H
  | H : bool_decide _ = true |- _ => apply bool_decide_eq_true in H
  | H : bool_decide _ = false |- _ => apply bool_decide_eq_false in H
  | H : (_ <=? _)%Z = true |- _ => apply Z.leb_le in H
  | H : (_ <=? _)%Z = false |- _ => apply Z.leb_gt in H
  | H : (_ <? _)%Z = true |- _ => apply Z.ltb_lt in H
  | H : (_ <? _)%Z = false |- _ => apply Z.ltb_ge in H
  | H : (_ =? _)%Z = true |- _ => apply Z.eqb_eq in H
  | H : (_ =? _)%Z = false |- _ => apply Z.eqb_neq in H
  end.

(** Linear arithmetic with division and remainder. *)
Ltac div_lia := Z.div_mod_to_equations; lia.
Ltac ndiv_lia := zify; Z.to_euclidean_division_equations; lia.

(** ** Keyed order of query results *)

(** The key of an [ORDER BY timestamp, id] clause, and the lexicographic order on it. *)
Definition sort_key : Type := Z * N.

Definition key_le (a b : sort_key) : Prop :=
  (a.1 < b.1)%Z ∨ (a.1 = b.1 ∧ (a.2 ≤ b.2)%N).

Definition key_lt (a b : sort_key) : Prop :=
  (a.1 < b.1)%Z ∨ (a.1 = b.1 ∧ (a.2 < b.2)%N).

#[export] Instance key_le_dec : RelDecision key_le.
Proof. intros a b. unfold key_le. apply _. Defined.

#[export] Instance key_lt_dec : RelDecision key_lt.
Proof. intros a b. unfold key_lt. apply _. Defined.

#[export] Instance key_le_total : Total key_le.
Proof. intros [a i] [b j]. unfold key_le; simpl. lia. Qed.

#[export] Instance key_le_trans : Transitive key_le.
Proof. intros [a i] [b j] [c k]. unfold key_le; simpl. lia. Qed.

#[export] Instance key_le_refl : Reflexive key_le.
Proof. intros [a i]. unfold key_le; simpl. lia. Qed.

#[export] Instance key_le_antisymm : AntiSymm (=) key_le.
Proof. intros [a i] [b j]. unfold key_le; simpl. intros. f_equal; lia. Qed.

Lemma key_le_not_lt (a b : sort_key) : key_le a b ↔ ¬ key_lt b a.
Proof. destruct a, b. unfold key_le, key_lt; simpl. lia. Qed.

Lemma key_lt_le (a b : sort_key) : key_lt a b ↔ key_le a b ∧ a ≠ b.
Proof.
  destruct a as [x i], b as [y j]. unfold key_le, key_lt; simpl. split.
  - intros Hlt. split; [lia|]. intros E. inversion E. lia.
  - intros [[?|[-> ?]] Hne]; [lia|]. right. split; [done|].
    assert (i ≠ j) by congruence. lia.
Qed.

Lemma key_lt_le_trans (a b c : sort_key) : key_lt a b → key_le b c → key_lt a c.
Proof. destruct a, b, c. unfold key_le, key_lt; simpl. lia. Qed.

Lemma key_lt_irrefl (a : sort_key) : ¬ key_lt a a.
Proof. destruct a. unfold key_lt; simpl. lia. Qed.

Section order_by.
Context {A : Type} (R : relation sort_key) `{!RelDecision R} (key : A → sort_key).

Definition key_rel : relation A := λ x y, R (key x) (key y).

#[export] Instance key_rel_dec : RelDecision key_rel.
Proof. intros x y. unfold key_rel. apply _. Defined.

(** [ORDER BY key]: a merge sort of the selected rows. *)
Definition order_by (rows : list A) : list A := merge_sort key_rel rows.

Lemma order_by_perm rows : order_by rows ≡ₚ rows.
Proof. apply merge_sort_Permutation. Qed.

Lemma elem_of_order_by x rows : x ∈ order_by rows ↔ x ∈ rows.
Proof. by rewrite order_by_perm. Qed.

Context `{!Transitive R, !Total R}.

#[local] Instance key_rel_trans : Transitive key_rel.
Proof. intros x y z. unfold key_rel. apply transitivity. Qed.

#[local] Instance key_rel_total : Total key_rel.
Proof. intros x y. unfold key_rel. apply total, _. Qed.

Lemma order_by_sorted rows : StronglySorted key_rel (order_by rows).
Proof. apply StronglySorted_merge_sort; apply _. Qed.

Lemma order_by_head_min rows x l :
  order_by rows = x :: l → x ∈ rows ∧ ∀ y, y ∈ rows → y = x ∨ R (key x) (key y).
Proof.
  intros E. pose proof (order_by_sorted rows) as S. rewrite E in S.
  split.
  - rewrite <- elem_of_order_by, E. left.
  - intros y Hy. rewrite <- elem_of_order_by, E in Hy.
    apply elem_of_cons in Hy as [->|Hy]; [by left|right].
    inversion S as [|? ? ? HF]; subst. rewrite Forall_forall in HF. by apply HF.
Qed.
End order_by.

Lemma filter_all {A} (P : A → Prop) `{!∀ x, Decision (P x)} (l : list A) : (∀ x, x ∈ l → P x) → filter P l = l.
Proof.
  induction l as [|x l IH]; intros Hl; [done|]. rewrite filter_cons_True by (apply Hl; left).
  f_equal. apply IH. intros y Hy. apply Hl. by right.
Qed.

Lemma filter_none {A} (P : A → Prop) `{!∀ x, Decision (P x)} (l : list A) : (∀ x, x ∈ l → ¬ P x) → filter P l = [].
Proof.
  induction l as [|x l IH]; intros Hl; [done|]. rewrite filter_cons_False by (apply Hl; left).
  apply IH. intros y Hy. apply Hl. by right.
Qed.

(** ** Tables *)

(** A table is a finite map from the primary key to the row; the row repeats its key. *)
Class HasId (row : Type) := row_id : row → N.

Definition keyed `{HasId row} (tbl : gmap N row) : Prop :=
  ∀ k r, tbl !! k = Some r → row_id r = k.

(** [SELECT ... WHERE P] with no [ORDER BY]: the rows that satisfy [P]. *)
Definition select {row : Type} (P : row → Prop) `{!∀ r, Decision (P r)}
  (tbl : gmap N row) : list row := filter P ((map_to_list tbl).*2).

(** [one_or_none()] and [scalar_one_or_none()]: more than one row is an error. *)
Inductive rows_view (A : Type) :=
| NoRow
| OneRow (a : A)
| ManyRows.
Arguments NoRow {A}.
Arguments OneRow {A} a.
Arguments ManyRows {A}.

Definition view_rows {A : Type} (l : list A) : rows_view A :=
  match l with
  | [] => NoRow
  | [a] => OneRow a
  | _ => ManyRows
  end.

Section tables.
Context {row : Type} `{HasId row}.
Context (P : row → Prop) `{!∀ r, Decision (P r)}.
Implicit Types (tbl : gmap N row) (r : row) (k : N).

Lemma elem_of_select tbl r : r ∈ select P tbl ↔ P r ∧ ∃ k, tbl !! k = Some r.
Proof.
  unfold select. rewrite list_elem_of_filter, list_elem_of_fmap. split.
  - intros [HP [[k r'] [-> Hin]]]. apply elem_of_map_to_list in Hin. eauto.
  - intros [HP [k Hk]]. split; [done|]. exists (k, r).
    split; [done|]. by apply elem_of_map_to_list.
Qed.

Lemma select_NoDup tbl : keyed tbl → NoDup (select P tbl).
Proof.
  intros Hk. unfold select. apply NoDup_filter.
  apply NoDup_fmap_2_strong; [|apply NoDup_map_to_list].
  intros [k1 r1] [k2 r2] H1 H2 E. simpl in E. subst r2.
  apply elem_of_map_to_list in H1, H2. apply Hk in H1, H2. congruence.
Qed.

(** The rows selected by a predicate that at most one row satisfies. *)
Lemma view_select_unique tbl k r :
  keyed tbl → tbl !! k = Some r → P r →
  (∀ k' r', tbl !! k' = Some r' → P r' → r' = r) →
  view_rows (select P tbl) = OneRow r.
Proof.
  intros Hk Hl HP Hu.
  assert (Hin : r ∈ select P tbl) by (apply elem_of_select; eauto).
  pose proof (select_NoDup tbl Hk) as ND.
  assert (Hall : ∀ y, y ∈ select P tbl → y = r).
  { intros y [Hy [k' Hk']]%elem_of_select. eauto. }
  destruct (select P tbl) as [|a [|b l]]; simpl.
  - by apply elem_of_nil in Hin.
  - f_equal. apply Hall. left.
  - exfalso. inversion ND as [|? ? Hni]; subst. apply Hni.
    rewrite (Hall a), (Hall b); [left|right; left|left].
Qed.

Lemma view_select_none tbl :
  (∀ k r, tbl !! k = Some r → ¬ P r) → view_rows (select P tbl) = NoRow.
Proof.
  intros Hn. destruct (select P tbl) as [|a l] eqn:E; [done|].
  exfalso. assert (Ha : a ∈ select P tbl) by (rewrite E; left).
  apply elem_of_select in Ha as [HP [k Hk]]. by apply (Hn k a).
Qed.

Lemma view_select_OneRow tbl r :
  view_rows (select P tbl) = OneRow r → P r ∧ ∃ k, tbl !! k = Some r.
Proof.
  intros E. apply elem_of_select.
  destruct (select P tbl) as [|a [|b l]]; simplify_eq/=. left.
Qed.

Lemma view_select_NoRow tbl k r :
  view_rows (select P tbl) = NoRow → tbl !! k = Some r → ¬ P r.
Proof.
  intros E Hk HP.
  assert (Hin : r ∈ select P tbl) by (apply elem_of_select; eauto).
  destruct (select P tbl) as [|a [|b l]]; simplify_eq/=.
  by apply elem_of_nil in Hin.
Qed.
End tables.
