(* ===== verification/PyStr.v ===== *)
(** Python [str] and [bytes] values and the methods of them the program uses.

    A [str] is the list of its code points, a [bytes] value the list of its
    bytes.  [lit] turns an ASCII literal of the source into a [str].  The file
    also holds UTF-8 encoding and decoding, decimal and hexadecimal rendering,
    and the canonical text form of a UUID. *)
From S2P Require Import Prelude.
From Stdlib Require Import NArith ZArith DecimalN.
From Stdlib Require Strings.Byte Strings.String.

Abbreviation pystr := (list N).
Abbreviation bytes := (list Byte.byte).

#[export] Instance byte_eq_dec : EqDecision Byte.byte := Byte.byte_eq_dec.

(** The eight low bits of a number as a byte. *)
Definition byte_of_N (n : N) : Byte.byte :=
  default Byte.x00 (Byte.of_N (n mod 256)).

(** A string literal of the source (ASCII only). *)
Definition lit (s : string) : pystr := map Byte.to_N (String.list_byte_of_string s).
Arguments lit s%_string_scope.

(** A literal whose single quotes stand for double quotes. *)
Definition jlit (s : string) : pystr := map (λ c, if (c =? 39)%N then 34%N else c) (lit s).
Arguments jlit s%_string_scope.

(** A bytes literal of the source. *)
Definition blit (s : string) : bytes := String.list_byte_of_string s.
Arguments blit s%_string_scope.

(** ** Character classes *)

Definition in_range (lo hi c : N) : bool := (lo <=? c)%N && (c <=? hi)%N.

Definition is_digit (c : N) : bool := in_range 48 57 c.
Definition is_lower (c : N) : bool := in_range 97 122 c.
Definition is_upper (c : N) : bool := in_range 65 90 c.
Definition is_alnum_ascii (c : N) : bool := is_digit c || is_lower c || is_upper c.

(** [str.isspace] for one code point: what [str.strip] removes. *)
Definition is_space (c : N) : bool :=
  in_range 9 13 c || in_range 28 32 c || (c =? 133)%N || (c =? 160)%N ||
  (c =? 5760)%N || in_range 8192 8202 c || (c =? 8232)%N || (c =? 8233)%N ||
  (c =? 8239)%N || (c =? 8287)%N || (c =? 12288)%N.

Definition is_surrogate (c : N) : bool := in_range 55296 57343 c.

(** ** Methods *)

Fixpoint drop_while (p : N → bool) (s : pystr) : pystr :=
  match s with
  | [] => []
  | c :: s' => if p c then drop_while p s' else s
  end.

(** [str.lstrip], [str.rstrip] and [str.strip] with a character class. *)
Definition lstrip_p (p : N → bool) (s : pystr) : pystr := drop_while p s.
Definition rstrip_p (p : N → bool) (s : pystr) : pystr := rev (drop_while p (rev s)).
Definition strip (s : pystr) : pystr := rstrip_p is_space (lstrip_p is_space s).

(** [s.rstrip("/")] *)
Definition rstrip_slash (s : pystr) : pystr := rstrip_p (λ c, (c =? 47)%N) s.

Definition eqb_str (a b : pystr) : bool := bool_decide (a = b).

(** [s.startswith(p)] *)
Fixpoint startswith (s p : pystr) {struct p} : bool :=
  match p, s with
  | [], _ => true
  | c :: p', d :: s' => (c =? d)%N && startswith s' p'
  | _ :: _, [] => false
  end.

(** [x in xs] for a collection of strings. *)
Definition str_in (x : pystr) (xs : list pystr) : bool := bool_decide (x ∈ xs).

Lemma drop_while_idemp p s : drop_while p (drop_while p s) = drop_while p s.
Proof. induction s as [|c s IH]; simpl; [done|]. destruct (p c) eqn:E; simpl; [done|]. by rewrite E. Qed.

Lemma drop_while_length p s : length (drop_while p s) ≤ length s.
Proof. induction s as [|c s IH]; simpl; [lia|]. destruct (p c); simpl; lia. Qed.

Lemma rstrip_p_idemp p s : rstrip_p p (rstrip_p p s) = rstrip_p p s.
Proof. unfold rstrip_p. by rewrite rev_involutive, drop_while_idemp. Qed.

Lemma rstrip_slash_idemp s : rstrip_slash (rstrip_slash s) = rstrip_slash s.
Proof. apply rstrip_p_idemp. Qed.

Lemma startswith_app p s : startswith (p ++ s) p = true.
Proof. induction p as [|c p IH]; simpl; [done|]. by rewrite N.eqb_refl. Qed.

Lemma startswith_spec s p : startswith s p = true ↔ ∃ r, s = p ++ r.
Proof.
  split; [|intros [r ->]; apply startswith_app].
  revert s. induction p as [|c p IH]; intros s; simpl; [by exists s|].
  destruct s as [|d s]; [intros; discriminate|]. intros [->%N.eqb_eq [r ->]%IH]%andb_true_iff. by exists r.
Qed.

(** ** Numbers as text *)

Definition digit_char (d : N) : N := if (d <? 10)%N then (48 + d)%N else (87 + d)%N.

Fixpoint uint_chars (u : Decimal.uint) : pystr :=
  match u with
  | Decimal.Nil => []
  | Decimal.D0 u => 48%N :: uint_chars u
  | Decimal.D1 u => 49%N :: uint_chars u
  | Decimal.D2 u => 50%N :: uint_chars u
  | Decimal.D3 u => 51%N :: uint_chars u
  | Decimal.D4 u => 52%N :: uint_chars u
  | Decimal.D5 u => 53%N :: uint_chars u
  | Decimal.D6 u => 54%N :: uint_chars u
  | Decimal.D7 u => 55%N :: uint_chars u
  | Decimal.D8 u => 56%N :: uint_chars u
  | Decimal.D9 u => 57%N :: uint_chars u
  end.

Definition str_of_N (n : N) : pystr := uint_chars (N.to_uint n).

(** [str(n)] for an [int]. *)
Definition str_of_Z (z : Z) : pystr :=
  match z with
  | Z0 => [48%N]
  | Zpos p => str_of_N (Npos p)
  | Zneg p => 45%N :: str_of_N (Npos p)
  end.

Lemma uint_chars_inj u v : uint_chars u = uint_chars v → u = v.
Proof. revert v. induction u; intros []; simpl; intros; simplify_eq; f_equal; auto. Qed.

Lemma uint_chars_digits u : Forall (λ c, is_digit c = true) (uint_chars u).
Proof. induction u; simpl; constructor; auto. Qed.

Lemma str_of_N_inj m n : str_of_N m = str_of_N n → m = n.
Proof.
  intros E%uint_chars_inj. rewrite <- (DecimalN.Unsigned.of_to m), <- (DecimalN.Unsigned.of_to n).
  by rewrite E.
Qed.

Lemma str_of_Z_nonneg z : (0 ≤ z)%Z → str_of_Z z = str_of_N (Z.to_N z).
Proof. by destruct z. Qed.

Lemma str_of_Z_digits z : (0 ≤ z)%Z → Forall (λ c, is_digit c = true) (str_of_Z z).
Proof. intros. rewrite str_of_Z_nonneg by done. apply uint_chars_digits. Qed.

(** A separator that does not occur in the left parts determines the split. *)
Lemma separated_inj {A : Type} (sep : A) (a b x y : list A) :
  sep ∉ a → sep ∉ b → a ++ [sep] ++ x = b ++ [sep] ++ y → a = b ∧ x = y.
Proof.
  revert b. induction a as [|c a IH]; intros [|d b] Ha Hb; simpl.
  - by intros [= ->].
  - intros [= -> _]. exfalso. apply Hb. left.
  - intros [= -> _]. exfalso. apply Ha. left.
  - rewrite not_elem_of_cons in Ha, Hb. intros [= -> E].
    destruct (IH b ltac:(tauto) ltac:(tauto) E) as [-> ->]. done.
Qed.

Lemma digits_no_char (s : pystr) c : Forall (λ c, is_digit c = true) s → is_digit c = false → c ∉ s.
Proof. intros Hs Hc Hin. rewrite Forall_forall in Hs. specialize (Hs c Hin). congruence. Qed.

(** [w] hexadecimal digits of [n], most significant first. *)
Fixpoint hex_digits (w : nat) (n : N) : pystr :=
  match w with
  | O => []
  | S w' => hex_digits w' (n / 16)%N ++ [digit_char (n mod 16)]
  end.

Lemma hex_digits_length w n : length (hex_digits w n) = w.
Proof. revert n. induction w as [|w IH]; intros n; simpl; [done|]. rewrite length_app, IH. simpl. lia. Qed.

(** [str(uuid)]: 8-4-4-4-12 lowercase hexadecimal digits. *)
Definition str_of_uuid (u : N) : pystr :=
  let h := hex_digits 32 u in
  take 8 h ++ [45%N] ++ take 4 (drop 8 h) ++ [45%N] ++ take 4 (drop 12 h) ++ [45%N] ++
  take 4 (drop 16 h) ++ [45%N] ++ drop 20 h.

Example str_of_uuid_ex :
  str_of_uuid 0x123e4567e89b12d3a456426614174000 = lit "123e4567-e89b-12d3-a456-426614174000".
Proof. reflexivity. Qed.

(** ** UTF-8 *)

(** The UTF-8 form of one code point; a surrogate has none. *)
Definition utf8_char (c : N) : option bytes :=
  if (c <? 128)%N then Some [byte_of_N c]
  else if (c <? 2048)%N then
    Some [byte_of_N (192 + c / 64); byte_of_N (128 + c mod 64)]
  else if is_surrogate c then None
  else if (c <? 65536)%N then
    Some [byte_of_N (224 + c / 4096); byte_of_N (128 + (c / 64) mod 64);
          byte_of_N (128 + c mod 64)]
  else
    Some [byte_of_N (240 + c / 262144); byte_of_N (128 + (c / 4096) mod 64);
          byte_of_N (128 + (c / 64) mod 64); byte_of_N (128 + c mod 64)].

(** [s.encode("utf-8")]; [None] is the [UnicodeEncodeError] of a lone surrogate. *)
Fixpoint utf8_encode (s : pystr) : option bytes :=
  match s with
  | [] => Some []
  | c :: s' =>
      match utf8_char c, utf8_encode s' with
      | Some b, Some r => Some (b ++ r)
      | _, _ => None
      end
  end.

Lemma utf8_encode_app s t :
  utf8_encode (s ++ t) =
    match utf8_encode s, utf8_encode t with
    | Some a, Some b => Some (a ++ b)
    | _, _ => None
    end.
Proof.
  induction s as [|c s IH]; simpl.
  - by destruct (utf8_encode t).
  - rewrite IH. destruct (utf8_char c), (utf8_encode s), (utf8_encode t); try done.
    by rewrite (assoc_L (++)).
Qed.

(** Number of continuation bytes announced by a lead byte, with the range the
    first continuation byte must lie in and the bits the lead contributes. *)
Definition utf8_lead (b : N) : option (nat * (N * N) * N) :=
  if in_range 194 223 b then Some (1%nat, (128, 191), b - 192)%N
  else if (b =? 224)%N then Some (2%nat, (160, 191), b - 224)%N
  else if in_range 225 236 b || in_range 238 239 b then Some (2%nat, (128, 191), b - 224)%N
  else if (b =? 237)%N then Some (2%nat, (128, 159), b - 224)%N
  else if (b =? 240)%N then Some (3%nat, (144, 191), b - 240)%N
  else if in_range 241 243 b then Some (3%nat, (128, 191), b - 240)%N
  else if (b =? 244)%N then Some (3%nat, (128, 143), b - 240)%N
  else None.

(** The decoder's state between bytes: [need] continuation bytes are missing,
    the next one lies in [lo..hi], and [acc] holds the bits read so far. *)
Inductive utf8_state :=
| Utf8Start
| Utf8Need (need : nat) (lo hi acc : N).

(** ASCII text is its own encoding, byte for character. *)
Definition ascii_encode (s : pystr) : bytes := map byte_of_N s.

Definition is_ascii (s : pystr) : bool := forallb (λ c, (c <? 128)%N) s.

Lemma digit_range c : is_digit c = true → (48 ≤ c ≤ 57)%N.
Proof. unfold is_digit, in_range. rewrite andb_true_iff, !N.leb_le. done. Qed.

Lemma digits_ascii s : Forall (λ c, is_digit c = true) s → is_ascii s = true.
Proof.
  unfold is_ascii. rewrite Forall_forall, forallb_forall. intros Hd c Hc%list_elem_of_In.
  specialize (Hd c Hc). apply digit_range in Hd. apply N.ltb_lt. lia.
Qed.

Lemma byte_of_N_small n : (n < 256)%N → Byte.to_N (byte_of_N n) = n.
Proof.
  intros Hn. unfold byte_of_N. rewrite N.mod_small by done.
  destruct (Byte.of_N n) as [b|] eqn:E; simpl; [by apply Byte.to_of_N|].
  apply Byte.of_N_None_iff in E. lia.
Qed.

Lemma ascii_encode_inj s t :
  is_ascii s = true → is_ascii t = true → ascii_encode s = ascii_encode t → s = t.
Proof.
  unfold is_ascii. revert t. induction s as [|c s IH]; intros [|d t]; simpl; try done.
  rewrite !andb_true_iff, !N.ltb_lt. intros [Hc Hs] [Hd Ht] [= Ecd Est].
  f_equal; [|auto]. rewrite <- (byte_of_N_small c), <- (byte_of_N_small d) by lia. by rewrite Ecd.
Qed.

Definition replacement_char : N := 65533.

(** One byte outside a multi-byte sequence: the characters it emits and the next state. *)
Definition utf8_start (b : N) : pystr * utf8_state :=
  if (b <? 128)%N then ([b], Utf8Start)
  else match utf8_lead b with
       | Some (need, (lo, hi), acc) => ([], Utf8Need need lo hi acc)
       | None => ([replacement_char], Utf8Start)
       end.

(** One byte in any state; an ill-formed prefix is replaced by one U+FFFD and the
    offending byte starts over ("maximal subpart" replacement). *)
Definition utf8_byte (st : utf8_state) (b : N) : pystr * utf8_state :=
  match st with
  | Utf8Start => utf8_start b
  | Utf8Need need lo hi acc =>
      if in_range lo hi b then
        let acc' := (acc * 64 + (b - 128))%N in
        match need with
        | S (S n) => ([], Utf8Need (S n) 128 191 acc')
        | _ => ([acc'], Utf8Start)
        end
      else let '(out, st') := utf8_start b in (replacement_char :: out, st')
  end.

Fixpoint utf8_run (st : utf8_state) (bs : bytes) : pystr :=
  match bs with
  | [] => match st with Utf8Start => [] | _ => [replacement_char] end
  | b :: bs' => let '(out, st') := utf8_byte st (Byte.to_N b) in out ++ utf8_run st' bs'
  end.

(** [b.decode("utf-8", errors="replace")] *)
Definition utf8_decode_replace (bs : bytes) : pystr := utf8_run Utf8Start bs.

(** At most one character per byte is produced. *)
Lemma utf8_run_length st bs :
  length (utf8_run st bs) ≤ length bs + match st with Utf8Start => 0 | _ => 1 end.
Proof.
  revert st. induction bs as [|b bs IH]; intros st; simpl; [destruct st; simpl; lia|].
  assert (Hs : ∀ n, let '(out, st') := utf8_start n in
    length out + match st' with Utf8Start => 0 | _ => 1 end = 1).
  { intros n. unfold utf8_start. destruct (_ <? _)%N; [done|].
    destruct (utf8_lead n) as [[[? [? ?]] ?]|]; done. }
  destruct (utf8_byte st (Byte.to_N b)) as [out st'] eqn:E.
  rewrite length_app. specialize (IH st').
  unfold utf8_byte in E. destruct st as [|need lo hi acc].
  - specialize (Hs (Byte.to_N b)). rewrite E in Hs. lia.
  - destruct (in_range lo hi _).
    + destruct need as [|[|n]]; simplify_eq/=; lia.
    + specialize (Hs (Byte.to_N b)). destruct (utf8_start _) as [o s].
      simplify_eq/=. lia.
Qed.

Lemma utf8_decode_replace_length bs : length (utf8_decode_replace bs) ≤ length bs.
Proof. unfold utf8_decode_replace. pose proof (utf8_run_length Utf8Start bs) as Hl. simpl in Hl. lia. Qed.

Example utf8_decode_ex :
  utf8_decode_replace [Byte.x61; Byte.xe2; Byte.x82; Byte.xac; Byte.xff; Byte.xe2; Byte.x62]
  = [97; 8364; 65533; 65533; 98]%N.
Proof. reflexivity. Qed.
