(* ===== verification/Errors.v ===== *)
(** Failures of the program: the exceptions its code can raise, the error monad
    its handlers run in, and [errors.py]: [DomainError] and its rendering as
    Problem Details. *)
From S2P Require Import Prelude PyStr.

(** [errors.DomainError] *)
Record DomainError := mkDomainError {
  status_code : Z;
  code : pystr;
  title : pystr;
  detail : pystr
}.

(** The exceptions that leave a function of the program.  Everything but
    [DomainExn] reaches the client as an internal error, or the worker's loop. *)
Inductive exn :=
| DomainExn (e : DomainError)
| RuntimeErr (msg : pystr)
| ValueErr (msg : pystr)
| TypeErr (msg : pystr)
| OverflowErr (msg : pystr)
| InvalidTransitionErr (msg : pystr)      (* state_machine.InvalidDeliveryTransition *)
| JSONDecodeErr                           (* json.JSONDecodeError *)
| CanonicalJSONErr (msg : pystr)          (* serialization.CanonicalJSONError *)
| UnicodeEncodeErr                        (* a lone surrogate met by encode("utf-8") *)
| UnicodeDecodeErr                        (* bytes that are no text in the detected encoding *)
| MultipleResultsErr                      (* one_or_none() on several rows *)
| IntegrityErr (name : pystr)             (* a constraint of the schema *)
| DataErr (name : pystr)                  (* a value its column type does not hold *)
| DatabaseErr (msg : pystr).              (* the database is down, or the connection breaks *)

(** A computation returns a value or raises. *)
Inductive outcome (A : Type) :=
| Ok (a : A)
| Raise (e : exn).
Arguments Ok {A} a.
Arguments Raise {A} e.

#[export] Instance outcome_ret : MRet outcome := @Ok.
#[export] Instance outcome_bind : MBind outcome := λ A B f m,
  match m with
  | Ok a => f a
  | Raise e => Raise e
  end.
#[export] Instance outcome_fmap : FMap outcome := λ A B f m,
  match m with
  | Ok a => Ok (f a)
  | Raise e => Raise e
  end.

(** [if not ok: raise e] *)
Definition require (ok : bool) (e : exn) : outcome unit := if ok then Ok tt else Raise e.

Definition is_ok {A} (m : outcome A) : bool := match m with Ok _ => true | Raise _ => false end.

Definition is_Ok {A} (m : outcome A) : Prop := ∃ a, m = Ok a.

(** [type(error) is DomainError] *)
Definition is_domain (e : exn) : bool := match e with DomainExn _ => true | _ => false end.

Lemma outcome_bind_Ok {A B} (f : A → outcome B) (m : outcome A) b :
  (m ≫= f) = Ok b ↔ ∃ a, m = Ok a ∧ f a = Ok b.
Proof.
  destruct m as [a|e]; simpl; split.
  - eauto.
  - by intros [a' [[= ->] Hf]].
  - done.
  - by intros [a' [? _]].
Qed.

Lemma outcome_bind_assoc {A B C} (m : outcome A) (f : A → outcome B) (g : B → outcome C) :
  (m ≫= f) ≫= g = m ≫= (λ a, f a ≫= g).
Proof. by destruct m. Qed.

Lemma require_Ok ok e : require ok e = Ok tt ↔ ok = true.
Proof. destruct ok; simpl; split; done. Qed.

(** ** Problem Details *)

(** The body of the response [domain_error_handler] renders. *)
Record ProblemContent := mkProblemContent {
  pc_type : pystr;
  pc_title : pystr;
  pc_status : Z;
  pc_detail : pystr;
  pc_instance : pystr;
  pc_code : pystr
}.

Record ProblemResponse := mkProblemResponse {
  pr_status_code : Z;
  pr_media_type : pystr;
  pr_content : ProblemContent
}.

(** [errors.domain_error_handler]; any other exception is raised again. *)
Definition domain_error_handler (url_path : pystr) (error : exn) : outcome ProblemResponse :=
  match error with
  | DomainExn e =>
      Ok (mkProblemResponse (status_code e) (lit "application/problem+json")
            (mkProblemContent (lit "urn:eventharbor:problem:" ++ code e)
               (title e) (status_code e) (detail e) url_path (code e)))
  | e => Raise e
  end.
