(* ===== verification/Floats.v ===== *)
(** Python [float]: IEEE 754 binary64, as the Standard Library's [spec_float]
    with 53 bits of precision and exponents up to 1024.

    The file defines the operations the program applies to floats
    (multiplication, comparison, [min], [max], powers of two, [float(str)],
    [timedelta(seconds=x)]), all executable, and proves the facts about
    rounding the retry policy rests on: rounding never crosses a representable
    number, so a product with a factor in [0, 1] stays between 0 and the other
    factor. *)
From S2P Require Import Prelude PyStr Errors.
From Stdlib Require Import ZArith.
From Stdlib Require Export SpecFloat.

Abbreviation float := spec_float.

Definition prec : Z := 53.
Definition emax : Z := 1024.
Definition femin : Z := -1074.

(** The values a Python float can have: mantissas are canonical and exponents bounded. *)
Definition valid_float (x : float) : bool := valid_binary prec emax x.

Definition fmul (x y : float) : float := SFmul prec emax x y.
Definition flt (x y : float) : bool := SFltb x y.
Definition fle (x y : float) : bool := SFleb x y.

(** [float(n)] for an [int] in range. *)
Definition float_of_Z (z : Z) : float := binary_normalize prec emax z 0 false.

Definition fzero : float := S754_zero false.
Definition fone : float := float_of_Z 1.

(** [min(a, b)] and [max(a, b)]: the first argument wins unless the second compares strictly. *)
Definition fmin (a b : float) : float := if flt b a then b else a.
Definition fmax (a b : float) : float := if flt a b then b else a.

(** [math.isfinite] *)
Definition isfinite (x : float) : bool :=
  match x with S754_zero _ | S754_finite _ _ _ => true | _ => false end.

(** [2.0 ** n] for an [int] [n] that is not negative. *)
Definition fpow2 (n : Z) : outcome float :=
  if (n <=? 1023)%Z then Ok (S754_finite false (2 ^ 52) (n - 52)%Z)
  else Raise (OverflowErr (lit "Numerical result out of range")).

(** ** Decimal text to float *)

(** Correctly rounded [± digits * 10 ^ e10]. *)
Definition float_of_decimal (neg : bool) (digits e10 : Z) : float :=
  match digits with
  | Zpos d =>
      let nd := (Z.of_nat (length (str_of_Z digits)) + e10)%Z in
      if (310 <? nd)%Z then S754_infinity neg
      else if (nd <? -330)%Z then S754_zero neg
      else if (0 <=? e10)%Z then
        match digits * 10 ^ e10 with
        | Zpos m => binary_round prec emax neg m 0
        | _ => S754_zero neg
        end%Z
      else
        let '(q, e, l) := SFdiv_core_binary prec emax digits 0 (10 ^ (- e10))%Z 0 in
        binary_round_aux prec emax neg q e l
  | _ => S754_zero neg
  end.

(** First code points of the runs of ten decimal digits outside ASCII. *)
Definition decimal_digit_starts : list N :=
  [1632; 1776; 1984; 2406; 2534; 2662; 2790; 2918; 3046; 3174; 3302; 3430; 3558; 3664; 3792;
   3872; 4160; 4240; 6112; 6160; 6470; 6608; 6784; 6800; 6992; 7088; 7232; 7248; 42528; 43216;
   43264; 43472; 43504; 43600; 44016; 65296; 66720; 68912; 69734; 69872; 69942; 70096; 70384;
   70736; 70864; 71248; 71360; 71472; 71904; 72016; 72784; 73040; 73120; 73552; 92768; 92864;
   93008; 120782; 120792; 120802; 120812; 120822; 123200; 123632; 124144; 125264; 130032]%N.

(** The ASCII form of a character that is a decimal digit of some script. *)
Definition ascii_digit (c : N) : N :=
  match List.find (λ s, in_range s (s + 9) c) decimal_digit_starts with
  | Some s => (48 + (c - s))%N
  | None => c
  end.

(** Underscores may only stand between two digits; they are dropped. *)
Fixpoint drop_underscores (prev_digit : bool) (s : pystr) : option pystr :=
  match s with
  | [] => Some []
  | c :: s' =>
      if (c =? 95)%N then
        match s' with
        | d :: _ => if prev_digit && is_digit d then drop_underscores false s' else None
        | [] => None
        end
      else (λ r, c :: r) <$> drop_underscores (is_digit c) s'
  end.

(** The longest run of digits: its value, its length and the rest. *)
Fixpoint read_digits (acc : Z) (n : nat) (s : pystr) : Z * nat * pystr :=
  match s with
  | c :: s' => if is_digit c then read_digits (acc * 10 + Z.of_N (c - 48))%Z (S n) s' else (acc, n, s)
  | [] => (acc, n, [])
  end.

Definition read_sign (s : pystr) : bool * pystr :=
  match s with
  | c :: s' => if (c =? 45)%N then (true, s') else if (c =? 43)%N then (false, s') else (false, s)
  | [] => (false, [])
  end.

Definition lower_ascii (c : N) : N := if is_upper c then (c + 32)%N else c.

(** The exponent part [e[+-]digits] after a mantissa, and nothing after it. *)
Definition read_exponent (s : pystr) : option Z :=
  match s with
  | [] => Some 0%Z
  | c :: s' =>
      if (lower_ascii c =? 101)%N then
        let '(neg, s1) := read_sign s' in
        let '(e, n, rest) := read_digits 0 0 s1 in
        match n, rest with
        | S _, [] => Some (if neg then (- e)%Z else e)
        | _, _ => None
        end
      else None
  end.

(** [float(s)]; [None] is [ValueError]. *)
Definition float_of_str (s : pystr) : option float :=
  s ← drop_underscores false (map ascii_digit (strip s));
  let '(neg, s) := read_sign s in
  if str_in (map lower_ascii s) [lit "inf"; lit "infinity"] then Some (S754_infinity neg)
  else if eqb_str (map lower_ascii s) (lit "nan") then Some S754_nan
  else
    let '(ip, ni, s1) := read_digits 0 0 s in
    let '(m, nf, s2) :=
      match s1 with
      | c :: s' => if (c =? 46)%N then read_digits ip 0 s' else (ip, 0, s1)
      | [] => (ip, 0, s1)
      end in
    if bool_decide (ni + nf = 0) then None
    else e ← read_exponent s2; Some (float_of_decimal neg m (e - Z.of_nat nf)).

Example float_of_str_ex1 : float_of_str (lit " 1_20.50e1 ") = Some (float_of_Z 1205).
Proof. vm_compute. reflexivity. Qed.
Example float_of_str_ex2 : float_of_str (lit "0.1") = Some (S754_finite false 7205759403792794 (-56)).
Proof. vm_compute. reflexivity. Qed.
Example float_of_str_ex3 : float_of_str (lit "1e400") = Some (S754_infinity false).
Proof. vm_compute. reflexivity. Qed.
Example float_of_str_ex4 : float_of_str (lit "Wed, 21 Oct") = None.
Proof. vm_compute. reflexivity. Qed.
Example float_of_str_ex5 : float_of_str (lit "5e-324") = Some (S754_finite false 1 (-1074)).
Proof. vm_compute. reflexivity. Qed.

(** ** [timedelta(seconds=x)] in microseconds *)

(** Integer and fractional part of [m * 2 ^ e], the fraction as a float. *)
Definition modf_pos (m : positive) (e : Z) : Z * float :=
  if (0 <=? e)%Z then (Zpos m * 2 ^ e, fzero)%Z
  else (Zpos m / 2 ^ (- e), binary_normalize prec emax (Zpos m mod 2 ^ (- e)) e false)%Z.

(** Round [n + frac] to an integer, half to even, for [frac] in [0, 1). *)
Definition round_half_even (n : Z) (frac : float) : Z :=
  match frac with
  | S754_finite _ m e =>
      match (2 * Zpos m ?= 2 ^ (- e))%Z with
      | Lt => n
      | Gt => n + 1
      | Eq => if Z.even n then n else n + 1
      end%Z
  | _ => n
  end.

(** The microseconds of a positive number of seconds: the integer part is exact, the
    fraction is multiplied by [1e6] as a float and rounded half to even. *)
Definition us_of_pos (m : positive) (e : Z) : Z :=
  let '(i, f) := modf_pos m e in
  match fmul (float_of_Z 1000000) f with
  | S754_finite _ m2 e2 =>
      let '(i2, f2) := modf_pos m2 e2 in round_half_even (i * 1000000 + i2) f2
  | _ => i * 1000000
  end%Z.

Definition timedelta_limit_us : Z := 86400 * 1000000 * 1000000000.

(** [timedelta(seconds=x)] *)
Definition timedelta_us (x : float) : outcome Z :=
  match x with
  | S754_nan => Raise (ValueErr (lit "cannot convert float NaN to integer"))
  | S754_infinity _ => Raise (OverflowErr (lit "cannot convert float infinity to integer"))
  | S754_zero _ => Ok 0%Z
  | S754_finite s m e =>
      let us := us_of_pos m e in
      if (timedelta_limit_us <=? us)%Z then Raise (OverflowErr (lit "timedelta out of range"))
      else Ok (if s then (- us)%Z else us)
  end.

Example timedelta_ex : timedelta_us (S754_finite false 7205759403792794 (-56)) = Ok 100000%Z.
Proof. vm_compute. reflexivity. Qed.
Example timedelta_ex2 : option_map timedelta_us (float_of_str (lit "2.0000005")) = Some (Ok 2000001%Z).
Proof. vm_compute. reflexivity. Qed.

(** ** Rounding *)

(** The exact value of a non-negative finite float, in units of [2 ^ -1074]. *)
Definition units (m : Z) (e : Z) : Z := m * 2 ^ (e - femin).

Definition funits (x : float) : Z :=
  match x with
  | S754_finite s m e => if s then - units (Zpos m) e else units (Zpos m) e
  | _ => 0
  end%Z.

Definition nonneg_finite (x : float) : bool :=
  match x with S754_zero _ | S754_finite false _ _ => true | _ => false end.

Lemma iter_pos_nat {A} (f : A → A) p x : SpecFloat.iter_pos f p x = Nat.iter (Pos.to_nat p) f x.
Proof.
  revert x. induction p as [p IH|p IH|]; intros x; cbn [SpecFloat.iter_pos].
  - rewrite !IH, Pos2Nat.inj_xI, Nat.iter_succ_r, <- Nat.iter_add. f_equal. lia.
  - rewrite !IH, Pos2Nat.inj_xO, <- Nat.iter_add. f_equal. lia.
  - done.
Qed.

Lemma shr_1_spec m r s :
  (0 ≤ m)%Z →
  shr_1 {| shr_m := m; shr_r := r; shr_s := s |} =
  {| shr_m := m / 2; shr_r := Z.odd m; shr_s := r || s |}.
Proof.
  intros Hm. destruct m as [|[p|p|]|p]; cbn [shr_1 Z.odd]; try done; try lia; f_equal.
  - rewrite (Pos2Z.inj_xI p). div_lia.
  - rewrite (Pos2Z.inj_xO p). div_lia.
Qed.

Lemma shr_iter_spec k m :
  (0 ≤ m)%Z →
  let x := Nat.iter k shr_1 {| shr_m := m; shr_r := false; shr_s := false |} in
  shr_m x = (m / 2 ^ Z.of_nat k)%Z ∧
  (shr_r x || shr_s x = false ↔ (m mod 2 ^ Z.of_nat k = 0)%Z).
Proof.
  intros Hm. induction k as [|k [IHm IHe]].
  - simpl. rewrite Z.div_1_r, Z.mod_1_r. done.
  - rewrite Nat.iter_succ. destruct (Nat.iter k shr_1 _) as [m' r s]. cbn [shr_m shr_r shr_s] in IHm, IHe |- *.
    assert (0 ≤ m')%Z by (rewrite IHm; apply Z.div_pos; lia).
    rewrite shr_1_spec by done. cbn [shr_m shr_r shr_s].
    assert (E : (2 ^ Z.of_nat (S k) = 2 ^ Z.of_nat k * 2)%Z)
      by (rewrite Nat2Z.inj_succ, Z.pow_succ_r; lia).
    rewrite E, IHm, Z.div_div by lia. split; [done|].
    rewrite Z.rem_mul_r, orb_false_iff, IHe by lia.
    pose proof (Z.mod_pos_bound m (2 ^ Z.of_nat k)) as Hb.
    pose proof (Zmod_odd (m / 2 ^ Z.of_nat k)) as Ho. rewrite <- IHm in Ho |- *.
    split.
    + intros [Hod Hmod]. rewrite Hod in Ho. lia.
    + intros Hz. rewrite Ho in Hz. destruct (Z.odd m'); [lia|]. split; [done|lia].
Qed.

(** The first rounding step: truncation by [n] bits, with the location exact iff nothing is lost. *)
Lemma shr_exact_spec m e n mrs e' :
  (0 ≤ m)%Z → shr (shr_record_of_loc m loc_Exact) e n = (mrs, e') →
  e' = (e + Z.max 0 n)%Z ∧ shr_m mrs = (m / 2 ^ Z.max 0 n)%Z ∧
  (loc_of_shr_record mrs = loc_Exact ↔ (m mod 2 ^ Z.max 0 n = 0)%Z).
Proof.
  intros Hm. unfold shr. simpl. destruct n as [|p|p]; intros [= <- <-].
  - simpl. rewrite Z.div_1_r, Z.mod_1_r. split_and!; [lia|done|done].
  - rewrite iter_pos_nat. pose proof (shr_iter_spec (Pos.to_nat p) m Hm) as [Em Ee].
    rewrite positive_nat_Z in Em, Ee. rewrite Z.max_r by lia. split_and!; [done|done|].
    rewrite <- Ee. destruct (Nat.iter _ shr_1 _) as [m' [] []]; simpl; split; done.
  - simpl. rewrite Z.div_1_r, Z.mod_1_r. split_and!; [lia|done|done].
Qed.

Lemma round_nearest_even_bounds q l :
  (q ≤ round_nearest_even q l ≤ q + 1)%Z ∧ (l = loc_Exact → round_nearest_even q l = q).
Proof. destruct l as [|[]]; simpl; split; try done; try lia; case_match; lia. Qed.

Lemma digits_bounds p :
  (2 ^ (Zpos (digits2_pos p) - 1) ≤ Zpos p < 2 ^ Zpos (digits2_pos p))%Z.
Proof.
  induction p as [p IH|p IH|]; cbn [digits2_pos]; [| |done];
    rewrite Pos2Z.inj_succ, ?(Pos2Z.inj_xI p), ?(Pos2Z.inj_xO p);
    replace (Z.succ _ - 1)%Z with (Z.succ (Zpos (digits2_pos p) - 1)) by lia;
    rewrite !Z.pow_succ_r by lia; lia.
Qed.

Lemma digits_le p d : (Zpos p < 2 ^ d)%Z → (Zpos (digits2_pos p) ≤ d)%Z.
Proof.
  intros Hlt. pose proof (digits_bounds p) as [Hlo _].
  destruct (Z.le_gt_cases (Zpos (digits2_pos p)) d) as [|Hgt]; [done|]. exfalso.
  assert (2 ^ d ≤ 2 ^ (Zpos (digits2_pos p) - 1))%Z by (apply Z.pow_le_mono_r; lia). lia.
Qed.

Lemma digits_ge p d : (0 ≤ d)%Z → (2 ^ d ≤ Zpos p)%Z → (d < Zpos (digits2_pos p))%Z.
Proof.
  intros Hd Hle. pose proof (digits_bounds p) as [_ Hhi].
  apply (Z.pow_lt_mono_r_iff 2); lia.
Qed.

(** Magnitude comparison carries over to the positions of the leading bits. *)
Lemma digits_mono m a m' b :
  (0 ≤ a)%Z → (0 ≤ b)%Z → (Zpos m * 2 ^ a ≤ Zpos m' * 2 ^ b)%Z →
  (Zpos (digits2_pos m) + a ≤ Zpos (digits2_pos m') + b)%Z.
Proof.
  intros Ha Hb Hle. pose proof (digits_bounds m) as [Hlo _]. pose proof (digits_bounds m') as [_ Hhi].
  assert (2 ^ (Zpos (digits2_pos m) - 1 + a) < 2 ^ (Zpos (digits2_pos m') + b))%Z as Hlt.
  { rewrite !Z.pow_add_r by lia.
    assert (0 < 2 ^ a)%Z by (apply Z.pow_pos_nonneg; lia).
    assert (0 < 2 ^ b)%Z by (apply Z.pow_pos_nonneg; lia). nia. }
  apply Z.pow_lt_mono_r_iff in Hlt; lia.
Qed.

Lemma digits_mul_r p q : (Zpos (digits2_pos q) ≤ Zpos (digits2_pos (p * q)))%Z.
Proof.
  pose proof (digits_mono q 0 (p * q) 0) as Hm. rewrite Z.pow_0_r, Pos2Z.inj_mul in Hm.
  assert (Zpos q * 1 ≤ Zpos p * Zpos q * 1)%Z by nia. lia.
Qed.

Lemma fexp_eq e : fexp prec emax e = Z.max (e - 53) femin.
Proof. reflexivity. Qed.

Lemma bounded_spec m e :
  bounded prec emax m e = true ↔
  Z.max (Zpos (digits2_pos m) + e - 53) femin = e ∧ (e ≤ 971)%Z.
Proof.
  unfold bounded, canonical_mantissa. rewrite fexp_eq, andb_true_iff, Z.eqb_eq, Z.leb_le.
  done.
Qed.

(** Dropping the low bits of a mantissa down to the precision. *)
Lemma truncate_canonical p e1 :
  (53 ≤ Zpos (digits2_pos p) ∨ e1 = femin)%Z → (femin ≤ e1)%Z →
  let n := (fexp prec emax (Zpos (digits2_pos p) + e1) - e1)%Z in
  (0 ≤ n)%Z ∧ ∃ p', (Zpos p / 2 ^ n = Zpos p')%Z ∧
    Z.max (Zpos (digits2_pos p') + (e1 + n) - 53) femin = (e1 + n)%Z.
Proof.
  intros Hd He n. unfold n in *. rewrite fexp_eq in *. clear n.
  set (d := Zpos (digits2_pos p)) in *. set (n := (Z.max (d + e1 - 53) femin - e1)%Z).
  assert (Hn : (0 ≤ n)%Z) by lia. split; [done|].
  pose proof (digits_bounds p) as [Hlo Hhi]. fold d in Hlo, Hhi.
  destruct (Z.eq_dec n 0) as [E0|Hne].
  - rewrite E0. exists p. rewrite Z.div_1_r. fold d. split; [done|]. lia.
  - assert (En : n = (d - 53)%Z) by lia.
    assert (Hq : (2 ^ 52 ≤ Zpos p / 2 ^ n < 2 ^ 53)%Z).
    { rewrite En. replace (d - 1)%Z with (52 + (d - 53))%Z in Hlo by lia.
      replace d with (53 + (d - 53))%Z in Hhi at 1 by lia.
      rewrite Z.pow_add_r in Hlo, Hhi by lia.
      split; [apply Z.div_le_lower_bound|apply Z.div_lt_upper_bound]; lia. }
    destruct (Zpos p / 2 ^ n)%Z as [|p'|p'] eqn:Eq; [lia| |lia].
    exists p'. split; [done|].
    assert (Zpos (digits2_pos p') ≤ 53)%Z by (apply digits_le; lia).
    assert (52 < Zpos (digits2_pos p'))%Z by (apply digits_ge; lia). lia.
Qed.

(** A finite number or an overflow to infinity, from a canonical mantissa and exponent. *)
Definition fit (s : bool) (m : positive) (e : Z) : float :=
  if (e <=? 971)%Z then S754_finite s m e else S754_infinity s.

(** Rounding [m * 2 ^ e] to the precision: the first step yields an integer [M] in units of
    [2 ^ e1] that exceeds no integer above the exact quotient; the second drops the bits a
    carry may have added. *)
Lemma binary_round_shape s m e :
  (53 ≤ Zpos (digits2_pos m) ∨ e ≤ femin)%Z →
  let e1 := Z.max (Zpos (digits2_pos m) + e - 53) femin in
  ∃ M, (e ≤ e1)%Z ∧ (∀ K, Zpos m ≤ K * 2 ^ (e1 - e) → M ≤ K)%Z ∧
    ((M = 0%Z ∧ binary_round_aux prec emax s (Zpos m) e loc_Exact = S754_zero s) ∨
     ∃ p' e', binary_round_aux prec emax s (Zpos m) e loc_Exact = fit s p' e' ∧
       Z.max (Zpos (digits2_pos p') + e' - 53) femin = e' ∧ (e1 ≤ e')%Z ∧
       (Zpos p' * 2 ^ (e' - e1) ≤ M)%Z).
Proof.
  intros Hd e1. unfold binary_round_aux, shr_fexp. cbn [Zdigits2].
  set (d := Zpos (digits2_pos m)) in *.
  set (n := (fexp prec emax (d + e) - e)%Z).
  assert (Hn : n = (e1 - e)%Z) by (unfold n, e1; rewrite fexp_eq; lia).
  assert (Hn0 : (0 ≤ n)%Z) by lia.
  destruct (shr (shr_record_of_loc _ _) _ n) as [mrs e1'] eqn:E1.
  apply shr_exact_spec in E1 as (-> & Eq & Eloc); [|lia].
  rewrite Z.max_r in Eq, Eloc |- * by lia. replace (e + n)%Z with e1 by lia.
  pose proof (round_nearest_even_bounds (shr_m mrs) (loc_of_shr_record mrs)) as [HM HMe].
  set (M := round_nearest_even (shr_m mrs) (loc_of_shr_record mrs)) in *.
  assert (H2n : (0 < 2 ^ n)%Z) by (apply Z.pow_pos_nonneg; lia).
  exists M. split; [lia|]. split.
  { intros K HK. rewrite <- Hn in HK.
    pose proof (Z.div_mod (Zpos m) (2 ^ n)) as Hdm. rewrite <- Eq in Hdm.
    pose proof (Z.mod_pos_bound (Zpos m) (2 ^ n)).
    destruct (Z.eq_dec (Zpos m mod 2 ^ n) 0) as [Ez|Ez]; [rewrite HMe by (by apply Eloc)|]; nia. }
  assert (Hq0 : (0 ≤ shr_m mrs)%Z) by (rewrite Eq; apply Z.div_pos; lia).
  destruct (shr (shr_record_of_loc M loc_Exact) _ _) as [mrs2 e2] eqn:E2.
  apply shr_exact_spec in E2 as (-> & Eq2 & _); [|lia].
  destruct M as [|p|p] eqn:EM; [|clear HMe|lia].
  { left. by rewrite Eq2, Z.div_0_l by (apply Z.pow_nonzero; lia). }
  right. cbn [Zdigits2] in *.
  destruct (truncate_canonical p e1) as (Hn2 & p' & Ep' & Hcan'); [|lia|].
  { destruct (Z.eq_dec e1 femin) as [|Hne]; [by right|left].
    pose proof (digits_bounds m) as [Hlo _]. fold d in Hlo.
    assert (2 ^ 52 ≤ shr_m mrs)%Z; [|pose proof (digits_ge p 52); lia].
    rewrite Eq. apply Z.div_le_lower_bound; [done|].
    rewrite <- Z.pow_add_r by lia. replace (n + 52)%Z with (d - 1)%Z by lia. lia. }
  set (n2 := (fexp prec emax (Zpos (digits2_pos p) + e1) - e1)%Z) in *.
  rewrite Z.max_r in Eq2 |- * by lia. rewrite Eq2, Ep'.
  exists p', (e1 + n2)%Z. split_and!; [done|lia|lia|].
  replace (e1 + n2 - e1)%Z with n2 by lia. rewrite <- Ep'.
  pose proof (Z.mul_div_le (Zpos p) (2 ^ n2)).
  assert (0 < 2 ^ n2)%Z by (apply Z.pow_pos_nonneg; lia). lia.
Qed.

Lemma fit_valid s m e :
  Z.max (Zpos (digits2_pos m) + e - 53) femin = e → valid_float (fit s m e) = true.
Proof.
  intros Hc. unfold fit. destruct (e <=? 971)%Z eqn:E; [|done].
  apply bounded_spec. apply Z.leb_le in E. lia.
Qed.

(** Rounding a positive number never crosses a representable number above it. *)
Lemma binary_round_le s m e mc ec :
  bounded prec emax mc ec = true → (femin + femin ≤ e)%Z →
  (Zpos m * 2 ^ (e - 2 * femin) ≤ Zpos mc * 2 ^ (ec - 2 * femin))%Z →
  (53 ≤ Zpos (digits2_pos m) ∨ e ≤ femin)%Z →
  binary_round_aux prec emax s (Zpos m) e loc_Exact = S754_zero s ∨
  ∃ m' e', binary_round_aux prec emax s (Zpos m) e loc_Exact = S754_finite s m' e' ∧
    bounded prec emax m' e' = true ∧ (units (Zpos m') e' ≤ units (Zpos mc) ec)%Z.
Proof.
  intros Hc He Hle Hd. apply bounded_spec in Hc as [Hcan Hec].
  destruct (binary_round_shape s m e Hd) as (M & He1 & HM & HR).
  unfold femin in *. remember (Z.max (Zpos (digits2_pos m) + e - 53) (-1074)) as e1 eqn:Ee1.
  pose proof (digits_mono m (e - 2 * -1074) mc (ec - 2 * -1074)).
  assert (Hee : (e1 ≤ ec)%Z) by lia.
  assert (HMK : (M ≤ Zpos mc * 2 ^ (ec - e1))%Z).
  { apply HM. rewrite <- Z.mul_assoc, <- Z.pow_add_r by lia.
    replace (ec - e1 + (e1 - e))%Z with (ec - e)%Z by lia.
    replace (ec - 2 * -1074)%Z with ((ec - e) + (e - 2 * -1074))%Z in Hle by lia.
    rewrite Z.pow_add_r, Z.mul_assoc in Hle by lia.
    apply Z.mul_le_mono_pos_r in Hle; [done|]. apply Z.pow_pos_nonneg; lia. }
  destruct HR as [[_ ->]|(p' & e' & -> & Hcan' & He' & Hp)]; [by left|right].
  assert (Hu : (Zpos p' * 2 ^ (e' + 1074) ≤ Zpos mc * 2 ^ (ec + 1074))%Z).
  { replace (e' + 1074)%Z with ((e' - e1) + (e1 + 1074))%Z by lia.
    replace (ec + 1074)%Z with ((ec - e1) + (e1 + 1074))%Z by lia.
    rewrite (Z.pow_add_r 2 (e' - e1)), (Z.pow_add_r 2 (ec - e1)), !Z.mul_assoc by lia.
    apply Z.mul_le_mono_nonneg_r; [apply Z.pow_nonneg; lia|lia]. }
  pose proof (digits_mono p' (e' + 1074) mc (ec + 1074)).
  exists p', e'. unfold fit. rewrite (proj2 (Z.leb_le _ _)) by lia. split_and!; [done| |].
  - apply bounded_spec. unfold femin. lia.
  - unfold units, femin. by replace (e' - -1074)%Z with (e' + 1074)%Z by lia;
      replace (ec - -1074)%Z with (ec + 1074)%Z by lia.
Qed.

(** ** Order *)

Lemma units_pos m e : (femin ≤ e)%Z → (0 < units (Zpos m) e)%Z.
Proof. intros. unfold units. apply Z.mul_pos_pos; [lia|]. apply Z.pow_pos_nonneg; lia. Qed.

Lemma fcompare_spec m e m' e' :
  bounded prec emax m e = true → bounded prec emax m' e' = true →
  SFcompare (S754_finite false m e) (S754_finite false m' e') =
  Some (units (Zpos m) e ?= units (Zpos m') e')%Z.
Proof.
  intros Hb Hb'. apply bounded_spec in Hb as [Hc _], Hb' as [Hc' _]. cbn [SFcompare]. f_equal. symmetry.
  assert (Hlt : ∀ p a q b, Z.max (Zpos (digits2_pos p) + a - 53) femin = a →
    Z.max (Zpos (digits2_pos q) + b - 53) femin = b → (a < b)%Z →
    (units (Zpos p) a < units (Zpos q) b)%Z).
  { unfold units, femin. intros p a q b Ha Hb Hab.
    destruct (Z.lt_ge_cases (Zpos p * 2 ^ (a - -1074)) (Zpos q * 2 ^ (b - -1074))) as [|Hge]; [done|].
    pose proof (digits_mono q (b - -1074) p (a - -1074)). lia. }
  destruct (Z.compare_spec e e') as [->|He|He].
  - change (Pos.compare_cont Eq m m') with (Pos.compare m m'). unfold units.
    assert (0 < 2 ^ (e' - femin))%Z by (apply Z.pow_pos_nonneg; lia).
    destruct (Pos.compare_spec m m') as [->|?|?]; [by apply Z.compare_refl| |];
      [apply (proj2 (Z.compare_lt_iff _ _))|apply (proj2 (Z.compare_gt_iff _ _))];
      (apply Z.mul_lt_mono_pos_r; [done|lia]).
  - apply (proj2 (Z.compare_lt_iff _ _)), Hlt; done.
  - apply (proj2 (Z.compare_gt_iff _ _)), Hlt; done.
Qed.

(** A float whose exact value the order lemmas speak of. *)
Definition ordinary (x : float) : bool := nonneg_finite x && valid_float x.

Lemma ordinary_units x : ordinary x = true → (0 ≤ funits x)%Z.
Proof.
  intros Hx. destruct x as [s| | |[] m e]; try done. apply andb_true_iff in Hx as [_ Hv].
  apply bounded_spec in Hv as [Hc _]. simpl. apply Z.lt_le_incl, units_pos. lia.
Qed.

Lemma fcompare_ordinary x y :
  ordinary x = true → ordinary y = true → SFcompare x y = Some (funits x ?= funits y)%Z.
Proof.
  intros Hx Hy. pose proof (ordinary_units x Hx). pose proof (ordinary_units y Hy).
  apply andb_true_iff in Hx as [Hx' Hx], Hy as [Hy' Hy].
  destruct x as [s| | |[] m e], y as [t| | |[] m' e']; try done.
  - apply bounded_spec in Hy as [? _]. pose proof (units_pos m' e' ltac:(lia)).
    cbn [SFcompare funits]. f_equal. symmetry. by apply (proj2 (Z.compare_lt_iff _ _)).
  - apply bounded_spec in Hx as [? _]. pose proof (units_pos m e ltac:(lia)).
    cbn [SFcompare funits]. f_equal. symmetry. by apply (proj2 (Z.compare_gt_iff _ _)).
  - by apply fcompare_spec.
Qed.

Lemma fle_ordinary x y :
  ordinary x = true → ordinary y = true → fle x y = true ↔ (funits x ≤ funits y)%Z.
Proof.
  intros. unfold fle, SFleb. rewrite fcompare_ordinary by done.
  destruct (Z.compare_spec (funits x) (funits y)); split; intros; try done; lia.
Qed.

Lemma flt_ordinary x y :
  ordinary x = true → ordinary y = true → flt x y = true ↔ (funits x < funits y)%Z.
Proof.
  intros. unfold flt, SFltb. rewrite fcompare_ordinary by done.
  destruct (Z.compare_spec (funits x) (funits y)); split; intros; try done; lia.
Qed.

Lemma flt_inf_r x : ordinary x = true → flt (S754_infinity false) x = false.
Proof. by destruct x. Qed.

Lemma fle_trans x y z :
  ordinary x = true → ordinary y = true → ordinary z = true →
  fle x y = true → fle y z = true → fle x z = true.
Proof. intros Hx Hy Hz. rewrite !fle_ordinary by done. lia. Qed.

(** ** Products *)

(** A product with a factor between 0 and 1 does not exceed the other factor. *)
Lemma fmul_fraction c f :
  ordinary c = true → ordinary f = true → fle f fone = true →
  ordinary (fmul c f) = true ∧ fle (fmul c f) c = true.
Proof.
  intros Hc Hf Hf1.
  enough (ordinary (fmul c f) = true ∧ (funits (fmul c f) ≤ funits c)%Z) as [Ho Hle].
  { split; [done|]. by apply fle_ordinary. }
  pose proof (ordinary_units c Hc) as Hc0.
  rewrite fle_ordinary in Hf1 by done.
  apply andb_true_iff in Hc as [Hc Hcv], Hf as [Hf Hfv].
  destruct c as [s| | |[] mc ec], f as [t| | |[] mf ef]; try done.
  unfold fmul, SFmul. cbn [xorb].
  apply bounded_spec in Hcv as Hcb. apply bounded_spec in Hfv as Hfb.
  change (funits fone) with (2 ^ 1074)%Z in Hf1. cbn [funits] in Hf1, Hc0 |- *.
  unfold units, femin in Hf1.
  assert (Hef : (Zpos (digits2_pos mf) + (ef + 1074) ≤ 1 + 1074)%Z).
  { pose proof (digits_mono mf (ef + 1074) 1 1074) as Hm.
    replace (ef - -1074)%Z with (ef + 1074)%Z in Hf1 by lia. cbn [digits2_pos] in Hm.
    unfold femin in *. lia. }
  destruct (binary_round_le false (mc * mf) (ec + ef) mc ec) as [->|(m' & e' & -> & Hb & Hu)]; try done.
  - unfold femin in *. lia.
  - unfold femin in *.
    replace (ec + ef - 2 * -1074)%Z with ((ec + 1074) + (ef + 1074))%Z by lia.
    replace (ec - 2 * -1074)%Z with ((ec + 1074) + 1074)%Z by lia.
    rewrite (Z.pow_add_r 2 (ec + 1074) (ef + 1074)), (Z.pow_add_r 2 (ec + 1074) 1074), Pos2Z.inj_mul by lia.
    replace (ef - -1074)%Z with (ef + 1074)%Z in Hf1 by lia.
    assert (HA : (0 < 2 ^ (ec + 1074))%Z) by (apply Z.pow_pos_nonneg; lia).
    revert HA Hf1. generalize (2 ^ (ec + 1074))%Z (2 ^ (ef + 1074))%Z (2 ^ 1074)%Z.
    intros A B C HA Hf1.
    assert (HcA : (0 ≤ Zpos mc * A)%Z) by nia.
    pose proof (Z.mul_le_mono_nonneg_l _ _ _ HcA Hf1). lia.
  - destruct (Z.eq_dec ec femin) as [->|Hne]; [right; unfold femin in *; lia|left].
    pose proof (digits_mul_r mf mc) as Hm. rewrite Pos.mul_comm in Hm.
    unfold femin in *. lia.
Qed.

(** A product of positive floats is a positive float, zero or positive infinity. *)
Lemma fmul_ordinary x y :
  ordinary x = true → ordinary y = true →
  (∀ m e, y = S754_finite false m e → Zpos (digits2_pos m) = 53)%Z →
  ordinary (fmul x y) = true ∨ fmul x y = S754_infinity false.
Proof.
  intros [Hx Hxv]%andb_true_iff [Hy Hyv]%andb_true_iff Hn.
  destruct x as [s| | |[] m e], y as [t| | |[] m' e']; try done; try (by left).
  unfold fmul, SFmul. cbn [xorb]. specialize (Hn m' e' eq_refl).
  destruct (binary_round_shape false (m * m') (e + e')) as (M & _ & _ & [[_ ->]|(p & e2 & -> & Hc & _)]).
  - left. pose proof (digits_mul_r m m'). lia.
  - by left.
  - pose proof (fit_valid false p e2 Hc) as Hv. unfold fit in *.
    destruct (e2 <=? 971)%Z; [left|by right]. unfold ordinary. by rewrite Hv.
Qed.

Lemma fmin_ordinary a b :
  ordinary a = true → ordinary b = true ∨ b = S754_infinity false →
  ordinary (fmin a b) = true ∧ fle (fmin a b) a = true.
Proof.
  intros Ha [Hb| ->]; unfold fmin.
  - destruct (flt b a) eqn:E.
    + apply flt_ordinary in E; [|done..]. split; [done|]. apply fle_ordinary; [done..|lia].
    + split; [done|]. apply fle_ordinary; [done..|lia].
  - rewrite flt_inf_r by done. split; [done|]. apply fle_ordinary; [done..|lia].
Qed.

Lemma fmax_ordinary a b :
  ordinary a = true → ordinary b = true →
  ordinary (fmax a b) = true ∧ fle a (fmax a b) = true ∧ fle b (fmax a b) = true.
Proof.
  intros Ha Hb. unfold fmax. destruct (flt a b) eqn:E.
  - apply flt_ordinary in E; [|done..]. split_and!; [done|apply fle_ordinary; [done..|lia]..].
  - assert (¬ (funits a < funits b)%Z) by (rewrite <- flt_ordinary by done; by rewrite E).
    split_and!; [done|apply fle_ordinary; [done..|lia]..].
Qed.

Lemma fpow2_ordinary k p : (0 ≤ k)%Z → fpow2 k = Ok p →
  ordinary p = true ∧ ∀ m e, p = S754_finite false m e → Zpos (digits2_pos m) = 53%Z.
Proof.
  unfold fpow2. intros Hk E. destruct (k <=? 1023)%Z eqn:Hle; [|done]. simplify_eq/=.
  apply Z.leb_le in Hle. split.
  - apply andb_true_iff. split; [done|]. apply bounded_spec.
    change (digits2_pos (2 ^ 52)) with 53%positive. unfold femin. lia.
  - intros m e [= <- <-]. done.
Qed.

(** ** Durations *)

Lemma ordinary_finite m e : ordinary (S754_finite false m e) = true →
  (femin ≤ e)%Z ∧ (e ≤ 971)%Z.
Proof. intros [_ Hv]%andb_true_iff. apply bounded_spec in Hv. lia. Qed.

Lemma round_half_even_bounds n f : (n ≤ round_half_even n f ≤ n + 1)%Z.
Proof. unfold round_half_even. repeat case_match; lia. Qed.

Lemma us_of_pos_nonneg m e : (0 ≤ us_of_pos m e)%Z.
Proof.
  assert (Hi : ∀ m e, (0 ≤ (modf_pos m e).1)%Z).
  { intros m' e'. unfold modf_pos. destruct (0 <=? e')%Z eqn:E; simpl.
    - apply Z.leb_le in E. apply Z.mul_nonneg_nonneg; [lia|]. by apply Z.pow_nonneg.
    - apply Z.div_pos; [lia|]. apply Z.leb_gt in E. apply Z.pow_pos_nonneg; lia. }
  unfold us_of_pos. pose proof (Hi m e). destruct (modf_pos m e) as [i f].
  destruct (fmul _ f) as [| | |s m2 e2]; simpl in *; try lia.
  pose proof (Hi m2 e2). destruct (modf_pos m2 e2) as [i2 f2].
  pose proof (round_half_even_bounds (i * 1000000 + i2) f2). simpl in *. lia.
Qed.

(** A duration that is not negative never moves a timestamp backwards. *)
Lemma timedelta_nonneg x us : ordinary x = true → timedelta_us x = Ok us → (0 ≤ us)%Z.
Proof.
  destruct x as [s| | |[] m e]; try done; simpl; intros _ E; [by simplify_eq|].
  destruct (_ <=? us_of_pos m e)%Z; simplify_eq. apply us_of_pos_nonneg.
Qed.
