(* ===== verification/FloatConv.v ===== *)
(** Conversions between floats, integers and durations: [round] and [int] of a float,
    the difference of two floats, [timedelta.total_seconds], and the proofs that the
    conversions yield well-formed floats and bounded durations. *)
From S2P Require Import Prelude PyStr Errors Floats.
From Stdlib Require Import ZArith.

#[local] Open Scope Z_scope.

Definition fsub (x y : float) : float := SFsub prec emax x y.

(** [round(x)]: the nearest integer, ties to even. *)
Definition float_round (x : float) : outcome Z :=
  match x with
  | S754_nan => Raise (ValueErr (lit "cannot convert float NaN to integer"))
  | S754_infinity _ => Raise (OverflowErr (lit "cannot convert float infinity to integer"))
  | S754_zero _ => Ok 0
  | S754_finite s m e =>
      let '(i, f) := modf_pos m e in
      let r := round_half_even i f in Ok (if s then - r else r)
  end.

(** [int(x)]: truncation. *)
Definition float_trunc (x : float) : outcome Z :=
  match x with
  | S754_nan => Raise (ValueErr (lit "cannot convert float NaN to integer"))
  | S754_infinity _ => Raise (OverflowErr (lit "cannot convert float infinity to integer"))
  | S754_zero _ => Ok 0
  | S754_finite s m e => let i := (modf_pos m e).1 in Ok (if s then - i else i)
  end.

(** [timedelta(microseconds=us).total_seconds()]: a correctly rounded quotient. *)
Definition total_seconds (us : Z) : float :=
  match us with
  | Z0 => fzero
  | Zpos _ | Zneg _ =>
      let '(q, e, l) := SFdiv_core_binary prec emax (Z.abs us) 0 1000000 0 in
      binary_round_aux prec emax (us <? 0) q e l
  end.

Example total_seconds_ex : Some (total_seconds 1500000) = float_of_str (lit "1.5") ∧
  float_trunc (total_seconds 1709210096999999) = Ok 1709210096 ∧
  float_round (fmul (fsub (total_seconds 2250499) (total_seconds 1000000)) (float_of_Z 1000)) = Ok 1250.
Proof. vm_compute. done. Qed.

(** ** Rounding yields a well-formed float *)

Lemma shr_1_mantissa mrs : 0 ≤ shr_m mrs → shr_m (shr_1 mrs) = shr_m mrs / 2.
Proof. destruct mrs as [m r s]. cbn [shr_m]. intros. by rewrite shr_1_spec. Qed.

Lemma shr_mantissa mrs e n mrs' e' :
  0 ≤ shr_m mrs → shr mrs e n = (mrs', e') → e' = e + Z.max 0 n ∧ shr_m mrs' = shr_m mrs / 2 ^ Z.max 0 n.
Proof.
  intros Hm. unfold shr. destruct n as [|p|p]; intros [= <- <-].
  - rewrite Z.div_1_r. split; [lia|done].
  - rewrite iter_pos_nat, Z.max_r, <- (positive_nat_Z p) by lia. split; [lia|].
    induction (Pos.to_nat p) as [|k IH]; [by rewrite Z.div_1_r|].
    rewrite Nat.iter_succ, shr_1_mantissa; rewrite IH.
    + by rewrite Nat2Z.inj_succ, Z.pow_succ_r, Z.mul_comm, Z.div_div by lia.
    + apply Z.div_pos; lia.
  - rewrite Z.div_1_r. split; [lia|done].
Qed.

Lemma loc_mantissa m l : shr_m (shr_record_of_loc m l) = m.
Proof. by destruct l as [|[]]. Qed.

(** From at least 53 bits, or from the smallest exponent, rounding gives a valid float of the
    sign asked for; it is never a NaN. *)
Lemma binary_round_valid s m e l :
  0 ≤ m → (2 ^ 52 ≤ m ∨ e ≤ femin) →
  binary_round_aux prec emax s m e l = S754_zero s ∨
  (binary_round_aux prec emax s m e l = S754_infinity s ∧ (971 ≤ e ∨ 1024 ≤ Zdigits2 m + e)) ∨
  ∃ p e', binary_round_aux prec emax s m e l = S754_finite s p e' ∧ bounded prec emax p e' = true.
Proof.
  intros Hm Hd. unfold binary_round_aux, shr_fexp.
  set (n := fexp prec emax (Zdigits2 m + e) - e).
  destruct (shr (shr_record_of_loc m l) e n) as [mrs e1] eqn:E1.
  apply shr_mantissa in E1 as [-> Eq]; rewrite ?loc_mantissa in *; [|done].
  assert (Hn : n = Z.max (Zdigits2 m + e - 53) femin - e) by (unfold n; by rewrite fexp_eq). clearbody n.
  remember (Z.max 0 n) as k eqn:Ek. assert (Hk : 0 < 2 ^ k) by (apply Z.pow_pos_nonneg; lia).
  pose proof (round_nearest_even_bounds (shr_m mrs) (loc_of_shr_record mrs)) as [HM _].
  set (M := round_nearest_even (shr_m mrs) (loc_of_shr_record mrs)) in *.
  assert (Hq0 : 0 ≤ shr_m mrs) by (rewrite Eq; apply Z.div_pos; lia).
  destruct (shr (shr_record_of_loc M loc_Exact) _ _) as [mrs2 e2] eqn:E2.
  apply shr_mantissa in E2 as [-> Eq2]; rewrite ?loc_mantissa in *; [|lia].
  destruct M as [|p|p] eqn:EM; [left; by rewrite Eq2, Z.div_0_l by (apply Z.pow_nonzero; lia)| |lia].
  right. cbn [Zdigits2] in *.
  destruct (truncate_canonical p (e + k)) as (Hn2 & p' & Ep' & Hcan').
  - destruct (Z.le_gt_cases (2 ^ 52) (shr_m mrs)) as [Hge|Hlt].
    { left. pose proof (digits_ge p 52). lia. }
    right. destruct m as [|m|m]; cbn [Zdigits2] in Hn; [unfold femin in *; lia| |lia].
    destruct (Z.le_gt_cases 53 (Zpos (digits2_pos m))) as [H53|H53].
    + pose proof (digits_bounds m) as [Hlo _].
      destruct (Z.le_gt_cases (Zpos (digits2_pos m) + e - 53) femin) as [|Hgt]; [|exfalso].
      { destruct Hd as [Hd|Hd]; unfold femin in *; lia. }
      apply (Z.lt_irrefl (2 ^ 52)). eapply Z.le_lt_trans; [|exact Hlt]. rewrite Eq.
      apply Z.div_le_lower_bound; [done|]. rewrite <- Z.pow_add_r by lia.
      etrans; [|exact Hlo]. apply Z.pow_le_mono_r; lia.
    + destruct Hd as [Hd|Hd]; [pose proof (digits_ge m 52); lia|]. unfold femin in *. lia.
  - lia.
  - rewrite Z.max_r in Eq2 |- * by done. rewrite Eq2, Ep'.
    destruct (_ <=? emax - prec) eqn:Hle; [right|left].
    { eexists _, _. split; [done|]. apply bounded_spec. apply Z.leb_le in Hle. by split. }
    split; [done|]. apply Z.leb_gt in Hle. unfold emax, prec in Hle. rewrite fexp_eq in Hle.
    assert (Zpos (digits2_pos p) ≤ 54); [|unfold femin in *; lia].
    apply digits_le. apply Z.le_lt_trans with (shr_m mrs + 1); [lia|].
    assert (shr_m mrs < 2 ^ 53); [|lia]. rewrite Eq. apply Z.div_lt_upper_bound; [done|].
    destruct m as [|m|m]; [lia| |lia]. cbn [Zdigits2] in Hn. pose proof (digits_bounds m) as [_ Hhi].
    rewrite <- Z.pow_add_r by lia. eapply Z.lt_le_trans; [exact Hhi|]. apply Z.pow_le_mono_r; lia.
Qed.

Lemma binary_round_shape3 s m e l :
  0 ≤ m → (2 ^ 52 ≤ m ∨ e ≤ femin) →
  binary_round_aux prec emax s m e l = S754_zero s ∨ binary_round_aux prec emax s m e l = S754_infinity s ∨
  ∃ p e', binary_round_aux prec emax s m e l = S754_finite s p e' ∧ bounded prec emax p e' = true.
Proof. intros Hm Hd. destruct (binary_round_valid s m e l Hm Hd) as [?|[[? _]|?]]; auto. Qed.

(** What a conversion from decimal text can yield. *)
Definition converted (neg : bool) (x : float) : Prop :=
  x = S754_zero neg ∨ x = S754_infinity neg ∨ ∃ m e, x = S754_finite neg m e ∧ bounded prec emax m e = true.

Lemma binary_round_converted s m e : converted s (binary_round prec emax s m e).
Proof.
  unfold binary_round, shl_align. rewrite fexp_eq.
  destruct (Z.max (Zpos (digits2_pos m) + e - 53) femin - e) as [|k|k] eqn:Ek.
  1,2: apply binary_round_shape3; [lia|];
    destruct (Z.le_gt_cases e femin); [by right|left];
    pose proof (digits_bounds m) as [Hlo _];
    (etrans; [|exact Hlo]); apply Z.pow_le_mono_r; lia.
  apply binary_round_shape3; [lia|].
  assert (Em : Zpos (Pos.iter xO m k) = Zpos m * 2 ^ Zpos k).
  { clear. induction k as [|k IH] using Pos.peano_ind; [cbn; lia|].
    rewrite Pos.iter_succ, Pos2Z.inj_succ, Z.pow_succ_r, Pos2Z.inj_xO, IH by lia. lia. }
  destruct (Z.le_gt_cases (Zpos (digits2_pos m) + e - 53) femin); [right; lia|left].
  rewrite Em. pose proof (digits_bounds m) as [Hlo _].
  transitivity (2 ^ (Zpos (digits2_pos m) - 1) * 2 ^ Zpos k);
    [|apply Z.mul_le_mono_nonneg_r; [apply Z.pow_nonneg; lia|done]].
  rewrite <- Z.pow_add_r by lia. apply Z.pow_le_mono_r; lia.
Qed.

(** The core of the division keeps at least 53 bits of the quotient. *)
Lemma div_core_bits m1 m2 q e l :
  SFdiv_core_binary prec emax (Zpos m1) 0 (Zpos m2) 0 = (q, e, l) →
  0 ≤ q ∧ (2 ^ 52 ≤ q ∨ e ≤ femin) ∧ e ≤ 0 ∧ Zdigits2 q + e ≤ Zpos (digits2_pos m1).
Proof.
  unfold SFdiv_core_binary. cbn [Zdigits2]. rewrite fexp_eq, !Z.add_0_r.
  set (d1 := Zpos (digits2_pos m1)). set (d2 := Zpos (digits2_pos m2)).
  set (e' := Z.min (Z.max (d1 - d2 - 53) femin) (0 - 0)).
  assert (Hs : 0 ≤ 0 - 0 - e') by lia.
  assert (Em : match 0 - 0 - e' with Z0 => Zpos m1 | Zpos _ => Z.shiftl (Zpos m1) (0 - 0 - e') | Zneg _ => 0 end
    = Zpos m1 * 2 ^ (0 - 0 - e')).
  { destruct (0 - 0 - e') as [|p|p] eqn:E; [by rewrite Z.mul_1_r|by rewrite Z.shiftl_mul_pow2|lia]. }
  rewrite Em. clear Em. destruct (Z.div_eucl _ _) as [q0 r] eqn:Ed. intros [= <- <- _].
  assert (Eq : q0 = Zpos m1 * 2 ^ (0 - 0 - e') / Zpos m2) by (unfold Z.div; by rewrite Ed).
  assert (0 < 2 ^ (0 - 0 - e')) by (apply Z.pow_pos_nonneg; lia).
  assert (Hq0 : 0 ≤ q0) by (rewrite Eq; apply Z.div_pos; lia). split; [done|].
  assert (Hq : q0 ≤ Zpos m1 * 2 ^ (0 - 0 - e')) 
    by (rewrite Eq; apply Z.div_le_upper_bound; [lia|];
        rewrite <- (Z.mul_1_l (Zpos m1 * _)) at 1; apply Z.mul_le_mono_nonneg_r; [apply Z.mul_nonneg_nonneg|]; lia).
  split; [|split; [lia|]]; swap 1 2.
  { pose proof (digits_bounds m1) as [_ Hhi]. fold d1 in Hhi. destruct q0 as [|q0|q0]; cbn [Zdigits2]; [unfold d1; lia| |lia].
    assert (Zpos (digits2_pos q0) ≤ d1 - e'); [|lia]. apply digits_le. eapply Z.le_lt_trans; [exact Hq|].
    replace (d1 - e') with (d1 + (0 - 0 - e')) by lia. rewrite Z.pow_add_r by lia.
    apply Z.mul_lt_mono_pos_r; lia. }
  destruct (Z.le_gt_cases e' femin) as [|Hgt]; [by right|left].
  pose proof (digits_bounds m1) as [Hlo _]. pose proof (digits_bounds m2) as [_ Hhi].
  fold d1 in Hlo. fold d2 in Hhi. rewrite Eq. apply Z.div_le_lower_bound; [done|].
  transitivity (2 ^ d2 * 2 ^ 52); [apply Z.mul_le_mono_nonneg_r; lia|].
  transitivity (2 ^ (d1 - 1) * 2 ^ (0 - 0 - e')); [|apply Z.mul_le_mono_nonneg_r; lia].
  rewrite <- !Z.pow_add_r by lia. apply Z.pow_le_mono_r; lia.
Qed.

Lemma float_of_decimal_converted neg d e10 : converted neg (float_of_decimal neg d e10).
Proof.
  unfold float_of_decimal. destruct d as [|d|d]; [by left| |by left].
  destruct (310 <? _); [right; by left|]. destruct (_ <? -330); [by left|].
  destruct (0 <=? e10) eqn:He.
  - destruct (Zpos d * 10 ^ e10) as [|m|m]; [by left|apply binary_round_converted|by left].
  - apply Z.leb_gt in He. destruct (10 ^ (- e10)) as [|t|t] eqn:Et;
      [pose proof (Z.pow_pos_nonneg 10 (- e10)); lia| |pose proof (Z.pow_nonneg 10 (- e10)); lia].
    destruct (SFdiv_core_binary _ _ _ _ _ _) as [[q e] l] eqn:Ed.
    apply div_core_bits in Ed as (Hq & Hb & _). by apply binary_round_shape3.
Qed.

Lemma converted_ordinary x : converted false x → isfinite x = true → ordinary x = true.
Proof. intros [->|[->|(m & e & -> & Hb)]]; [done|done|]. intros _. by apply andb_true_iff. Qed.

Lemma converted_negative x : converted true x → isfinite x = true → flt x fzero = false → ordinary x = true.
Proof. intros [->|[->|(m & e & -> & Hb)]]; done. Qed.

(** What [float(s)] yields is well formed: finite and not negative means ordinary. *)
Lemma float_of_str_ordinary s x :
  float_of_str s = Some x → isfinite x = true → flt x fzero = false → ordinary x = true.
Proof.
  unfold float_of_str. intros (t & _ & H)%bind_Some. destruct (read_sign t) as [neg u].
  destruct (str_in _ _); [by simplify_eq|]. destruct (eqb_str _ _); [by simplify_eq|].
  destruct (read_digits 0 0 u) as [[ip ni] s1].
  destruct (match s1 with [] => _ | _ => _ end) as [[m nf] s2].
  destruct (bool_decide _); [done|]. apply bind_Some in H as (e & _ & [= <-]).
  pose proof (float_of_decimal_converted neg m (e - Z.of_nat nf)) as Hc.
  destruct neg; intros; [by apply converted_negative|by apply converted_ordinary].
Qed.

Lemma total_seconds_converted us : converted (us <? 0) (total_seconds us).
Proof.
  unfold total_seconds. destruct us as [|u|u]; [by left|..]; cbn [Z.abs];
    destruct (SFdiv_core_binary _ _ _ _ _ _) as [[q e] l] eqn:Ed;
    apply div_core_bits in Ed as (Hq & Hb & _); by apply binary_round_shape3.
Qed.

Lemma total_seconds_ordinary us :
  isfinite (total_seconds us) = true → flt (total_seconds us) fzero = false → ordinary (total_seconds us) = true.
Proof.
  pose proof (total_seconds_converted us) as Hc.
  destruct (us <? 0); intros; [by apply converted_negative|by apply converted_ordinary].
Qed.

(** ** Durations of at most a day *)

Lemma shl_align_spec m e :
  2 * femin ≤ e →
  let '(mz, ez) := shl_align m e (fexp prec emax (Zpos (digits2_pos m) + e)) in
  2 * femin ≤ ez ∧ Zpos mz * 2 ^ (ez - 2 * femin) = Zpos m * 2 ^ (e - 2 * femin) ∧
  (53 ≤ Zpos (digits2_pos mz) ∨ ez ≤ femin).
Proof.
  intros He. unfold shl_align. rewrite fexp_eq.
  destruct (Z.max (Zpos (digits2_pos m) + e - 53) femin - e) as [|k|k] eqn:Ek.
  1,2: split_and!; [done|done|]; destruct (Z.le_gt_cases e femin); [by right|left; lia].
  assert (Em : Zpos (Pos.iter xO m k) = Zpos m * 2 ^ Zpos k).
  { clear. induction k as [|k IH] using Pos.peano_ind; [cbn; lia|].
    rewrite Pos.iter_succ, Pos2Z.inj_succ, Z.pow_succ_r, Pos2Z.inj_xO, IH by lia. lia. }
  assert (Hmax : Z.max (Zpos (digits2_pos m) + e - 53) femin = e - Zpos k) by lia. rewrite Hmax.
  split_and!; [unfold femin in *; lia| |].
  - rewrite Em, <- Z.mul_assoc, <- Z.pow_add_r by (unfold femin in *; lia). do 2 f_equal. lia.
  - destruct (Z.le_gt_cases (e - Zpos k) femin); [by right|left].
    pose proof (digits_ge (Pos.iter xO m k) 52 ltac:(lia)) as Hd. cut (2 ^ 52 ≤ Zpos (Pos.iter xO m k)); [lia|].
    rewrite Em. pose proof (digits_bounds m) as [Hlo _].
    transitivity (2 ^ (Zpos (digits2_pos m) - 1) * 2 ^ Zpos k);
      [|apply Z.mul_le_mono_nonneg_r; [apply Z.pow_nonneg; lia|done]].
    rewrite <- Z.pow_add_r by lia. apply Z.pow_le_mono_r; lia.
Qed.

(** Rounding does not cross a representable number. *)
Lemma binary_round_upper m e mc ec :
  bounded prec emax mc ec = true → 2 * femin ≤ e →
  Zpos m * 2 ^ (e - 2 * femin) ≤ Zpos mc * 2 ^ (ec - 2 * femin) →
  ordinary (binary_round prec emax false m e) = true ∧
  funits (binary_round prec emax false m e) ≤ units (Zpos mc) ec.
Proof.
  intros Hc He Hle. unfold binary_round. pose proof (shl_align_spec m e He) as Ha.
  destruct (shl_align m e _) as [mz ez]. destruct Ha as (Hez & Ev & Hd).
  destruct (binary_round_le false mz ez mc ec Hc ltac:(lia) ltac:(by rewrite Ev) Hd)
    as [->|(m' & e' & -> & Hb & Hu)].
  - split; [done|]. simpl. apply Z.lt_le_incl, units_pos. apply bounded_spec in Hc. lia.
  - split; [by apply andb_true_iff|done].
Qed.

Lemma units_le_mul k m e :
  femin ≤ e → units (Zpos m) e ≤ units (Zpos k) 0 →
  (0 ≤ e → Zpos m * 2 ^ e ≤ Zpos k) ∧ (e < 0 → Zpos m ≤ Zpos k * 2 ^ (- e)).
Proof.
  unfold units, femin. intros He Hle. split; intros Hs.
  - replace (e - -1074) with (e + 1074) in Hle by lia. rewrite Z.pow_add_r in Hle by lia.
    replace (0 - -1074) with 1074 in Hle by lia.
    assert (0 < 2 ^ 1074) by (apply Z.pow_pos_nonneg; lia).
    revert Hle H. generalize (2 ^ 1074). intros P Hle HP. nia.
  - replace (0 - -1074) with ((- e) + (e - -1074)) in Hle by lia. rewrite (Z.pow_add_r 2 (- e)) in Hle by lia.
    assert (0 < 2 ^ (e - -1074)) by (apply Z.pow_pos_nonneg; lia).
    revert Hle H. generalize (2 ^ (e - -1074)) (2 ^ (- e)). intros P Q Hle HP. nia.
Qed.

(** Integer and fractional parts of a number of at most [k]. *)
Lemma modf_bounded k m e :
  ordinary (S754_finite false m e) = true → units (Zpos m) e ≤ units (Zpos k) 0 →
  0 ≤ (modf_pos m e).1 ≤ Zpos k ∧ ordinary (modf_pos m e).2 = true ∧ fle (modf_pos m e).2 fone = true.
Proof.
  intros Ho Hle. apply ordinary_finite in Ho as [He1 He2].
  apply units_le_mul in Hle as [Hpos Hneg]; [|done]. unfold modf_pos.
  destruct (0 <=? e) eqn:Es; [apply Z.leb_le in Es|apply Z.leb_gt in Es]; simpl.
  - split_and!; [|by apply Hpos|done|done]. apply Z.mul_nonneg_nonneg; [lia|by apply Z.pow_nonneg].
  - assert (Hp : 0 < 2 ^ (- e)) by (apply Z.pow_pos_nonneg; lia).
    pose proof (Z.mod_pos_bound (Zpos m) (2 ^ (- e)) Hp) as Hr.
    split; [split; [apply Z.div_pos; lia|apply Z.div_le_upper_bound; [done|]; rewrite Z.mul_comm; by apply Hneg]|].
    destruct (Zpos m mod 2 ^ (- e)) as [|r|r]; [done| |lia]. cbn [binary_normalize].
    destruct (binary_round_upper r e (2 ^ 52) (-52)) as [Ho Hu]; [done|unfold femin in *; lia| |].
    + replace (Zpos (2 ^ 52)) with (2 ^ 52) by done. rewrite <- Z.pow_add_r by (unfold femin; lia).
      replace (52 + (-52 - 2 * femin)) with ((- e) + (e - 2 * femin)) by lia.
      rewrite (Z.pow_add_r 2 (- e)) by (unfold femin in *; lia).
      apply Z.mul_le_mono_nonneg_r; [apply Z.pow_nonneg; lia|lia].
    + split; [done|]. by apply fle_ordinary.
Qed.

(** [timedelta(seconds=x)] for [0 <= x <= 86400]. *)
Lemma timedelta_bounded x :
  ordinary x = true → fle x (float_of_Z 86400) = true →
  ∃ us, timedelta_us x = Ok us ∧ 0 ≤ us ≤ 86402000000.
Proof.
  intros Ho Hle. apply fle_ordinary in Hle; [|done..].
  destruct x as [s| | |[] m e]; try done; [by exists 0|].
  change (funits (float_of_Z 86400)) with (units (Zpos 86400) 0) in Hle. cbn [funits] in Hle.
  destruct (modf_bounded 86400 m e Ho Hle) as (Hi & Hf & Hf1).
  assert (Hus : us_of_pos m e ≤ 86402000000); [|pose proof (us_of_pos_nonneg m e); simpl; rewrite (proj2 (Z.leb_gt _ _));
    [eauto|unfold timedelta_limit_us; lia]].
  unfold us_of_pos. destruct (modf_pos m e) as [i f]. simpl in Hi, Hf, Hf1.
  destruct (fmul_fraction (float_of_Z 1000000) f) as [Ho2 Hle2]; [done..|].
  destruct (fmul (float_of_Z 1000000) f) as [| | |[] m2 e2]; try done; try lia.
  apply fle_ordinary in Hle2; [|done..].
  change (funits (float_of_Z 1000000)) with (units (Zpos 1000000) 0) in Hle2. cbn [funits] in Hle2.
  destruct (modf_bounded 1000000 m2 e2 Ho2 Hle2) as (Hi2 & _). destruct (modf_pos m2 e2) as [i2 f2].
  pose proof (round_half_even_bounds (i * 1000000 + i2) f2). simpl in *. lia.
Qed.

(** Seconds of any representable instant at or after the epoch: a finite number. *)
Lemma total_seconds_finite us : 0 ≤ us < 2 ^ 64 → ordinary (total_seconds us) = true.
Proof.
  intros [H0 H64]. unfold total_seconds. destruct us as [|u|u]; [done| |lia]. cbn [Z.abs].
  destruct (SFdiv_core_binary _ _ _ _ _ _) as [[q e] l] eqn:Ed.
  apply div_core_bits in Ed as (Hq & Hb & He & Hdig). change (Zpos u <? 0) with false.
  assert (Zpos (digits2_pos u) ≤ 64) by (by apply digits_le).
  destruct (binary_round_valid false q e l Hq Hb) as [->|[[_ Hbig]|(p & e' & -> & Hbd)]]; [done|lia|].
  by apply andb_true_iff.
Qed.

Lemma float_trunc_nonneg x : ordinary x = true → ∃ n, float_trunc x = Ok n ∧ 0 ≤ n.
Proof.
  destruct x as [s| | |[] m e]; try done; intros Ho; [by exists 0|].
  eexists. split; [done|]. unfold modf_pos. destruct (0 <=? e) eqn:E; simpl.
  - apply Z.leb_le in E. apply Z.mul_nonneg_nonneg; [lia|]. by apply Z.pow_nonneg.
  - apply Z.leb_gt in E. apply Z.div_pos; [lia|]. apply Z.pow_pos_nonneg; lia.
Qed.
