(* ===== verification/Json.v ===== *)
(** JSON values and the parts of Python's [json] module the program calls:
    [json.loads] on text, and [json.dumps] with the separators, key order and
    NaN policy of [serialization.py].

    [loads] is a recursive descent parser with fuel; [parse_fuel] shows that
    twice the number of characters and one is always enough, so [json_loads]
    never stops early.  Nesting deeper than the interpreter's
    recursion limit (a [RecursionError] in Python) is not modelled. *)
From S2P Require Import Prelude PyStr Errors Floats.
From Stdlib Require Import ZArith SpecFloat.

(** A JSON value as Python holds it; a dict is its items in insertion order. *)
Inductive json :=
| JNull
| JBool (b : bool)
| JInt (z : Z)
| JFloat (x : float)
| JStr (s : pystr)
| JList (l : list json)
| JDict (d : list (pystr * json)).

(** ** Dictionaries *)

(** [d.get(k)] *)
Fixpoint dict_get {A : Type} (d : list (pystr * A)) (k : pystr) : option A :=
  match d with
  | [] => None
  | (k', v) :: d' => if bool_decide (k = k') then Some v else dict_get d' k
  end.

(** [d[k] = v]: an existing key keeps its place. *)
Fixpoint dict_set {A : Type} (d : list (pystr * A)) (k : pystr) (v : A) : list (pystr * A) :=
  match d with
  | [] => [(k, v)]
  | (k', v') :: d' => if bool_decide (k = k') then (k', v) :: d' else (k', v') :: dict_set d' k v
  end.

Lemma dict_get_set_eq {A} (d : list (pystr * A)) k v : dict_get (dict_set d k v) k = Some v.
Proof.
  induction d as [|[k' v'] d IH]; simpl; [by rewrite bool_decide_eq_true_2|].
  case_bool_decide as E; simpl; [by rewrite bool_decide_eq_true_2|].
  by rewrite bool_decide_eq_false_2.
Qed.

Lemma dict_get_set_ne {A} (d : list (pystr * A)) k k' v :
  k ≠ k' → dict_get (dict_set d k v) k' = dict_get d k'.
Proof.
  intros Hne. induction d as [|[j v'] d IH]; simpl; [by rewrite bool_decide_eq_false_2|].
  case_bool_decide as E; simpl.
  - subst j. by rewrite !bool_decide_eq_false_2.
  - by rewrite IH.
Qed.

Lemma dict_set_keys {A} (d : list (pystr * A)) k v :
  NoDup d.*1 → NoDup (dict_set d k v).*1.
Proof.
  assert (Hk : ∀ (d : list (pystr * A)) x, x ∈ (dict_set d k v).*1 → x = k ∨ x ∈ d.*1).
  { clear d. intros d x. induction d as [|[j w] d IH]; simpl.
    - intros Hx. left. by apply list_elem_of_singleton in Hx.
    - case_bool_decide; simpl; rewrite !elem_of_cons; intros [->|Hin]; auto.
      destruct (IH Hin); auto. }
  induction d as [|[j w] d IH]; simpl; intros ND.
  - apply NoDup_singleton.
  - apply NoDup_cons in ND as [Hni ND]. case_bool_decide; simpl; apply NoDup_cons; split; auto.
    intros Hin. apply Hk in Hin as [->|]; done.
Qed.

Lemma dict_get_app {A} (d e : list (pystr * A)) k :
  dict_get (d ++ e) k = match dict_get d k with Some v => Some v | None => dict_get e k end.
Proof. induction d as [|[j v] d IH]; simpl; [done|]. by case_bool_decide. Qed.

Lemma dict_get_elem {A} (d : list (pystr * A)) k v : dict_get d k = Some v → (k, v) ∈ d.
Proof.
  induction d as [|[j w] d IH]; simpl; [done|]. rewrite elem_of_cons.
  case_bool_decide; intros; simplify_eq; auto.
Qed.

Lemma elem_dict_get {A} (d : list (pystr * A)) k v : NoDup d.*1 → (k, v) ∈ d → dict_get d k = Some v.
Proof.
  induction d as [|[j w] d IH]; simpl; [by intros _ ?%elem_of_nil|].
  intros [Hj Hd]%NoDup_cons [[= -> ->]|Hin]%elem_of_cons; [by rewrite bool_decide_eq_true_2|].
  rewrite bool_decide_eq_false_2; [by apply IH|]. intros ->. apply Hj. by apply (list_elem_of_fmap_2 fst) in Hin.
Qed.

Lemma dict_get_absent {A} (d : list (pystr * A)) k : k ∉ d.*1 → dict_get d k = None.
Proof.
  induction d as [|[j v] d IH]; [done|]. rewrite fmap_cons, not_elem_of_cons. simpl. intros [Hne Hk].
  rewrite bool_decide_eq_false_2 by done. by apply IH.
Qed.

Lemma dict_set_fresh {A} (d : list (pystr * A)) k v : dict_get d k = None → dict_set d k v = d ++ [(k, v)].
Proof. induction d as [|[j w] d IH]; simpl; [done|]. case_bool_decide; [done|]. intros Hd. by rewrite IH. Qed.

Lemma dict_set_Forall {A} (P : pystr * A → Prop) d k v : Forall P d → P (k, v) → Forall P (dict_set d k v).
Proof.
  induction 1 as [|[j w] d Hj Hd IH]; intros Hk; simpl; [by constructor|].
  case_bool_decide; [subst; by constructor|constructor; auto].
Qed.

Lemma dict_get_perm {A} (d e : list (pystr * A)) k : NoDup d.*1 → d ≡ₚ e → dict_get d k = dict_get e k.
Proof.
  intros Hd Hp. assert (NoDup e.*1) as He by (by rewrite <- Hp).
  destruct (dict_get d k) as [v|] eqn:E.
  - symmetry. apply elem_dict_get; [done|]. rewrite <- Hp. by apply dict_get_elem.
  - destruct (dict_get e k) as [v|] eqn:E'; [|done]. enough (dict_get d k = Some v) by congruence. apply elem_dict_get; [done|].
    rewrite Hp. by apply dict_get_elem.
Qed.

(** ** [json.loads] *)

Inductive parsed (A : Type) :=
| POk (a : A) (rest : pystr)
| PErr (e : exn)
| PFuel.
Arguments POk {A} a rest.
Arguments PErr {A} e.
Arguments PFuel {A}.

Definition is_json_ws (c : N) : bool := (c =? 32)%N || (c =? 9)%N || (c =? 10)%N || (c =? 13)%N.

Definition skip_ws (s : pystr) : pystr := drop_while is_json_ws s.

Definition hex_val (c : N) : option N :=
  if is_digit c then Some (c - 48)%N
  else if in_range 97 102 c then Some (c - 87)%N
  else if in_range 65 70 c then Some (c - 55)%N
  else None.

(** Four hexadecimal digits after [\u]. *)
Definition hex4 (s : pystr) : option (N * pystr) :=
  match s with
  | a :: b :: c :: d :: s' =>
      match hex_val a, hex_val b, hex_val c, hex_val d with
      | Some a, Some b, Some c, Some d => Some ((((a * 16 + b) * 16 + c) * 16 + d)%N, s')
      | _, _, _, _ => None
      end
  | _ => None
  end.

(** The character after a backslash, other than [u]. *)
Definition simple_escape (c : N) : option N :=
  if (c =? 34)%N then Some 34%N else if (c =? 92)%N then Some 92%N
  else if (c =? 47)%N then Some 47%N else if (c =? 98)%N then Some 8%N
  else if (c =? 102)%N then Some 12%N else if (c =? 110)%N then Some 10%N
  else if (c =? 114)%N then Some 13%N else if (c =? 116)%N then Some 9%N
  else None.

(** [s] without its first character, when that is [c]. *)
Definition expect (c : N) (s : pystr) : option pystr :=
  match s with
  | d :: s' => if (d =? c)%N then Some s' else None
  | [] => None
  end.

Lemma expect_length c s r : expect c s = Some r → length s = S (length r).
Proof. destruct s as [|d s]; simpl; [done|]. case_match; intros; by simplify_eq. Qed.

(** A [\uXXXX] escape; a high surrogate joins a low one escaped right after it. *)
Definition second_escape (s : pystr) : option (N * pystr) :=
  s1 ← expect 92 s; s2 ← expect 117 s1; hex4 s2.

Definition unicode_escape (s : pystr) : option (N * pystr) :=
  match hex4 s with
  | None => None
  | Some (c, s1) =>
      match (if in_range 55296 56319 c then second_escape s1 else None) with
      | Some (c2, s3) =>
          if in_range 56320 57343 c2 then
            Some ((65536 + (c - 55296) * 1024 + (c2 - 56320))%N, s3)
          else Some (c, s1)
      | None => Some (c, s1)
      end
  end.

(** The rest of a string after its opening quote. *)
Fixpoint parse_string (fuel : nat) (acc s : pystr) : parsed pystr :=
  match fuel with
  | O => PFuel
  | S fuel =>
      match s with
      | [] => PErr JSONDecodeErr
      | c :: s' =>
          if (c =? 34)%N then POk (rev acc) s'
          else if (c =? 92)%N then
            match s' with
            | [] => PErr JSONDecodeErr
            | e :: s2 =>
                if (e =? 117)%N then
                  match unicode_escape s2 with
                  | Some (u, s3) => parse_string fuel (u :: acc) s3
                  | None => PErr JSONDecodeErr
                  end
                else match simple_escape e with
                     | Some u => parse_string fuel (u :: acc) s2
                     | None => PErr JSONDecodeErr
                     end
            end
          else if (c <? 32)%N then PErr JSONDecodeErr
          else parse_string fuel (c :: acc) s'
      end
  end.

(** The longest integer [int(text)] accepts without an error. *)
Definition int_max_str_digits : nat := 4300.

(** A fraction [.digits] or an exponent [e[+-]digits]; anything incomplete is left unread. *)
Definition read_frac (m : Z) (s : pystr) : option (Z * nat * pystr) :=
  s' ← expect 46 s;
  match read_digits m 0 s' with
  | (_, O, _) => None
  | r => Some r
  end.

Definition read_exp (s : pystr) : option (Z * pystr) :=
  match s with
  | c :: s' =>
      if (lower_ascii c =? 101)%N then
        let '(neg, s1) := read_sign s' in
        match read_digits 0 0 s1 with
        | (_, O, _) => None
        | (e, _, s2) => Some ((if neg then (- e)%Z else e), s2)
        end
      else None
  | [] => None
  end.

(** A number: an integer part without superfluous zeros, then optionally a fraction and an
    exponent; with either of them the value is a float. *)
Definition parse_number (s : pystr) : parsed json :=
  let '(neg, s1) := match expect 45 s with Some s' => (true, s') | None => (false, s) end in
  let int_part :=
    match expect 48 s1 with
    | Some s2 => Some (0%Z, 1, s2)
    | None => match read_digits 0 0 s1 with (_, O, _) => None | r => Some r end
    end in
  match int_part with
  | None => PErr JSONDecodeErr
  | Some (m, n, s2) =>
      match read_frac m s2, read_exp s2 with
      | Some (m', nf, s3), _ =>
          match read_exp s3 with
          | Some (e, s4) => POk (JFloat (float_of_decimal neg m' (e - Z.of_nat nf))) s4
          | None => POk (JFloat (float_of_decimal neg m' (- Z.of_nat nf))) s3
          end
      | None, Some (e, s3) => POk (JFloat (float_of_decimal neg m e)) s3
      | None, None =>
          if bool_decide (int_max_str_digits < n) then
            PErr (ValueErr (lit "Exceeds the limit (4300 digits) for integer string conversion"))
          else POk (JInt (if neg then (- m)%Z else m)) s2
      end
  end.

(** A keyword and the value it stands for. *)
Definition keyword (s : pystr) : option (json * pystr) :=
  let try_kw (k : pystr) (v : json) := if startswith s k then Some (v, drop (length k) s) else None in
  match try_kw (lit "null") JNull, try_kw (lit "true") (JBool true),
        try_kw (lit "false") (JBool false), try_kw (lit "NaN") (JFloat S754_nan),
        try_kw (lit "Infinity") (JFloat (S754_infinity false)),
        try_kw (lit "-Infinity") (JFloat (S754_infinity true)) with
  | Some r, _, _, _, _, _ => Some r
  | _, Some r, _, _, _, _ => Some r
  | _, _, Some r, _, _, _ => Some r
  | _, _, _, Some r, _, _ => Some r
  | _, _, _, _, Some r, _ => Some r
  | _, _, _, _, _, Some r => Some r
  | _, _, _, _, _, _ => None
  end.

(** One value; [parse_items] and [parse_members] read the rest of an array and of an object. *)
Fixpoint parse_value (fuel : nat) (s : pystr) {struct fuel} : parsed json :=
  match fuel with
  | O => PFuel
  | S fuel =>
      match expect 34 s, expect 91 s, expect 123 s with
      | Some s', _, _ =>
          match parse_string fuel [] s' with
          | POk t r => POk (JStr t) r | PErr e => PErr e | PFuel => PFuel
          end
      | _, Some s', _ =>
          match expect 93 (skip_ws s') with
          | Some r => POk (JList []) r
          | None => parse_items fuel [] (skip_ws s')
          end
      | _, _, Some s' =>
          match expect 125 (skip_ws s') with
          | Some r => POk (JDict []) r
          | None => parse_members fuel [] (skip_ws s')
          end
      | _, _, _ =>
          match keyword s with
          | Some (v, r) => POk v r
          | None => parse_number s
          end
      end
  end
with parse_items (fuel : nat) (acc : list json) (s : pystr) {struct fuel} : parsed json :=
  match fuel with
  | O => PFuel
  | S fuel =>
      match parse_value fuel s with
      | POk v r =>
          match expect 93 (skip_ws r), expect 44 (skip_ws r) with
          | Some r', _ => POk (JList (rev (v :: acc))) r'
          | _, Some r' => parse_items fuel (v :: acc) (skip_ws r')
          | _, _ => PErr JSONDecodeErr
          end
      | PErr e => PErr e
      | PFuel => PFuel
      end
  end
with parse_members (fuel : nat) (acc : list (pystr * json)) (s : pystr) {struct fuel} : parsed json :=
  match fuel with
  | O => PFuel
  | S fuel =>
      match expect 34 s with
      | None => PErr JSONDecodeErr
      | Some s' =>
          match parse_string fuel [] s' with
          | POk k r =>
              match expect 58 (skip_ws r) with
              | None => PErr JSONDecodeErr
              | Some r1 =>
                  match parse_value fuel (skip_ws r1) with
                  | POk v r2 =>
                      match expect 125 (skip_ws r2), expect 44 (skip_ws r2) with
                      | Some r3, _ => POk (JDict (dict_set acc k v)) r3
                      | _, Some r3 => parse_members fuel (dict_set acc k v) (skip_ws r3)
                      | _, _ => PErr JSONDecodeErr
                      end
                  | PErr e => PErr e
                  | PFuel => PFuel
                  end
              end
          | PErr e => PErr e
          | PFuel => PFuel
          end
      end
  end.

(** [json.loads(s)] for a [str]. *)
Definition json_loads (s : pystr) : outcome json :=
  match expect 65279 s with
  | Some _ => Raise JSONDecodeErr
  | None =>
      match parse_value (S (2 * length s)) (skip_ws s) with
      | POk v r => if bool_decide (skip_ws r = []) then Ok v else Raise JSONDecodeErr
      | PErr e => Raise e
      | PFuel => Raise (RuntimeErr (lit "out of fuel"))
      end
  end.

Example json_loads_ex1 :
  json_loads (jlit "  {'code': 'missing_order_id', 'n': [1, -2.50, null]} ")
  = Ok (JDict [(lit "code", JStr (lit "missing_order_id"));
               (lit "n", JList [JInt 1; JFloat (float_of_decimal true 250 (-2)); JNull])]).
Proof. vm_compute. reflexivity. Qed.
Example json_loads_ex2 : json_loads (lit "[1,]") = Raise JSONDecodeErr.
Proof. vm_compute. reflexivity. Qed.
Example json_loads_ex3 : json_loads (jlit "'\ud83d\ude00\u00e9'") = Ok (JStr [128512%N; 233%N]).
Proof. vm_compute. reflexivity. Qed.

(** ** The fuel is enough *)

(** The errors of [json.loads] on a text of [n] characters: it is malformed, or it is long
    enough for an integer with too many digits. *)
Definition json_error (n : nat) (e : exn) : bool :=
  match e with
  | JSONDecodeErr => true
  | ValueErr _ => bool_decide (int_max_str_digits < n)
  | _ => false
  end.

Lemma json_error_mono n m e : json_error n e = true → n ≤ m → json_error m e = true.
Proof. destruct e; try done. simpl. rewrite !bool_decide_eq_true. lia. Qed.

Lemma skip_ws_length s : length (skip_ws s) ≤ length s.
Proof. apply drop_while_length. Qed.

Lemma read_digits_length acc n s m k r :
  read_digits acc n s = (m, k, r) → n ≤ k ∧ length r + (k - n) = length s.
Proof.
  revert acc n. induction s as [|c s IH]; intros acc n; simpl.
  - intros [= <- <- <-]. simpl. lia.
  - destruct (is_digit c).
    + intros H%IH. lia.
    + intros [= <- <- <-]. simpl. lia.
Qed.

Lemma read_digits_some acc s m k r :
  read_digits acc 0 s = (m, S k, r) → length r < length s.
Proof. intros H%read_digits_length. lia. Qed.

Lemma hex4_length s c r : hex4 s = Some (c, r) → length r < length s.
Proof.
  destruct s as [|a [|b [|d [|e s]]]]; try done. simpl.
  repeat case_match; intros; simplify_eq; lia.
Qed.

Lemma second_escape_length s c r : second_escape s = Some (c, r) → length r < length s.
Proof.
  unfold second_escape.
  destruct (expect 92 s) as [s2|] eqn:E2; simpl; [|done].
  destruct (expect 117 s2) as [s3|] eqn:E3; simpl; [|done]. intros H%hex4_length.
  apply expect_length in E2, E3. lia.
Qed.

Lemma unicode_escape_length s c r : unicode_escape s = Some (c, r) → length r < length s.
Proof.
  unfold unicode_escape. destruct (hex4 s) as [[u s1]|] eqn:E; [|done].
  apply hex4_length in E.
  destruct (if in_range _ _ u then second_escape s1 else None) as [[u2 s2]|] eqn:E2;
    [|intros; by simplify_eq].
  destruct (in_range _ _ u); [|done]. apply second_escape_length in E2.
  case_match; intros; simplify_eq; lia.
Qed.

Lemma parse_string_spec fuel acc s :
  length s < fuel →
  match parse_string fuel acc s with
  | POk _ r => length r < length s
  | PErr e => e = JSONDecodeErr
  | PFuel => False
  end.
Proof.
  revert acc s. induction fuel as [|fuel IH]; intros acc s Hf; [lia|].
  destruct s as [|c s]; [done|]. simpl in *.
  destruct (c =? 34)%N; [lia|]. destruct (c =? 92)%N.
  - destruct s as [|e s]; [done|]. simpl in *. destruct (e =? 117)%N.
    + destruct (unicode_escape s) as [[u r]|] eqn:E; [|done].
      apply unicode_escape_length in E. specialize (IH (u :: acc) r ltac:(lia)).
      case_match; try done. lia.
    + destruct (simple_escape e) as [u|]; [|done]. specialize (IH (u :: acc) s ltac:(lia)).
      case_match; try done. lia.
  - destruct (c <? 32)%N; [done|]. specialize (IH (c :: acc) s ltac:(lia)).
    case_match; try done. lia.
Qed.

Lemma read_frac_length m s m' n r : read_frac m s = Some (m', n, r) → length r < length s.
Proof.
  unfold read_frac. destruct (expect 46 s) as [s'|] eqn:E; [|done]. simpl.
  apply expect_length in E. destruct (read_digits m 0 s') as [[a [|k]] b] eqn:Ed; [done|].
  intros [= <- <- <-]. apply read_digits_some in Ed. lia.
Qed.

Lemma read_sign_length s : length (read_sign s).2 ≤ length s.
Proof. unfold read_sign. repeat case_match; simpl; lia. Qed.

Lemma read_exp_length s e r : read_exp s = Some (e, r) → length r < length s.
Proof.
  unfold read_exp. destruct s as [|c s]; [done|]. case_match; [|done].
  pose proof (read_sign_length s). destruct (read_sign s) as [neg s1]. simpl in *.
  destruct (read_digits 0 0 s1) as [[a [|k]] b] eqn:Ed; [done|].
  intros [= <- <-]. apply read_digits_some in Ed. lia.
Qed.

Lemma parse_number_spec s :
  match parse_number s with
  | POk _ r => length r < length s
  | PErr e => json_error (length s) e = true
  | PFuel => False
  end.
Proof.
  unfold parse_number.
  set (sg := match expect 45 s with Some s' => (true, s') | None => (false, s) end).
  assert (Hs : length sg.2 ≤ length s).
  { unfold sg. destruct (expect 45 s) eqn:E; simpl; [apply expect_length in E|]; lia. }
  destruct sg as [neg s1]. simpl in Hs.
  set (ip := match expect 48 s1 with Some s2 => _ | None => _ end).
  assert (Hi : ∀ m n r, ip = Some (m, n, r) → length r < length s1 ∧ n ≤ length s1).
  { unfold ip. intros m n r. destruct (expect 48 s1) eqn:E.
    - apply expect_length in E. intros; simplify_eq. lia.
    - destruct (read_digits 0 0 s1) as [[a [|k]] b] eqn:Ed; [done|].
      intros [= <- <- <-]. apply read_digits_length in Ed. lia. }
  destruct ip as [[[m n] s2]|]; [|done]. specialize (Hi m n s2 eq_refl).
  destruct (read_frac m s2) as [[[m' nf] s3]|] eqn:E1.
  - apply read_frac_length in E1. destruct (read_exp s3) as [[e s4]|] eqn:E2; [|lia].
    apply read_exp_length in E2. lia.
  - destruct (read_exp s2) as [[e s4]|] eqn:E2; [apply read_exp_length in E2; lia|].
    case_bool_decide; [|lia]. simpl. apply bool_decide_eq_true. lia.
Qed.

Lemma keyword_length s v r : keyword s = Some (v, r) → length r < length s.
Proof.
  unfold keyword. intros H.
  assert (Hk : ∀ k (v' : json) x, (if startswith s k then Some (v', drop (length k) s) else None) = Some x →
    k ≠ [] → length x.2 < length s).
  { intros k v' x Hx Hne. destruct (startswith s k) eqn:E; simplify_eq.
    apply startswith_spec in E as [r' ->]. simpl. rewrite drop_app_length, length_app.
    destruct k; simpl; [done|lia]. }
  repeat match type of H with
  | match ?x with _ => _ end = _ =>
      destruct x eqn:?; [match goal with E : _ = Some _ |- _ => apply Hk in E; [|done]; by simplify_eq end|]
  end. done.
Qed.

(** Sufficient fuel never runs out, and a parsed value consumes input. *)
Lemma parse_fuel fuel :
  (∀ s, 2 * length s < fuel →
    match parse_value fuel s with POk _ r => length r < length s | PErr e => json_error (length s) e = true | PFuel => False end) ∧
  (∀ acc s, 2 * length s + 1 < fuel →
    match parse_items fuel acc s with POk _ r => length r < length s | PErr e => json_error (length s) e = true | PFuel => False end) ∧
  (∀ acc s, 2 * length s + 1 < fuel →
    match parse_members fuel acc s with POk _ r => length r < length s | PErr e => json_error (length s) e = true | PFuel => False end).
Proof.
  induction fuel as [|fuel (IHv & IHi & IHm)]; [split_and!; intros; lia|]. split_and!.
  - intros s Hf. cbn [parse_value].
    destruct (expect 34 s) as [s1|] eqn:E1; [|destruct (expect 91 s) as [s1|] eqn:E2;
      [|destruct (expect 123 s) as [s1|] eqn:E3]].
    + apply expect_length in E1. pose proof (parse_string_spec fuel [] s1 ltac:(lia)).
      case_match; [lia|subst; done|done].
    + apply expect_length in E2. pose proof (skip_ws_length s1).
      destruct (expect 93 _) eqn:E; [apply expect_length in E; lia|].
      specialize (IHi [] (skip_ws s1) ltac:(lia)). case_match; [lia|eapply json_error_mono; [done|lia]|done].
    + apply expect_length in E3. pose proof (skip_ws_length s1).
      destruct (expect 125 _) eqn:E; [apply expect_length in E; lia|].
      specialize (IHm [] (skip_ws s1) ltac:(lia)). case_match; [lia|eapply json_error_mono; [done|lia]|done].
    + destruct (keyword s) as [[v r]|] eqn:E; [by apply keyword_length in E|apply parse_number_spec].
  - intros acc s Hf. cbn [parse_items]. specialize (IHv s ltac:(lia)).
    destruct (parse_value fuel s) as [v r|e|]; [|done|done]. pose proof (skip_ws_length r).
    destruct (expect 93 _) as [r1|] eqn:E1; [apply expect_length in E1; lia|].
    destruct (expect 44 _) as [r1|] eqn:E2; [|done].
    apply expect_length in E2. pose proof (skip_ws_length r1).
    specialize (IHi (v :: acc) (skip_ws r1) ltac:(lia)). case_match; [lia|eapply json_error_mono; [done|lia]|done].
  - intros acc s Hf. cbn [parse_members].
    destruct (expect 34 s) as [s1|] eqn:E1; [|done]. apply expect_length in E1.
    pose proof (parse_string_spec fuel [] s1 ltac:(lia)).
    destruct (parse_string fuel [] s1) as [k r|e|]; [|by subst|done]. pose proof (skip_ws_length r).
    destruct (expect 58 _) as [r1|] eqn:E2; [|done]. apply expect_length in E2.
    pose proof (skip_ws_length r1). specialize (IHv (skip_ws r1) ltac:(lia)).
    destruct (parse_value fuel _) as [v r2|e|]; [|eapply json_error_mono; [done|lia]|done]. pose proof (skip_ws_length r2).
    destruct (expect 125 _) as [r3|] eqn:E3; [apply expect_length in E3; lia|].
    destruct (expect 44 _) as [r3|] eqn:E4; [|done]. apply expect_length in E4.
    pose proof (skip_ws_length r3).
    specialize (IHm (dict_set acc k v) (skip_ws r3) ltac:(lia)). case_match; [lia|eapply json_error_mono; [done|lia]|done].
Qed.

(** [json_loads] never runs out of fuel: what it raises is an error of [json.loads]. *)
Lemma json_loads_errors s e : json_loads s = Raise e → json_error (length s) e = true.
Proof.
  unfold json_loads. destruct (expect _ s); [by intros [= <-]|].
  destruct (parse_fuel (S (2 * length s))) as [Hv _]. specialize (Hv (skip_ws s)).
  pose proof (skip_ws_length s). specialize (Hv ltac:(lia)).
  destruct (parse_value _ _) as [v r|e'|]; [|intros [= <-]; eapply json_error_mono; [done|lia]|done].
  case_bool_decide; [done|by intros [= <-]].
Qed.

(** A text of at most 4300 characters is parsed or malformed. *)
Lemma json_loads_short s e : length s ≤ int_max_str_digits → json_loads s = Raise e → e = JSONDecodeErr.
Proof.
  intros Hs H%json_loads_errors. destruct e; try done. simpl in H. apply bool_decide_eq_true in H. lia.
Qed.
