(* ===== verification/Decoding.v ===== *)
(** Bytes to text to JSON: [json.loads] of a [bytes] object, with the detection of the encoding
    and the strict decoders that let lone surrogates pass. *)
From S2P Require Import Prelude PyStr Errors Json.
From Stdlib Require Strings.Byte.

#[local] Open Scope N_scope.

(** ** UTF-8 *)

(** The lead bytes with the [surrogatepass] handler: [0xED] may be followed by any continuation. *)
Definition utf8_lead_pass (b : N) : option (nat * (N * N) * N) :=
  if b =? 237 then Some (2%nat, (128, 191), 13) else utf8_lead b.

(** [b.decode("utf-8")] for a set of lead bytes; [None] is the [UnicodeDecodeError]. *)
Section utf8_decode.
Context (lead : N → option (nat * (N * N) * N)).

Fixpoint utf8_decode (st : utf8_state) (bs : bytes) : option pystr :=
  match bs, st with
  | [], Utf8Start => Some []
  | [], Utf8Need _ _ _ _ => None
  | b :: bs, Utf8Start =>
      let c := Byte.to_N b in
      if c <? 128 then cons c <$> utf8_decode Utf8Start bs
      else match lead c with
           | Some (need, (lo, hi), acc) => utf8_decode (Utf8Need need lo hi acc) bs
           | None => None
           end
  | b :: bs, Utf8Need need lo hi acc =>
      let c := Byte.to_N b in
      if in_range lo hi c then
        let acc' := acc * 64 + (c - 128) in
        match need with
        | S (S n) => utf8_decode (Utf8Need (S n) 128 191 acc') bs
        | _ => cons acc' <$> utf8_decode Utf8Start bs
        end
      else None
  end.

Lemma utf8_decode_ascii s : is_ascii s = true → utf8_decode Utf8Start (ascii_encode s) = Some s.
Proof.
  unfold is_ascii. induction s as [|c s IH]; simpl; [done|].
  rewrite andb_true_iff, N.ltb_lt. intros [Hc Hs]. rewrite byte_of_N_small by lia.
  rewrite (proj2 (N.ltb_lt _ _)) by done. by rewrite IH.
Qed.
End utf8_decode.

(** [b.decode("utf-8")] and [b.decode("utf-8", "surrogatepass")] *)
Definition utf8_plain (bs : bytes) : option pystr := utf8_decode utf8_lead Utf8Start bs.
Definition utf8_strict (bs : bytes) : option pystr := utf8_decode utf8_lead_pass Utf8Start bs.

(** ** UTF-16 and UTF-32 *)

Definition unit16 (big : bool) (a b : Byte.byte) : N :=
  if big then Byte.to_N a * 256 + Byte.to_N b else Byte.to_N b * 256 + Byte.to_N a.

(** The code units; an odd byte is an error. *)
Fixpoint units16 (big : bool) (bs : bytes) : option (list N) :=
  match bs with
  | [] => Some []
  | a :: b :: bs => cons (unit16 big a b) <$> units16 big bs
  | _ => None
  end.

(** Surrogate pairs are joined, lone surrogates pass. *)
Fixpoint join_pairs (us : list N) : pystr :=
  match us with
  | hi :: (lo :: us') as rest =>
      if in_range 55296 56319 hi && in_range 56320 57343 lo
      then (65536 + (hi - 55296) * 1024 + (lo - 56320)) :: join_pairs us'
      else hi :: join_pairs rest
  | us => us
  end.

Definition utf16 (big : bool) (bs : bytes) : option pystr := join_pairs <$> units16 big bs.

Fixpoint utf32 (big : bool) (bs : bytes) : option pystr :=
  match bs with
  | [] => Some []
  | a :: b :: c :: d :: bs =>
      let n := if big then unit16 big a b * 65536 + unit16 big c d
               else unit16 big c d * 65536 + unit16 big a b in
      if n <=? 1114111 then cons n <$> utf32 big bs else None
  | _ => None
  end.

(** ** Detection *)

Inductive encoding := Utf8 | Utf16 (big : bool) | Utf32 (big : bool).

(** [json.detect_encoding]: the encoding and the length of the byte order mark it skips. *)
Definition detect_encoding (bs : bytes) : encoding * nat :=
  match map Byte.to_N (take 4 bs) with
  | [0; 0; 254; 255] => (Utf32 true, 4%nat)
  | [255; 254; 0; 0] => (Utf32 false, 4%nat)
  | 254 :: 255 :: _ => (Utf16 true, 2%nat)
  | 255 :: 254 :: _ => (Utf16 false, 2%nat)
  | 239 :: 187 :: 191 :: _ => (Utf8, 3%nat)
  | [0; 0; _; _] => (Utf32 true, 0%nat)
  | [0; _; _; _] => (Utf16 true, 0%nat)
  | [_; 0; 0; 0] => (Utf32 false, 0%nat)
  | [_; 0; _; _] => (Utf16 false, 0%nat)
  | [0; _] => (Utf16 true, 0%nat)
  | [_; 0] => (Utf16 false, 0%nat)
  | _ => (Utf8, 0%nat)
  end.

Definition decode_detected (bs : bytes) : option pystr :=
  let '(e, skip) := detect_encoding bs in
  match e with
  | Utf8 => utf8_strict (drop skip bs)
  | Utf16 big => utf16 big (drop skip bs)
  | Utf32 big => utf32 big (drop skip bs)
  end.

(** [json.loads(b)] for [bytes] *)
Definition json_loads_bytes (bs : bytes) : outcome json :=
  match decode_detected bs with
  | None => Raise UnicodeDecodeErr
  | Some s => json_loads s
  end.

Example json_loads_bytes_ex1 : json_loads_bytes (blit "[1]") = Ok (JList [JInt 1]).
Proof. vm_compute. reflexivity. Qed.
Example json_loads_bytes_ex2 :
  json_loads_bytes [Byte.x5b; Byte.x00; Byte.x31; Byte.x00; Byte.x5d; Byte.x00] = Ok (JList [JInt 1]).
Proof. vm_compute. reflexivity. Qed.
Example json_loads_bytes_ex3 : json_loads_bytes [Byte.x22; Byte.xff; Byte.x22] = Raise UnicodeDecodeErr.
Proof. vm_compute. reflexivity. Qed.

(** ** Encoding and decoding agree *)

Lemma in_range_spec lo hi c : in_range lo hi c = true ↔ lo <= c <= hi.
Proof. unfold in_range. by rewrite andb_true_iff, !N.leb_le. Qed.
