(* ===== verification/Sha256.v ===== *)
(** SHA-256 and HMAC-SHA256, as [hashlib.sha256(...).hexdigest()] and
    [hmac.new(key, msg, sha256).hexdigest()] compute them.  Words are 32-bit
    values in [N] with the wrap-around written out. *)
From S2P Require Import Prelude PyStr.
From Stdlib Require Import NArith.
From Stdlib Require Strings.Byte.

Definition w32 (n : N) : N := (n mod 4294967296)%N.
Definition add32 (a b : N) : N := w32 (a + b).
Definition not32 (a : N) : N := (4294967295 - w32 a)%N.
Definition rotr (k a : N) : N := N.lor (N.shiftr a k) (w32 (N.shiftl a (32 - k))).

(** The constants of the standard are the first 32 bits of the fractional parts of the square and
    cube roots of the first primes; they are computed here from that description. *)
Definition is_prime (n : N) : bool :=
  (2 <=? n)%N && forallb (λ k, negb (n mod N.of_nat k =? 0)%N) (seq 2 (N.to_nat (N.sqrt n) - 1)).

Definition primes (bound : nat) : list N := List.filter is_prime (map N.of_nat (seq 2 bound)).

(** The greatest [r] below [2 ^ bits] with [r ^ 3 <= n], by bisection from the top bit. *)
Fixpoint cube_root (bits : nat) (r n : N) : N :=
  match bits with
  | O => r
  | S b => let r' := (r + 2 ^ N.of_nat b)%N in cube_root b (if (r' ^ 3 <=? n)%N then r' else r) n
  end.

Definition sqrt_bits (p : N) : N := w32 (N.sqrt (p * 2 ^ 64)).
Definition cbrt_bits (p : N) : N := w32 (cube_root 36 0 (p * 2 ^ 96)).

Definition round_constants : list N := Eval vm_compute in map cbrt_bits (primes 310).

Record hash_state := HS { ha : N; hb : N; hc : N; hd : N; he : N; hf : N; hg : N; hh : N }.

Definition initial_state : hash_state :=
  Eval vm_compute in
  match map sqrt_bits (take 8 (primes 310)) with
  | [a; b; c; d; e; f; g; h] => HS a b c d e f g h
  | _ => HS 0 0 0 0 0 0 0 0
  end.

Example round_constants_count : length round_constants = 64 ∧ last round_constants = Some 0xc67178f2%N.
Proof. vm_compute. done. Qed.

(** [n] as [w] bytes, most significant first. *)
Fixpoint be_bytes (w : nat) (n : N) : bytes :=
  match w with
  | O => []
  | S w' => be_bytes w' (n / 256)%N ++ [byte_of_N n]
  end.

(** The message, a one bit, zeros up to 56 bytes modulo 64, and the length in bits. *)
Definition pad_message (msg : bytes) : bytes :=
  let l := N.of_nat (length msg) in
  let zeros := N.to_nat ((119 - l mod 64) mod 64)%N in
  msg ++ [Byte.x80] ++ replicate zeros Byte.x00 ++ be_bytes 8 (l * 8)%N.

Fixpoint words_of (bs : bytes) : list N :=
  match bs with
  | a :: b :: c :: d :: bs' =>
      (((Byte.to_N a * 256 + Byte.to_N b) * 256 + Byte.to_N c) * 256 + Byte.to_N d)%N :: words_of bs'
  | _ => []
  end.

(** The message schedule, newest word first: extends the sixteen words of a block by [n]. *)
Fixpoint schedule (n : nat) (ws : list N) : list N :=
  match n with
  | O => ws
  | S n' =>
      let w := λ i, default 0%N (ws !! i) in
      let s0 := N.lxor (N.lxor (rotr 7 (w 14%nat)) (rotr 18 (w 14%nat))) (N.shiftr (w 14%nat) 3) in
      let s1 := N.lxor (N.lxor (rotr 17 (w 1%nat)) (rotr 19 (w 1%nat))) (N.shiftr (w 1%nat) 10) in
      schedule n' (add32 (add32 (w 15%nat) s0) (add32 (w 6%nat) s1) :: ws)
  end.

Definition sha_round (st : hash_state) (kw : N * N) : hash_state :=
  let '(HS a b c d e f g h) := st in
  let s1 := N.lxor (N.lxor (rotr 6 e) (rotr 11 e)) (rotr 25 e) in
  let ch := N.lxor (N.land e f) (N.land (not32 e) g) in
  let t1 := add32 (add32 (add32 h s1) (add32 ch kw.1)) kw.2 in
  let s0 := N.lxor (N.lxor (rotr 2 a) (rotr 13 a)) (rotr 22 a) in
  let maj := N.lxor (N.lxor (N.land a b) (N.land a c)) (N.land b c) in
  HS (add32 t1 (add32 s0 maj)) a b c (add32 d t1) e f g.

Definition compress (st : hash_state) (block : list N) : hash_state :=
  let ws := rev (schedule 48 (rev block)) in
  let r := foldl sha_round st (zip round_constants ws) in
  HS (add32 (ha st) (ha r)) (add32 (hb st) (hb r)) (add32 (hc st) (hc r)) (add32 (hd st) (hd r))
     (add32 (he st) (he r)) (add32 (hf st) (hf r)) (add32 (hg st) (hg r)) (add32 (hh st) (hh r)).

Fixpoint blocks (fuel : nat) (ws : list N) : list (list N) :=
  match fuel, ws with
  | S fuel', _ :: _ => take 16 ws :: blocks fuel' (drop 16 ws)
  | _, _ => []
  end.

Definition sha256_state (msg : bytes) : hash_state :=
  let ws := words_of (pad_message msg) in
  foldl compress initial_state (blocks (length ws) ws).

Definition state_words (st : hash_state) : list N :=
  [ha st; hb st; hc st; hd st; he st; hf st; hg st; hh st].

(** [sha256(msg).digest()] and [sha256(msg).hexdigest()] *)
Definition sha256_digest (msg : bytes) : bytes :=
  concat (map (be_bytes 4) (state_words (sha256_state msg))).

Definition sha256_hex (msg : bytes) : pystr :=
  concat (map (hex_digits 8) (state_words (sha256_state msg))).

(** [hmac.new(key, msg, sha256)] *)
Definition hmac_block (pad : N) (key : bytes) : bytes :=
  let k := if bool_decide (64 < length key) then sha256_digest key else key in
  map (λ b, byte_of_N (N.lxor pad (Byte.to_N b))) (k ++ replicate (64 - length k) Byte.x00).

Definition hmac_sha256_hex (key msg : bytes) : pystr :=
  sha256_hex (hmac_block 0x5c key ++ sha256_digest (hmac_block 0x36 key ++ msg)).

Lemma sha256_hex_length msg : length (sha256_hex msg) = 64.
Proof. unfold sha256_hex, state_words. cbn [map concat]. by rewrite !length_app, !hex_digits_length. Qed.

Lemma hex_digit_class n : is_digit (digit_char (n mod 16)) || in_range 97 102 (digit_char (n mod 16)) = true.
Proof.
  assert (Hlt : (n mod 16 < 16)%N) by (by apply N.mod_lt).
  revert Hlt. generalize (n mod 16)%N. intros d Hlt. unfold digit_char, is_digit, in_range.
  destruct (N.ltb_spec d 10); apply orb_true_iff; [left|right];
    apply andb_true_iff; rewrite !N.leb_le; lia.
Qed.

Example sha256_abc :
  sha256_hex (blit "abc") = lit "ba7816bf8f01cfea414140de5dae2223b00361a396177a9cb410ff61f20015ad".
Proof. vm_compute. reflexivity. Qed.

Example sha256_two_blocks :
  sha256_hex (blit "abcdbcdecdefdefgefghfghighijhijkijkljklmklmnlmnomnopnopq")
  = lit "248d6a61d20638b8e5c026930c3e6039a33ce45964ff2167f6ecedd419db06c1".
Proof. vm_compute. reflexivity. Qed.

Example hmac_rfc4231_case_2 :
  hmac_sha256_hex (blit "Jefe") (blit "what do ya want for nothing?")
  = lit "5bdcc146bf60754e6a042426089575c75a003f089d2739839dec58b964ec3843".
Proof. vm_compute. reflexivity. Qed.
