(* ===== verification/Serialization.v ===== *)
(** [serialization.py]: canonical JSON bytes and their SHA-256, with the
    [json.dumps] rendering they rest on (sorted keys, no insignificant space,
    no NaN, no ASCII escapes).

    The main result is that the bytes do not depend on the order in which a
    publisher wrote the keys of its objects. *)
From S2P Require Import Prelude PyStr Errors Floats Json Sha256.
From Stdlib Require Import ZArith SpecFloat.

(** ** [float.__repr__] *)

(** Number of decimal digits of a positive number. *)
Definition num_digits (z : Z) : Z := Z.of_nat (length (str_of_Z z)).

(** [p] with [10 ^ (p - 1) <= num / den < 10 ^ p]. *)
Definition dec_exponent (num den : Z) : Z :=
  (if den <=? num then num_digits (num / den)
   else 1 - num_digits ((den - 1) / num))%Z.

(** The two integers around [num / den], the nearer first, an even one on a tie. *)
Definition neighbours (num den : Z) : list Z :=
  let q := (num / den)%Z in
  let r := (num mod den)%Z in
  match (2 * r ?= den)%Z with
  | Lt => [q; q + 1]
  | Gt => [q + 1; q]
  | Eq => if Z.even q then [q; q + 1] else [q + 1; q]
  end%Z.

Definition eqb_float (x y : float) : bool :=
  match x, y with
  | S754_finite s m e, S754_finite t m' e' => Bool.eqb s t && Pos.eqb m m' && Z.eqb e e'
  | _, _ => false
  end.

(** The digits and decimal exponent with [k] digits, when one of the two nearest reads back. *)
Definition short_digits (x : float) (num den p : Z) (k : Z) : option (Z * Z) :=
  let scale := (k - p)%Z in
  let '(n, d) := if (0 <=? scale)%Z then (num * 10 ^ scale, den)%Z
                 else (num, den * 10 ^ (- scale))%Z in
  match List.filter (λ q, eqb_float (float_of_decimal false q (- scale)) x) (neighbours n d) with
  | q :: _ => Some (q, (- scale)%Z)
  | [] => None
  end.

(** The shortest digits that read back as the positive float [m * 2 ^ e]. *)
Definition shortest (m : positive) (e : Z) : Z * Z :=
  let '(num, den) := if (0 <=? e)%Z then (Zpos m * 2 ^ e, 1)%Z else (Zpos m, 2 ^ (- e))%Z in
  let p := dec_exponent num den in
  let fix go (fuel : nat) (k : Z) : Z * Z :=
    match fuel with
    | O => (num / den, 0)%Z
    | S fuel' =>
        match short_digits (S754_finite false m e) num den p k with
        | Some r => r
        | None => go fuel' (k + 1)%Z
        end
    end in
  go 18%nat 1%Z.

Definition strip_zeros (ds : pystr) : pystr := rstrip_p (λ c, (c =? 48)%N) ds.

(** Format digits with the decimal point after [p] of them: plain, or with an exponent when
    the point is far away. *)
Definition format_digits (ds : pystr) (p : Z) : pystr :=
  let n := Z.of_nat (length ds) in
  if (p <=? -4)%Z || (16 <? p)%Z then
    let e := (p - 1)%Z in
    take 1 ds ++ (if bool_decide (1 < length ds) then [46%N] ++ drop 1 ds else []) ++ [101%N] ++
    (if (e <? 0)%Z then [45%N] else [43%N]) ++
    (if (Z.abs e <? 10)%Z then [48%N] else []) ++ str_of_Z (Z.abs e)
  else if (p <=? 0)%Z then lit "0." ++ replicate (Z.to_nat (- p)) 48%N ++ ds
  else if (n <=? p)%Z then ds ++ replicate (Z.to_nat (p - n)) 48%N ++ lit ".0"
  else take (Z.to_nat p) ds ++ [46%N] ++ drop (Z.to_nat p) ds.

(** [float.__repr__] of a finite float. *)
Definition float_repr (x : float) : pystr :=
  match x with
  | S754_finite s m e =>
      let '(q, ex) := shortest m e in
      let ds := str_of_Z q in
      (if s then [45%N] else []) ++ format_digits (strip_zeros ds) (Z.of_nat (length ds) + ex)
  | S754_zero s => (if s then [45%N] else []) ++ lit "0.0"
  | S754_infinity s => (if s then [45%N] else []) ++ lit "inf"
  | S754_nan => lit "nan"
  end.

Definition repr_of (s : pystr) : option pystr := float_repr <$> float_of_str s.

Example float_repr_ex :
  map (λ s, repr_of (lit s)) ["0.1"; "100"; "1e16"; "1e17"; "123456.789"; "1e-4"; "1e-5"; "2.5e-310"; "1.7976931348623157e308"]
  = map (λ s, Some (lit s)) ["0.1"; "100.0"; "1e+16"; "1e+17"; "123456.789"; "0.0001"; "1e-05"; "2.5e-310"; "1.7976931348623157e+308"].
Proof. vm_compute. reflexivity. Qed.

(** ** [json.dumps] *)

(** Lexicographic order of strings by code point. *)
Fixpoint str_le_b (a b : pystr) : bool :=
  match a, b with
  | [], _ => true
  | _ :: _, [] => false
  | x :: a', y :: b' => (x <? y)%N || ((x =? y)%N && str_le_b a' b')
  end.

Definition str_le : relation pystr := λ a b, str_le_b a b = true.

#[export] Instance str_le_dec : RelDecision str_le.
Proof. intros a b. unfold str_le. apply _. Defined.

Definition hex_u (c : N) : pystr := lit "\u" ++ hex_digits 4 c.

(** One character of a string literal. *)
Definition escape_char (c : N) : pystr :=
  if (c =? 34)%N then [92%N; 34%N] else if (c =? 92)%N then [92%N; 92%N]
  else if (c =? 10)%N then lit "\n" else if (c =? 13)%N then lit "\r"
  else if (c =? 9)%N then lit "\t" else if (c =? 12)%N then lit "\f"
  else if (c =? 8)%N then lit "\b" else if (c <? 32)%N then hex_u c
  else [c].

Definition dump_string (s : pystr) : pystr := [34%N] ++ concat (map escape_char s) ++ [34%N].

Fixpoint join_comma (l : list pystr) : pystr :=
  match l with
  | [] => []
  | [x] => x
  | x :: l' => x ++ [44%N] ++ join_comma l'
  end.

(** The order of the items of a rendered object. *)
Definition item_le : relation (pystr * pystr) := λ x y, str_le x.1 y.1.

#[export] Instance item_le_dec : RelDecision item_le.
Proof. intros x y. unfold item_le. apply _. Defined.

Definition dump_items (items : list (pystr * pystr)) : pystr :=
  [123%N] ++ join_comma (map (λ kv, dump_string kv.1 ++ [58%N] ++ kv.2) (merge_sort item_le items)) ++ [125%N].

(** The list of results, unless one of them is missing. *)
Fixpoint all_some {A : Type} (l : list (option A)) : option (list A) :=
  match l with
  | [] => Some []
  | Some a :: l' => cons a <$> all_some l'
  | None :: _ => None
  end.

(** [json.dumps(value, allow_nan=False, ensure_ascii=False, separators=(",", ":"), sort_keys=True)];
    [None] is the [ValueError] of a non-finite float or of an integer with too many digits. *)
Fixpoint json_dumps (v : json) : option pystr :=
  match v with
  | JNull => Some (lit "null")
  | JBool true => Some (lit "true")
  | JBool false => Some (lit "false")
  | JInt z =>
      if bool_decide (int_max_str_digits < length (str_of_Z (Z.abs z))) then None
      else Some (str_of_Z z)
  | JFloat x => if isfinite x then Some (float_repr x) else None
  | JStr s => Some (dump_string s)
  | JList l =>
      (λ ss, [91%N] ++ join_comma ss ++ [93%N]) <$> all_some (map json_dumps l)
  | JDict d =>
      dump_items <$> all_some (map (λ '(k, x), pair k <$> json_dumps x) d)
  end.

(** [serialization.canonical_json_bytes]: the encoding is outside the [try] block, so a lone
    surrogate escapes as [UnicodeEncodeError]. *)
Definition canonical_json_bytes (value : json) : outcome bytes :=
  match json_dumps value with
  | None => Raise (CanonicalJSONErr (lit "value is not valid JSON"))
  | Some encoded =>
      match utf8_encode encoded with
      | Some b => Ok b
      | None => Raise UnicodeEncodeErr
      end
  end.

(** [serialization.canonical_sha256] *)
Definition canonical_sha256 (value : json) : outcome pystr :=
  sha256_hex <$> canonical_json_bytes value.

Example canonical_ex :
  canonical_json_bytes (JDict [(lit "b", JList [JInt 2; JNull; JFloat (float_of_Z 1)]); (lit "a", JStr (lit "x"))])
  = Ok (map byte_of_N (jlit "{'a':'x','b':[2,null,1.0]}")).
Proof. vm_compute. reflexivity. Qed.

(** ** Key order *)

#[export] Instance str_le_total : Total str_le.
Proof.
  intros a. unfold str_le. induction a as [|x a IH]; intros [|y b]; simpl; auto.
  destruct (N.lt_trichotomy x y) as [Hlt|[->|Hgt]].
  - left. by rewrite (proj2 (N.ltb_lt x y)).
  - rewrite N.eqb_refl. destruct (IH b) as [->| ->]; rewrite orb_true_r; auto.
  - right. by rewrite (proj2 (N.ltb_lt y x)).
Qed.

#[export] Instance str_le_trans : Transitive str_le.
Proof.
  intros a. unfold str_le. induction a as [|x a IH]; intros [|y b] [|z c]; simpl; try done.
  rewrite !orb_true_iff, !andb_true_iff, !N.ltb_lt, !N.eqb_eq.
  intros [?|[-> ?]] [?|[-> ?]]; try (left; lia); right; eauto.
Qed.

#[export] Instance str_le_antisymm : AntiSymm (=) str_le.
Proof.
  intros a. unfold str_le. induction a as [|x a IH]; intros [|y b]; simpl; try done.
  rewrite !orb_true_iff, !andb_true_iff, !N.ltb_lt, !N.eqb_eq.
  intros [?|[-> ?]] [?|[? ?]]; try lia. f_equal. by apply IH.
Qed.

Lemma all_some_Some {A} (l : list (option A)) k : all_some l = Some k ↔ l = map Some k.
Proof.
  revert k. induction l as [|[a|] l IH]; intros k; simpl.
  - destruct k; split; done.
  - rewrite fmap_Some. split.
    + intros [k' [E ->]]. apply IH in E as ->. done.
    + destruct k as [|b k]; [done|]. intros [= <- E]. exists k. by rewrite IH.
  - split; [done|]. destruct k; done.
Qed.

Lemma all_some_perm {A} (l l' : list (option A)) :
  l ≡ₚ l' →
  match all_some l, all_some l' with
  | Some k, Some k' => k ≡ₚ k'
  | None, None => True
  | _, _ => False
  end.
Proof.
  induction 1 as [|x l l' Hp IH|x y l|l1 l2 l3 H1 IH1 H2 IH2]; simpl; [done| | |].
  - destruct x as [a|]; [|done]. destruct (all_some l), (all_some l'); simpl; try done.
    by constructor.
  - destruct x as [a|], y as [b|]; try done. destruct (all_some l); simpl; [|done]. constructor.
  - destruct (all_some l1), (all_some l2), (all_some l3); try done. by etrans.
Qed.

(** Two values that differ at most in the order of object keys, at any depth. *)
Inductive same_json : json → json → Prop :=
| same_refl v : same_json v v
| same_list l l' : Forall2 same_json l l' → same_json (JList l) (JList l')
| same_dict d d2 d' :
    NoDup d.*1 → d ≡ₚ d2 → Forall2 (λ x y, x.1 = y.1 ∧ same_json x.2 y.2) d2 d' →
    same_json (JDict d) (JDict d').

Lemma item_le_trans : Transitive item_le.
Proof. intros x y z. unfold item_le. apply str_le_trans. Qed.

Lemma item_le_total : Total item_le.
Proof. intros x y. unfold item_le. apply (total str_le). Qed.

(** Sorting by key forgets the order of the items when no key is repeated. *)
Lemma sort_items_perm (a b : list (pystr * pystr)) :
  NoDup a.*1 → a ≡ₚ b → merge_sort item_le a = merge_sort item_le b.
Proof.
  intros ND Hp. pose proof item_le_trans. pose proof item_le_total.
  apply (Sorted_unique_strong item_le); try (apply Sorted_merge_sort; apply _).
  - intros [k1 v1] [k2 v2]. rewrite !merge_sort_Permutation, <- Hp. intros H1 H2 L1 L2.
    assert (k1 = k2) as -> by (by apply (anti_symm str_le)).
    apply list_elem_of_lookup in H1 as [i Hi], H2 as [j Hj].
    assert (Hi' : a.*1 !! i = Some k2) by (by rewrite list_lookup_fmap, Hi).
    assert (Hj' : a.*1 !! j = Some k2) by (by rewrite list_lookup_fmap, Hj).
    pose proof (NoDup_lookup _ _ _ _ ND Hi' Hj'). congruence.
  - by rewrite !merge_sort_Permutation.
Qed.

Lemma dumped_keys (d : list (pystr * json)) (items : list (pystr * pystr)) :
  all_some (map (λ '(k, x), pair k <$> json_dumps x) d) = Some items → items.*1 = d.*1.
Proof.
  intros E%all_some_Some. revert items E. induction d as [|[k x] d IH]; intros [|[k' s] items]; try done.
  simpl. intros [= Ex Ed]. destruct (json_dumps x); simplify_eq/=. f_equal. by apply IH.
Qed.

Lemma same_json_dumps v w : same_json v w → json_dumps v = json_dumps w.
Proof.
  revert v w. fix IH 3. intros v w [u|l l' Hl|d d2 d' ND Hp Hd]; [done| |]; cbn [json_dumps].
  - f_equal. f_equal. induction Hl as [|x y l l' Hxy Hl IHl]; [done|].
    simpl. by rewrite (IH x y Hxy), IHl.
  - assert (E : map (λ '(k, x), pair k <$> json_dumps x) d2 = map (λ '(k, x), pair k <$> json_dumps x) d').
    { clear Hp ND. induction Hd as [|[k x] [k' y] d2 d' [Hk Hxy] Hd IHd]; [done|].
      simpl in Hk, Hxy |- *. rewrite Hk, (IH x y Hxy), IHd. done. }
    rewrite <- E.
    pose proof (all_some_perm _ _ (Permutation_map (λ '(k, x), pair k <$> json_dumps x) Hp)) as Hi.
    destruct (all_some (map _ d)) as [a|] eqn:Ea, (all_some (map _ d2)) as [b|]; try done.
    simpl. f_equal. unfold dump_items. rewrite (sort_items_perm a b); [done| |done].
    by rewrite (dumped_keys d a).
Qed.

(** C40: the canonical bytes of a JSON value, and so its SHA-256, are the same whatever the
    order in which object keys were supplied, at every depth. *)
Theorem canonical_key_order v w :
  same_json v w →
  canonical_json_bytes v = canonical_json_bytes w ∧ canonical_sha256 v = canonical_sha256 w.
Proof.
  intros E%same_json_dumps. unfold canonical_sha256, canonical_json_bytes. by rewrite E.
Qed.

Lemma canonical_key_order_witness :
  canonical_json_bytes (JDict [(lit "b", JInt 1); (lit "a", JDict [(lit "y", JNull); (lit "x", JInt 2)])])
  = canonical_json_bytes (JDict [(lit "a", JDict [(lit "x", JInt 2); (lit "y", JNull)]); (lit "b", JInt 1)]) ∧
  canonical_sha256 (JDict [(lit "b", JInt 1); (lit "a", JDict [(lit "y", JNull); (lit "x", JInt 2)])])
  = canonical_sha256 (JDict [(lit "a", JDict [(lit "x", JInt 2); (lit "y", JNull)]); (lit "b", JInt 1)]).
Proof.
  apply (canonical_key_order
    (JDict [(lit "b", JInt 1); (lit "a", JDict [(lit "y", JNull); (lit "x", JInt 2)])])
    (JDict [(lit "a", JDict [(lit "x", JInt 2); (lit "y", JNull)]); (lit "b", JInt 1)])).
  apply (same_dict _ [(lit "a", JDict [(lit "y", JNull); (lit "x", JInt 2)]); (lit "b", JInt 1)]).
  - apply (bool_decide_unpack _). vm_compute. exact I.
  - apply perm_swap.
  - constructor.
    + split; [reflexivity|]. apply (same_dict _ [(lit "x", JInt 2); (lit "y", JNull)]).
      * apply (bool_decide_unpack _). vm_compute. exact I.
      * apply perm_swap.
      * repeat (constructor; [split; [reflexivity|apply same_refl]|]). constructor.
    + constructor; [split; [reflexivity|apply same_refl]|]. constructor.
Defined.

(** Text with a lone surrogate is not reported as [CanonicalJSONError]: the encoding step
    outside the [try] block raises [UnicodeEncodeError]. *)
Theorem canonical_surrogate_escapes :
  canonical_json_bytes (JDict [(lit "a", JStr [0xd800%N])]) = Raise UnicodeEncodeErr.
Proof. vm_compute. reflexivity. Qed.
