(* ===== verification/StateMachine.v ===== *)
(** [deliveries/state_machine.py]: delivery states, attempt states and the table
    of legal transitions, with the facts about that table the other files use. *)
From S2P Require Import Prelude PyStr Errors.

Inductive DeliveryStatus :=
| PENDING
| IN_PROGRESS
| RETRY_WAIT
| DELIVERED
| DEAD_LETTERED.

Inductive DeliveryAttemptStatus :=
| ATTEMPT_IN_PROGRESS
| ATTEMPT_COMPLETED
| ATTEMPT_INDETERMINATE.

#[export] Instance DeliveryStatus_eq_dec : EqDecision DeliveryStatus.
Proof. solve_decision. Defined.

#[export] Instance DeliveryAttemptStatus_eq_dec : EqDecision DeliveryAttemptStatus.
Proof. solve_decision. Defined.

(** The values of the [StrEnum] members. *)
Definition DeliveryStatus_value (s : DeliveryStatus) : pystr :=
  match s with
  | PENDING => lit "pending"
  | IN_PROGRESS => lit "in_progress"
  | RETRY_WAIT => lit "retry_wait"
  | DELIVERED => lit "delivered"
  | DEAD_LETTERED => lit "dead_lettered"
  end.

Definition DeliveryAttemptStatus_value (s : DeliveryAttemptStatus) : pystr :=
  match s with
  | ATTEMPT_IN_PROGRESS => lit "in_progress"
  | ATTEMPT_COMPLETED => lit "completed"
  | ATTEMPT_INDETERMINATE => lit "indeterminate"
  end.

(** [state_machine.ALLOWED_TRANSITIONS] *)
Definition ALLOWED_TRANSITIONS (current : DeliveryStatus) : list DeliveryStatus :=
  match current with
  | PENDING => [IN_PROGRESS; DEAD_LETTERED]
  | IN_PROGRESS => [DELIVERED; RETRY_WAIT; DEAD_LETTERED]
  | RETRY_WAIT => [IN_PROGRESS; DEAD_LETTERED]
  | DELIVERED => []
  | DEAD_LETTERED => []
  end.

(** [state_machine.ensure_transition] *)
Definition ensure_transition (current target : DeliveryStatus) : outcome unit :=
  if bool_decide (target ∉ ALLOWED_TRANSITIONS current) then
    Raise (InvalidTransitionErr (lit "cannot transition from " ++ DeliveryStatus_value current ++
                                 lit " to " ++ DeliveryStatus_value target))
  else Ok tt.

(** ** The documented lifecycle *)

(** The transitions the reliability contract draws, as a relation. *)
Inductive lifecycle : DeliveryStatus → DeliveryStatus → Prop :=
| lc_claim_pending : lifecycle PENDING IN_PROGRESS
| lc_claim_retry : lifecycle RETRY_WAIT IN_PROGRESS
| lc_deliver : lifecycle IN_PROGRESS DELIVERED
| lc_retry : lifecycle IN_PROGRESS RETRY_WAIT
| lc_fail : lifecycle IN_PROGRESS DEAD_LETTERED
| lc_drop_pending : lifecycle PENDING DEAD_LETTERED
| lc_drop_retry : lifecycle RETRY_WAIT DEAD_LETTERED.

Definition terminal (s : DeliveryStatus) : bool :=
  match s with DELIVERED | DEAD_LETTERED => true | _ => false end.

(** [repositories.get_active] and [maintenance.ACTIVE_DELIVERY_STATUSES]. *)
Definition active (s : DeliveryStatus) : bool := negb (terminal s).

Create HintDb lifecycle discriminated.
#[export] Hint Constructors lifecycle : lifecycle.

Lemma ensure_transition_Ok s t : ensure_transition s t = Ok tt ↔ t ∈ ALLOWED_TRANSITIONS s.
Proof. unfold ensure_transition. case_bool_decide; split; done. Qed.

Lemma allowed_lifecycle s t : t ∈ ALLOWED_TRANSITIONS s ↔ lifecycle s t.
Proof.
  split.
  - destruct s; simpl; rewrite ?elem_of_cons, ?elem_of_nil; intros; destruct_or?; subst;
      auto with lifecycle; done.
  - intros []; simpl; set_solver.
Qed.

(** [ensure_transition] accepts exactly the transitions the reliability
    contract documents, and raises for every other pair of states. *)
Theorem ensure_transition_lifecycle s t :
  (ensure_transition s t = Ok tt ↔ lifecycle s t) ∧
  (¬ lifecycle s t → ∃ msg, ensure_transition s t = Raise (InvalidTransitionErr msg)).
Proof.
  rewrite ensure_transition_Ok, allowed_lifecycle. split; [done|].
  intros Hn. unfold ensure_transition. rewrite bool_decide_eq_true_2; [eauto|].
  by rewrite allowed_lifecycle.
Qed.

Lemma lifecycle_source_active s t : lifecycle s t → active s = true.
Proof. by intros []. Qed.

Lemma lifecycle_terminal s t : rtc lifecycle s t → terminal s = true → t = s.
Proof.
  destruct 1 as [|s u t Hs _]; [done|]. intros Ht.
  apply lifecycle_source_active in Hs. unfold active in Hs. by rewrite Ht in Hs.
Qed.

#[export] Hint Resolve lifecycle_source_active : lifecycle.
