(* ===== verification/Retry.v ===== *)
(** [deliveries/retry.py]: disposition of an HTTP status, receiver evidence that
    blocks a replay, and the bounded full-jitter backoff. *)
From S2P Require Import Prelude PyStr Errors Floats Json.
From Stdlib Require Import ZArith.

Inductive DeliveryDisposition :=
| SUCCEEDED
| RETRY
| TERMINAL_FAILURE.

Inductive ReplayBlockCode :=
| ENDPOINT_DISABLED
| PAYLOAD_CORRECTION_REQUIRED.

#[export] Instance DeliveryDisposition_eq_dec : EqDecision DeliveryDisposition.
Proof. solve_decision. Defined.

#[export] Instance ReplayBlockCode_eq_dec : EqDecision ReplayBlockCode.
Proof. solve_decision. Defined.

Definition ReplayBlockCode_value (c : ReplayBlockCode) : pystr :=
  match c with
  | ENDPOINT_DISABLED => lit "endpoint_disabled"
  | PAYLOAD_CORRECTION_REQUIRED => lit "payload_correction_required"
  end.

Definition RETRYABLE_STATUS_CODES : list Z := [408; 425; 429]%Z.

Definition RECEIVER_PAYLOAD_ERROR_CODES : list pystr :=
  [lit "invalid_json"; lit "invalid_payload"; lit "invalid_data"; lit "unsupported_event_type";
   lit "invalid_currency"; lit "invalid_quantity_remaining"; lit "invalid_reorder_threshold"].

(** ** Replay evidence *)

(** The decision of [replay_block_code] once the body is parsed. *)
Definition payload_block (response : json) : option ReplayBlockCode :=
  match response with
  | JDict d =>
      match dict_get d (lit "code") with
      | Some (JStr code) =>
          if startswith code (lit "missing_") || str_in code RECEIVER_PAYLOAD_ERROR_CODES
          then Some PAYLOAD_CORRECTION_REQUIRED
          else None
      | _ => None
      end
  | _ => None
  end.

(** [retry.replay_block_code]: a malformed body is no evidence; the other errors of
    [json.loads] are not caught. *)
Definition replay_block_code (http_status_code : option Z) (response_body_excerpt : option pystr)
  : outcome (option ReplayBlockCode) :=
  match http_status_code, response_body_excerpt with
  | Some 400%Z, Some excerpt =>
      match json_loads excerpt with
      | Ok response => Ok (payload_block response)
      | Raise JSONDecodeErr => Ok None
      | Raise e => Raise e
      end
  | _, _ => Ok None
  end.

Lemma replay_block_code_errors status excerpt e :
  replay_block_code status excerpt = Raise e → ∃ msg, e = ValueErr msg.
Proof.
  unfold replay_block_code. intros H. repeat case_match; simplify_eq;
    match goal with E : json_loads _ = Raise _ |- _ => apply json_loads_errors in E end; eauto; done.
Qed.

(** A replay is blocked exactly by a 400 response whose body is a JSON object with a
    string [code] that names a missing field or one of the listed payload errors; the only
    error that can escape is an integer literal too long for Python. *)
Theorem replay_block_code_spec status excerpt :
  (replay_block_code status excerpt = Ok (Some PAYLOAD_CORRECTION_REQUIRED) ↔
     status = Some 400%Z ∧ ∃ text d code,
       excerpt = Some text ∧ json_loads text = Ok (JDict d) ∧
       dict_get d (lit "code") = Some (JStr code) ∧
       ((∃ field, code = lit "missing_" ++ field) ∨ code ∈ RECEIVER_PAYLOAD_ERROR_CODES)) ∧
  replay_block_code status excerpt ≠ Ok (Some ENDPOINT_DISABLED) ∧
  (∀ e, replay_block_code status excerpt = Raise e → ∃ msg, e = ValueErr msg).
Proof.
  assert (Hpb : ∀ r, payload_block r = Some PAYLOAD_CORRECTION_REQUIRED ↔
    ∃ d code, r = JDict d ∧ dict_get d (lit "code") = Some (JStr code) ∧
      ((∃ field, code = lit "missing_" ++ field) ∨ code ∈ RECEIVER_PAYLOAD_ERROR_CODES)).
  { intros r. unfold payload_block. split.
    - intros H. repeat case_match; simplify_eq. eexists _, _. split_and!; [done|done|].
      apply orb_true_iff in H3 as [H3|H3]; [left; by apply startswith_spec|right].
      by apply bool_decide_eq_true in H3.
    - intros (d & code & -> & -> & Hc). rewrite (proj2 (orb_true_iff _ _)); [done|].
      destruct Hc as [Hc|Hc]; [left; by apply startswith_spec|right; by apply bool_decide_eq_true]. }
  assert (Hne : ∀ r, payload_block r ≠ Some ENDPOINT_DISABLED).
  { intros r. unfold payload_block. repeat case_match; done. }
  unfold replay_block_code. destruct (decide (status = Some 400%Z)) as [->|Hs].
  - destruct excerpt as [text|].
    + pose proof (json_loads_errors text) as He. destruct (json_loads text) as [r|e] eqn:El.
      * split_and!; [|intros [= H]; by apply (Hne r)|done]. split.
        -- intros [= H]. apply Hpb in H as (d & code & -> & Hg & Hc). split; [done|]. eauto 10.
        -- intros (_ & t & d & code & [= <-] & El' & Hg & Hc). f_equal. apply Hpb.
           rewrite El in El'. simplify_eq. eauto.
      * specialize (He e eq_refl). split_and!.
        -- split; [by destruct e|]. intros (_ & t & d & code & [= <-] & El' & _). congruence.
        -- by destruct e.
        -- intros e' He'. destruct e; try done. simplify_eq. eauto.
    + split_and!; [|done|done]. split; [done|]. by intros (_ & t & d & code & [=] & _).
  - assert (Hn : match status with Some 400%Z => false | _ => true end = true).
    { repeat case_match; simplify_eq; done. }
    split_and!; [split|..]; repeat case_match; simplify_eq; try done; by intros [? _].
Qed.

(** ** Classification *)

(** [retry.classify_status_code] *)
Definition classify_status_code (status_code : Z) : outcome DeliveryDisposition :=
  if negb ((100 <=? status_code) && (status_code <=? 599))%Z then
    Raise (ValueErr (lit "status_code must be between 100 and 599"))
  else if ((200 <=? status_code) && (status_code <=? 299))%Z then Ok SUCCEEDED
  else if bool_decide (status_code ∈ RETRYABLE_STATUS_CODES) || (500 <=? status_code)%Z then Ok RETRY
  else Ok TERMINAL_FAILURE.

(** The classification of every integer status: success is 2xx, retry is 408, 425, 429 and
    5xx, everything else from 100 to 599 is terminal, and a status outside 100..599 raises. *)
Theorem classify_status_code_spec c :
  (classify_status_code c = Ok SUCCEEDED ↔ (200 ≤ c ≤ 299)%Z) ∧
  (classify_status_code c = Ok RETRY ↔ c = 408%Z ∨ c = 425%Z ∨ c = 429%Z ∨ (500 ≤ c ≤ 599)%Z) ∧
  (classify_status_code c = Ok TERMINAL_FAILURE ↔
     (100 ≤ c < 200 ∨ 300 ≤ c < 500)%Z ∧ c ∉ RETRYABLE_STATUS_CODES) ∧
  (is_ok (classify_status_code c) = false ↔ (c < 100 ∨ 599 < c)%Z).
Proof.
  assert (Hin : c ∈ RETRYABLE_STATUS_CODES ↔ c = 408%Z ∨ c = 425%Z ∨ c = 429%Z)
    by (unfold RETRYABLE_STATUS_CODES; by rewrite !elem_of_cons, elem_of_nil, (right_id False (∨))).
  unfold classify_status_code. case_bool_decide as Hb; rewrite Hin in *; clear Hin;
    destruct (Z.leb_spec 100 c), (Z.leb_spec c 599), (Z.leb_spec 200 c), (Z.leb_spec c 299),
      (Z.leb_spec 500 c); simpl;
    split_and!; split; intros; done || lia.
Qed.

(** ** Backoff *)

(** [retry.RetryPolicy] *)
Record RetryPolicy := mkRetryPolicy {
  max_attempts : Z;
  base_delay_seconds : float;
  max_delay_seconds : float
}.

(** [RetryPolicy.__post_init__]: construction validates the fields. *)
Definition make_policy (max_attempts : Z) (base_delay max_delay : float) : outcome RetryPolicy :=
  if (max_attempts <? 1)%Z then Raise (ValueErr (lit "max_attempts must be at least 1"))
  else if fle base_delay fzero then Raise (ValueErr (lit "base_delay_seconds must be positive"))
  else if flt max_delay base_delay then
    Raise (ValueErr (lit "max_delay_seconds must be at least base_delay_seconds"))
  else Ok (mkRetryPolicy max_attempts base_delay max_delay).

(** [RetryPolicy.has_attempt_remaining] *)
Definition has_attempt_remaining (p : RetryPolicy) (completed_attempts : Z) : outcome bool :=
  if (completed_attempts <? 0)%Z then Raise (ValueErr (lit "completed_attempts cannot be negative"))
  else Ok (completed_attempts <? max_attempts p)%Z.

(** [RetryPolicy.delay_seconds] *)
Definition delay_seconds (p : RetryPolicy) (completed_attempts : Z) (random_fraction : float)
  : outcome float :=
  if (completed_attempts <? 1)%Z then Raise (ValueErr (lit "completed_attempts must be at least 1"))
  else if negb (fle fzero random_fraction && fle random_fraction fone) then
    Raise (ValueErr (lit "random_fraction must be between 0 and 1"))
  else
    power ← fpow2 (completed_attempts - 1);
    let exponential_delay := fmul (base_delay_seconds p) power in
    let ceiling := fmin (max_delay_seconds p) exponential_delay in
    mret (fmul ceiling random_fraction).

(** A policy whose delays are finite numbers, as the bounded settings make them. *)
Definition policy_ok (p : RetryPolicy) : bool :=
  (1 <=? max_attempts p)%Z && (max_attempts p <=? 100)%Z &&
  ordinary (base_delay_seconds p) && ordinary (max_delay_seconds p).

Lemma has_attempt_remaining_Ok p n : (0 ≤ n)%Z → has_attempt_remaining p n = Ok (n <? max_attempts p)%Z.
Proof. intros. unfold has_attempt_remaining. by rewrite (proj2 (Z.ltb_ge n 0)). Qed.

Lemma unit_fraction_ordinary f :
  valid_float f = true → fle fzero f = true → fle f fone = true → ordinary f = true.
Proof. destruct f as [[]|[]| |[] m e]; try done. Qed.

Lemma delay_seconds_parts p n f :
  policy_ok p = true → (1 ≤ n ≤ 1024)%Z →
  valid_float f = true → fle fzero f = true → fle f fone = true →
  ∃ d power, delay_seconds p n f = Ok d ∧ fpow2 (n - 1) = Ok power ∧
    ordinary d = true ∧ fle d (max_delay_seconds p) = true ∧
    fle d (fmin (max_delay_seconds p) (fmul (base_delay_seconds p) power)) = true.
Proof.
  unfold policy_ok. intros Hp Hn Hv H0 H1. bool_simpl.
  unfold delay_seconds. rewrite (proj2 (Z.ltb_ge n 1)), H0, H1 by lia. simpl.
  destruct (fpow2 (n - 1)) as [power|e] eqn:Ep; [|unfold fpow2 in Ep; by rewrite (proj2 (Z.leb_le _ _)) in Ep by lia].
  apply fpow2_ordinary in Ep as Hpow; [|lia]. destruct Hpow as [Hpow Hnorm].
  pose proof (unit_fraction_ordinary f Hv H0 H1) as Hf.
  pose proof (fmul_ordinary (base_delay_seconds p) power ltac:(done) Hpow Hnorm) as He.
  pose proof (fmin_ordinary (max_delay_seconds p) _ ltac:(done) He) as [Hc Hcm].
  pose proof (fmul_fraction _ f Hc Hf H1) as [Hd Hdc].
  eexists _, power. split_and!; [done|done|done|by eapply fle_trans, Hcm|done].
Qed.

Lemma delay_seconds_ok p n f :
  policy_ok p = true → (1 ≤ n ≤ 1024)%Z → valid_float f = true → fle fzero f = true → fle f fone = true →
  ∃ d, delay_seconds p n f = Ok d ∧ ordinary d = true ∧ fle d (max_delay_seconds p) = true.
Proof. intros Hp Hn Hv H0 H1. destruct (delay_seconds_parts p n f) as (d & power & ? & _ & ? & ? & _); eauto. Qed.

(** C39: for every attempt number a policy within the settings' bounds can reach and every
    fraction in [0, 1], the delay is computed without error, is a finite number that is not
    negative, and exceeds neither the policy's maximum nor (as floats) the exponential ceiling. *)
Theorem delay_seconds_bounded p n f :
  policy_ok p = true → (1 ≤ n ≤ 1024)%Z →
  valid_float f = true → fle fzero f = true → fle f fone = true →
  ∃ d power, delay_seconds p n f = Ok d ∧ fpow2 (n - 1) = Ok power ∧
    ordinary d = true ∧ fle fzero d = true ∧ fle d (max_delay_seconds p) = true ∧
    fle d (fmin (max_delay_seconds p) (fmul (base_delay_seconds p) power)) = true.
Proof.
  intros Hp Hn Hv H0 H1. destruct (delay_seconds_parts p n f Hp Hn Hv H0 H1) as (d & power & Hd & Hpw & Ho & Hm & Hc).
  exists d, power. split_and!; try done. apply fle_ordinary; [done..|]. by apply ordinary_units.
Qed.

Definition default_policy : RetryPolicy :=
  mkRetryPolicy 8 (float_of_Z 10) (float_of_Z 3600).

Example delay_ex : delay_seconds default_policy 3 (S754_finite false (2 ^ 52) (-53)) = Ok (float_of_Z 20).
Proof. vm_compute. reflexivity. Qed.

Lemma delay_seconds_bounded_witness :
  ∃ d power, delay_seconds default_policy 12 fone = Ok d ∧ fpow2 (12 - 1) = Ok power ∧
    ordinary d = true ∧ fle fzero d = true ∧ fle d (max_delay_seconds default_policy) = true ∧
    fle d (fmin (max_delay_seconds default_policy) (fmul (base_delay_seconds default_policy) power)) = true.
Proof. apply (delay_seconds_bounded default_policy 12 fone); [reflexivity|lia|reflexivity..]. Defined.
