(* ===== verification/Signing.v ===== *)
(** [deliveries/signing.py]: the HMAC that proves a webhook's authenticity. *)
From S2P Require Import Prelude PyStr Errors Sha256.
From Stdlib Require Import ZArith.

Definition SIGNATURE_VERSION : pystr := lit "v1".

(** [str(timestamp).encode("ascii") + b"." + payload] *)
Definition signed_content (timestamp : Z) (payload : bytes) : bytes :=
  ascii_encode (str_of_Z timestamp) ++ blit "." ++ payload.

(** [signing.sign_payload] *)
Definition sign_payload (secret : bytes) (timestamp : Z) (payload : bytes) : outcome pystr :=
  if bool_decide (secret = []) then Raise (ValueErr (lit "secret cannot be empty"))
  else if (timestamp <? 0)%Z then Raise (ValueErr (lit "timestamp cannot be negative"))
  else
    let digest := hmac_sha256_hex secret (signed_content timestamp payload) in
    Ok (SIGNATURE_VERSION ++ lit "=" ++ digest).

(** [hmac.compare_digest] on two strings: both have to be ASCII. *)
Definition compare_digest (a b : pystr) : outcome bool :=
  if is_ascii a && is_ascii b then Ok (bool_decide (a = b))
  else Raise (TypeErr (lit "comparing strings with non-ASCII characters is not supported")).

(** [signing.verify_signature] *)
Definition verify_signature (secret : bytes) (timestamp : Z) (payload : bytes) (signature : pystr)
  : outcome bool :=
  expected ← sign_payload secret timestamp payload;
  compare_digest expected signature.

Lemma hex_digits_ascii w n : is_ascii (hex_digits w n) = true.
Proof.
  revert n. induction w as [|w IH]; intros n; simpl; [done|].
  unfold is_ascii. rewrite forallb_app. fold (is_ascii (hex_digits w (n / 16))). rewrite IH. simpl.
  rewrite andb_true_r. pose proof (hex_digit_class n) as Hd.
  unfold is_digit, in_range in Hd. apply N.ltb_lt.
  apply orb_true_iff in Hd as [Hd|Hd]; apply andb_true_iff in Hd as [_ Hd];
    apply N.leb_le in Hd; lia.
Qed.

Lemma sha256_hex_ascii msg : is_ascii (sha256_hex msg) = true.
Proof.
  unfold sha256_hex, state_words, is_ascii. cbn [map concat].
  rewrite !forallb_app. by rewrite !(hex_digits_ascii 8 : ∀ n, forallb _ _ = true).
Qed.

Lemma sign_payload_Ok secret timestamp payload sig :
  sign_payload secret timestamp payload = Ok sig →
  secret ≠ [] ∧ (0 ≤ timestamp)%Z ∧ length sig = 67 ∧ is_ascii sig = true ∧
  sig = lit "v1=" ++ hmac_sha256_hex secret (signed_content timestamp payload).
Proof.
  unfold sign_payload. case_bool_decide as Hs; [done|].
  destruct (Z.ltb_spec timestamp 0); [done|]. intros [= <-].
  assert (Ha : is_ascii (hmac_sha256_hex secret (signed_content timestamp payload)) = true)
    by apply sha256_hex_ascii.
  unfold hmac_sha256_hex in *. split_and!; [done|done| |done|done].
  cbn [length]. by rewrite sha256_hex_length.
Qed.

(** What [sign_payload] produces is what [verify_signature] accepts: it succeeds exactly for a
    non-empty secret and a timestamp that is not negative, the result is [v1=] and 64 hexadecimal
    digits, verification of it answers true, and verification of any other ASCII text answers false. *)
Theorem sign_verify secret timestamp payload :
  (is_ok (sign_payload secret timestamp payload) = true ↔ secret ≠ [] ∧ (0 ≤ timestamp)%Z) ∧
  (∀ sig, sign_payload secret timestamp payload = Ok sig →
     length sig = 67 ∧ startswith sig (lit "v1=") = true ∧
     verify_signature secret timestamp payload sig = Ok true ∧
     ∀ other, is_ascii other = true → other ≠ sig →
       verify_signature secret timestamp payload other = Ok false).
Proof.
  split.
  - unfold sign_payload. case_bool_decide as Hs; [by split; [|intros [? _]]|].
    destruct (Z.ltb_spec timestamp 0); simpl; split; intros; done || lia.
  - intros sig E. apply sign_payload_Ok in E as He. destruct He as (_ & _ & Hl & Ha & Esig).
    split; [done|]. split; [rewrite Esig; apply startswith_app|].
    unfold verify_signature. rewrite E. simpl. unfold compare_digest. rewrite Ha. split.
    + simpl. by rewrite bool_decide_eq_true_2.
    + intros other Ho Hne. rewrite Ho. simpl. by rewrite bool_decide_eq_false_2.
Qed.

Lemma timestamp_no_dot t : (0 ≤ t)%Z → Byte.x2e ∉ ascii_encode (str_of_Z t).
Proof.
  intros Ht Hin. apply list_elem_of_fmap in Hin as [c [Ec Hc]].
  pose proof (str_of_Z_digits t Ht) as Hd. rewrite Forall_forall in Hd.
  specialize (Hd c Hc). apply digit_range in Hd.
  assert (E : Byte.to_N (byte_of_N c) = c) by (apply byte_of_N_small; lia).
  rewrite <- Ec in E. simpl in E. lia.
Qed.

(** The signed content determines the timestamp and the exact payload bytes, so one
    signature never covers two different pairs of them. *)
Theorem signed_content_inj t1 p1 t2 p2 :
  (0 ≤ t1)%Z → (0 ≤ t2)%Z →
  signed_content t1 p1 = signed_content t2 p2 → t1 = t2 ∧ p1 = p2.
Proof.
  intros H1 H2 E. apply separated_inj in E as [Et ->]; [|by apply timestamp_no_dot..].
  split; [|done]. apply ascii_encode_inj in Et; [|by apply digits_ascii, str_of_Z_digits..].
  rewrite !str_of_Z_nonneg in Et by done. apply str_of_N_inj in Et. lia.
Qed.

Lemma signed_content_inj_witness : 1723%Z = 1723%Z ∧ blit "{}" = blit "{}".
Proof. apply (signed_content_inj 1723 (blit "{}") 1723 (blit "{}")); [lia|lia|reflexivity]. Defined.

Example sign_ex :
  sign_payload (blit "secret") 1700000000 (map byte_of_N (jlit "{'a':1}"))
  = Ok (lit "v1=49f24e537407743fa4a0242bb63b94b9a47ee99cbbe071ccd8a22550ae411686").
Proof. vm_compute. reflexivity. Qed.
