(* ===== verification/DemoRuns.v ===== *)
(** [demo_runs.py]: the bounded, header-safe identifier of a demo run. *)
From S2P Require Import Prelude PyStr Json.

Definition DEMO_RUN_ID_MAX_LENGTH : nat := 128.

(** The first character class of [DEMO_RUN_ID_PATTERN], and the class of the others. *)
Definition run_id_first (c : N) : bool := is_alnum_ascii c.
Definition run_id_rest (c : N) : bool :=
  is_alnum_ascii c || (c =? 46)%N || (c =? 95)%N || (c =? 45)%N.

(** [_DEMO_RUN_ID.fullmatch(value)] *)
Definition run_id_matches (s : pystr) : bool :=
  match s with
  | [] => false
  | c :: s' => run_id_first c && forallb run_id_rest s' && bool_decide (length s' ≤ 127)
  end.

(** [demo_runs.normalized_demo_run_id]; the argument is the result of a [dict.get]. *)
Definition normalized_demo_run_id (value : option json) : option pystr :=
  match value with
  | Some (JStr s) => if run_id_matches s then Some s else None
  | _ => None
  end.

Lemma run_id_matches_chars s c : run_id_matches s = true → c ∈ s → run_id_rest c = true.
Proof.
  destruct s as [|d s]; [done|]. simpl. intros Hm Hc. bool_simpl.
  apply elem_of_cons in Hc as [->|Hc].
  - unfold run_id_first in *. unfold run_id_rest. by rewrite H.
  - rewrite forallb_forall in H1. by apply H1, list_elem_of_In.
Qed.

Lemma run_id_matches_length s : run_id_matches s = true → 1 ≤ length s ≤ DEMO_RUN_ID_MAX_LENGTH.
Proof. destruct s as [|d s]; [done|]. simpl. unfold DEMO_RUN_ID_MAX_LENGTH. intros. bool_simpl. lia. Qed.

(** A run identifier taken from a payload is the payload's own string, between 1 and 128
    characters long and free of control characters, spaces and line breaks, so it can be a
    header value; every other payload value yields no identifier. *)
Theorem normalized_demo_run_id_safe value s :
  normalized_demo_run_id value = Some s →
  value = Some (JStr s) ∧ 1 ≤ length s ≤ DEMO_RUN_ID_MAX_LENGTH ∧
  (∀ c, c ∈ s → (45 ≤ c ≤ 122)%N) ∧ normalized_demo_run_id (Some (JStr s)) = Some s.
Proof.
  unfold normalized_demo_run_id. destruct value as [[]|]; try done.
  destruct (run_id_matches s0) eqn:E; [|done]. intros [= ->]. rewrite E.
  split_and!; [done|by apply run_id_matches_length..| |done].
  intros c Hc. apply (run_id_matches_chars s c E) in Hc. revert Hc.
  unfold run_id_rest, is_alnum_ascii, is_digit, is_lower, is_upper, in_range.
  rewrite !orb_true_iff, !andb_true_iff, !N.leb_le, !N.eqb_eq. lia.
Qed.

Lemma normalized_demo_run_id_safe_witness :
  Some (JStr (lit "run-1.a")) = Some (JStr (lit "run-1.a")) ∧
  1 ≤ length (lit "run-1.a") ≤ DEMO_RUN_ID_MAX_LENGTH ∧
  (∀ c, c ∈ lit "run-1.a" → (45 ≤ c ≤ 122)%N) ∧
  normalized_demo_run_id (Some (JStr (lit "run-1.a"))) = Some (lit "run-1.a").
Proof. apply (normalized_demo_run_id_safe (Some (JStr (lit "run-1.a")))). reflexivity. Defined.
