(* ===== verification/Models.v ===== *)
(** [models.py]: the four tables, their rows and the constraints PostgreSQL
    enforces on them.

    A row is a record with the source's column names, one [Module] per table.
    [checks] are the [CheckConstraint]s (an unknown SQL truth value passes),
    [types] the limits of the column types (32- and 64-bit integers, bounded
    strings, no NUL character in text and JSONB), [conflict] the unique
    constraints and partial unique indexes.  Timestamps are microseconds since
    the epoch in UTC, UUIDs are the 128-bit numbers PostgreSQL orders them by. *)
From S2P Require Import Prelude PyStr Json Retry StateMachine.
From Stdlib Require Import ZArith.

Abbreviation UUID := N.
Abbreviation datetime := Z.

(** ** Column types *)

Definition int4 (z : Z) : bool := (-2147483648 <=? z)%Z && (z <=? 2147483647)%Z.
Definition int8 (z : Z) : bool := (-9223372036854775808 <=? z)%Z && (z <=? 9223372036854775807)%Z.

(** [Text] and [String(n)]: PostgreSQL text holds no NUL character, and the driver has to encode
    the value as UTF-8. *)
Definition text (s : pystr) : bool := forallb (λ c, negb (c =? 0)%N && negb (is_surrogate c)) s.
Definition varchar (n : nat) (s : pystr) : bool := text s && bool_decide (length s ≤ n).

(** [JSONB]: the same limits for every string of the value. *)
Fixpoint jsonb (v : json) : bool :=
  match v with
  | JStr s => text s
  | JList l => forallb jsonb l
  | JDict d => forallb (λ '(k, x), text k && jsonb x) d
  | _ => true
  end.

(** A condition on a nullable column: NULL makes it unknown, which passes. *)
Definition nullable {A : Type} (p : A → bool) (o : option A) : bool :=
  match o with Some a => p a | None => true end.

Definition is_null {A : Type} (o : option A) : bool := match o with Some _ => false | None => true end.

Definition not_empty {A : Type} (l : list A) : bool := match l with [] => false | _ => true end.

(** ** Endpoints *)

Module Endpoint.
Record t := mk {
  id : UUID;
  name : pystr;
  target_url : pystr;
  signing_secret : bytes;
  secret_version : Z;
  enabled : bool;
  created_at : datetime;
  updated_at : datetime
}.

Definition checks (e : t) : list (pystr * bool) :=
  [(lit "name_not_empty", not_empty (name e));
   (lit "target_url_not_empty", not_empty (target_url e));
   (lit "signing_secret_not_empty", not_empty (signing_secret e));
   (lit "secret_version_positive", (1 <=? secret_version e)%Z)].

Definition types (e : t) : bool :=
  varchar 120 (name e) && text (target_url e) && int4 (secret_version e).
End Endpoint.

(** ** Events *)

Module Event.
Record t := mk {
  id : UUID;
  source : pystr;
  event_type : pystr;
  idempotency_key : pystr;
  payload : json;
  payload_bytes : bytes;
  request_fingerprint_sha256 : pystr;
  payload_sha256 : pystr;
  created_at : datetime
}.

Definition checks (e : t) : list (pystr * bool) :=
  [(lit "source_not_empty", not_empty (source e));
   (lit "event_type_not_empty", not_empty (event_type e));
   (lit "idempotency_key_not_empty", not_empty (idempotency_key e));
   (lit "payload_bytes_not_empty", not_empty (payload_bytes e));
   (lit "request_fingerprint_sha256_length", bool_decide (length (request_fingerprint_sha256 e) = 64));
   (lit "payload_sha256_length", bool_decide (length (payload_sha256 e) = 64))].

Definition types (e : t) : bool :=
  varchar 120 (source e) && varchar 255 (event_type e) && varchar 255 (idempotency_key e) &&
  jsonb (payload e) && varchar 64 (request_fingerprint_sha256 e) && varchar 64 (payload_sha256 e).

(** [UniqueConstraint("source", "idempotency_key")] *)
Definition conflict (a b : t) : Prop :=
  source a = source b ∧ idempotency_key a = idempotency_key b.

#[export] Instance conflict_dec : RelDecision conflict.
Proof. intros a b. unfold conflict. apply _. Defined.
End Event.

(** ** Deliveries *)

Module Delivery.
Record t := mk {
  id : UUID;
  event_id : UUID;
  endpoint_id : UUID;
  replay_generation : Z;
  replayed_from_delivery_id : option UUID;
  replay_idempotency_key : option pystr;
  status : DeliveryStatus;
  attempt_count : Z;
  next_attempt_at : option datetime;
  lease_owner : option pystr;
  lease_expires_at : option datetime;
  lease_token : option UUID;
  delivered_at : option datetime;
  last_error : option pystr;
  created_at : datetime;
  updated_at : datetime
}.

Definition checks (d : t) : list (pystr * bool) :=
  [(lit "replay_generation_nonnegative", (0 <=? replay_generation d)%Z);
   (lit "replay_metadata_set_together",
      Bool.eqb (is_null (replayed_from_delivery_id d)) (is_null (replay_idempotency_key d)));
   (lit "replay_idempotency_key_not_empty", nullable not_empty (replay_idempotency_key d));
   (lit "attempt_count_nonnegative", (0 <=? attempt_count d)%Z);
   (lit "lease_fields_set_together",
      Bool.eqb (is_null (lease_owner d)) (is_null (lease_expires_at d)) &&
      Bool.eqb (is_null (lease_owner d)) (is_null (lease_token d)));
   (lit "lease_matches_status",
      Bool.eqb (bool_decide (status d = IN_PROGRESS)) (negb (is_null (lease_owner d))));
   (lit "delivered_has_timestamp",
      negb (bool_decide (status d = DELIVERED)) || negb (is_null (delivered_at d)))].

Definition types (d : t) : bool :=
  int4 (replay_generation d) && nullable (varchar 255) (replay_idempotency_key d) &&
  int4 (attempt_count d) && nullable (varchar 160) (lease_owner d) && nullable text (last_error d).

(** [UniqueConstraint("event_id", "endpoint_id", "replay_generation")] *)
Definition same_generation (a b : t) : Prop :=
  event_id a = event_id b ∧ endpoint_id a = endpoint_id b ∧ replay_generation a = replay_generation b.

(** [UniqueConstraint("replayed_from_delivery_id", "replay_idempotency_key")]: NULLs never collide. *)
Definition same_replay_request (a b : t) : Prop :=
  replayed_from_delivery_id a = replayed_from_delivery_id b ∧
  replay_idempotency_key a = replay_idempotency_key b ∧
  is_null (replayed_from_delivery_id a) = false ∧ is_null (replay_idempotency_key a) = false.

(** The partial unique index [uq_deliveries_one_active_per_event_endpoint]. *)
Definition both_active (a b : t) : Prop :=
  event_id a = event_id b ∧ endpoint_id a = endpoint_id b ∧
  active (status a) = true ∧ active (status b) = true.

Definition conflict (a b : t) : Prop :=
  same_generation a b ∨ same_replay_request a b ∨ both_active a b.

#[export] Instance conflict_dec : RelDecision conflict.
Proof. intros a b. unfold conflict, same_generation, same_replay_request, both_active. apply _. Defined.

(** Attribute assignments of the worker. *)
Definition set_status (s : DeliveryStatus) (d : t) : t :=
  mk (id d) (event_id d) (endpoint_id d) (replay_generation d) (replayed_from_delivery_id d)
    (replay_idempotency_key d) s (attempt_count d) (next_attempt_at d) (lease_owner d)
    (lease_expires_at d) (lease_token d) (delivered_at d) (last_error d) (created_at d) (updated_at d).
Definition set_attempt_count (n : Z) (d : t) : t :=
  mk (id d) (event_id d) (endpoint_id d) (replay_generation d) (replayed_from_delivery_id d)
    (replay_idempotency_key d) (status d) n (next_attempt_at d) (lease_owner d)
    (lease_expires_at d) (lease_token d) (delivered_at d) (last_error d) (created_at d) (updated_at d).
Definition set_next_attempt_at (a : option datetime) (d : t) : t :=
  mk (id d) (event_id d) (endpoint_id d) (replay_generation d) (replayed_from_delivery_id d)
    (replay_idempotency_key d) (status d) (attempt_count d) a (lease_owner d)
    (lease_expires_at d) (lease_token d) (delivered_at d) (last_error d) (created_at d) (updated_at d).
Definition set_lease (owner : option pystr) (token : option UUID) (expires : option datetime) (d : t) : t :=
  mk (id d) (event_id d) (endpoint_id d) (replay_generation d) (replayed_from_delivery_id d)
    (replay_idempotency_key d) (status d) (attempt_count d) (next_attempt_at d) owner
    expires token (delivered_at d) (last_error d) (created_at d) (updated_at d).
Definition set_delivered_at (a : option datetime) (d : t) : t :=
  mk (id d) (event_id d) (endpoint_id d) (replay_generation d) (replayed_from_delivery_id d)
    (replay_idempotency_key d) (status d) (attempt_count d) (next_attempt_at d) (lease_owner d)
    (lease_expires_at d) (lease_token d) a (last_error d) (created_at d) (updated_at d).
Definition set_last_error (e : option pystr) (d : t) : t :=
  mk (id d) (event_id d) (endpoint_id d) (replay_generation d) (replayed_from_delivery_id d)
    (replay_idempotency_key d) (status d) (attempt_count d) (next_attempt_at d) (lease_owner d)
    (lease_expires_at d) (lease_token d) (delivered_at d) e (created_at d) (updated_at d).
Definition set_updated_at (a : datetime) (d : t) : t :=
  mk (id d) (event_id d) (endpoint_id d) (replay_generation d) (replayed_from_delivery_id d)
    (replay_idempotency_key d) (status d) (attempt_count d) (next_attempt_at d) (lease_owner d)
    (lease_expires_at d) (lease_token d) (delivered_at d) (last_error d) (created_at d) a.
End Delivery.

(** ** Attempts *)

Module DeliveryAttempt.
Record t := mk {
  id : UUID;
  delivery_id : UUID;
  attempt_number : Z;
  status : DeliveryAttemptStatus;
  lease_token : UUID;
  disposition : option DeliveryDisposition;
  http_status_code : option Z;
  error_type : option pystr;
  error_message : option pystr;
  response_body_excerpt : option pystr;
  duration_ms : option Z;
  request_timestamp : option Z;
  retry_scheduled_for : option datetime;
  started_at : option datetime;
  finished_at : option datetime;
  resolved_at : option datetime;
  created_at : datetime
}.

(** The three shapes the constraint [lifecycle_fields] allows. *)
Definition lifecycle_in_progress (a : t) : bool :=
  bool_decide (status a = ATTEMPT_IN_PROGRESS) && is_null (disposition a) &&
  is_null (http_status_code a) && is_null (error_type a) && is_null (error_message a) &&
  is_null (response_body_excerpt a) && is_null (duration_ms a) && is_null (request_timestamp a) &&
  is_null (retry_scheduled_for a) && is_null (started_at a) && is_null (finished_at a) &&
  is_null (resolved_at a).

Definition lifecycle_completed (a : t) : bool :=
  bool_decide (status a = ATTEMPT_COMPLETED) && negb (is_null (disposition a)) &&
  negb (is_null (duration_ms a)) && negb (is_null (request_timestamp a)) &&
  negb (is_null (started_at a)) && negb (is_null (finished_at a)) && negb (is_null (resolved_at a)).

Definition lifecycle_indeterminate (a : t) : bool :=
  bool_decide (status a = ATTEMPT_INDETERMINATE) && is_null (disposition a) &&
  is_null (http_status_code a) && negb (is_null (error_type a)) &&
  is_null (response_body_excerpt a) && is_null (duration_ms a) && is_null (request_timestamp a) &&
  is_null (retry_scheduled_for a) && is_null (started_at a) && is_null (finished_at a) &&
  negb (is_null (resolved_at a)).

Definition checks (a : t) : list (pystr * bool) :=
  [(lit "attempt_number_positive", (1 <=? attempt_number a)%Z);
   (lit "duration_ms_nonnegative", nullable (λ n, 0 <=? n)%Z (duration_ms a));
   (lit "request_timestamp_nonnegative", nullable (λ n, 0 <=? n)%Z (request_timestamp a));
   (lit "http_status_code_valid",
      nullable (λ n, (100 <=? n) && (n <=? 599))%Z (http_status_code a));
   (lit "timestamps_ordered",
      nullable (λ f, nullable (λ s, s <=? f)%Z (started_at a)) (finished_at a));
   (lit "lifecycle_fields",
      lifecycle_in_progress a || lifecycle_completed a || lifecycle_indeterminate a)].

Definition types (a : t) : bool :=
  int4 (attempt_number a) && nullable int4 (http_status_code a) &&
  nullable (varchar 120) (error_type a) && nullable text (error_message a) &&
  nullable text (response_body_excerpt a) && nullable int4 (duration_ms a) &&
  nullable int8 (request_timestamp a).

(** The two unique constraints and the index [uq_delivery_attempts_one_in_progress]. *)
Definition conflict (a b : t) : Prop :=
  delivery_id a = delivery_id b ∧
  (attempt_number a = attempt_number b ∨ lease_token a = lease_token b ∨
   (status a = ATTEMPT_IN_PROGRESS ∧ status b = ATTEMPT_IN_PROGRESS)).

#[export] Instance conflict_dec : RelDecision conflict.
Proof. intros a b. unfold conflict. apply _. Defined.
End DeliveryAttempt.

Abbreviation Endpoint := Endpoint.t.
Abbreviation Event := Event.t.
Abbreviation Delivery := Delivery.t.
Abbreviation DeliveryAttempt := DeliveryAttempt.t.

#[export] Instance Endpoint_HasId : HasId Endpoint := Endpoint.id.
#[export] Instance Event_HasId : HasId Event := Event.id.
#[export] Instance Delivery_HasId : HasId Delivery := Delivery.id.
#[export] Instance DeliveryAttempt_HasId : HasId DeliveryAttempt := DeliveryAttempt.id.

(** ** The database *)

Record Db := mkDb {
  endpoints : gmap UUID Endpoint;
  events : gmap UUID Event;
  deliveries : gmap UUID Delivery;
  attempts : gmap UUID DeliveryAttempt
}.

Definition empty_db : Db := mkDb ∅ ∅ ∅ ∅.

Definition set_endpoints (t : gmap UUID Endpoint) (db : Db) : Db :=
  mkDb t (events db) (deliveries db) (attempts db).
Definition set_events (t : gmap UUID Event) (db : Db) : Db :=
  mkDb (endpoints db) t (deliveries db) (attempts db).
Definition set_deliveries (t : gmap UUID Delivery) (db : Db) : Db :=
  mkDb (endpoints db) (events db) t (attempts db).
Definition set_attempts (t : gmap UUID DeliveryAttempt) (db : Db) : Db :=
  mkDb (endpoints db) (events db) (deliveries db) t.

(** No other row of a table collides with [r] under a symmetric conflict relation. *)
Definition no_conflict `{HasId row} (conflict : relation row) (tbl : gmap UUID row) (r : row) : Prop :=
  map_Forall (λ k r', k = row_id r ∨ ¬ conflict r r') tbl.

#[export] Instance no_conflict_dec `{HasId row} (conflict : relation row) `{!RelDecision conflict} tbl r :
  Decision (no_conflict conflict tbl r).
Proof. unfold no_conflict. apply _. Defined.

(** All constraints on one row, with the name PostgreSQL reports. *)
Definition endpoint_constraints (e : Endpoint) : list (pystr * bool) := Endpoint.checks e.

Definition event_constraints (e : Event) : list (pystr * bool) := Event.checks e.

Definition delivery_constraints (db : Db) (d : Delivery) : list (pystr * bool) :=
  Delivery.checks d ++
  [(lit "fk_deliveries_event_id_events", bool_decide (is_Some (events db !! Delivery.event_id d)));
   (lit "fk_deliveries_endpoint_id_endpoints", bool_decide (is_Some (endpoints db !! Delivery.endpoint_id d)));
   (lit "fk_deliveries_replayed_from_delivery_id_deliveries",
      nullable (λ s, bool_decide (s = Delivery.id d ∨ is_Some (deliveries db !! s)))
        (Delivery.replayed_from_delivery_id d));
   (lit "uq_deliveries", bool_decide (no_conflict Delivery.conflict (deliveries db) d))].

Definition attempt_constraints (db : Db) (a : DeliveryAttempt) : list (pystr * bool) :=
  DeliveryAttempt.checks a ++
  [(lit "fk_delivery_attempts_delivery_id_deliveries",
      bool_decide (is_Some (deliveries db !! DeliveryAttempt.delivery_id a)));
   (lit "uq_delivery_attempts", bool_decide (no_conflict DeliveryAttempt.conflict (attempts db) a))].

(** The name of the first violated constraint. *)
Fixpoint violated (cs : list (pystr * bool)) : option pystr :=
  match cs with
  | [] => None
  | (name, ok) :: cs' => if ok then violated cs' else Some name
  end.

Lemma violated_None cs : violated cs = None ↔ Forall (λ c, c.2 = true) cs.
Proof.
  induction cs as [|[n b] cs IH]; simpl; [by split|]. rewrite Forall_cons. simpl.
  destruct b; [rewrite IH; naive_solver|]. split; [done|naive_solver].
Qed.
