(* ===== verification/Datetime.v ===== *)
(** Points in time: [datetime] values in UTC as microseconds since the epoch, their
    addition with a [timedelta], [datetime.timestamp], [datetime.isoformat] and the
    JSON rendering [services._json_timestamp]. *)
From S2P Require Import Prelude PyStr Errors Floats FloatConv Models.
From Stdlib Require Import ZArith.

#[local] Open Scope Z_scope.

(** [datetime.min] and [datetime.max]. *)
Definition datetime_min : datetime := -62135596800000000.
Definition datetime_max : datetime := 253402300799999999.

(** The instants a datetime can represent in UTC. *)
Definition in_calendar (t : datetime) : bool := (datetime_min <=? t) && (t <=? datetime_max).

(** [value + timedelta]: Python raises when the result is not in the years 1 to 9999. *)
Definition datetime_add (value : datetime) (delta_us : Z) : outcome datetime :=
  let r := value + delta_us in
  if (datetime_min <=? r) && (r <=? datetime_max) then Ok r
  else Raise (OverflowErr (lit "date value out of range")).

(** [int(value.timestamp())] *)
Definition int_timestamp (value : datetime) : outcome Z := float_trunc (total_seconds value).

(** Days since the epoch to year, month and day of the proleptic Gregorian calendar. *)
Definition civil_from_days (days : Z) : Z * Z * Z :=
  let z := days + 719468 in
  let era := z / 146097 in
  let doe := z mod 146097 in
  let yoe := (doe - doe / 1460 + doe / 36524 - doe / 146096) / 365 in
  let doy := doe - (365 * yoe + yoe / 4 - yoe / 100) in
  let mp := (5 * doy + 2) / 153 in
  let d := doy - (153 * mp + 2) / 5 + 1 in
  let m := if mp <? 10 then mp + 3 else mp - 9 in
  let y := yoe + era * 400 + (if m <=? 2 then 1 else 0) in
  (y, m, d).

(** The decimal digits of a number in a field of [w] characters. *)
Fixpoint pad_digits (w : nat) (n : Z) : pystr :=
  match w with
  | O => []
  | S w' => pad_digits w' (n / 10) ++ [Z.to_N (48 + n mod 10)]
  end.

(** [value.isoformat()] of a UTC value, without the offset. *)
Definition isoformat_naive (value : datetime) : pystr :=
  let us := value mod 1000000 in
  let secs := value / 1000000 in
  let tod := secs mod 86400 in
  let '(y, m, d) := civil_from_days (secs / 86400) in
  pad_digits 4 y ++ lit "-" ++ pad_digits 2 m ++ lit "-" ++ pad_digits 2 d ++ lit "T" ++
  pad_digits 2 (tod / 3600) ++ lit ":" ++ pad_digits 2 (tod / 60 mod 60) ++ lit ":" ++
  pad_digits 2 (tod mod 60) ++
  (if us =? 0 then [] else lit "." ++ pad_digits 6 us).

(** [services._json_timestamp]: [isoformat] ends in the offset [+00:00], replaced by [Z]. *)
Definition _json_timestamp (value : datetime) : pystr := isoformat_naive value ++ lit "Z".

Example json_timestamp_ex :
  _json_timestamp 1709210096000789 = lit "2024-02-29T12:34:56.000789Z" ∧
  _json_timestamp 0 = lit "1970-01-01T00:00:00Z" ∧
  _json_timestamp datetime_max = lit "9999-12-31T23:59:59.999999Z" ∧
  _json_timestamp datetime_min = lit "0001-01-01T00:00:00Z".
Proof. vm_compute. done. Qed.

Lemma datetime_add_Ok v d r : datetime_add v d = Ok r → r = v + d.
Proof. unfold datetime_add. by case_match; intros; simplify_eq. Qed.

Lemma datetime_add_in_range v d :
  datetime_min ≤ v + d ≤ datetime_max → datetime_add v d = Ok (v + d).
Proof. intros []. unfold datetime_add. by rewrite !(proj2 (Z.leb_le _ _)). Qed.

Lemma int_timestamp_nonneg v : 0 ≤ v ≤ datetime_max → ∃ n, int_timestamp v = Ok n ∧ 0 ≤ n.
Proof.
  unfold datetime_max. intros Hv. apply float_trunc_nonneg, total_seconds_finite. lia.
Qed.
