(* ===== verification/Database.v ===== *)
(** Database transactions: the state-and-error monad the repositories, the
    services and the worker run in, the writes with the constraint checks
    PostgreSQL makes, and the commit and rollback of [session.begin()].

    [wp] is the weakest precondition of a transaction: what has to hold of the
    database for the transaction to end in a result and database satisfying one
    condition, or in an exception satisfying another.  [db_ok] is the
    conjunction of all constraints of the schema; every write preserves it. *)
From S2P Require Import Prelude PyStr Errors StateMachine Models.

(** ** The monad *)

Definition tx (A : Type) : Type := Db → outcome (A * Db).

#[export] Instance tx_ret : MRet tx := λ A a db, Ok (a, db).
#[export] Instance tx_bind : MBind tx := λ A B f m db,
  match m db with
  | Ok (a, db') => f a db'
  | Raise e => Raise e
  end.

Lemma tx_bind_Ok {A B} (m : tx A) (f : A → tx B) db a db' :
  m db = Ok (a, db') → (m ≫= f) db = f a db'.
Proof. intros E. unfold mbind, tx_bind. by rewrite E. Qed.

Lemma tx_bind_Raise {A B} (m : tx A) (f : A → tx B) db e : m db = Raise e → (m ≫= f) db = Raise e.
Proof. intros E. unfold mbind, tx_bind. by rewrite E. Qed.

(** A bind that returned: both parts returned. *)
Lemma tx_bind_inv {A B} (m : tx A) (f : A → tx B) db r :
  (m ≫= f) db = Ok r → ∃ a db1, m db = Ok (a, db1) ∧ f a db1 = Ok r.
Proof. unfold mbind, tx_bind. destruct (m db) as [[a db1]|e]; [eauto|done]. Qed.

Lemma tx_bind_Raise_inv {A B} (m : tx A) (f : A → tx B) db e :
  (m ≫= f) db = Raise e → m db = Raise e ∨ ∃ a db1, m db = Ok (a, db1) ∧ f a db1 = Raise e.
Proof. unfold mbind, tx_bind. destruct (m db) as [[a db1]|e']; naive_solver. Qed.

Definition raise {A : Type} (e : exn) : tx A := λ _, Raise e.

Definition lift {A : Type} (m : outcome A) : tx A := λ db,
  match m with
  | Ok a => Ok (a, db)
  | Raise e => Raise e
  end.

(** A [SELECT]: reads the database as it is inside the transaction. *)
Definition query {A : Type} (f : Db → A) : tx A := λ db, Ok (f db, db).

(** [one_or_none()] on the rows of a query. *)
Definition one_or_none {A : Type} (f : Db → list A) : tx (option A) := λ db,
  match view_rows (f db) with
  | NoRow => Ok (None, db)
  | OneRow a => Ok (Some a, db)
  | ManyRows => Raise MultipleResultsErr
  end.

(** [async with session.begin()]: commit on success, roll back on an exception. *)
Definition run_tx {A : Type} (m : tx A) (db : Db) : outcome A * Db :=
  match m db with
  | Ok (a, db') => (Ok a, db')
  | Raise e => (Raise e, db)
  end.

Lemma run_tx_Ok {A} (m : tx A) db a db' : run_tx m db = (Ok a, db') ↔ m db = Ok (a, db').
Proof. unfold run_tx. destruct (m db) as [[b db1]|e]; naive_solver. Qed.

Lemma run_tx_Raise {A} (m : tx A) db e db' : run_tx m db = (Raise e, db') ↔ m db = Raise e ∧ db' = db.
Proof. unfold run_tx. destruct (m db) as [[b db1]|e']; naive_solver. Qed.

(** ** Writes *)

Definition check_row (types : bool) (constraints : list (pystr * bool)) : outcome unit :=
  if types then
    match violated constraints with
    | None => Ok tt
    | Some name => Raise (IntegrityErr name)
    end
  else Raise (DataErr (lit "value out of range for its column")).

Definition insert_endpoint (e : Endpoint) : tx unit := λ db,
  if bool_decide (is_Some (endpoints db !! Endpoint.id e)) then Raise (IntegrityErr (lit "pk_endpoints"))
  else _ ← check_row (Endpoint.types e) (endpoint_constraints e);
       Ok (tt, set_endpoints (<[Endpoint.id e := e]> (endpoints db)) db).

(** [INSERT ... ON CONFLICT (source, idempotency_key) DO NOTHING RETURNING id]: whether the row
    was inserted.  The conflict target is only that unique constraint. *)
Definition insert_event_if_absent (e : Event) : tx bool := λ db,
  _ ← check_row (Event.types e) (event_constraints e);
  if bool_decide (no_conflict Event.conflict (events db) e) then
    if bool_decide (is_Some (events db !! Event.id e)) then Raise (IntegrityErr (lit "pk_events"))
    else Ok (true, set_events (<[Event.id e := e]> (events db)) db)
  else Ok (false, db).

Definition insert_delivery (d : Delivery) : tx unit := λ db,
  if bool_decide (is_Some (deliveries db !! Delivery.id d)) then Raise (IntegrityErr (lit "pk_deliveries"))
  else _ ← check_row (Delivery.types d) (delivery_constraints db d);
       Ok (tt, set_deliveries (<[Delivery.id d := d]> (deliveries db)) db).

Definition insert_attempt (a : DeliveryAttempt) : tx unit := λ db,
  if bool_decide (is_Some (attempts db !! DeliveryAttempt.id a)) then
    Raise (IntegrityErr (lit "pk_delivery_attempts"))
  else _ ← check_row (DeliveryAttempt.types a) (attempt_constraints db a);
       Ok (tt, set_attempts (<[DeliveryAttempt.id a := a]> (attempts db)) db).

(** The flush of a modified row: an [UPDATE] by primary key that has to match a row. *)
Definition update_delivery (d : Delivery) : tx unit := λ db,
  if bool_decide (is_Some (deliveries db !! Delivery.id d)) then
    _ ← check_row (Delivery.types d) (delivery_constraints db d);
    Ok (tt, set_deliveries (<[Delivery.id d := d]> (deliveries db)) db)
  else Raise (RuntimeErr (lit "UPDATE matched no row")).

Definition update_attempt (a : DeliveryAttempt) : tx unit := λ db,
  if bool_decide (is_Some (attempts db !! DeliveryAttempt.id a)) then
    _ ← check_row (DeliveryAttempt.types a) (attempt_constraints db a);
    Ok (tt, set_attempts (<[DeliveryAttempt.id a := a]> (attempts db)) db)
  else Raise (RuntimeErr (lit "UPDATE matched no row")).

(** ** Weakest preconditions *)

Definition wp {A : Type} (m : tx A) (Q : A → Db → Prop) (E : exn → Prop) (db : Db) : Prop :=
  match m db with
  | Ok (a, db') => Q a db'
  | Raise e => E e
  end.

Lemma wp_ret {A} (a : A) Q E db : Q a db → wp (mret a) Q E db.
Proof. done. Qed.

Lemma wp_raise {A} e (Q : A → Db → Prop) (E : exn → Prop) db : E e → wp (raise e) Q E db.
Proof. done. Qed.

Lemma wp_bind {A B} (m : tx A) (f : A → tx B) Q E db :
  wp m (λ a db', wp (f a) Q E db') E db → wp (m ≫= f) Q E db.
Proof. unfold wp, mbind, tx_bind. by destruct (m db) as [[a db']|e]. Qed.

Lemma wp_query {A} (f : Db → A) Q E db : Q (f db) db → wp (query f) Q E db.
Proof. done. Qed.

Lemma wp_lift {A} (m : outcome A) (Q : A → Db → Prop) (E : exn → Prop) db :
  (∀ a, m = Ok a → Q a db) → (∀ e, m = Raise e → E e) → wp (lift m) Q E db.
Proof. unfold wp, lift. destruct m; auto. Qed.

Lemma wp_one_or_none {A} (f : Db → list A) (Q : option A → Db → Prop) (E : exn → Prop) db :
  (view_rows (f db) = NoRow → Q None db) →
  (∀ a, view_rows (f db) = OneRow a → Q (Some a) db) →
  (view_rows (f db) = ManyRows → E MultipleResultsErr) →
  wp (one_or_none f) Q E db.
Proof. unfold wp, one_or_none. destruct (view_rows (f db)); auto. Qed.

Lemma wp_mono {A} (m : tx A) (Q Q' : A → Db → Prop) (E E' : exn → Prop) db :
  wp m Q E db → (∀ a db', Q a db' → Q' a db') → (∀ e, E e → E' e) → wp m Q' E' db.
Proof. unfold wp. destruct (m db) as [[a db']|e]; auto. Qed.

Lemma wp_run {A} (m : tx A) Q E db :
  wp m Q E db →
  match run_tx m db with
  | (Ok a, db') => Q a db'
  | (Raise e, db') => E e ∧ db' = db
  end.
Proof. unfold wp, run_tx. destruct (m db) as [[a db']|e]; auto. Qed.

Lemma wp_Ok {A} (m : tx A) (Q : A → Db → Prop) (E : exn → Prop) db a db' :
  wp m Q E db → m db = Ok (a, db') → Q a db'.
Proof. unfold wp. intros Hw Em. by rewrite Em in Hw. Qed.

Lemma wp_Raise {A} (m : tx A) (Q : A → Db → Prop) (E : exn → Prop) db e : wp m Q E db → m db = Raise e → E e.
Proof. unfold wp. intros Hw Em. by rewrite Em in Hw. Qed.

Lemma wp_check_row types cs (Q : unit → Db → Prop) (E : exn → Prop) db :
  (types = true → violated cs = None → Q tt db) →
  (types = false → E (DataErr (lit "value out of range for its column"))) →
  (∀ n, types = true → violated cs = Some n → E (IntegrityErr n)) →
  wp (lift (check_row types cs)) Q E db.
Proof.
  unfold wp, lift, check_row. destruct types; [|auto]. destruct (violated cs); auto.
Qed.

(** ** The schema's constraints as one predicate *)

Record db_ok (db : Db) : Prop := {
  ok_endpoint_key : keyed (endpoints db);
  ok_event_key : keyed (events db);
  ok_delivery_key : keyed (deliveries db);
  ok_attempt_key : keyed (attempts db);
  ok_endpoint_row : ∀ k e, endpoints db !! k = Some e →
    Endpoint.types e = true ∧ violated (Endpoint.checks e) = None;
  ok_event_row : ∀ k e, events db !! k = Some e →
    Event.types e = true ∧ violated (Event.checks e) = None;
  ok_delivery_row : ∀ k d, deliveries db !! k = Some d →
    Delivery.types d = true ∧ violated (Delivery.checks d) = None;
  ok_attempt_row : ∀ k a, attempts db !! k = Some a →
    DeliveryAttempt.types a = true ∧ violated (DeliveryAttempt.checks a) = None;
  ok_event_unique : ∀ k k' e e', events db !! k = Some e → events db !! k' = Some e' →
    Event.conflict e e' → k = k';
  ok_delivery_unique : ∀ k k' d d', deliveries db !! k = Some d → deliveries db !! k' = Some d' →
    Delivery.conflict d d' → k = k';
  ok_attempt_unique : ∀ k k' a a', attempts db !! k = Some a → attempts db !! k' = Some a' →
    DeliveryAttempt.conflict a a' → k = k';
  ok_delivery_event : ∀ k d, deliveries db !! k = Some d → is_Some (events db !! Delivery.event_id d);
  ok_delivery_endpoint : ∀ k d, deliveries db !! k = Some d →
    is_Some (endpoints db !! Delivery.endpoint_id d);
  ok_delivery_source : ∀ k d s, deliveries db !! k = Some d →
    Delivery.replayed_from_delivery_id d = Some s → is_Some (deliveries db !! s);
  ok_attempt_delivery : ∀ k a, attempts db !! k = Some a →
    is_Some (deliveries db !! DeliveryAttempt.delivery_id a)
}.

Lemma empty_db_ok : db_ok empty_db.
Proof. split; intros *; simpl; try (intros ? ?); rewrite ?lookup_empty; done. Qed.

(** ** Writes preserve the constraints *)

Section insert_row.
Context {row : Type} `{HasId row} (conflict : relation row) `{!Symmetric conflict}.
Implicit Types (tbl : gmap UUID row) (r : row).

Definition unique (tbl : gmap UUID row) : Prop :=
  ∀ k k' r r', tbl !! k = Some r → tbl !! k' = Some r' → conflict r r' → k = k'.

Lemma keyed_insert tbl r : keyed tbl → keyed (<[row_id r := r]> tbl).
Proof. intros Hk k r' [[<- <-]|[_ Hl]]%lookup_insert_Some; [done|by apply Hk]. Qed.

Lemma rows_insert (P : row → Prop) tbl r :
  (∀ k r', tbl !! k = Some r' → P r') → P r →
  ∀ k r', <[row_id r := r]> tbl !! k = Some r' → P r'.
Proof. intros HP Hr k r' [[_ <-]|[_ Hl]]%lookup_insert_Some; eauto. Qed.

Lemma unique_insert tbl r :
  unique tbl → no_conflict conflict tbl r → unique (<[row_id r := r]> tbl).
Proof.
  intros Hu Hn k k' a b Ha Hb Hc.
  apply lookup_insert_Some in Ha as [[<- <-]|[Hka Ha]], Hb as [[<- <-]|[Hkb Hb]]; [done| | |by eapply Hu].
  - destruct (map_Forall_lookup_1 _ _ _ _ Hn Hb); [done|contradiction].
  - symmetry in Hc. destruct (map_Forall_lookup_1 _ _ _ _ Hn Ha); [done|contradiction].
Qed.

(** A row that agrees with the unique keys of the row it replaces creates no conflict. *)
Lemma no_conflict_update tbl r r0 :
  unique tbl → tbl !! row_id r = Some r0 →
  (∀ k r', tbl !! k = Some r' → k ≠ row_id r → conflict r r' → conflict r0 r') →
  no_conflict conflict tbl r.
Proof.
  intros Hu Hr Hc k r' Hk. destruct (decide (k = row_id r)) as [->|Hne]; [by left|right].
  intros Hcr. apply Hne. symmetry. by eapply Hu; [exact Hr|exact Hk|eapply Hc].
Qed.

Lemma lookup_insert_is_Some_mono tbl r k : is_Some (tbl !! k) → is_Some (<[row_id r := r]> tbl !! k).
Proof. rewrite lookup_insert_is_Some. destruct (decide (row_id r = k)); auto. Qed.
End insert_row.

#[export] Instance Event_conflict_sym : Symmetric Event.conflict.
Proof. intros a b. unfold Event.conflict. naive_solver. Qed.

#[export] Instance Delivery_conflict_sym : Symmetric Delivery.conflict.
Proof.
  intros a b. unfold Delivery.conflict, Delivery.same_generation, Delivery.same_replay_request, Delivery.both_active.
  intros [(?&?&?)|[(E1&E2&?&?)|(?&?&?&?)]]; [left|right; left|right; right]; split_and!; auto;
    by rewrite <- ?E1, <- ?E2.
Qed.

#[export] Instance DeliveryAttempt_conflict_sym : Symmetric DeliveryAttempt.conflict.
Proof.
  intros a b. unfold DeliveryAttempt.conflict. intros [? [?|[?|[? ?]]]]; auto.
Qed.

Lemma check_row_Ok types cs : check_row types cs = Ok tt ↔ types = true ∧ violated cs = None.
Proof.
  unfold check_row. destruct types; [|split; [done|by intros [? _]]].
  destruct (violated cs); split; try done; by intros [_ ?].
Qed.

Lemma violated_app a b : violated (a ++ b) = None ↔ violated a = None ∧ violated b = None.
Proof. by rewrite !violated_None, Forall_app. Qed.

Lemma delivery_constraints_None db d :
  violated (delivery_constraints db d) = None ↔
  violated (Delivery.checks d) = None ∧
  is_Some (events db !! Delivery.event_id d) ∧ is_Some (endpoints db !! Delivery.endpoint_id d) ∧
  (∀ s, Delivery.replayed_from_delivery_id d = Some s → s = Delivery.id d ∨ is_Some (deliveries db !! s)) ∧
  no_conflict Delivery.conflict (deliveries db) d.
Proof.
  unfold delivery_constraints. rewrite violated_app. f_equiv.
  rewrite violated_None, !Forall_cons, Forall_nil. cbn [snd].
  rewrite !bool_decide_eq_true. rewrite (right_id True (∧)).
  repeat f_equiv. destruct (Delivery.replayed_from_delivery_id d) as [s|]; simpl.
  - rewrite bool_decide_eq_true. naive_solver.
  - naive_solver.
Qed.

Lemma attempt_constraints_None db a :
  violated (attempt_constraints db a) = None ↔
  violated (DeliveryAttempt.checks a) = None ∧
  is_Some (deliveries db !! DeliveryAttempt.delivery_id a) ∧
  no_conflict DeliveryAttempt.conflict (attempts db) a.
Proof.
  unfold attempt_constraints. rewrite violated_app. f_equiv.
  rewrite violated_None, !Forall_cons, Forall_nil. cbn [snd].
  by rewrite !bool_decide_eq_true, (right_id True (∧)).
Qed.

(** The effect of a write of a delivery row that satisfies the constraints. *)
Lemma set_delivery_ok db d :
  db_ok db → Delivery.types d = true → violated (delivery_constraints db d) = None →
  db_ok (set_deliveries (<[Delivery.id d := d]> (deliveries db)) db).
Proof.
  intros [] Ht (Hc & He & Hp & Hs & Hn)%delivery_constraints_None. split; simpl; try done.
  - by apply (keyed_insert (row := Delivery)).
  - apply (rows_insert (λ d, Delivery.types d = true ∧ violated (Delivery.checks d) = None)); auto.
  - apply (unique_insert (row := Delivery) Delivery.conflict); auto.
  - apply (rows_insert (λ d, is_Some (events db !! Delivery.event_id d))); auto.
  - apply (rows_insert (λ d, is_Some (endpoints db !! Delivery.endpoint_id d))); auto.
  - intros k d' s [[<- <-]|[Hne Hl]]%lookup_insert_Some Hs'.
    + destruct (Hs s Hs') as [->|?]; [rewrite lookup_insert_eq; eauto|].
      by apply (lookup_insert_is_Some_mono (row := Delivery)).
    + apply (lookup_insert_is_Some_mono (row := Delivery)). eauto.
  - intros k a Ha. apply (lookup_insert_is_Some_mono (row := Delivery)). eauto.
Qed.

Lemma set_attempt_ok db a :
  db_ok db → DeliveryAttempt.types a = true → violated (attempt_constraints db a) = None →
  db_ok (set_attempts (<[DeliveryAttempt.id a := a]> (attempts db)) db).
Proof.
  intros [] Ht (Hc & Hd & Hn)%attempt_constraints_None. split; simpl; try done.
  - by apply (keyed_insert (row := DeliveryAttempt)).
  - apply (rows_insert (λ a, DeliveryAttempt.types a = true ∧ violated (DeliveryAttempt.checks a) = None)); auto.
  - apply (unique_insert (row := DeliveryAttempt) DeliveryAttempt.conflict); auto.
  - apply (rows_insert (λ a, is_Some (deliveries db !! DeliveryAttempt.delivery_id a))); auto.
Qed.

Lemma set_event_ok db e :
  db_ok db → Event.types e = true → violated (event_constraints e) = None →
  no_conflict Event.conflict (events db) e →
  db_ok (set_events (<[Event.id e := e]> (events db)) db).
Proof.
  intros [] Ht Hc Hn. split; simpl; try done.
  - by apply (keyed_insert (row := Event)).
  - apply (rows_insert (λ e, Event.types e = true ∧ violated (Event.checks e) = None)); auto.
  - apply (unique_insert (row := Event) Event.conflict); auto.
  - intros k d Hd. apply (lookup_insert_is_Some_mono (row := Event)). eauto.
Qed.

Lemma set_endpoint_ok db e :
  db_ok db → Endpoint.types e = true → violated (endpoint_constraints e) = None →
  db_ok (set_endpoints (<[Endpoint.id e := e]> (endpoints db)) db).
Proof.
  intros [] Ht Hc. split; simpl; try done.
  - by apply (keyed_insert (row := Endpoint)).
  - apply (rows_insert (λ e, Endpoint.types e = true ∧ violated (Endpoint.checks e) = None)); auto.
  - intros k d Hd. apply (lookup_insert_is_Some_mono (row := Endpoint)). eauto.
Qed.

(** Preconditions of the writes in [wp] form. *)
Lemma wp_insert_delivery d (Q : unit → Db → Prop) (E : exn → Prop) db :
  deliveries db !! Delivery.id d = None → Delivery.types d = true →
  violated (delivery_constraints db d) = None →
  Q tt (set_deliveries (<[Delivery.id d := d]> (deliveries db)) db) → wp (insert_delivery d) Q E db.
Proof.
  intros Hn Ht Hc HQ. unfold wp, insert_delivery. rewrite Hn.
  rewrite bool_decide_eq_false_2 by (by apply is_Some_None). unfold check_row. by rewrite Ht, Hc.
Qed.

Lemma wp_insert_attempt a (Q : unit → Db → Prop) (E : exn → Prop) db :
  attempts db !! DeliveryAttempt.id a = None → DeliveryAttempt.types a = true →
  violated (attempt_constraints db a) = None →
  Q tt (set_attempts (<[DeliveryAttempt.id a := a]> (attempts db)) db) → wp (insert_attempt a) Q E db.
Proof.
  intros Hn Ht Hc HQ. unfold wp, insert_attempt. rewrite Hn.
  rewrite bool_decide_eq_false_2 by (by apply is_Some_None). unfold check_row. by rewrite Ht, Hc.
Qed.

Lemma wp_update_delivery d (Q : unit → Db → Prop) (E : exn → Prop) db :
  is_Some (deliveries db !! Delivery.id d) → Delivery.types d = true →
  violated (delivery_constraints db d) = None →
  Q tt (set_deliveries (<[Delivery.id d := d]> (deliveries db)) db) → wp (update_delivery d) Q E db.
Proof.
  intros Hn Ht Hc HQ. unfold wp, update_delivery.
  rewrite bool_decide_eq_true_2 by done. unfold check_row. by rewrite Ht, Hc.
Qed.

Lemma wp_update_attempt a (Q : unit → Db → Prop) (E : exn → Prop) db :
  is_Some (attempts db !! DeliveryAttempt.id a) → DeliveryAttempt.types a = true →
  violated (attempt_constraints db a) = None →
  Q tt (set_attempts (<[DeliveryAttempt.id a := a]> (attempts db)) db) → wp (update_attempt a) Q E db.
Proof.
  intros Hn Ht Hc HQ. unfold wp, update_attempt.
  rewrite bool_decide_eq_true_2 by done. unfold check_row. by rewrite Ht, Hc.
Qed.

Lemma insert_delivery_run d db :
  deliveries db !! Delivery.id d = None → Delivery.types d = true →
  violated (delivery_constraints db d) = None →
  insert_delivery d db = Ok (tt, set_deliveries (<[Delivery.id d := d]> (deliveries db)) db).
Proof.
  intros Hn Ht Hc. unfold insert_delivery.
  rewrite Hn, bool_decide_eq_false_2 by (by intros [? ?]). by rewrite (proj2 (check_row_Ok _ _)).
Qed.

(** What a successful insert says of its row. *)
Lemma insert_delivery_Ok d db u db' :
  insert_delivery d db = Ok (u, db') →
  deliveries db !! Delivery.id d = None ∧ Delivery.types d = true ∧
  violated (delivery_constraints db d) = None ∧
  db' = set_deliveries (<[Delivery.id d := d]> (deliveries db)) db.
Proof.
  unfold insert_delivery. case_bool_decide as Hn; [done|].
  destruct (check_row _ _) as [[]|] eqn:Hc; [|done]. apply check_row_Ok in Hc as [Ht Hc].
  intros [= _ <-]. split_and!; [by apply eq_None_not_Some|done..].
Qed.

Lemma insert_event_Ok e b db db' :
  insert_event_if_absent e db = Ok (b, db') →
  Event.types e = true ∧ violated (Event.checks e) = None ∧
  (b = true ∧ no_conflict Event.conflict (events db) e ∧ events db !! Event.id e = None ∧
     db' = set_events (<[Event.id e := e]> (events db)) db ∨
   b = false ∧ ¬ no_conflict Event.conflict (events db) e ∧ db' = db).
Proof.
  unfold insert_event_if_absent.
  destruct (check_row _ _) as [[]|] eqn:Hc; [|done]. apply check_row_Ok in Hc as [Ht Hc]. simpl.
  case_bool_decide as Hn; [case_bool_decide as Hk; [done|]|]; intros [= <- <-]; split_and!; try done;
    [left|right]; split_and!; try done. by apply eq_None_not_Some.
Qed.

(** A query: it returns and leaves the database alone. *)
Definition reads {A : Type} (m : tx A) (db : Db) (P : A → Prop) : Prop := ∃ a, m db = Ok (a, db) ∧ P a.

Lemma wp_reads {A} (m : tx A) db (P : A → Prop) :
  wp m (λ a db', db' = db ∧ P a) (λ _, False) db → reads m db P.
Proof. unfold wp, reads. destruct (m db) as [[a db']|]; [|done]. intros [-> ?]. eauto. Qed.

Lemma update_delivery_run d db :
  is_Some (deliveries db !! Delivery.id d) → Delivery.types d = true →
  violated (delivery_constraints db d) = None →
  update_delivery d db = Ok (tt, set_deliveries (<[Delivery.id d := d]> (deliveries db)) db).
Proof.
  intros Hn Ht Hc. unfold update_delivery. rewrite bool_decide_eq_true_2 by done.
  by rewrite (proj2 (check_row_Ok _ _)).
Qed.

Lemma insert_attempt_run a db :
  attempts db !! DeliveryAttempt.id a = None → DeliveryAttempt.types a = true →
  violated (attempt_constraints db a) = None →
  insert_attempt a db = Ok (tt, set_attempts (<[DeliveryAttempt.id a := a]> (attempts db)) db).
Proof.
  intros Hn Ht Hc. unfold insert_attempt.
  rewrite Hn, bool_decide_eq_false_2 by (by intros [? ?]). by rewrite (proj2 (check_row_Ok _ _)).
Qed.

Lemma update_attempt_run a db :
  is_Some (attempts db !! DeliveryAttempt.id a) → DeliveryAttempt.types a = true →
  violated (attempt_constraints db a) = None →
  update_attempt a db = Ok (tt, set_attempts (<[DeliveryAttempt.id a := a]> (attempts db)) db).
Proof.
  intros Hn Ht Hc. unfold update_attempt. rewrite bool_decide_eq_true_2 by done.
  by rewrite (proj2 (check_row_Ok _ _)).
Qed.
