(* ===== verification/Repositories.v ===== *)
(** [repositories.py]: the queries and inserts of the repositories, as transactions
    on the four tables.

    A row lock ([with_for_update]) does not change what a query returns, so
    [get_for_update] reads like [get]; a transaction is one atomic step of the
    system, which is what the locks are for.  After the definitions, one lemma per
    query says what it returns on a database that satisfies the constraints. *)
From S2P Require Import Prelude PyStr Errors Json StateMachine Models Database.
From Stdlib Require Import ZArith.

(** [repositories.NewEvent] has the fields of an event row. *)
Abbreviation NewEvent := Event.t.

Module EndpointRepository.
Definition create (endpoint : Endpoint) : tx Endpoint :=
  _ ← insert_endpoint endpoint; mret endpoint.

(** [session.get(Endpoint, endpoint_id)] *)
Definition get (endpoint_id : UUID) : tx (option Endpoint) :=
  query (λ db, endpoints db !! endpoint_id).
End EndpointRepository.

Module EventRepository.
Definition insert_if_absent (event : NewEvent) : tx bool := insert_event_if_absent event.

Definition by_key (source idempotency_key : pystr) (e : Event) : Prop :=
  Event.source e = source ∧ Event.idempotency_key e = idempotency_key.

#[global] Instance by_key_dec source key e : Decision (by_key source key e).
Proof. unfold by_key. apply _. Defined.

Definition get_by_idempotency_key (source idempotency_key : pystr) : tx (option Event) :=
  one_or_none (λ db, select (by_key source idempotency_key) (events db)).

Definition get (event_id : UUID) : tx (option Event) := query (λ db, events db !! event_id).

Definition get_for_update (event_id : UUID) : tx (option Event) :=
  one_or_none (λ db, select (λ e, Event.id e = event_id) (events db)).
End EventRepository.

Module DeliveryRepository.
Definition create (delivery : Delivery) : tx Delivery :=
  _ ← insert_delivery delivery; mret delivery.

(** The deliveries of an event to an endpoint. *)
Definition in_chain (event_id endpoint_id : UUID) (d : Delivery) : Prop :=
  Delivery.event_id d = event_id ∧ Delivery.endpoint_id d = endpoint_id.

#[global] Instance in_chain_dec event_id endpoint_id d : Decision (in_chain event_id endpoint_id d).
Proof. unfold in_chain. apply _. Defined.

Definition get_initial (event_id endpoint_id : UUID) : tx (option Delivery) :=
  one_or_none (λ db, select (λ d, in_chain event_id endpoint_id d ∧ Delivery.replay_generation d = 0%Z)
                       (deliveries db)).

(** [order_by(replay_generation, created_at, id)] *)
Definition timeline_le : relation Delivery := λ a b,
  (Delivery.replay_generation a < Delivery.replay_generation b)%Z ∨
  Delivery.replay_generation a = Delivery.replay_generation b ∧
  key_le (Delivery.created_at a, Delivery.id a) (Delivery.created_at b, Delivery.id b).

#[global] Instance timeline_le_dec : RelDecision timeline_le.
Proof. intros a b. unfold timeline_le. apply _. Defined.

Definition list_for_event (event_id : UUID) : tx (list Delivery) :=
  query (λ db, merge_sort timeline_le (select (λ d, Delivery.event_id d = event_id) (deliveries db))).

Definition get (delivery_id : UUID) : tx (option Delivery) := query (λ db, deliveries db !! delivery_id).

Definition get_for_update (delivery_id : UUID) : tx (option Delivery) :=
  one_or_none (λ db, select (λ d, Delivery.id d = delivery_id) (deliveries db)).

Definition by_replay_request (source_delivery_id : UUID) (idempotency_key : pystr) (d : Delivery) : Prop :=
  Delivery.replayed_from_delivery_id d = Some source_delivery_id ∧
  Delivery.replay_idempotency_key d = Some idempotency_key.

#[global] Instance by_replay_request_dec source key d : Decision (by_replay_request source key d).
Proof. unfold by_replay_request. apply _. Defined.

Definition get_by_replay_request (source_delivery_id : UUID) (idempotency_key : pystr)
  : tx (option Delivery) :=
  one_or_none (λ db, select (by_replay_request source_delivery_id idempotency_key) (deliveries db)).

(** [order_by(replay_generation.desc()).limit(1)]: descending is ascending on the opposite. *)
Definition latest_first (rows : list Delivery) : list Delivery :=
  order_by key_le (λ d, (- Delivery.replay_generation d, 0%N)%Z) rows.

Definition get_latest (event_id endpoint_id : UUID) : tx (option Delivery) :=
  one_or_none (λ db, take 1 (latest_first (select (in_chain event_id endpoint_id) (deliveries db)))).

Definition get_active (event_id endpoint_id : UUID) : tx (option Delivery) :=
  one_or_none (λ db, select (λ d, in_chain event_id endpoint_id d ∧
                                  Delivery.status d ∈ [PENDING; IN_PROGRESS; RETRY_WAIT])
                       (deliveries db)).

Definition attempt_rows (db : Db) (delivery_id : UUID) : list DeliveryAttempt :=
  order_by key_le (λ a, (DeliveryAttempt.attempt_number a, 0%N))
    (select (λ a, DeliveryAttempt.delivery_id a = delivery_id) (attempts db)).

(** [joinedload(Delivery.attempts)]: the relationship is ordered by the attempt number. *)
Definition get_with_attempts (delivery_id : UUID) : tx (option (Delivery * list DeliveryAttempt)) :=
  one_or_none (λ db, map (λ d, (d, attempt_rows db (Delivery.id d)))
                       (select (λ d, Delivery.id d = delivery_id) (deliveries db))).

Definition list_attempts (delivery_id : UUID) : tx (list DeliveryAttempt) :=
  query (λ db, attempt_rows db delivery_id).
End DeliveryRepository.

(** ** What the queries return *)

(** A query whose predicate at most one row of the table satisfies. *)
Lemma wp_find {row} `{HasId row} (P : row → Prop) `{!∀ r, Decision (P r)} (table : Db → gmap N row)
  (Q : option row → Db → Prop) (E : exn → Prop) db :
  keyed (table db) →
  (∀ k k' r r', table db !! k = Some r → table db !! k' = Some r' → P r → P r' → k = k') →
  (∀ r, P r → table db !! row_id r = Some r → Q (Some r) db) →
  ((∀ k r, table db !! k = Some r → ¬ P r) → Q None db) →
  wp (one_or_none (λ db, select P (table db))) Q E db.
Proof.
  intros Hk Hu HS HN. unfold wp, one_or_none.
  destruct (decide (map_Exists (λ _ r, P r) (table db))) as [(k & r & Hl & HP)|Hn].
  - rewrite (view_select_unique P (table db) k r); [|done..|].
    + apply HS; [done|]. by rewrite (Hk k r Hl).
    + intros k' r' Hl' HP'. assert (k' = k) as -> by eauto. congruence.
  - rewrite view_select_none; [apply HN|]; intros k r Hl HP; apply Hn; by exists k, r.
Qed.

(** A query by primary key with [one_or_none] is a lookup. *)
Lemma wp_find_id {row} `{HasId row} (table : Db → gmap N row) id
  (Q : option row → Db → Prop) (E : exn → Prop) db :
  keyed (table db) → Q (table db !! id) db →
  wp (one_or_none (λ db, select (λ r : row, row_id r = id) (table db))) Q E db.
Proof.
  intros Hk HQ. apply (wp_find (λ r, row_id r = id) table); [done|..].
  - intros k k' r r' Hr Hr' <- E'. apply Hk in Hr, Hr'. congruence.
  - intros r <- Hr. by rewrite <- Hr.
  - intros Hn. destruct (table db !! id) as [r|] eqn:Er; [|done].
    destruct (Hn _ _ Er). by apply Hk.
Qed.

Section queries.
Context (db : Db) (Hok : db_ok db) (E : exn → Prop).

Lemma wp_get_by_idempotency_key source key (Q : option Event → Db → Prop) :
  (∀ e, EventRepository.by_key source key e → events db !! Event.id e = Some e → Q (Some e) db) →
  ((∀ k e, events db !! k = Some e → ¬ EventRepository.by_key source key e) → Q None db) →
  wp (EventRepository.get_by_idempotency_key source key) Q E db.
Proof.
  intros HS HN. apply (wp_find (EventRepository.by_key source key) events); [apply Hok| |done..].
  intros k k' e e' He He' [E1 E2] [E3 E4]. apply (ok_event_unique db Hok k k' e e'); [done..|].
  split; congruence.
Qed.

Lemma wp_get_initial event_id endpoint_id (Q : option Delivery → Db → Prop) :
  (∀ d, DeliveryRepository.in_chain event_id endpoint_id d → Delivery.replay_generation d = 0%Z →
        deliveries db !! Delivery.id d = Some d → Q (Some d) db) →
  ((∀ k d, deliveries db !! k = Some d →
      ¬ (DeliveryRepository.in_chain event_id endpoint_id d ∧ Delivery.replay_generation d = 0%Z)) → Q None db) →
  wp (DeliveryRepository.get_initial event_id endpoint_id) Q E db.
Proof.
  intros HS HN. unfold DeliveryRepository.get_initial.
  apply (wp_find (λ d, DeliveryRepository.in_chain event_id endpoint_id d ∧ Delivery.replay_generation d = 0%Z)
           deliveries); [apply Hok| |intros d [? ?]; by apply HS|done].
  intros k k' d d' Hd Hd' [[? ?] ?] [[? ?] ?]. apply (ok_delivery_unique db Hok k k' d d'); [done..|].
  left. split_and!; congruence.
Qed.

Lemma wp_get_by_replay_request source key (Q : option Delivery → Db → Prop) :
  (∀ d, DeliveryRepository.by_replay_request source key d → deliveries db !! Delivery.id d = Some d →
        Q (Some d) db) →
  ((∀ k d, deliveries db !! k = Some d → ¬ DeliveryRepository.by_replay_request source key d) → Q None db) →
  wp (DeliveryRepository.get_by_replay_request source key) Q E db.
Proof.
  intros HS HN. apply (wp_find (DeliveryRepository.by_replay_request source key) deliveries);
    [apply Hok| |done..].
  intros k k' d d' Hd Hd' [E1 E2] [E3 E4]. apply (ok_delivery_unique db Hok k k' d d'); [done..|].
  right; left. split_and!; [congruence|congruence|by rewrite E1|by rewrite E2].
Qed.

Lemma active_in s : s ∈ [PENDING; IN_PROGRESS; RETRY_WAIT] ↔ active s = true.
Proof. rewrite <- (bool_decide_eq_true (s ∈ _)). by destruct s. Qed.

Lemma wp_get_active event_id endpoint_id (Q : option Delivery → Db → Prop) :
  (∀ d, DeliveryRepository.in_chain event_id endpoint_id d → active (Delivery.status d) = true →
        deliveries db !! Delivery.id d = Some d → Q (Some d) db) →
  ((∀ k d, deliveries db !! k = Some d → DeliveryRepository.in_chain event_id endpoint_id d →
      active (Delivery.status d) = false) → Q None db) →
  wp (DeliveryRepository.get_active event_id endpoint_id) Q E db.
Proof.
  intros HS HN. unfold DeliveryRepository.get_active.
  apply (wp_find (λ d, DeliveryRepository.in_chain event_id endpoint_id d ∧
                       Delivery.status d ∈ [PENDING; IN_PROGRESS; RETRY_WAIT]) deliveries);
    [apply Hok| | |].
  - intros k k' d d' Hd Hd' [[? ?] ?%active_in] [[? ?] ?%active_in].
    apply (ok_delivery_unique db Hok k k' d d'); [done..|].
    right; right. split_and!; congruence.
  - intros d [? ?%active_in]. by apply HS.
  - intros Hn. apply HN. intros k d Hd Hc. apply not_true_is_false. intros ?%active_in. by eapply Hn.
Qed.

(** The latest generation is a row of the chain no other row of the chain exceeds. *)
Lemma wp_get_latest event_id endpoint_id (Q : option Delivery → Db → Prop) :
  (∀ d, DeliveryRepository.in_chain event_id endpoint_id d → deliveries db !! Delivery.id d = Some d →
        (∀ k d', deliveries db !! k = Some d' → DeliveryRepository.in_chain event_id endpoint_id d' →
           (Delivery.replay_generation d' ≤ Delivery.replay_generation d)%Z) → Q (Some d) db) →
  ((∀ k d, deliveries db !! k = Some d → ¬ DeliveryRepository.in_chain event_id endpoint_id d) → Q None db) →
  wp (DeliveryRepository.get_latest event_id endpoint_id) Q E db.
Proof.
  intros HS HN. unfold wp, DeliveryRepository.get_latest, one_or_none, DeliveryRepository.latest_first.
  destruct (order_by key_le _ _) as [|d l] eqn:El; simpl.
  - apply HN. intros k d Hd Hc.
    assert (Hin : d ∈ select (DeliveryRepository.in_chain event_id endpoint_id) (deliveries db))
      by (apply elem_of_select; eauto).
    apply (elem_of_order_by key_le (λ d, (- Delivery.replay_generation d, 0%N)%Z)) in Hin.
    rewrite El in Hin. by apply elem_of_nil in Hin.
  - apply order_by_head_min in El as [Hin Hmin]; [|apply _..].
    apply elem_of_select in Hin as [Hc [k Hk]]. apply HS; [done| |].
    + assert (k = Delivery.id d) as -> by (symmetry; by apply (ok_delivery_key db Hok)). done.
    + intros k' d' Hd' Hc'.
      destruct (Hmin d') as [->|Hle]; [apply elem_of_select; eauto|done|].
      unfold key_le in Hle; simpl in Hle. lia.
Qed.

(** The attempts of a delivery in the order of their numbers. *)
Lemma elem_of_attempt_rows k a :
  a ∈ DeliveryRepository.attempt_rows db k ↔
  DeliveryAttempt.delivery_id a = k ∧ attempts db !! DeliveryAttempt.id a = Some a.
Proof.
  unfold DeliveryRepository.attempt_rows. rewrite elem_of_order_by, elem_of_select.
  split; intros [Hd Ha]; (split; [done|]).
  - destruct Ha as [ka Ha]. by rewrite (ok_attempt_key db Hok ka a Ha : DeliveryAttempt.id a = ka).
  - eauto.
Qed.

Lemma last_attempt_row k a :
  last (DeliveryRepository.attempt_rows db k) = Some a →
  DeliveryAttempt.delivery_id a = k ∧ attempts db !! DeliveryAttempt.id a = Some a ∧
  ∀ a', a' ∈ DeliveryRepository.attempt_rows db k →
    (DeliveryAttempt.attempt_number a' ≤ DeliveryAttempt.attempt_number a)%Z.
Proof.
  intros [l El]%last_Some. 
  assert (Hin : a ∈ DeliveryRepository.attempt_rows db k) by (rewrite El; set_solver).
  apply elem_of_attempt_rows in Hin as [Hd Ha]. split_and!; [done|done|].
  intros a' Ha'. pose proof (order_by_sorted key_le (λ a, (DeliveryAttempt.attempt_number a, 0%N))
    (select (λ a, DeliveryAttempt.delivery_id a = k) (attempts db))) as Hs.
  fold (DeliveryRepository.attempt_rows db k) in Hs. rewrite El in Hs, Ha'.
  apply elem_of_app in Ha' as [Ha'|Ha'%list_elem_of_singleton]; [|by subst].
  assert (Hr : key_rel key_le (λ a, (DeliveryAttempt.attempt_number a, 0%N)) a' a).
  { eapply StronglySorted_app_1_elem_of; [exact Hs|done|set_solver]. }
  unfold key_rel, key_le in Hr; simpl in Hr. lia.
Qed.
End queries.
