(* ===== verification/Invariant.v ===== *)
(** The invariant of the database that the services and the worker maintain, beyond
    what the schema enforces: the evidence each delivery status stands for, the chain
    of replay generations, and the integrity of accepted events. *)
From S2P Require Import Prelude PyStr Errors Json Sha256 Serialization Retry StateMachine Models Database.
From S2P Require Import Repositories.
From Stdlib Require Import ZArith.

(** The attempt of a delivery with a given number. *)
Definition attempt_of (db : Db) (k : UUID) (n : Z) (a : DeliveryAttempt) : Prop :=
  attempts db !! DeliveryAttempt.id a = Some a ∧
  DeliveryAttempt.delivery_id a = k ∧ DeliveryAttempt.attempt_number a = n.

(** What the status and the counters of a delivery say of its attempts. *)
Record progress_inv (db : Db) (d : Delivery) : Prop := {
  pi_numbers : ∀ n, (∃ a, attempt_of db (Delivery.id d) n a) ↔ (1 ≤ n ≤ Delivery.attempt_count d)%Z;
  pi_evidence : Delivery.status d = IN_PROGRESS →
    ∃ a, attempt_of db (Delivery.id d) (Delivery.attempt_count d) a ∧
      DeliveryAttempt.status a = ATTEMPT_IN_PROGRESS ∧
      Delivery.lease_token d = Some (DeliveryAttempt.lease_token a);
  pi_resolved : ∀ n a, attempt_of db (Delivery.id d) n a →
    DeliveryAttempt.status a = ATTEMPT_IN_PROGRESS →
    Delivery.status d = IN_PROGRESS ∧ n = Delivery.attempt_count d;
  pi_schedule : is_Some (Delivery.next_attempt_at d) ↔
    Delivery.status d = PENDING ∨ Delivery.status d = RETRY_WAIT;
  pi_pending : Delivery.status d = PENDING → Delivery.attempt_count d = 0%Z;
  pi_delivered : Delivery.status d = DELIVERED →
    ∃ a, attempt_of db (Delivery.id d) (Delivery.attempt_count d) a ∧
      DeliveryAttempt.disposition a = Some SUCCEEDED;
  pi_retry : Delivery.status d = RETRY_WAIT →
    ∃ a, attempt_of db (Delivery.id d) (Delivery.attempt_count d) a ∧
      DeliveryAttempt.disposition a = Some RETRY ∧
      DeliveryAttempt.retry_scheduled_for a = Delivery.next_attempt_at d
}.

(** The place of a delivery in the chain of generations of its event and endpoint. *)
Record chain_inv (db : Db) (d : Delivery) : Prop := {
  ci_initial : Delivery.replay_generation d = 0%Z ↔ Delivery.replayed_from_delivery_id d = None;
  ci_source : ∀ s, Delivery.replayed_from_delivery_id d = Some s →
    ∃ ds, deliveries db !! s = Some ds ∧
      DeliveryRepository.in_chain (Delivery.event_id d) (Delivery.endpoint_id d) ds ∧
      Delivery.replay_generation d = (Delivery.replay_generation ds + 1)%Z ∧
      Delivery.status ds = DEAD_LETTERED
}.

(** The request fields that define idempotency equality. *)
Definition fingerprint_value (endpoint_id : UUID) (type : pystr) (data : json) : json :=
  JDict [(lit "endpoint_id", JStr (str_of_uuid endpoint_id)); (lit "type", JStr type); (lit "data", data)].

Record event_inv (db : Db) (e : Event) : Prop := {
  ei_initial : ∃ d, deliveries db !! Delivery.id d = Some d ∧ Delivery.event_id d = Event.id e ∧
    Delivery.replay_generation d = 0%Z ∧
    canonical_sha256 (fingerprint_value (Delivery.endpoint_id d) (Event.event_type e) (Event.payload e))
      = Ok (Event.request_fingerprint_sha256 e);
  ei_endpoint : ∀ k k' d d', deliveries db !! k = Some d → deliveries db !! k' = Some d' →
    Delivery.event_id d = Event.id e → Delivery.event_id d' = Event.id e →
    Delivery.endpoint_id d = Delivery.endpoint_id d';
  ei_payload : Event.payload_sha256 e = sha256_hex (Event.payload_bytes e) ∧
    ∃ d, Event.payload e = JDict d
}.

Record inv (db : Db) : Prop := {
  inv_ok : db_ok db;
  inv_progress : ∀ k d, deliveries db !! k = Some d → progress_inv db d;
  inv_chain : ∀ k d, deliveries db !! k = Some d → chain_inv db d;
  inv_event : ∀ k e, events db !! k = Some e → event_inv db e
}.

Lemma empty_inv : inv empty_db.
Proof. split; [apply empty_db_ok|..]; intros k r; simpl; by rewrite lookup_empty. Qed.

Section keys.
Context (db : Db) (Hok : db_ok db).

Lemma endpoint_id_of k e : endpoints db !! k = Some e → Endpoint.id e = k.
Proof. apply (ok_endpoint_key db Hok). Qed.
Lemma event_id_of k e : events db !! k = Some e → Event.id e = k.
Proof. apply (ok_event_key db Hok). Qed.
Lemma delivery_id_of k d : deliveries db !! k = Some d → Delivery.id d = k.
Proof. apply (ok_delivery_key db Hok). Qed.
Lemma attempt_id_of k a : attempts db !! k = Some a → DeliveryAttempt.id a = k.
Proof. apply (ok_attempt_key db Hok). Qed.

(** The attempt with a given number is unique. *)
Lemma attempt_of_unique k n a a' : attempt_of db k n a → attempt_of db k n a' → a = a'.
Proof.
  intros (Ha & E1 & E2) (Ha' & E3 & E4).
  assert (DeliveryAttempt.id a = DeliveryAttempt.id a') as Ei.
  { apply (ok_attempt_unique db Hok _ _ a a' Ha Ha'). split; [congruence|left; congruence]. }
  rewrite Ei in Ha. congruence.
Qed.
End keys.

(** ** Frame: changing one active delivery and its attempts *)

Section update.
Context (db db' : Db) (d d' : Delivery).
Context (Hinv : inv db) (Hd : deliveries db !! Delivery.id d = Some d).
Context (Hactive : active (Delivery.status d) = true).
Context (Hid : Delivery.id d' = Delivery.id d) (Hev : Delivery.event_id d' = Delivery.event_id d)
  (Hep : Delivery.endpoint_id d' = Delivery.endpoint_id d)
  (Hgen : Delivery.replay_generation d' = Delivery.replay_generation d)
  (Hsrc : Delivery.replayed_from_delivery_id d' = Delivery.replayed_from_delivery_id d).
Context (Hok' : db_ok db') (Hevents : events db' = events db)
  (Hdeliveries : deliveries db' = <[Delivery.id d := d']> (deliveries db)).
Context (Hattempts : ∀ a, DeliveryAttempt.delivery_id a ≠ Delivery.id d →
  attempts db' !! DeliveryAttempt.id a = Some a ↔ attempts db !! DeliveryAttempt.id a = Some a).

Lemma update_lookup k r' :
  deliveries db' !! k = Some r' →
  (k = Delivery.id d ∧ r' = d') ∨ (k ≠ Delivery.id d ∧ deliveries db !! k = Some r').
Proof. rewrite Hdeliveries. intros [[<- <-]|[Hne Hl]]%lookup_insert_Some; eauto. Qed.

(** A row of the new table has a counterpart with the same place in its chain. *)
Lemma update_counterpart k r' :
  deliveries db' !! k = Some r' →
  ∃ r, deliveries db !! k = Some r ∧ Delivery.id r' = Delivery.id r ∧
    Delivery.event_id r' = Delivery.event_id r ∧ Delivery.endpoint_id r' = Delivery.endpoint_id r ∧
    Delivery.replay_generation r' = Delivery.replay_generation r ∧
    Delivery.replayed_from_delivery_id r' = Delivery.replayed_from_delivery_id r.
Proof. intros [[-> ->]|[_ Hl]]%update_lookup; [by exists d|by exists r']. Qed.

Lemma update_source_kept k r :
  deliveries db !! k = Some r → Delivery.status r = DEAD_LETTERED → deliveries db' !! k = Some r.
Proof.
  intros Hr Hs. rewrite Hdeliveries, lookup_insert_ne; [done|]. intros <-. simplify_eq. by rewrite Hs in Hactive.
Qed.

Lemma update_chain k r' : deliveries db' !! k = Some r' → chain_inv db' r'.
Proof.
  intros (r & Hr & E1 & E2 & E3 & E4 & E5)%update_counterpart.
  destruct (inv_chain db Hinv k r Hr) as [Hi Hs]. split; [by rewrite E4, E5|].
  intros s. rewrite E2, E3, E4, E5. intros (ds & Hds & Hc & Hg & Hst)%Hs.
  exists ds. split_and!; [by apply update_source_kept|done..].
Qed.

Lemma update_event k e : events db' !! k = Some e → event_inv db' e.
Proof.
  rewrite Hevents. intros He. destruct (inv_event db Hinv k e He) as [(d0 & Hd0 & Ee & Eg & Ef) Hep' Hp].
  split; [|intros k1 k2 r1 r2 (q1 & Hq1 & _ & E1 & E2 & _)%update_counterpart
            (q2 & Hq2 & _ & E3 & E4 & _)%update_counterpart; rewrite E1, E2, E3, E4; by eapply Hep'|done].
  destruct (decide (Delivery.id d0 = Delivery.id d)) as [E|Hne].
  - assert (d0 = d) as -> by congruence. exists d'. rewrite Hid, Hev, Hep, Hgen.
    rewrite Hdeliveries, lookup_insert_eq. done.
  - exists d0. rewrite Hdeliveries, lookup_insert_ne by done. done.
Qed.

Lemma update_progress k r' :
  k ≠ Delivery.id d → deliveries db !! k = Some r' → progress_inv db' r'.
Proof.
  intros Hne Hr. pose proof (delivery_id_of db (inv_ok db Hinv) k r' Hr) as Ek.
  assert (Hat : ∀ n a, attempt_of db' (Delivery.id r') n a ↔ attempt_of db (Delivery.id r') n a).
  { intros n a. unfold attempt_of. split; intros (Ha & E1 & E2); (split; [|done]);
      apply (Hattempts a); congruence. }
  destruct (inv_progress db Hinv k r' Hr). split; try done.
  - intros n. setoid_rewrite Hat. done.
  - setoid_rewrite Hat. done.
  - intros n a. rewrite Hat. eauto.
  - setoid_rewrite Hat. done.
  - setoid_rewrite Hat. done.
Qed.

Lemma update_inv : progress_inv db' d' → inv db'.
Proof.
  intros Hp. split; [done| |apply update_chain|apply update_event].
  intros k r' [[_ ->]|[Hne Hl]]%update_lookup; [done|by eapply update_progress].
Qed.
End update.

(** ** Frame: adding a new pending delivery *)

Section insert.
Context (db db' : Db) (d : Delivery).
Context (Hinv : inv db) (Hfresh : deliveries db !! Delivery.id d = None).
Context (Hstatus : Delivery.status d = PENDING) (Hcount : Delivery.attempt_count d = 0%Z)
  (Hdue : is_Some (Delivery.next_attempt_at d)).
Context (Hdeliveries : deliveries db' = <[Delivery.id d := d]> (deliveries db))
  (Hattempts : attempts db' = attempts db).

Lemma insert_keeps k r : deliveries db !! k = Some r → deliveries db' !! k = Some r.
Proof. intros Hr. rewrite Hdeliveries, lookup_insert_ne; [done|]. intros <-. congruence. Qed.

Lemma insert_lookup k r :
  deliveries db' !! k = Some r → (k = Delivery.id d ∧ r = d) ∨ deliveries db !! k = Some r.
Proof. rewrite Hdeliveries. intros [[<- <-]|[_ Hl]]%lookup_insert_Some; eauto. Qed.

Lemma insert_attempt_of k n a : attempt_of db' k n a ↔ attempt_of db k n a.
Proof. unfold attempt_of. by rewrite Hattempts. Qed.

Lemma insert_no_attempt n a : ¬ attempt_of db' (Delivery.id d) n a.
Proof.
  rewrite insert_attempt_of. intros (Ha & Hk & _).
  destruct (ok_attempt_delivery db (inv_ok db Hinv) _ a Ha) as [r Hr]. congruence.
Qed.

Lemma insert_progress k r : deliveries db' !! k = Some r → progress_inv db' r.
Proof.
  intros [[-> ->]|Hr]%insert_lookup.
  - split; rewrite ?Hstatus, ?Hcount; try done.
    + intros n. split; [|lia]. intros [a Ha]. by apply insert_no_attempt in Ha.
    + intros n a Ha. by apply insert_no_attempt in Ha.
    + split; auto.
  - destruct (inv_progress db Hinv k r Hr). split; try done.
    + intros n. setoid_rewrite insert_attempt_of. done.
    + setoid_rewrite insert_attempt_of. done.
    + intros n a. rewrite insert_attempt_of. eauto.
    + setoid_rewrite insert_attempt_of. done.
    + setoid_rewrite insert_attempt_of. done.
Qed.

Lemma insert_chain k r : chain_inv db d → deliveries db' !! k = Some r → chain_inv db' r.
Proof.
  intros Hd Hr. assert (Hc : chain_inv db r)
    by (apply insert_lookup in Hr as [[_ ->]|Hr]; [done|by eapply inv_chain]).
  destruct Hc as [Hi Hs]. split; [done|]. intros s (ds & Hds & Hrest)%Hs.
  exists ds. split; [by apply insert_keeps|done].
Qed.

(** An event keeps its invariant when the new delivery goes to the endpoint it already has. *)
Lemma insert_event k e :
  events db !! k = Some e →
  (Delivery.event_id d = Event.id e →
   ∃ k' d', deliveries db !! k' = Some d' ∧ Delivery.event_id d' = Event.id e ∧
     Delivery.endpoint_id d' = Delivery.endpoint_id d) →
  event_inv db' e.
Proof.
  intros He Hsame. destruct (inv_event db Hinv k e He) as [(d0 & Hd0 & Hrest) Hep Hp].
  split; [exists d0; split; [by apply insert_keeps|done]| |done].
  assert (Hd : ∀ k1 r1, deliveries db !! k1 = Some r1 → Delivery.event_id r1 = Event.id e →
    Delivery.event_id d = Event.id e → Delivery.endpoint_id r1 = Delivery.endpoint_id d).
  { intros k1 r1 Hr1 E1 E2. destruct (Hsame E2) as (k' & d' & Hd' & E3 & <-). by eapply Hep. }
  intros k1 k2 r1 r2 [[_ ->]|Hr1]%insert_lookup [[_ ->]|Hr2]%insert_lookup E1 E2; [done| | |by eapply Hep].
  - symmetry. by eapply Hd.
  - by eapply Hd.
Qed.
End insert.
