(* ===== verification/Transport.v ===== *)
(** [deliveries/transport.py]: one signed outbound request and the bounded evidence of
    its outcome.

    The HTTP client and [email.utils.parsedate_to_datetime] are third-party code: arguments
    of the definitions.  The readings of the two clocks are arguments as well. *)
From S2P Require Import Prelude PyStr Errors Floats FloatConv Json Retry Signing Models Datetime.
From Stdlib Require Import ZArith.

Definition RESPONSE_BODY_EXCERPT_BYTES : nat := Z.to_nat 2048.
Definition ERROR_MESSAGE_CHARACTERS : nat := Z.to_nat 1024.

(** [transport.OutboundWebhook] *)
Module OutboundWebhook.
Record t := mk {
  attempt_id : UUID;
  delivery_id : UUID;
  event_id : UUID;
  event_type : pystr;
  endpoint_url : pystr;
  signing_secret : bytes;
  payload_bytes : bytes;
  attempt_number : Z;
  lease_token : UUID;
  demo_run_id : option pystr
}.
End OutboundWebhook.
Abbreviation OutboundWebhook := OutboundWebhook.t.

(** [transport.AttemptResult] *)
Module AttemptResult.
Record t := mk {
  disposition : DeliveryDisposition;
  http_status_code : option Z;
  error_type : option pystr;
  error_message : option pystr;
  response_body_excerpt : option pystr;
  request_timestamp : Z;
  retry_after_seconds : option float;
  started_at : datetime;
  finished_at : datetime;
  duration_ms : Z
}.
End AttemptResult.
Abbreviation AttemptResult := AttemptResult.t.

(** ** Retry-After *)

(** What [parsedate_to_datetime] returns, the wall-clock time in microseconds and the UTC offset in
    microseconds, if the date has one, or raises. *)
Abbreviation date_parser := (pystr → outcome (Z * option Z)).

(** [except (TypeError, ValueError)] *)
Definition no_date (e : exn) : bool := match e with TypeErr _ | ValueErr _ => true | _ => false end.

(** [retry_at.astimezone(UTC)], a missing offset being UTC. *)
Definition astimezone_utc (wall : Z) (utcoffset : option Z) : outcome datetime :=
  datetime_add wall (- default 0%Z utcoffset).

(** [transport._parse_retry_after] *)
Definition _parse_retry_after (parsedate_to_datetime : date_parser) (value : option pystr)
  (cap_seconds : float) (reference_time : datetime) : outcome (option float) :=
  match value with
  | None => Ok None
  | Some value =>
      let stripped_value := strip value in
      match float_of_str stripped_value with
      | None =>
          match parsedate_to_datetime stripped_value with
          | Raise e => if no_date e then Ok None else Raise e
          | Ok (wall, utcoffset) =>
              retry_at ← astimezone_utc wall utcoffset;
              let seconds := total_seconds (retry_at - reference_time) in
              Ok (Some (fmin (fmax seconds fzero) cap_seconds))
          end
      | Some seconds =>
          if negb (isfinite seconds) || flt seconds fzero then Ok None
          else Ok (Some (fmin seconds cap_seconds))
      end
  end.

(** [transport._bounded_error_message]; [message] is [str(error)]. *)
Definition _bounded_error_message (message : pystr) : pystr := take ERROR_MESSAGE_CHARACTERS message.

(** ** The request *)

Record OutboundRequest := mkOutboundRequest {
  or_url : pystr;
  or_content : bytes;
  or_headers : list (pystr * pystr)
}.

(** What [client.post] does: a response with its status, its [Retry-After] header and its body, a
    timeout or another request error with its message, or any other exception. *)
Inductive post_outcome :=
| Responded (status_code : Z) (retry_after : option pystr) (content : bytes)
| TimedOut (message : pystr)
| RequestFailed (message : pystr)
| PostRaised (e : exn).

Definition outbound_request (webhook : OutboundWebhook) (request_timestamp : Z) (signature : pystr)
  : OutboundRequest :=
  mkOutboundRequest (OutboundWebhook.endpoint_url webhook) (OutboundWebhook.payload_bytes webhook)
    ([(lit "Content-Type", lit "application/json");
      (lit "User-Agent", lit "EventHarbor/0.1.0");
      (lit "X-EventHarbor-Event-Id", str_of_uuid (OutboundWebhook.event_id webhook));
      (lit "X-EventHarbor-Delivery-Id", str_of_uuid (OutboundWebhook.delivery_id webhook));
      (lit "X-EventHarbor-Event-Type", OutboundWebhook.event_type webhook);
      (lit "X-EventHarbor-Attempt", str_of_Z (OutboundWebhook.attempt_number webhook));
      (lit "X-EventHarbor-Timestamp", str_of_Z request_timestamp);
      (lit "X-EventHarbor-Signature", signature)] ++
     match OutboundWebhook.demo_run_id webhook with
     | Some run => [(lit "X-EventHarbor-Demo-Run-Id", run)]
     | None => []
     end).

(** ** Sending *)

(** The readings of the two clocks before and after the request. *)
Record SendClock := mkSendClock {
  sc_started_at : datetime;
  sc_finished_at : datetime;
  sc_started_monotonic : float;
  sc_finished_monotonic : float
}.

(** [max(0, round((monotonic_clock() - started_monotonic) * 1_000))] *)
Definition elapsed_ms (clock : SendClock) : outcome Z :=
  r ← float_round (fmul (fsub (sc_finished_monotonic clock) (sc_started_monotonic clock)) (float_of_Z 1000));
  mret (Z.max 0 r).

Definition failure_result (error_type message : pystr) (request_timestamp : Z) (clock : SendClock)
  : outcome AttemptResult :=
  duration ← elapsed_ms clock;
  mret (AttemptResult.mk RETRY None (Some error_type) (Some (_bounded_error_message message)) None
    request_timestamp None (sc_started_at clock) (sc_finished_at clock) duration).

(** The first bytes of the body as text. *)
Definition excerpt_of (content : bytes) : pystr :=
  utf8_decode_replace (take RESPONSE_BODY_EXCERPT_BYTES content).

Definition response_result (parsedate : date_parser) (status_code : Z) (retry_after_header : option pystr)
  (content : bytes) (retry_after_cap_seconds : float) (request_timestamp : Z) (clock : SendClock)
  : outcome AttemptResult :=
  disposition ← classify_status_code status_code;
  retry_after ← (if bool_decide (disposition = RETRY)
                 then _parse_retry_after parsedate retry_after_header retry_after_cap_seconds (sc_finished_at clock)
                 else Ok None);
  duration ← elapsed_ms clock;
  mret (AttemptResult.mk disposition (Some status_code) None None (Some (excerpt_of content))
    request_timestamp retry_after (sc_started_at clock) (sc_finished_at clock) duration).

(** [transport.send_webhook] *)
Definition send_webhook (client_post : OutboundRequest → post_outcome) (parsedate : date_parser)
  (webhook : OutboundWebhook) (retry_after_cap_seconds : float) (clock : SendClock) : outcome AttemptResult :=
  request_timestamp ← int_timestamp (sc_started_at clock);
  signature ← sign_payload (OutboundWebhook.signing_secret webhook) request_timestamp
                (OutboundWebhook.payload_bytes webhook);
  match client_post (outbound_request webhook request_timestamp signature) with
  | TimedOut message => failure_result (lit "timeout") message request_timestamp clock
  | RequestFailed message => failure_result (lit "network_error") message request_timestamp clock
  | PostRaised e => Raise e
  | Responded status_code retry_after content =>
      response_result parsedate status_code retry_after content retry_after_cap_seconds request_timestamp clock
  end.

(** ** Bounds *)

Lemma fmin_ordinary_l x cap :
  ordinary x = true → ordinary cap = true → ordinary (fmin x cap) = true ∧ fle (fmin x cap) cap = true.
Proof.
  intros Hx Hc. unfold fmin. destruct (flt cap x) eqn:E; (split; [done|]); apply fle_ordinary; [done..|lia|done|done|].
  assert (¬ (funits cap < funits x)%Z) by (rewrite <- flt_ordinary by done; by rewrite E). lia.
Qed.

(** [min(max(seconds, 0.0), cap)] for any number of seconds. *)
Lemma clamped_ordinary us cap :
  ordinary cap = true →
  ordinary (fmin (fmax (total_seconds us) fzero) cap) = true ∧
  fle (fmin (fmax (total_seconds us) fzero) cap) cap = true.
Proof.
  intros Hc. assert (Hx : ordinary (fmax (total_seconds us) fzero) = true ∨
    fmax (total_seconds us) fzero = S754_infinity false).
  { pose proof (total_seconds_ordinary us) as Ho. unfold fmax.
    destruct (flt (total_seconds us) fzero) eqn:E; [by left|].
    destruct (isfinite (total_seconds us)) eqn:Ef; [by left; apply Ho|right].
    pose proof (total_seconds_converted us) as [Ec|[Ec|(m & e & Ec & _)]]; rewrite Ec in *; try done.
    by destruct (us <? 0)%Z. }
  destruct Hx as [Hx| ->].
  - by apply fmin_ordinary_l.
  - unfold fmin. assert (flt cap (S754_infinity false) = true) as -> by (by destruct cap as [| | |[]]).
    split; [done|]. apply fle_ordinary; [done..|lia].
Qed.

(** A hostile or malformed [Retry-After] cannot stretch or corrupt the schedule: whatever the
    header and whatever the date parser makes of it, a delay that is taken over is a finite number of
    seconds, not negative and at most the configured cap; a header that is no number and no date, or
    a negative, infinite or undefined number, is ignored; and the only exceptions are those of the
    parser other than [TypeError] and [ValueError], and the overflow of a date whose UTC form leaves the
    years 1 to 9999. *)
Theorem parse_retry_after_bounded parsedate value cap reference :
  ordinary cap = true →
  (∀ s, _parse_retry_after parsedate value cap reference = Ok (Some s) →
     ordinary s = true ∧ fle fzero s = true ∧ fle s cap = true) ∧
  (∀ v e, value = Some v → float_of_str (strip v) = None → parsedate (strip v) = Raise e → no_date e = true →
     _parse_retry_after parsedate value cap reference = Ok None) ∧
  (∀ v x, value = Some v → float_of_str (strip v) = Some x → isfinite x = false ∨ flt x fzero = true →
     _parse_retry_after parsedate value cap reference = Ok None) ∧
  (∀ e, _parse_retry_after parsedate value cap reference = Raise e →
     ∃ v, value = Some v ∧
       ((parsedate (strip v) = Raise e ∧ no_date e = false) ∨
        ∃ wall offset, parsedate (strip v) = Ok (wall, offset) ∧
          ¬ (datetime_min ≤ wall - default 0%Z offset ≤ datetime_max)%Z)).
Proof.
  intros Hc. assert (Hnn : ∀ s, ordinary s = true → fle fzero s = true).
  { intros s Hs. apply fle_ordinary; [done..|]. by apply ordinary_units. }
  unfold _parse_retry_after. split_and!.
  - intros s. destruct value as [v|]; [|done]. destruct (float_of_str (strip v)) as [x|] eqn:Ex.
    + destruct (negb (isfinite x)) eqn:Ef, (flt x fzero) eqn:En; try done. bool_simpl. intros [= <-].
      pose proof (float_of_str_ordinary _ _ Ex Ef En) as Ho.
      destruct (fmin_ordinary_l x cap Ho Hc). auto.
    + destruct (parsedate _) as [[wall offset]|e]; [|by destruct (no_date e)]. destruct (astimezone_utc wall offset); [|done].
      intros [= <-]. destruct (clamped_ordinary (a - reference) cap Hc) as [Ho Hle]. auto.
  - intros v e -> -> -> ->. done.
  - intros v x -> -> [->| ->]; [done|by rewrite orb_true_r].
  - intros e. destruct value as [v|]; [|done]. destruct (float_of_str (strip v)) as [x|].
    + by destruct (negb (isfinite x) || flt x fzero).
    + destruct (parsedate _) as [[wall offset]|e'] eqn:Ep.
      2: { destruct (no_date e') eqn:En; [done|]. intros [= <-]. exists v. split; [done|]. by left. }
      unfold astimezone_utc. destruct (datetime_add _ _) as [r|e'] eqn:Ea; [done|]. intros _. exists v. split; [done|].
      right. exists wall, offset. split; [done|]. intros Hr. by rewrite datetime_add_in_range in Ea.
Qed.

Lemma parse_retry_after_bounded_witness :
  ordinary (float_of_Z 3600) = true ∧
  ∀ s, _parse_retry_after (λ _, Raise (ValueErr [])) (Some (lit " 7200 ")) (float_of_Z 3600) 0 = Ok (Some s) →
    fle s (float_of_Z 3600) = true.
Proof.
  split; [reflexivity|]. intros s Hs.
  apply (parse_retry_after_bounded (λ _, Raise (ValueErr [])) (Some (lit " 7200 ")) (float_of_Z 3600) 0 eq_refl). exact Hs.
Defined.

(** The exception does occur: for a parser that reads the last second of the year 9999 with its
    offset of minus one hour, as Python's does, the header makes [_parse_retry_after] raise
    [OverflowError], which nothing in [send_webhook] catches. *)
Theorem retry_after_date_overflow parsedate cap reference :
  let value := lit "Fri, 31 Dec 9999 23:59:59 -0100" in
  parsedate value = Ok (253402300799000000, Some (-3600000000))%Z →
  _parse_retry_after parsedate (Some value) cap reference = Raise (OverflowErr (lit "date value out of range")).
Proof.
  intros value Hp. unfold _parse_retry_after. assert (strip value = value) as -> by reflexivity.
  assert (float_of_str value = None) as -> by reflexivity. by rewrite Hp.
Qed.

Lemma retry_after_date_overflow_witness :
  _parse_retry_after (λ _, Ok (253402300799000000, Some (-3600000000))%Z)
    (Some (lit "Fri, 31 Dec 9999 23:59:59 -0100")) (float_of_Z 5) 0
  = Raise (OverflowErr (lit "date value out of range")).
Proof. apply retry_after_date_overflow. reflexivity. Defined.

(** ** Evidence *)

(** What the worker may rely on of a result of the transport. *)
Record evidence (cap : float) (r : AttemptResult) : Prop := {
  ev_status : ∀ c, AttemptResult.http_status_code r = Some c →
    classify_status_code c = Ok (AttemptResult.disposition r) ∧ AttemptResult.error_type r = None;
  ev_failure : AttemptResult.http_status_code r = None →
    AttemptResult.disposition r = RETRY ∧ AttemptResult.retry_after_seconds r = None ∧
    AttemptResult.error_type r ∈ [Some (lit "timeout"); Some (lit "network_error")];
  ev_excerpt : nullable (λ s, bool_decide (length s ≤ RESPONSE_BODY_EXCERPT_BYTES)) (AttemptResult.response_body_excerpt r) = true;
  ev_message : nullable (λ s, bool_decide (length s ≤ ERROR_MESSAGE_CHARACTERS)) (AttemptResult.error_message r) = true;
  ev_timestamp : (0 ≤ AttemptResult.request_timestamp r)%Z;
  ev_duration : (0 ≤ AttemptResult.duration_ms r)%Z;
  ev_retry_after : ∀ s, AttemptResult.retry_after_seconds r = Some s →
    AttemptResult.disposition r = RETRY ∧ ordinary s = true ∧ fle s cap = true
}.

Lemma elapsed_nonneg clock d : elapsed_ms clock = Ok d → (0 ≤ d)%Z.
Proof. unfold elapsed_ms. intros (r & _ & [= <-])%outcome_bind_Ok. lia. Qed.

Lemma excerpt_length content : length (excerpt_of content) ≤ RESPONSE_BODY_EXCERPT_BYTES.
Proof.
  unfold excerpt_of. etrans; [apply utf8_decode_replace_length|]. rewrite length_take. lia.
Qed.

Lemma retry_after_ok parsedate value cap reference s :
  ordinary cap = true → _parse_retry_after parsedate value cap reference = Ok (Some s) →
  ordinary s = true ∧ fle s cap = true.
Proof.
  intros Hc. unfold _parse_retry_after. destruct value as [v|]; [|done].
  destruct (float_of_str (strip v)) as [x|] eqn:Ex.
  - destruct (negb (isfinite x)) eqn:Ef, (flt x fzero) eqn:En; try done. bool_simpl. intros [= <-].
    apply fmin_ordinary_l; [|done]. by eapply float_of_str_ordinary.
  - destruct (parsedate _) as [[wall offset]|e]; [|by destruct (no_date e)]. destruct (astimezone_utc wall offset); [|done].
    intros [= <-]. by apply clamped_ordinary.
Qed.

Lemma failure_evidence cap kind message ts clock r :
  failure_result kind message ts clock = Ok r → (0 ≤ ts)%Z →
  Some kind ∈ [Some (lit "timeout"); Some (lit "network_error")] → evidence cap r.
Proof.
  unfold failure_result. intros (d & Hd%elapsed_nonneg & [= <-])%outcome_bind_Ok Ht Hk.
  split; simpl; try done.
  unfold _bounded_error_message. apply bool_decide_eq_true. rewrite length_take. lia.
Qed.

Lemma response_evidence parsedate code header content cap ts clock r :
  response_result parsedate code header content cap ts clock = Ok r → (0 ≤ ts)%Z → ordinary cap = true →
  evidence cap r.
Proof.
  unfold response_result. intros Hr Ht Hcap.
  apply outcome_bind_Ok in Hr as (disp & Hdisp & Hr). apply outcome_bind_Ok in Hr as (ra & Hra & Hr).
  apply outcome_bind_Ok in Hr as (d & Hd%elapsed_nonneg & [= <-]).
  split; simpl; try done.
  - by intros c [= <-].
  - apply bool_decide_eq_true, excerpt_length.
  - intros s ->. case_bool_decide as Hdr; [|done]. split; [done|]. by eapply retry_after_ok.
Qed.

Lemma send_evidence client parsedate webhook cap clock r :
  ordinary cap = true → (0 ≤ sc_started_at clock ≤ datetime_max)%Z →
  send_webhook client parsedate webhook cap clock = Ok r →
  evidence cap r ∧ AttemptResult.started_at r = sc_started_at clock ∧
  AttemptResult.finished_at r = sc_finished_at clock.
Proof.
  intros Hcap Hclk. unfold send_webhook. intros Hr.
  apply outcome_bind_Ok in Hr as (ts & Hts & Hr). apply outcome_bind_Ok in Hr as (sig & _ & Hr).
  destruct (int_timestamp_nonneg _ Hclk) as (ts' & Hts' & Ht0). assert (ts' = ts) as -> by congruence.
  assert (Hfields : ∀ k m, failure_result k m ts clock = Ok r →
    AttemptResult.started_at r = sc_started_at clock ∧ AttemptResult.finished_at r = sc_finished_at clock)
    by (unfold failure_result; intros k m (d & _ & [= <-])%outcome_bind_Ok; done).
  destruct (client _) as [code header content|m|m|e]; [| | |done];
    [|split; [by eapply failure_evidence; [exact Hr|done|set_solver]|by eapply Hfields]..].
  split; [by eapply response_evidence|]. unfold response_result in Hr.
  apply outcome_bind_Ok in Hr as (disp & _ & Hr). apply outcome_bind_Ok in Hr as (ra & _ & Hr).
  by apply outcome_bind_Ok in Hr as (d & _ & [= <-]).
Qed.

(** C35: the evidence the transport returns is bounded and consistent: an HTTP status is always
    one the classification accepts and the disposition is its class; without a status the outcome
    is a retryable timeout or network error; the excerpt has at most 2048 characters and the message
    1024; timestamp and duration are not negative; a retry hint is only kept for retryable
    responses and never exceeds the cap. *)
Theorem send_webhook_evidence client parsedate webhook cap clock r :
  ordinary cap = true → (0 ≤ sc_started_at clock ≤ datetime_max)%Z →
  send_webhook client parsedate webhook cap clock = Ok r →
  (∀ c, AttemptResult.http_status_code r = Some c →
     (100 ≤ c ≤ 599)%Z ∧ classify_status_code c = Ok (AttemptResult.disposition r) ∧
     AttemptResult.error_type r = None) ∧
  (AttemptResult.http_status_code r = None →
     AttemptResult.disposition r = RETRY ∧ AttemptResult.retry_after_seconds r = None ∧
     AttemptResult.error_type r ∈ [Some (lit "timeout"); Some (lit "network_error")]) ∧
  (∀ s, AttemptResult.response_body_excerpt r = Some s → length s ≤ 2048) ∧
  (∀ s, AttemptResult.error_message r = Some s → length s ≤ 1024) ∧
  (0 ≤ AttemptResult.request_timestamp r)%Z ∧ (0 ≤ AttemptResult.duration_ms r)%Z ∧
  (∀ s, AttemptResult.retry_after_seconds r = Some s →
     AttemptResult.disposition r = RETRY ∧ ordinary s = true ∧ fle s cap = true).
Proof.
  intros Hcap Hclk Hr. destruct (send_evidence _ _ _ _ _ _ Hcap Hclk Hr) as [[Hst Hf Hx Hm Ht Hd Hra] _].
  split_and!; try done.
  - intros c Hc. destruct (Hst c Hc) as [Hcl He]. split; [|done].
    unfold classify_status_code in Hcl. destruct (negb _) eqn:E; [done|]. bool_simpl. done.
  - intros s Hs. rewrite Hs in Hx. simpl in Hx. apply bool_decide_eq_true in Hx.
    unfold RESPONSE_BODY_EXCERPT_BYTES in Hx. lia.
  - intros s Hs. rewrite Hs in Hm. simpl in Hm. apply bool_decide_eq_true in Hm.
    unfold ERROR_MESSAGE_CHARACTERS in Hm. lia.
Qed.

(** C36: what goes over the wire is authentic: whenever a request is sent, its body is the
    stored payload byte for byte, its target is the endpoint's, and its signature header verifies
    under the endpoint's secret with the timestamp header and that body. *)
Theorem outbound_request_signed client parsedate webhook cap clock r :
  send_webhook client parsedate webhook cap clock = Ok r →
  ∃ timestamp signature,
    let request := outbound_request webhook timestamp signature in
    int_timestamp (sc_started_at clock) = Ok timestamp ∧
    AttemptResult.request_timestamp r = timestamp ∧
    or_content request = OutboundWebhook.payload_bytes webhook ∧
    or_url request = OutboundWebhook.endpoint_url webhook ∧
    dict_get (or_headers request) (lit "X-EventHarbor-Timestamp") = Some (str_of_Z timestamp) ∧
    dict_get (or_headers request) (lit "X-EventHarbor-Signature") = Some signature ∧
    verify_signature (OutboundWebhook.signing_secret webhook) timestamp (or_content request) signature = Ok true ∧
    match client request with
    | Responded code _ content =>
        AttemptResult.http_status_code r = Some code ∧ AttemptResult.response_body_excerpt r = Some (excerpt_of content)
    | TimedOut _ => AttemptResult.error_type r = Some (lit "timeout")
    | RequestFailed _ => AttemptResult.error_type r = Some (lit "network_error")
    | PostRaised _ => False
    end.
Proof.
  unfold send_webhook. intros Hr.
  apply outcome_bind_Ok in Hr as (ts & Hts & Hr). apply outcome_bind_Ok in Hr as (sig & Hsig & Hr).
  exists ts, sig. cbv zeta. split; [done|]. split.
  { destruct (client _); [|..|done]; unfold response_result, failure_result in Hr;
      repeat (apply outcome_bind_Ok in Hr as (? & _ & Hr)); by injection Hr as <-. }
  split_and!; try done.
  - unfold verify_signature. simpl. rewrite Hsig. simpl. apply sign_payload_Ok in Hsig as (_ & _ & _ & Ha & _).
    unfold compare_digest. rewrite Ha. by rewrite bool_decide_eq_true_2.
  - destruct (client _); [|..|done]; unfold response_result, failure_result in Hr;
      repeat (apply outcome_bind_Ok in Hr as (? & _ & Hr)); by injection Hr as <-.
Qed.

(** ** Example *)

Definition lab_webhook : OutboundWebhook :=
  OutboundWebhook.mk 1 2 3 (lit "order.created") (lit "http://receiver-lab:8100/webhooks") (blit "ehsec_demo")
    (blit "{}") 1 4 (Some (lit "demo-1")).
Definition lab_clock : SendClock :=
  mkSendClock 1700000000500000 1700000000750000 (float_of_Z 10) (float_of_Z 11).
Definition busy_client : OutboundRequest → post_outcome := λ _, Responded 429 (Some (lit "5")) (blit "slow down").

Example send_webhook_ex :
  AttemptResult.retry_after_seconds <$>
    match send_webhook busy_client (λ _, Raise (ValueErr [])) lab_webhook (float_of_Z 3600) lab_clock with
    | Ok r => Some r | Raise _ => None end
  = Some (Some (float_of_Z 5)).
Proof. vm_compute. reflexivity. Qed.

Lemma send_webhook_evidence_witness :
  ∃ r, send_webhook busy_client (λ _, Raise (ValueErr [])) lab_webhook (float_of_Z 3600) lab_clock = Ok r ∧
    (0 ≤ AttemptResult.duration_ms r)%Z ∧ AttemptResult.disposition r = RETRY.
Proof.
  destruct (send_webhook busy_client (λ _, Raise (ValueErr [])) lab_webhook (float_of_Z 3600) lab_clock) as [r|e] eqn:E.
  - exists r. split; [reflexivity|].
    destruct (send_webhook_evidence busy_client (λ _, Raise (ValueErr [])) lab_webhook (float_of_Z 3600) lab_clock r
      eq_refl ltac:(unfold datetime_max; simpl; lia) E) as (_ & _ & _ & _ & _ & Hd & _).
    split; [exact Hd|]. revert E. vm_compute. intros E. injection E as E. rewrite <- E. reflexivity.
  - exfalso. revert E. vm_compute. discriminate.
Defined.

Lemma outbound_request_signed_witness :
  ∃ r timestamp signature,
    send_webhook busy_client (λ _, Raise (ValueErr [])) lab_webhook (float_of_Z 3600) lab_clock = Ok r ∧
    verify_signature (blit "ehsec_demo") timestamp (blit "{}") signature = Ok true.
Proof.
  destruct (send_webhook busy_client (λ _, Raise (ValueErr [])) lab_webhook (float_of_Z 3600) lab_clock) as [r|e] eqn:E.
  - destruct (outbound_request_signed busy_client (λ _, Raise (ValueErr [])) lab_webhook (float_of_Z 3600) lab_clock r E)
      as (ts & sig & _ & _ & _ & _ & _ & _ & Hv & _).
    exists r, ts, sig. split; [reflexivity|exact Hv].
  - exfalso. revert E. vm_compute. discriminate.
Defined.
