(* ===== verification/Utf8.v ===== *)
(** UTF-8: what the strict decoder returns are scalar values, and encoding them and decoding again
    gives the same text. *)
From S2P Require Import Prelude PyStr Decoding.
From Stdlib Require Import ZArith.
From Stdlib Require Strings.Byte.

#[local] Open Scope N_scope.

Ltac bytes_lia := Zify.zify; Z.to_euclidean_division_equations; lia.

Definition scalar (c : N) : Prop := c < 1114112 ∧ is_surrogate c = false.

Lemma in_range_true lo hi c : in_range lo hi c = true ↔ lo ≤ c ≤ hi.
Proof. unfold in_range. rewrite andb_true_iff, !N.leb_le. done. Qed.

Lemma in_range_false lo hi c : in_range lo hi c = false ↔ c < lo ∨ hi < c.
Proof. unfold in_range. rewrite andb_false_iff, !N.leb_gt. done. Qed.

Lemma scalar_iff c : scalar c ↔ c < 55296 ∨ 57343 < c < 1114112.
Proof. unfold scalar, is_surrogate. rewrite in_range_false. lia. Qed.

(** ** Decoding what was encoded *)

Lemma need_step n lo hi acc c rest :
  c < 256 → lo ≤ c ≤ hi →
  utf8_decode utf8_lead (Utf8Need (S n) lo hi acc) (byte_of_N c :: rest) =
  match n with
  | S _ => utf8_decode utf8_lead (Utf8Need n 128 191 (acc * 64 + (c - 128))) rest
  | O => cons (acc * 64 + (c - 128)) <$> utf8_decode utf8_lead Utf8Start rest
  end.
Proof.
  intros Hc Hr. cbn [utf8_decode]. rewrite byte_of_N_small by done.
  rewrite (proj2 (in_range_true lo hi c)) by done. by destruct n.
Qed.

Lemma lead_step c rest need lo hi acc :
  128 ≤ c < 256 → utf8_lead c = Some (need, (lo, hi), acc) →
  utf8_decode utf8_lead Utf8Start (byte_of_N c :: rest) = utf8_decode utf8_lead (Utf8Need need lo hi acc) rest.
Proof.
  intros Hc Hl. cbn [utf8_decode]. rewrite byte_of_N_small by lia.
  rewrite (proj2 (N.ltb_ge c 128)) by lia. by rewrite Hl.
Qed.

(** The lead bytes by the length of their sequences. *)
Lemma utf8_lead_2 b : 194 ≤ b ≤ 223 → utf8_lead b = Some (1%nat, (128, 191), b - 192).
Proof. intros Hb. unfold utf8_lead. by rewrite (proj2 (in_range_true 194 223 b)). Qed.

Lemma utf8_lead_3 b : 224 ≤ b ≤ 239 →
  utf8_lead b = Some (2%nat, (if b =? 224 then 160 else 128, if b =? 237 then 159 else 191), b - 224).
Proof.
  intros Hb. unfold utf8_lead. rewrite (proj2 (in_range_false 194 223 b)) by lia.
  destruct (N.eqb_spec b 224) as [->|H1]; [done|]. destruct (N.eqb_spec b 237) as [->|H2]; [done|].
  assert (in_range 225 236 b || in_range 238 239 b = true) as ->; [|done].
  rewrite orb_true_iff, !in_range_true. lia.
Qed.

Lemma utf8_lead_4 b : 240 ≤ b ≤ 244 →
  utf8_lead b = Some (3%nat, (if b =? 240 then 144 else 128, if b =? 244 then 143 else 191), b - 240).
Proof.
  intros Hb. assert (b = 240 ∨ b = 241 ∨ b = 242 ∨ b = 243 ∨ b = 244) as H by lia.
  by destruct H as [->|[->|[->|[->| ->]]]].
Qed.

Lemma decode_char c bs rest : c < 1114112 → utf8_char c = Some bs →
  utf8_decode utf8_lead Utf8Start (bs ++ rest) = cons c <$> utf8_decode utf8_lead Utf8Start rest.
Proof.
  intros Hc. unfold utf8_char. destruct (N.ltb_spec c 128) as [H1|H1].
  { intros [= <-]. cbn [app utf8_decode]. rewrite byte_of_N_small by lia. by rewrite (proj2 (N.ltb_lt c 128)). }
  destruct (N.ltb_spec c 2048) as [H2|H2].
  { intros [= <-]. cbn [app]. erewrite lead_step; [|bytes_lia|apply utf8_lead_2; bytes_lia].
    rewrite need_step by bytes_lia. do 2 f_equal. bytes_lia. }
  destruct (is_surrogate c) eqn:Es; [done|]. unfold is_surrogate in Es. apply in_range_false in Es.
  destruct (N.ltb_spec c 65536) as [H3|H3]; intros [= <-]; cbn [app].
  - erewrite lead_step; [|bytes_lia|apply utf8_lead_3; bytes_lia].
    rewrite need_step; [|bytes_lia|]; cycle 1.
    { destruct (N.eqb_spec (224 + c / 4096) 224), (N.eqb_spec (224 + c / 4096) 237); bytes_lia. }
    rewrite need_step by bytes_lia. do 2 f_equal. bytes_lia.
  - erewrite lead_step; [|bytes_lia|apply utf8_lead_4; bytes_lia].
    rewrite need_step; [|bytes_lia|]; cycle 1.
    { destruct (N.eqb_spec (240 + c / 262144) 240), (N.eqb_spec (240 + c / 262144) 244); bytes_lia. }
    rewrite !need_step by bytes_lia. do 2 f_equal. bytes_lia.
Qed.

Lemma utf8_plain_encode s bs : Forall (λ c, c < 1114112) s → utf8_encode s = Some bs → utf8_plain bs = Some s.
Proof.
  unfold utf8_plain. intros H. revert bs. induction H as [|c s Hc _ IH]; intros bs; simpl; [by intros [= <-]|].
  destruct (utf8_char c) as [b|] eqn:E; [|done]. destruct (utf8_encode s) as [r|] eqn:Er; [|done].
  intros [= <-]. rewrite (decode_char c) by done. by rewrite (IH r).
Qed.

Lemma utf8_encode_scalars s : Forall scalar s → is_Some (utf8_encode s).
Proof.
  induction 1 as [|c s [Hc Hs] _ [r IH]]; simpl; [by eexists|]. rewrite IH.
  assert (is_Some (utf8_char c)) as [b ->]; [|by eexists]. unfold utf8_char. rewrite Hs. repeat case_match; by eexists.
Qed.

(** ** What the decoder returns *)

(** The code points that the decoder can still reach from a state are scalar. *)
Definition state_ok (st : utf8_state) : Prop :=
  match st with
  | Utf8Start => True
  | Utf8Need n lo hi acc =>
      128 ≤ lo ∧ hi ≤ 191 ∧
      match n with
      | 1%nat => ∀ c, acc * 64 + (lo - 128) ≤ c ≤ acc * 64 + (hi - 128) → scalar c
      | 2%nat => ∀ c, (acc * 64 + (lo - 128)) * 64 ≤ c ≤ (acc * 64 + (hi - 128)) * 64 + 63 → scalar c
      | 3%nat => ∀ c, (acc * 64 + (lo - 128)) * 4096 ≤ c ≤ (acc * 64 + (hi - 128)) * 4096 + 4095 → scalar c
      | _ => False
      end
  end.

Lemma utf8_lead_ok b need lo hi acc : b < 256 → utf8_lead b = Some (need, (lo, hi), acc) → state_ok (Utf8Need need lo hi acc).
Proof.
  intros Hb H. assert (194 ≤ b ≤ 223 ∨ 224 ≤ b ≤ 239 ∨ 240 ≤ b ≤ 244) as Hr.
  { unfold utf8_lead in H. repeat match type of H with context [if ?x then _ else _] => destruct x eqn:? end; try done;
      rewrite ?orb_true_iff, ?in_range_true, ?N.eqb_eq in *; lia. }
  destruct Hr as [Hr|[Hr|Hr]].
  - rewrite utf8_lead_2 in H by done. injection H as <- <- <- <-. cbn. split_and!; [lia|lia|].
    intros c Hc. apply scalar_iff. lia.
  - rewrite utf8_lead_3 in H by done. injection H as <- <- <- <-. cbn.
    destruct (N.eqb_spec b 224), (N.eqb_spec b 237); (split_and!; [lia|lia|intros c Hc; apply scalar_iff; lia]).
  - rewrite utf8_lead_4 in H by done. injection H as <- <- <- <-. cbn.
    destruct (N.eqb_spec b 240), (N.eqb_spec b 244); (split_and!; [lia|lia|intros c Hc; apply scalar_iff; lia]).
Qed.

Lemma to_N_bound b : Byte.to_N b < 256.
Proof. pose proof (Byte.to_N_bounded b). lia. Qed.

Lemma utf8_decode_scalar bs : ∀ st s, state_ok st → utf8_decode utf8_lead st bs = Some s → Forall scalar s.
Proof.
  induction bs as [|b bs IH]; intros st s Hst H; [destruct st; [by injection H as <-|done]|].
  pose proof (to_N_bound b) as Hb. destruct st as [|n lo hi acc]; cbn [utf8_decode] in H.
  - destruct (N.ltb_spec (Byte.to_N b) 128) as [H1|H1].
    + apply fmap_Some in H as (s' & H & ->). constructor; [apply scalar_iff; lia|]. by eapply (IH Utf8Start).
    + destruct (utf8_lead (Byte.to_N b)) as [[[need [lo hi]] acc]|] eqn:E; [|done].
      eapply IH; [|exact H]. by eapply utf8_lead_ok.
  - destruct (in_range lo hi (Byte.to_N b)) eqn:Er; [|done]. apply in_range_true in Er.
    destruct Hst as (Hlo & Hhi & Hn).
    destruct n as [|[|[|[|n]]]]; try done.
    + apply fmap_Some in H as (s' & H & ->). constructor; [apply Hn; lia|]. by eapply (IH Utf8Start).
    + eapply IH; [|exact H]. cbn. split_and!; [lia|lia|]. intros c Hc. apply Hn. lia.
    + eapply IH; [|exact H]. cbn. split_and!; [lia|lia|]. intros c Hc. apply Hn. lia.
Qed.

Lemma utf8_plain_scalar bs s : utf8_plain bs = Some s → Forall scalar s.
Proof. by apply utf8_decode_scalar. Qed.

(** Scalar text survives being written and read. *)
Lemma utf8_roundtrip s : Forall scalar s → ∃ bs, utf8_encode s = Some bs ∧ utf8_plain bs = Some s.
Proof.
  intros H. destruct (utf8_encode_scalars s H) as [bs E]. exists bs. split; [done|].
  apply utf8_plain_encode; [|done]. eapply Forall_impl; [exact H|]. by intros c [Hc _].
Qed.
