(* ===== verification/Regex.v ===== *)
(** The regular expressions of [re] that the program's patterns use, without groups or back
    references: a matcher by derivatives that decides [pattern.fullmatch(s)], and the language that a
    pattern denotes. *)
From S2P Require Import Prelude PyStr.
From Stdlib Require Import ZArith.

(** A character class: ranges of code points, negated or not. *)
Record char_class := mkClass { cc_negated : bool; cc_ranges : list (N * N) }.

Inductive regex :=
| Void
| Eps
| Class (c : char_class)
| Cat (r1 r2 : regex)
| Alt (r1 r2 : regex)
| Star (r : regex)
| Both (r1 r2 : regex).                 (* a lookahead (?=...\Z) in front of the rest *)

#[export] Instance char_class_eq_dec : EqDecision char_class.
Proof. solve_decision. Defined.
#[export] Instance regex_eq_dec : EqDecision regex.
Proof. solve_decision. Defined.

Definition class_match (c : char_class) (x : N) : bool :=
  xorb (cc_negated c) (existsb (λ r, in_range r.1 r.2 x) (cc_ranges c)).

(** ** Patterns *)

Definition one_of (ranges : list (N * N)) : regex := Class (mkClass false ranges).
Definition none_of (ranges : list (N * N)) : regex := Class (mkClass true ranges).

(** A literal text, [r?], [r+], [r{n}] and [r{lo,hi}]. *)
Fixpoint text_re (s : pystr) : regex :=
  match s with
  | [] => Eps
  | c :: s => Cat (one_of [(c, c)]) (text_re s)
  end.

Definition opt (r : regex) : regex := Alt Eps r.
Definition plus (r : regex) : regex := Cat r (Star r).

Fixpoint times (n : nat) (r : regex) : regex :=
  match n with
  | 0 => Eps
  | S n => Cat r (times n r)
  end.

(** At most [n] times. *)
Fixpoint up_to (n : nat) (r : regex) : regex :=
  match n with
  | 0 => Eps
  | S n => opt (Cat r (up_to n r))
  end.

Definition repeated (lo hi : nat) (r : regex) : regex := Cat (times lo r) (up_to (hi - lo) r).

(** [seq [r1; ...; rn]] is the pattern r1...rn. *)
Definition seq (rs : list regex) : regex := foldr Cat Eps rs.

Definition lower_range : N * N := (97, 122)%N.
Definition upper_range : N * N := (65, 90)%N.
Definition digit_range : N * N := (48, 57)%N.
Definition char (c : N) : N * N := (c, c).

(** [.], which matches all but the line feed. *)
Definition dot : regex := none_of [char 10].
(** [\s] on [str]. *)
Definition space_ranges : list (N * N) :=
  [(9, 13); (28, 32); char 133; char 160; char 5760; (8192, 8202); (8232, 8233); char 8239; char 8287; char 12288]%N.

(** ** The language *)

Inductive lang : regex → pystr → Prop :=
| lang_eps : lang Eps []
| lang_class c x : class_match c x = true → lang (Class c) [x]
| lang_cat r1 r2 s1 s2 : lang r1 s1 → lang r2 s2 → lang (Cat r1 r2) (s1 ++ s2)
| lang_alt_l r1 r2 s : lang r1 s → lang (Alt r1 r2) s
| lang_alt_r r1 r2 s : lang r2 s → lang (Alt r1 r2) s
| lang_star_nil r : lang (Star r) []
| lang_star_cons r s1 s2 : lang r s1 → lang (Star r) s2 → lang (Star r) (s1 ++ s2)
| lang_both r1 r2 s : lang r1 s → lang r2 s → lang (Both r1 r2) s.

(** ** The matcher *)

Fixpoint nullable_re (r : regex) : bool :=
  match r with
  | Void | Class _ => false
  | Eps | Star _ => true
  | Cat r1 r2 | Both r1 r2 => nullable_re r1 && nullable_re r2
  | Alt r1 r2 => nullable_re r1 || nullable_re r2
  end.

(** Concatenation, alternative and conjunction with the obvious simplifications, which keep
    derivatives small. *)
Definition cat (r1 r2 : regex) : regex :=
  match r1, r2 with
  | Void, _ | _, Void => Void
  | Eps, _ => r2
  | _, Eps => r1
  | _, _ => Cat r1 r2
  end.

Fixpoint alt_member (r r2 : regex) : bool :=
  bool_decide (r = r2) || match r2 with Alt a b => alt_member r a || alt_member r b | _ => false end.

Definition alt (r1 r2 : regex) : regex :=
  match r1, r2 with
  | Void, _ => r2
  | _, Void => r1
  | _, _ => if alt_member r1 r2 then r2 else Alt r1 r2
  end.

Definition both (r1 r2 : regex) : regex :=
  match r1, r2 with
  | Void, _ | _, Void => Void
  | _, _ => Both r1 r2
  end.

Fixpoint deriv (x : N) (r : regex) : regex :=
  match r with
  | Void | Eps => Void
  | Class c => if class_match c x then Eps else Void
  | Cat r1 r2 => if nullable_re r1 then alt (cat (deriv x r1) r2) (deriv x r2) else cat (deriv x r1) r2
  | Alt r1 r2 => alt (deriv x r1) (deriv x r2)
  | Star r => cat (deriv x r) (Star r)
  | Both r1 r2 => both (deriv x r1) (deriv x r2)
  end.

(** [re.fullmatch(r, s) is not None] *)
Fixpoint fullmatch (r : regex) (s : pystr) : bool :=
  match s with
  | [] => nullable_re r
  | x :: s => fullmatch (deriv x r) s
  end.

(** ** The matcher decides the language *)

Lemma lang_Void s : ¬ lang Void s.
Proof. by inversion 1. Qed.

Lemma lang_Eps s : lang Eps s ↔ s = [].
Proof. split; [by inversion 1|intros ->; constructor]. Qed.

Lemma lang_Cat r1 r2 s : lang (Cat r1 r2) s ↔ ∃ s1 s2, s = s1 ++ s2 ∧ lang r1 s1 ∧ lang r2 s2.
Proof. split; [inversion 1; eauto|intros (s1 & s2 & -> & ? & ?); by constructor]. Qed.

Lemma lang_Alt r1 r2 s : lang (Alt r1 r2) s ↔ lang r1 s ∨ lang r2 s.
Proof. split; [inversion 1; auto|intros []; [by apply lang_alt_l|by apply lang_alt_r]]. Qed.

Lemma lang_Both r1 r2 s : lang (Both r1 r2) s ↔ lang r1 s ∧ lang r2 s.
Proof. split; [inversion 1; auto|intros []; by constructor]. Qed.

Lemma lang_Class c s : lang (Class c) s ↔ ∃ x, s = [x] ∧ class_match c x = true.
Proof. split; [inversion 1; eauto|intros (x & -> & ?); by constructor]. Qed.

Create Rewrite HintDb lang.
#[export] Hint Rewrite lang_Eps lang_Cat lang_Alt lang_Both lang_Class : lang.

(** Units and zeros of concatenation. *)
Lemma lang_Cat_unit r s :
  (lang (Cat Void r) s ↔ lang Void s) ∧ (lang (Cat r Void) s ↔ lang Void s) ∧
  (lang (Cat Eps r) s ↔ lang r s) ∧ (lang (Cat r Eps) s ↔ lang r s).
Proof.
  rewrite !lang_Cat. split_and!; split.
  - by intros (? & ? & _ & ?%lang_Void & _).
  - by intros ?%lang_Void.
  - by intros (? & ? & _ & _ & ?%lang_Void).
  - by intros ?%lang_Void.
  - by intros (? & ? & -> & ->%lang_Eps & ?).
  - intros H. exists [], s. by rewrite lang_Eps.
  - intros (? & ? & -> & ? & ->%lang_Eps). by rewrite app_nil_r.
  - intros H. exists s, []. by rewrite app_nil_r, lang_Eps.
Qed.

Lemma lang_cat_iff r1 r2 s : lang (cat r1 r2) s ↔ lang (Cat r1 r2) s.
Proof.
  destruct (lang_Cat_unit r1 s) as (_ & V1 & _ & E1), (lang_Cat_unit r2 s) as (V2 & _ & E2 & _).
  destruct r1, r2; simpl; first [by rewrite V1|by rewrite V2|by rewrite E1|by rewrite E2|done].
Qed.

Lemma alt_member_lang r r2 s : alt_member r r2 = true → lang r s → lang r2 s.
Proof.
  induction r2; simpl; rewrite orb_true_iff, bool_decide_eq_true; intros [<-|H] Hl; try done.
  apply orb_true_iff in H as [H|H]; [apply lang_alt_l|apply lang_alt_r]; auto.
Qed.

Lemma lang_alt_iff r1 r2 s : lang (alt r1 r2) s ↔ lang r1 s ∨ lang r2 s.
Proof.
  assert (lang (if alt_member r1 r2 then r2 else Alt r1 r2) s ↔ lang r1 s ∨ lang r2 s) as Hif.
  { destruct (alt_member r1 r2) eqn:E; [|apply lang_Alt]. split; [by right|].
    intros [H|H]; [by eapply alt_member_lang|done]. }
  pose proof (lang_Void s). destruct r1; simpl; [tauto|..]; destruct r2; first [exact Hif|tauto].
Qed.

Lemma lang_both_iff r1 r2 s : lang (both r1 r2) s ↔ lang r1 s ∧ lang r2 s.
Proof. pose proof (lang_Void s). destruct r1, r2; simpl; first [apply lang_Both|tauto]. Qed.

Lemma nullable_spec r : nullable_re r = true ↔ lang r [].
Proof.
  induction r as [| |c|r1 IH1 r2 IH2|r1 IH1 r2 IH2|r IH|r1 IH1 r2 IH2]; simpl; autorewrite with lang.
  - split; [done|by intros ?%lang_Void].
  - done.
  - split; [done|by intros (? & ? & _)].
  - rewrite andb_true_iff, IH1, IH2. split; [intros []; by exists [], []|].
    by intros (? & ? & [-> ->]%eq_sym%app_nil & ? & ?).
  - by rewrite orb_true_iff, IH1, IH2.
  - split; [intros _; constructor|done].
  - by rewrite andb_true_iff, IH1, IH2.
Qed.

(** A non-empty word of a star starts with a non-empty word of its body. *)
Lemma lang_star_inv r x s : lang (Star r) (x :: s) → ∃ s1 s2, s = s1 ++ s2 ∧ lang r (x :: s1) ∧ lang (Star r) s2.
Proof.
  intros H. remember (Star r) as q eqn:Eq. remember (x :: s) as w eqn:Ew. revert Eq x s Ew.
  induction H as [| | | | | |q s1 s2 H1 _ H2 IH2|]; intros Eq y w Ew; try done.
  injection Eq as ->. destruct s1 as [|z s1]; [by apply IH2|]. injection Ew as -> <-. by exists s1, s2.
Qed.

Lemma deriv_spec r x s : lang (deriv x r) s ↔ lang r (x :: s).
Proof.
  revert s. induction r as [| |c|r1 IH1 r2 IH2|r1 IH1 r2 IH2|r IH|r1 IH1 r2 IH2]; intros s; simpl; autorewrite with lang.
  - split; by intros ?%lang_Void.
  - split; [by intros ?%lang_Void|done].
  - destruct (class_match c x) eqn:E; split.
    + intros ->%lang_Eps. by exists x.
    + intros (y & [= <- ->] & _). constructor.
    + by intros ?%lang_Void.
    + intros (y & [= <- ->] & H). congruence.
  - assert (lang (cat (deriv x r1) r2) s ↔ ∃ s1 s2, s = s1 ++ s2 ∧ lang r1 (x :: s1) ∧ lang r2 s2) as Hc.
    { rewrite lang_cat_iff, lang_Cat. by setoid_rewrite IH1. }
    destruct (nullable_re r1) eqn:En; [rewrite lang_alt_iff, IH2|]; rewrite Hc; clear Hc.
    + apply nullable_spec in En. split.
      * intros [(s1 & s2 & -> & H1 & H2)|H]; [by exists (x :: s1), s2|by exists [], (x :: s)].
      * intros ([|y s1] & s2 & E & H1 & H2); simpl in E; [right; by subst|]. injection E as <- ->. left. eauto.
    + split; [intros (s1 & s2 & -> & H1 & H2); by exists (x :: s1), s2|].
      intros ([|y s1] & s2 & E & H1 & H2); [apply nullable_spec in H1; congruence|]. injection E as <- ->. eauto.
  - by rewrite lang_alt_iff, IH1, IH2.
  - rewrite lang_cat_iff, lang_Cat. setoid_rewrite IH. split.
    + intros (s1 & s2 & -> & H1 & H2). by apply (lang_star_cons r (x :: s1)).
    + apply lang_star_inv.
  - by rewrite lang_both_iff, IH1, IH2.
Qed.

(** The matcher accepts exactly the words of the pattern. *)
Lemma fullmatch_lang r s : fullmatch r s = true ↔ lang r s.
Proof.
  revert r. induction s as [|x s IH]; intros r; simpl; [apply nullable_spec|]. by rewrite IH, deriv_spec.
Qed.

(** ** Characters of matches *)

(** The characters a pattern can match. *)
Fixpoint allows (r : regex) (x : N) : bool :=
  match r with
  | Void | Eps => false
  | Class c => class_match c x
  | Cat r1 r2 | Alt r1 r2 => allows r1 x || allows r2 x
  | Star r => allows r x
  | Both r1 r2 => allows r1 x && allows r2 x
  end.

Lemma lang_allows r s : lang r s → ∀ x, x ∈ s → allows r x = true.
Proof.
  induction 1 as [|c x Hx|r1 r2 s1 s2 _ IH1 _ IH2|r1 r2 s _ IH|r1 r2 s _ IH|r|r s1 s2 _ IH1 _ IH2|r1 r2 s _ IH1 _ IH2];
    intros y; simpl; rewrite ?orb_true_iff, ?andb_true_iff.
  - by intros ?%elem_of_nil.
  - by intros ->%list_elem_of_singleton.
  - intros [H|H]%elem_of_app; [left; by apply IH1|right; by apply IH2].
  - intros H. left. by apply IH.
  - intros H. right. by apply IH.
  - by intros ?%elem_of_nil.
  - intros [H|H]%elem_of_app; [by apply IH1|by apply IH2].
  - intros H. split; [by apply IH1|by apply IH2].
Qed.

Lemma fullmatch_allows r s x : fullmatch r s = true → x ∈ s → allows r x = true.
Proof. rewrite fullmatch_lang. intros H. by apply lang_allows. Qed.
