(* ===== verification/Url.v ===== *)
(** [urllib.parse] as the configuration code uses it: [urlsplit] with the properties of its result,
    [parse_qs], [unquote] and [urlunsplit].

    What depends on tables of the Unicode standard or on [ipaddress] is an argument, the class
    [UrlLib]; a URL of ASCII characters without brackets is read without them. *)
From S2P Require Import Prelude PyStr Errors Decoding.
From Stdlib Require Import ZArith.
From Stdlib Require Strings.Byte.

Class UrlLib := {
  str_lower : pystr → pystr;            (* str.lower *)
  nfkc : pystr → pystr;                 (* unicodedata.normalize("NFKC", s) *)
  bracketed_ok : pystr → bool           (* _check_bracketed_netloc *)
}.

(** ** Strings *)

(** [s] up to the first character that satisfies [p], and the rest from there. *)
Fixpoint break (p : N → bool) (s : pystr) : pystr * pystr :=
  match s with
  | [] => ([], [])
  | c :: s' => if p c then ([], s) else let '(a, b) := break p s' in (c :: a, b)
  end.

Definition same_char (c : N) : N → bool := λ x, (x =? c)%N.

(** [s.partition(c)]: [None] for the rest if [c] does not occur. *)
Definition partition (c : N) (s : pystr) : pystr * option pystr :=
  match break (same_char c) s with
  | (a, _ :: b) => (a, Some b)
  | (a, []) => (a, None)
  end.

(** [s.rpartition(c)], with [None] for the head. *)
Definition rpartition (c : N) (s : pystr) : option pystr * pystr :=
  match break (same_char c) (rev s) with
  | (a, _ :: b) => (Some (rev b), rev a)
  | (a, []) => (None, s)
  end.

(** [s.split(c)] *)
Fixpoint split_on (c : N) (s : pystr) : list pystr :=
  match s with
  | [] => [[]]
  | x :: s =>
      let parts := split_on c s in
      if (x =? c)%N then [] :: parts
      else match parts with p :: ps => (x :: p) :: ps | [] => [[x]] end
  end.

Definition has_char (c : N) (s : pystr) : bool := existsb (same_char c) s.

Definition ascii_lower (s : pystr) : pystr := map (λ c, if is_upper c then (c + 32)%N else c) s.

(** ** urlsplit *)

Record SplitResult := mkSplitResult {
  scheme : pystr;
  netloc : pystr;
  path : pystr;
  query : pystr;
  fragment : pystr
}.

Definition c0_or_space (c : N) : bool := (c <=? 32)%N.
Definition unsafe_char (c : N) : bool := (c =? 9)%N || (c =? 10)%N || (c =? 13)%N.
Definition is_alpha (c : N) : bool := is_lower c || is_upper c.
Definition scheme_char (c : N) : bool := is_alnum_ascii c || (c =? 43)%N || (c =? 45)%N || (c =? 46)%N.

Definition clean_url (url : pystr) : pystr := filter (λ c, negb (unsafe_char c) = true) (lstrip_p c0_or_space url).

Definition split_scheme (url : pystr) : pystr * pystr :=
  match partition 58 url with
  | ((c :: _) as s, Some rest) => if is_alpha c && forallb scheme_char s then (ascii_lower s, rest) else ([], url)
  | _ => ([], url)
  end.

(** [_splitnetloc]: up to the first of / ? # *)
Definition split_netloc (url : pystr) : pystr * pystr := break (λ c, (c =? 47)%N || (c =? 63)%N || (c =? 35)%N) url.

(** The part before and after the first [c]; empty if there is none. *)
Definition split_once (c : N) (url : pystr) : pystr * pystr :=
  let '(a, b) := partition c url in (a, default [] b).

Section urllib.
Context `{UrlLib}.

(** [_checknetloc] *)
Definition netloc_ok (netloc : pystr) : bool :=
  is_ascii netloc ||
  (let n := filter (λ c, negb ((c =? 64)%N || (c =? 58)%N || (c =? 35)%N || (c =? 63)%N) = true) netloc in
   bool_decide (n = nfkc n) ||
   negb (existsb (λ c, has_char c (nfkc n)) [47%N; 63%N; 35%N; 64%N; 58%N])).

Definition brackets_ok (netloc : pystr) : bool :=
  let open := has_char 91 netloc in
  let close := has_char 93 netloc in
  Bool.eqb open close && (negb open || bracketed_ok netloc).

Definition urlsplit (url : pystr) : outcome SplitResult :=
  let '(scheme, url) := split_scheme (clean_url url) in
  let has_netloc := startswith url (lit "//") in
  let '(netloc, url) := if has_netloc then split_netloc (drop 2 url) else ([], url) in
  if has_netloc && negb (brackets_ok netloc) then Raise (ValueErr (lit "Invalid IPv6 URL"))
  else
    let '(url, fragment) := split_once 35 url in
    let '(url, query) := split_once 63 url in
    if netloc_ok netloc then Ok (mkSplitResult scheme netloc url query fragment)
    else Raise (ValueErr (lit "netloc contains invalid characters under NFKC normalization")).

(** ** The properties of a result *)

Definition hostinfo (u : SplitResult) : pystr * option pystr :=
  let '(_, info) := rpartition 64 (netloc u) in
  let '(hostname, port) :=
    match partition 91 info with
    | (_, Some bracketed) =>
        let '(hostname, rest) := partition 93 bracketed in
        (hostname, default [] (snd (partition 58 (default [] rest))))
    | (_, None) => split_once 58 info
    end in
  (hostname, match port with [] => None | _ => Some port end).

Definition userinfo (u : SplitResult) : option pystr * option pystr :=
  match rpartition 64 (netloc u) with
  | (Some info, _) => let '(username, password) := partition 58 info in (Some username, password)
  | (None, _) => (None, None)
  end.

Definition username (u : SplitResult) : option pystr := fst (userinfo u).
Definition password (u : SplitResult) : option pystr := snd (userinfo u).

Definition hostname (u : SplitResult) : option pystr :=
  match hostinfo u with
  | ([], _) => None
  | (host, _) =>
      let '(host, zone) := partition 37 host in
      Some (str_lower host ++ from_option (λ z, 37%N :: z) [] zone)
  end.

Definition digits_value (s : pystr) : Z := foldl (λ z c, z * 10 + Z.of_N (c - 48))%Z 0%Z s.

Definition port (u : SplitResult) : outcome (option Z) :=
  match snd (hostinfo u) with
  | None => Ok None
  | Some p =>
      if forallb is_digit p && (digits_value p <=? 65535)%Z then Ok (Some (digits_value p))
      else Raise (ValueErr (lit "Port could not be cast to integer value or is out of range 0-65535"))
  end.
End urllib.

(** ** Percent-encoding *)

Definition is_hex (c : N) : bool := is_digit c || in_range 97 102 c || in_range 65 70 c.
Definition hex_value (c : N) : N := if is_digit c then (c - 48)%N else if is_lower c then (c - 87)%N else (c - 55)%N.

Fixpoint unquote_to_bytes (s : pystr) : bytes :=
  match s with
  | [] => []
  | c :: s1 =>
      match s1 with
      | a :: b :: s2 =>
          if (c =? 37)%N && is_hex a && is_hex b then byte_of_N (16 * hex_value a + hex_value b) :: unquote_to_bytes s2
          else byte_of_N c :: unquote_to_bytes s1
      | _ => byte_of_N c :: unquote_to_bytes s1
      end
  end.

(** The ASCII runs are decoded, other characters stay. *)
Fixpoint unquote_runs (run s : pystr) : pystr :=
  let flush := utf8_decode_replace (unquote_to_bytes (rev run)) in
  match s with
  | [] => flush
  | c :: s => if (c <? 128)%N then unquote_runs (c :: run) s else flush ++ c :: unquote_runs [] s
  end.

Definition unquote (s : pystr) : pystr := if has_char 37 s then unquote_runs [] s else s.

(** ** Query strings *)

Definition plus_to_space (s : pystr) : pystr := map (λ c, if (c =? 43)%N then 32%N else c) s.
Definition unquote_field (s : pystr) : pystr := unquote (plus_to_space s).

(** [parse_qsl(qs, keep_blank_values=True, strict_parsing=strict)] *)
Fixpoint query_fields (strict : bool) (fields : list pystr) : outcome (list (pystr * pystr)) :=
  match fields with
  | [] => Ok []
  | f :: fields =>
      match f, strict with
      | [], false => query_fields strict fields
      | _, _ =>
          match partition 61 f with
          | (_, None) =>
              if strict then Raise (ValueErr (lit "bad query field"))
              else rest ← query_fields strict fields; Ok ((unquote_field f, []) :: rest)
          | (name, Some value) =>
              rest ← query_fields strict fields; Ok ((unquote_field name, unquote_field value) :: rest)
          end
      end
  end.

Definition parse_qsl (strict : bool) (qs : pystr) : outcome (list (pystr * pystr)) :=
  match qs with
  | [] => Ok []
  | _ => query_fields strict (split_on 38 qs)
  end.

(** A dictionary in the order of insertion. *)
Fixpoint append_value (k v : pystr) (d : list (pystr * list pystr)) : list (pystr * list pystr) :=
  match d with
  | [] => [(k, [v])]
  | (k', vs) :: d => if bool_decide (k = k') then (k', vs ++ [v]) :: d else (k', vs) :: append_value k v d
  end.

Definition parse_qs (strict : bool) (qs : pystr) : outcome (list (pystr * list pystr)) :=
  pairs ← parse_qsl strict qs;
  Ok (foldl (λ d kv, append_value kv.1 kv.2 d) [] pairs).

(** ** urlunsplit *)

Definition uses_netloc : list pystr :=
  [[]; lit "ftp"; lit "http"; lit "gopher"; lit "nntp"; lit "telnet"; lit "imap"; lit "wais"; lit "file"; lit "mms";
   lit "https"; lit "shttp"; lit "snews"; lit "prospero"; lit "rtsp"; lit "rtsps"; lit "rtspu"; lit "rsync"; lit "svn";
   lit "svn+ssh"; lit "sftp"; lit "nfs"; lit "git"; lit "git+ssh"; lit "ws"; lit "wss"; lit "itms-services"].

Definition urlunsplit (u : SplitResult) : pystr :=
  let slashes := lit "//" in
  let url := path u in
  let url :=
    if negb (bool_decide (netloc u = [])) then
      slashes ++ netloc u ++ (match url with [] => [] | c :: _ => if (c =? 47)%N then url else 47%N :: url end)
    else if startswith url slashes then slashes ++ url
    else if negb (bool_decide (scheme u = [])) && str_in (scheme u) uses_netloc &&
            (match url with [] => true | c :: _ => (c =? 47)%N end) then slashes ++ url
    else url in
  let url := match scheme u with [] => url | s => s ++ 58%N :: url end in
  let url := match query u with [] => url | q => url ++ 63%N :: q end in
  match fragment u with [] => url | f => url ++ 35%N :: f end.
