(* ===== verification/EnvFile.v ===== *)
(** infra/azure-economy/runtime: [validate_env.py], which validates the dotenv input of a deployment
    and saves it with the release images, the environment that compose.yaml gives the services, and
    [worker-health.database_dsn], the URL the worker's health probe connects to. *)
From S2P Require Import Prelude PyStr Errors Json Decoding Serialization Regex Url Floats FloatConv Config.
From Stdlib Require Import ZArith.

(** ** Patterns and keys *)

Definition PROJECT : pystr := lit "eventharbor".
Definition PREFIX : pystr := lit "EVENTHARBOR".

Definition sha256_digest : regex := seq [text_re (lit "@sha256:"); times 64 (one_of [digit_range; (97, 102)%N])].

(** [ghcr\.io/[a-z0-9][a-z0-9._/-]*@sha256:[0-9a-f]{64}] *)
Definition IMAGE : regex :=
  seq [text_re (lit "ghcr.io/"); one_of [lower_range; digit_range];
       Star (one_of [lower_range; digit_range; char 46; char 95; char 47; char 45]); sha256_digest].

(** [(?:docker\.io/library/)?caddy:[a-z0-9.-]+@sha256:[0-9a-f]{64}] *)
Definition CADDY : regex :=
  seq [opt (text_re (lit "docker.io/library/")); text_re (lit "caddy:");
       plus (one_of [lower_range; digit_range; char 46; char 45]); sha256_digest].

(** [(?=.{1,253}\Z)(?:[a-z0-9](?:[a-z0-9-]{0,61}[a-z0-9])?\.)+[a-z]{2,63}] *)
Definition dns_label : regex :=
  Cat (one_of [lower_range; digit_range])
    (opt (Cat (up_to 61 (one_of [lower_range; digit_range; char 45])) (one_of [lower_range; digit_range]))).
Definition HOST : regex :=
  Both (repeated 1 253 dot) (Cat (plus (Cat dns_label (text_re (lit ".")))) (repeated 2 63 (one_of [lower_range]))).

(** [[^@\s]+@[^@\s]+\.[^@\s]+] *)
Definition EMAIL : regex :=
  let part := plus (none_of (char 64 :: space_ranges)) in
  seq [part; text_re (lit "@"); part; text_re (lit "."); part].

Definition DATABASE_URL : pystr := PREFIX ++ lit "_DATABASE_URL".
Definition KEYS : list pystr := [lit "PUBLIC_HOSTNAME"; lit "ACME_EMAIL"; lit "CADDY_IMAGE"; DATABASE_URL].
Definition IMAGE_KEYS : list pystr := [lit "BACKEND_IMAGE"; lit "FRONTEND_IMAGE"].

(** ** Reading *)

(** What [lstat] and [read_text] find at a path. *)
Record file := mkFile {
  st_regular : bool;
  st_uid : Z;
  st_mode : Z;                    (* stat.S_IMODE(info.st_mode) *)
  contents : bytes
}.

(** The universal newlines of text mode, and [str.splitlines]. *)
Fixpoint universal_newlines (s : pystr) : pystr :=
  match s with
  | [] => []
  | c :: s' =>
      if (c =? 13)%N then
        10%N :: match s' with
                | d :: s'' => if (d =? 10)%N then universal_newlines s'' else universal_newlines s'
                | [] => []
                end
      else c :: universal_newlines s'
  end.

Definition is_line_break (c : N) : bool :=
  in_range 10 13 c || in_range 28 30 c || (c =? 133)%N || (c =? 8232)%N || (c =? 8233)%N.

Fixpoint splitlines_from (line s : pystr) : list pystr :=
  match s with
  | [] => match line with [] => [] | _ => [rev line] end
  | c :: s => if is_line_break c then rev line :: splitlines_from [] s else splitlines_from (c :: line) s
  end.
Definition splitlines (s : pystr) : list pystr := splitlines_from [] s.

Abbreviation env_values := (list (pystr * pystr)).

(** White space, quotes, [`], [$] and [#]. *)
Definition raw_char (c : N) : bool :=
  negb (is_space c || (c =? 34)%N || (c =? 39)%N || (c =? 96)%N || (c =? 36)%N || (c =? 35)%N).

Definition ignored_line (line : pystr) : bool :=
  bool_decide (strip line = []) || startswith (lstrip_p is_space line) (lit "#").

Definition has_key {A : Type} (d : list (pystr * A)) (k : pystr) : bool := bool_decide (is_Some (dict_get d k)).

Fixpoint read_lines (lines : list pystr) (values : env_values) : outcome env_values :=
  match lines with
  | [] => Ok values
  | line :: lines =>
      if ignored_line line then read_lines lines values
      else
        match partition 61 line with
        | (_, None) => Raise (ValueErr (lit "environment input contains an unknown or duplicate key"))
        | (key, Some value) =>
            if negb (str_in key (KEYS ++ IMAGE_KEYS)) || has_key values key then
              Raise (ValueErr (lit "environment input contains an unknown or duplicate key"))
            else if bool_decide (value = []) || negb (forallb raw_char value) then
              Raise (ValueErr (lit "environment values must be nonempty raw values without interpolation"))
            else read_lines lines (dict_set values key value)
        end
  end.

Definition check (ok : bool) (msg : string) : outcome unit := if ok then Ok tt else Raise (ValueErr (lit msg)).

Definition validate_image (value : pystr) : outcome unit :=
  check (fullmatch IMAGE value) "application images must be public GHCR references pinned by SHA256 digest".

(** [values[key]] where the key is present. *)
Definition value_of (values : env_values) (key : pystr) : pystr := default [] (dict_get values key).

Fixpoint validate_images (values : env_values) (keys : list pystr) : outcome unit :=
  match keys with
  | [] => Ok tt
  | k :: keys =>
      _ ← match dict_get values k with Some v => validate_image v | None => Ok tt end;
      validate_images values keys
  end.

Definition nonempty (o : option pystr) : bool := match o with Some (_ :: _) => true | _ => false end.
Definition endswith (s suffix : pystr) : bool := startswith (rev s) (rev suffix).

Section validate_env.
Context `{UrlLib}.

(** The scope and the TLS mode of the database URL. *)
Definition validate_database (url : pystr) : outcome unit :=
  let scope := "database URL must target this application's Azure PostgreSQL database" in
  database ← urlsplit url;
  _ ← check (eqb_str (scheme database) (lit "postgresql+asyncpg") && nonempty (hostname database) &&
             endswith (default [] (hostname database)) (lit ".postgres.database.azure.com") &&
             nonempty (username database) && nonempty (password database) &&
             eqb_str (path database) (lit "/" ++ PROJECT)) scope;
  port ← port database;
  _ ← check (bool_decide (port = None ∨ port = Some 5432%Z) && bool_decide (fragment database = [])) scope;
  query ← parse_qs false (query database);
  let ssl := dict_get query (lit "ssl") in
  let safe := bool_decide (ssl = Some [lit "require"] ∨ ssl = Some [lit "verify-full"]) in
  _ ← check (forallb (λ kv, eqb_str kv.1 (lit "ssl")) query && (bool_decide (ssl = None) || safe))
        "database URL has unsupported parameters or an unsafe TLS mode";
  check (negb (eqb_str PROJECT (lit "pulseexchange")) || safe) "PulseExchange database URL must explicitly enable TLS".

Definition validate_values (values : env_values) : outcome unit :=
  _ ← check (forallb (has_key values) KEYS) "a required environment key is missing";
  _ ← check (fullmatch HOST (value_of values (lit "PUBLIC_HOSTNAME"))) "PUBLIC_HOSTNAME must be one lowercase DNS hostname";
  _ ← check (fullmatch EMAIL (value_of values (lit "ACME_EMAIL"))) "ACME_EMAIL must be a contact email address";
  _ ← check (fullmatch CADDY (value_of values (lit "CADDY_IMAGE")))
        "CADDY_IMAGE must be an official Caddy image pinned by SHA256 digest";
  _ ← validate_database (value_of values DATABASE_URL);
  validate_images values IMAGE_KEYS.

Definition read_values (info : file) (check_permissions : bool) : outcome env_values :=
  _ ← check (st_regular info) "environment input must be a regular file, not a symlink";
  _ ← check (negb check_permissions || ((st_uid info =? 0)%Z && (st_mode info =? 384)%Z))
        "environment input must be owned by root and have mode 0600";
  text ← match utf8_plain (contents info) with Some s => Ok s | None => Raise UnicodeDecodeErr end;
  values ← read_lines (splitlines (universal_newlines text)) [];
  _ ← validate_values values;
  Ok values.

(** ** The command *)

Inductive Mode := prepare | check_only.

Record Args := mkArgs {
  mode : Mode;
  source : option file;                    (* None: lstat or read_text raises OSError *)
  destination : option bool;               (* whether os.open of it succeeds *)
  backend : option pystr;
  frontend : option pystr
}.

Definition item_line (kv : pystr * pystr) : pystr := kv.1 ++ 61%N :: kv.2 ++ [10%N].

(** The saved text, by key. *)
Definition saved_text (values : env_values) : pystr := concat (item_line <$> merge_sort item_le values).

(** The bytes written to the destination, if any, and the result of the [try] block. *)
Definition run (args : Args) : outcome (option bytes) :=
  match source args with
  | None => Raise (RuntimeErr (lit "OSError"))
  | Some info =>
      values ← read_values info true;
      match mode args with
      | prepare =>
          match destination args, backend args, frontend args with
          | Some opens, Some backend, Some frontend =>
              _ ← validate_image backend;
              _ ← validate_image frontend;
              let values := dict_set (dict_set values (lit "BACKEND_IMAGE") backend) (lit "FRONTEND_IMAGE") frontend in
              if opens then
                match utf8_encode (saved_text values) with
                | Some out => Ok (Some out)
                | None => Raise UnicodeEncodeErr
                end
              else Raise (RuntimeErr (lit "OSError"))
          | _, _, _ => Raise (ValueErr (lit "prepare requires destination, backend image, and frontend image"))
          end
      | check_only =>
          _ ← check (forallb (has_key values) IMAGE_KEYS) "saved deployment is missing its image digests";
          Ok None
      end
  end.

(** The exit status: every error is caught and reported without its text. *)
Definition main (args : Args) : Z := match run args with Ok _ => 0%Z | Raise _ => 1%Z end.

(** ** The health probe of the worker *)

Definition database_dsn (value : pystr) : outcome pystr :=
  parsed ← urlsplit value;
  query ← parse_qs true (query parsed);
  if negb (eqb_str (scheme parsed) (lit "postgresql+asyncpg")) || negb (bool_decide (fragment parsed = [])) ||
     negb (bool_decide (query = [(lit "ssl", [lit "verify-full"])])) then
    Raise (ValueErr (lit "worker health database URL must require full TLS verification"))
  else Ok (urlunsplit (mkSplitResult (lit "postgresql") (netloc parsed) (path parsed) [] (fragment parsed))).

End validate_env.

(** ** compose.yaml *)

(** [x-app-env]: the settings of the services that use the database. *)
Definition app_env (database_url : pystr) : Settings :=
  mkSettings PRODUCTION database_url false 2 0 (float_of_Z 30) VERIFY_FULL (float_of_Z 3)
    7 500 5000 (lit "http://eventharbor-receiver-prod/webhooks") (lit "http://eventharbor-receiver-prod")
    (worker_poll_interval_seconds default_settings) (float_of_Z 5) (float_of_Z 30) 4
    (float_of_Z 1) (float_of_Z 2) (float_of_Z 5) (lit "INFO").
