(* ===== verification/Health.v ===== *)
(** The health and readiness answers of api.py and receiver_lab/api.py, and the probe of the worker's
    container (infra/azure-economy/runtime/worker-health.py). *)
From S2P Require Import Prelude PyStr Errors Url Config EnvFile.
From Stdlib Require Import ZArith.
From Stdlib Require Strings.Byte.

Definition __version__ : pystr := lit "0.1.0".

Record JSONResponse := mkJSONResponse {
  js_status_code : Z;
  js_headers : list (pystr * pystr);
  js_content : list (pystr * pystr)
}.

Definition no_store_header : list (pystr * pystr) := [(lit "Cache-Control", lit "no-store")].

(** [api.health]: the process answers, without claiming anything about its dependencies. *)
Definition health : JSONResponse :=
  mkJSONResponse 200 no_store_header
    [(lit "status", lit "healthy"); (lit "service", lit "eventharbor-api"); (lit "version", __version__)].

(** How [_check_database_connection] ends within [asyncio.timeout]: [Failed] carries the type of the
    exception, [TimeoutError] at the deadline; a cancellation of the request is no [Exception]. *)
Inductive probe :=
| Answered
| Failed (error_type : pystr)
| Cancelled.

(** [api.ready] with the records it logs; [None] when the request was cancelled. *)
Definition ready (database : probe) : option JSONResponse * list (pystr * pystr) :=
  match database with
  | Answered =>
      (Some (mkJSONResponse 200 no_store_header
         [(lit "status", lit "ready"); (lit "service", lit "eventharbor-api"); (lit "dependency", lit "postgresql")]), [])
  | Failed error_type =>
      (Some (mkJSONResponse 503 no_store_header
         [(lit "status", lit "unavailable"); (lit "service", lit "eventharbor-api"); (lit "dependency", lit "postgresql")]),
       [(lit "database readiness check failed", error_type)])
  | Cancelled => (None, [])
  end.

(** [receiver_lab.api.health] *)
Definition receiver_health : list (pystr * pystr) :=
  [(lit "status", lit "healthy"); (lit "service", lit "eventharbor-receiver-lab")].

(** ** worker-health.py *)

Fixpoint bytes_prefix (p s : bytes) : bool :=
  match p, s with
  | [], _ => true
  | b :: p, c :: s => Byte.eqb b c && bytes_prefix p s
  | _ :: _, [] => false
  end.

(** [p in s] *)
Fixpoint bytes_in (p s : bytes) : bool :=
  bytes_prefix p s || match s with [] => false | _ :: s => bytes_in p s end.

(** The outcome of each step that [check] waits for. *)
Record WorkerHost := mkWorkerHost {
  cmdlines : list bytes;                       (* /proc/[0-9]*/cmdline *)
  env_database_url : option pystr;             (* os.environ *)
  connects : pystr → bool;                     (* asyncpg.connect, SELECT 1 and close succeed *)
  receiver_answers : bool;                     (* urlopen of the receiver's health route *)
  in_time : bool                               (* within the eight seconds of wait_for *)
}.

Definition worker_check `{UrlLib} (h : WorkerHost) : outcome unit :=
  if negb (existsb (bytes_in (blit "eventharbor.deliveries.worker")) (cmdlines h)) then
    Raise (RuntimeErr (lit "worker process missing"))
  else
    url ← match env_database_url h with Some url => Ok url | None => Raise (RuntimeErr (lit "KeyError")) end;
    dsn ← database_dsn url;
    _ ← if connects h dsn then Ok tt else Raise (RuntimeErr (lit "asyncpg"));
    if receiver_answers h then Ok tt else Raise (RuntimeErr (lit "URLError")).

Definition worker_main `{UrlLib} (h : WorkerHost) : Z :=
  match worker_check h with
  | Ok _ => if in_time h then 0%Z else 1%Z
  | Raise _ => 1%Z
  end.
