(* ===== verification/Worker.v ===== *)
(** [deliveries/worker.py]: claiming a delivery, resolving expired leases, fenced
    finalization, and one iteration of the worker.

    Each transaction gets the clock readings, random values and row locks it meets as an
    argument.  A claim is [FOR UPDATE SKIP LOCKED] on the delivery and its endpoint, so it
    passes over rows that other transactions hold: the sets of locked rows are arguments.  The
    polling loop runs over the list of what its iterations meet until the process is stopped. *)
From S2P Require Import Prelude PyStr Errors Floats FloatConv Json Retry StateMachine DemoRuns Models Datetime.
From S2P Require Import Database Transport Config.
From Stdlib Require Import ZArith.

(** ** The worker *)

Record Worker := mkWorker {
  worker_id : pystr;
  settings : Settings;
  retry_policy : RetryPolicy
}.

(** [DeliveryWorker.__init__] *)
Definition make_worker (s : Settings) (id : pystr) : outcome Worker :=
  p ← make_policy (worker_max_attempts s) (worker_base_delay_seconds s) (worker_max_delay_seconds s);
  mret (mkWorker (take 160 id) s p).

Record DeliveryResolution := mkDeliveryResolution { dr_delivery_id : UUID; dr_reason : pystr }.

(** The two results of [claim_one] other than [None]. *)
Inductive Claim :=
| Outbound (webhook : OutboundWebhook)
| Resolution (resolution : DeliveryResolution).

(** What one claim reads: the first [clock_timestamp()], the [clock_timestamp()] at which each row's
    condition is evaluated, the [now()] of the transaction, two [uuid4()], and the locked rows. *)
Record ClaimEnv := mkClaimEnv {
  ce_now : datetime;
  ce_row_clock : UUID → datetime;
  ce_func_now : datetime;
  ce_lease_token : UUID;
  ce_attempt_id : UUID;
  ce_locked_deliveries : list UUID;
  ce_locked_endpoints : list UUID
}.

(** ** Selecting due work *)

(** [column IS NOT NULL AND column <= clock_timestamp()] *)
Definition reached (column : option datetime) (clock : datetime) : bool :=
  match column with Some t => (t <=? clock)%Z | None => false end.

(** The [WHERE] clause. *)
Definition due (clock : datetime) (d : Delivery) : bool :=
  (bool_decide (Delivery.status d ∈ [PENDING; RETRY_WAIT]) && reached (Delivery.next_attempt_at d) clock &&
     is_null (Delivery.lease_token d)) ||
  (bool_decide (Delivery.status d = IN_PROGRESS) && reached (Delivery.lease_expires_at d) clock).

(** [coalesce(lease_expires_at, next_attempt_at), id] *)
Definition claim_key (d : Delivery) : sort_key :=
  (match Delivery.lease_expires_at d with
   | Some t => t
   | None => default 0%Z (Delivery.next_attempt_at d)
   end, Delivery.id d).

(** A row the statement can return: due, joined to its endpoint, neither row locked. *)
Definition claimable (env : ClaimEnv) (db : Db) (d : Delivery) : Prop :=
  due (ce_row_clock env (Delivery.id d)) d = true ∧
  is_Some (endpoints db !! Delivery.endpoint_id d) ∧
  Delivery.id d ∉ ce_locked_deliveries env ∧ Delivery.endpoint_id d ∉ ce_locked_endpoints env.

#[export] Instance claimable_dec env db d : Decision (claimable env db d).
Proof. unfold claimable. apply _. Defined.

Definition claim_candidates (env : ClaimEnv) (db : Db) : list Delivery :=
  order_by key_le claim_key (select (claimable env db) (deliveries db)).

(** ** Resolving without an HTTP request *)

(** [DeliveryWorker._unclaimable_due_reason] *)
Definition _unclaimable_due_reason (w : Worker) (d : Delivery) (endpoint_enabled : bool)
  : outcome (option pystr) :=
  remaining ← has_attempt_remaining (retry_policy w) (Delivery.attempt_count d);
  let exhausted := negb remaining in
  mret (if negb endpoint_enabled && exhausted
        then Some (lit "endpoint is disabled and the maximum attempt count is already exhausted")
        else if negb endpoint_enabled then Some (lit "endpoint is disabled before the delivery can be claimed")
        else if exhausted then Some (lit "maximum attempt count is already exhausted before claim")
        else None).

(** The assignments that end a delivery as dead-lettered. *)
Definition dead_letter (now : datetime) (d : Delivery) : Delivery :=
  Delivery.set_updated_at now
    (Delivery.set_lease None None None
      (Delivery.set_next_attempt_at None (Delivery.set_status DEAD_LETTERED d))).

(** [DeliveryWorker._dead_letter_without_attempt] *)
Definition _dead_letter_without_attempt (d : Delivery) (reason : pystr) (now : datetime)
  : tx DeliveryResolution :=
  _ ← lift (ensure_transition (Delivery.status d) DEAD_LETTERED);
  _ ← update_delivery (Delivery.set_last_error (Some (take 2048 reason)) (dead_letter now d));
  mret (mkDeliveryResolution (Delivery.id d) reason).

(** The in-progress attempt that belongs to the lease of a delivery. *)
Definition lease_attempt (d : Delivery) (a : DeliveryAttempt) : Prop :=
  DeliveryAttempt.delivery_id a = Delivery.id d ∧
  DeliveryAttempt.attempt_number a = Delivery.attempt_count d ∧
  Some (DeliveryAttempt.lease_token a) = Delivery.lease_token d ∧
  DeliveryAttempt.status a = ATTEMPT_IN_PROGRESS.

#[export] Instance lease_attempt_dec d a : Decision (lease_attempt d a).
Proof. unfold lease_attempt. apply _. Defined.

Definition expired_reason (endpoint_enabled exhausted : bool) : pystr :=
  if negb endpoint_enabled then lit "endpoint disabled while the worker lease was outstanding"
  else if exhausted then lit "worker lease expired and the maximum attempt count was exhausted"
  else lit "worker lease expired before its outcome was committed; redelivery reserved".

(** The attempt an expired lease leaves behind. *)
Definition indeterminate (reason : pystr) (now : datetime) (a : DeliveryAttempt) : DeliveryAttempt :=
  DeliveryAttempt.mk (DeliveryAttempt.id a) (DeliveryAttempt.delivery_id a) (DeliveryAttempt.attempt_number a)
    ATTEMPT_INDETERMINATE (DeliveryAttempt.lease_token a) (DeliveryAttempt.disposition a)
    (DeliveryAttempt.http_status_code a) (Some (lit "lease_expired"))
    (Some (take 2048 (reason ++ lit "; the endpoint may have received the request")))
    (DeliveryAttempt.response_body_excerpt a) (DeliveryAttempt.duration_ms a)
    (DeliveryAttempt.request_timestamp a) (DeliveryAttempt.retry_scheduled_for a)
    (DeliveryAttempt.started_at a) (DeliveryAttempt.finished_at a) (Some now) (DeliveryAttempt.created_at a).

Definition lease_expired (reason : pystr) (d : Delivery) : Delivery :=
  Delivery.set_last_error (Some (take 2048 (lit "lease_expired: " ++ reason))) d.

(** [DeliveryWorker._resolve_expired_attempt].  Where the method returns [None] the caller flushes: the
    two modified rows are written here, [updated_at] by its [onupdate=now()], and the delivery as the
    session holds it is returned. *)
Definition _resolve_expired_attempt (w : Worker) (d : Delivery) (endpoint_enabled : bool)
  (now func_now : datetime) : tx (DeliveryResolution + Delivery) :=
  attempt ← one_or_none (λ db, select (lease_attempt d) (attempts db));
  match attempt with
  | None =>
      raise (RuntimeErr (lit "delivery " ++ str_of_uuid (Delivery.id d) ++
                         lit " has an expired lease without in-progress evidence"))
  | Some attempt =>
      remaining ← lift (has_attempt_remaining (retry_policy w) (Delivery.attempt_count d));
      let exhausted := negb remaining in
      let reason := expired_reason endpoint_enabled exhausted in
      let attempt' := indeterminate reason now attempt in
      let d' := lease_expired reason d in
      if endpoint_enabled && negb exhausted then
        let flushed := Delivery.set_updated_at func_now d' in
        _ ← update_delivery flushed;
        _ ← update_attempt attempt';
        mret (inr flushed)
      else
        _ ← lift (ensure_transition (Delivery.status d) DEAD_LETTERED);
        _ ← update_delivery (dead_letter now d');
        _ ← update_attempt attempt';
        mret (inl (mkDeliveryResolution (Delivery.id d) reason))
  end.

(** ** Reserving an attempt *)

(** The assignments of a claim. *)
Definition leased (w : Worker) (token : UUID) (expires now : datetime) (d : Delivery) : Delivery :=
  Delivery.set_updated_at now
    (Delivery.set_lease (Some (worker_id w)) (Some token) (Some expires)
      (Delivery.set_next_attempt_at None
        (Delivery.set_attempt_count (Delivery.attempt_count d + 1) (Delivery.set_status IN_PROGRESS d)))).

(** The evidence reserved before the request. *)
Definition reserved (attempt_id token : UUID) (now : datetime) (d : Delivery) : DeliveryAttempt :=
  DeliveryAttempt.mk attempt_id (Delivery.id d) (Delivery.attempt_count d) ATTEMPT_IN_PROGRESS token
    None None None None None None None None None None None now.

(** [event.payload.get(key)]: a payload that is no object has no [get]. *)
Definition payload_get (payload : json) (key : pystr) : outcome (option json) :=
  match payload with
  | JDict d => Ok (dict_get d key)
  | _ => Raise (TypeErr (lit "object has no attribute get"))
  end.

Definition webhook_of (event : Event) (endpoint : Endpoint) (d : Delivery) (attempt_id token : UUID)
  (run_id : option json) : OutboundWebhook :=
  OutboundWebhook.mk attempt_id (Delivery.id d) (Event.id event) (Event.event_type event)
    (Endpoint.target_url endpoint) (Endpoint.signing_secret endpoint) (Event.payload_bytes event)
    (Delivery.attempt_count d) token (normalized_demo_run_id run_id).

(** The end of [claim_one], from the new lease on. *)
Definition reserve_attempt (w : Worker) (env : ClaimEnv) (endpoint : Endpoint) (d : Delivery) : tx OutboundWebhook :=
  lease ← lift (timedelta_us (worker_lease_seconds (settings w)));
  expires ← lift (datetime_add (ce_now env) lease);
  let d' := leased w (ce_lease_token env) expires (ce_now env) d in
  event ← query (λ db, events db !! Delivery.event_id d);
  match event with
  | None => raise (RuntimeErr (lit "delivery references missing event"))
  | Some event =>
      _ ← update_delivery d';
      _ ← insert_attempt (reserved (ce_attempt_id env) (ce_lease_token env) (ce_now env) d');
      run_id ← lift (payload_get (Event.payload event) (lit "run_id"));
      mret (webhook_of event endpoint d' (ce_attempt_id env) (ce_lease_token env) run_id)
  end.

(** [DeliveryWorker.claim_one] *)
Definition claim_one (w : Worker) (env : ClaimEnv) : tx (option Claim) :=
  delivery ← one_or_none (λ db, take 1 (claim_candidates env db));
  match delivery with
  | None => mret None
  | Some delivery =>
      endpoint ← query (λ db, endpoints db !! Delivery.endpoint_id delivery);
      match endpoint with
      | None => raise (RuntimeErr (lit "delivery references missing endpoint"))
      | Some endpoint =>
          if bool_decide (Delivery.status delivery = IN_PROGRESS) then
            resolution ← _resolve_expired_attempt w delivery (Endpoint.enabled endpoint) (ce_now env) (ce_func_now env);
            match resolution with
            | inl resolution => mret (Some (Resolution resolution))
            | inr delivery => webhook ← reserve_attempt w env endpoint delivery; mret (Some (Outbound webhook))
            end
          else
            reason ← lift (_unclaimable_due_reason w delivery (Endpoint.enabled endpoint));
            match reason with
            | Some reason =>
                resolution ← _dead_letter_without_attempt delivery reason (ce_now env);
                mret (Some (Resolution resolution))
            | None =>
                _ ← lift (ensure_transition (Delivery.status delivery) IN_PROGRESS);
                webhook ← reserve_attempt w env endpoint delivery; mret (Some (Outbound webhook))
            end
      end
  end.

(** ** Finalizing *)

(** [DeliveryWorker._last_error] *)
Definition _last_error (result : AttemptResult) : option pystr :=
  if bool_decide (AttemptResult.disposition result = SUCCEEDED) then None
  else
    match AttemptResult.error_type result with
    | Some error_type =>
        let detail := match AttemptResult.error_message result with
                      | Some (c :: m) => c :: m
                      | _ => lit "outbound request failed"
                      end in
        Some (take 2048 (error_type ++ lit ": " ++ detail))
    | None =>
        match AttemptResult.http_status_code result with
        | Some code => Some (lit "HTTP " ++ str_of_Z code)
        | None => Some (lit "outbound request failed")
        end
    end.

(** The target status and the retry delay [finalize] computes before its transaction. *)
Definition retry_decision (w : Worker) (webhook : OutboundWebhook) (result : AttemptResult)
  (random_fraction : float) : outcome (DeliveryStatus * option float) :=
  if bool_decide (AttemptResult.disposition result = SUCCEEDED) then Ok (DELIVERED, None)
  else if bool_decide (AttemptResult.disposition result = RETRY) then
    remaining ← has_attempt_remaining (retry_policy w) (OutboundWebhook.attempt_number webhook);
    if (remaining : bool) then
      delay ← delay_seconds (retry_policy w) (OutboundWebhook.attempt_number webhook) random_fraction;
      let delay := match AttemptResult.retry_after_seconds result with
                   | Some retry_after => fmax delay retry_after
                   | None => delay
                   end in
      Ok (RETRY_WAIT, Some delay)
    else Ok (DEAD_LETTERED, None)
  else Ok (DEAD_LETTERED, None).

Definition completed (result : AttemptResult) (retry_scheduled_for : option datetime) (now : datetime)
  (a : DeliveryAttempt) : DeliveryAttempt :=
  DeliveryAttempt.mk (DeliveryAttempt.id a) (DeliveryAttempt.delivery_id a) (DeliveryAttempt.attempt_number a)
    ATTEMPT_COMPLETED (DeliveryAttempt.lease_token a) (Some (AttemptResult.disposition result))
    (AttemptResult.http_status_code result) (AttemptResult.error_type result)
    (AttemptResult.error_message result) (AttemptResult.response_body_excerpt result)
    (Some (AttemptResult.duration_ms result)) (Some (AttemptResult.request_timestamp result))
    retry_scheduled_for (Some (AttemptResult.started_at result)) (Some (AttemptResult.finished_at result))
    (Some now) (DeliveryAttempt.created_at a).

Definition finished (result : AttemptResult) (target : DeliveryStatus) (retry_scheduled_for : option datetime)
  (now : datetime) (d : Delivery) : Delivery :=
  Delivery.set_updated_at now
    (Delivery.set_lease None None None
      (Delivery.set_last_error (_last_error result)
        (Delivery.set_delivered_at (if bool_decide (target = DELIVERED) then Some now else None)
          (Delivery.set_next_attempt_at retry_scheduled_for (Delivery.set_status target d))))).

(** The delivery whose lease a result belongs to, and the attempt it was reserved as. *)
Definition owns_lease (w : Worker) (webhook : OutboundWebhook) (d : Delivery) : Prop :=
  Delivery.id d = OutboundWebhook.delivery_id webhook ∧ Delivery.status d = IN_PROGRESS ∧
  Delivery.lease_owner d = Some (worker_id w) ∧ Delivery.lease_token d = Some (OutboundWebhook.lease_token webhook).

#[export] Instance owns_lease_dec w webhook d : Decision (owns_lease w webhook d).
Proof. unfold owns_lease. apply _. Defined.

Definition reserved_for (webhook : OutboundWebhook) (a : DeliveryAttempt) : Prop :=
  DeliveryAttempt.id a = OutboundWebhook.attempt_id webhook ∧
  DeliveryAttempt.delivery_id a = OutboundWebhook.delivery_id webhook ∧
  DeliveryAttempt.attempt_number a = OutboundWebhook.attempt_number webhook ∧
  DeliveryAttempt.lease_token a = OutboundWebhook.lease_token webhook ∧
  DeliveryAttempt.status a = ATTEMPT_IN_PROGRESS.

#[export] Instance reserved_for_dec webhook a : Decision (reserved_for webhook a).
Proof. unfold reserved_for. apply _. Defined.

(** The transaction of [finalize]. *)
Definition finalize_tx (w : Worker) (webhook : OutboundWebhook) (result : AttemptResult)
  (target : DeliveryStatus) (retry_delay : option float) (database_now : datetime) : tx bool :=
  delivery ← one_or_none (λ db, select (owns_lease w webhook) (deliveries db));
  match delivery with
  | None => mret false
  | Some delivery =>
      if negb (Delivery.attempt_count delivery =? OutboundWebhook.attempt_number webhook)%Z then mret false
      else
        attempt ← one_or_none (λ db, select (reserved_for webhook) (attempts db));
        match attempt with
        | None =>
            raise (RuntimeErr (lit "delivery " ++ str_of_uuid (Delivery.id delivery) ++
                               lit " owns a lease without matching attempt evidence"))
        | Some attempt =>
            _ ← lift (ensure_transition (Delivery.status delivery) target);
            retry_scheduled_for ← lift (match retry_delay with
                                        | Some delay => Some <$> (us ← timedelta_us delay; datetime_add database_now us)
                                        | None => Ok None
                                        end);
            _ ← update_delivery (finished result target retry_scheduled_for database_now delivery);
            _ ← update_attempt (completed result retry_scheduled_for database_now attempt);
            mret true
        end
  end.

(** [DeliveryWorker.finalize] *)
Definition finalize (w : Worker) (webhook : OutboundWebhook) (result : AttemptResult)
  (random_fraction : float) (database_now : datetime) : tx bool :=
  decision ← lift (retry_decision w webhook result random_fraction);
  finalize_tx w webhook result decision.1 decision.2 database_now.

(** ** One iteration *)

(** An outage of the database during a transaction: the driver raises an exception, and the transaction
    is rolled back, or, when the connection breaks during the commit, may have been committed. *)
Record Outage := mkOutage { ou_error : exn; ou_committed : bool }.

(** [async with sessions() as session, session.begin()] over a connection that may break. *)
Definition transact {A} (outage : option Outage) (m : tx A) (db : Db) : outcome A * Db :=
  match outage with
  | None => run_tx m db
  | Some o => (Raise (ou_error o), if ou_committed o then (run_tx m db).2 else db)
  end.

(** [DeliveryWorker.run_once]: a claim, the request outside any transaction, the finalization; an
    exception ends the iteration with the database as the last committed transaction left it. *)
Definition run_once (w : Worker) (claim_outage finalize_outage : option Outage) (cenv : ClaimEnv)
  (client : OutboundRequest → post_outcome) (parsedate : date_parser) (clock : SendClock) (random_fraction : float)
  (database_now : datetime) (db : Db) : outcome bool * Db :=
  match transact claim_outage (claim_one w cenv) db with
  | (Raise e, db1) => (Raise e, db1)
  | (Ok None, db1) => (Ok false, db1)
  | (Ok (Some (Resolution _)), db1) => (Ok true, db1)
  | (Ok (Some (Outbound webhook)), db1) =>
      match send_webhook client parsedate webhook (worker_retry_after_cap_seconds (settings w)) clock with
      | Raise e => (Raise e, db1)
      | Ok result =>
          match transact finalize_outage (finalize w webhook result random_fraction database_now) db1 with
          | (Raise e, db2) => (Raise e, db2)
          | (Ok _, db2) => (Ok true, db2)
          end
      end
  end.

(** What one iteration meets. *)
Record Iteration := mkIteration {
  it_claim_outage : option Outage;
  it_finalize_outage : option Outage;
  it_claim : ClaimEnv;
  it_client : OutboundRequest → post_outcome;
  it_parsedate : date_parser;
  it_clock : SendClock;
  it_fraction : float;
  it_now : datetime
}.

Definition iterate (w : Worker) (it : Iteration) (db : Db) : outcome bool * Db :=
  run_once w (it_claim_outage it) (it_finalize_outage it) (it_claim it) (it_client it) (it_parsedate it) (it_clock it)
    (it_fraction it) (it_now it) db.

(** [DeliveryWorker.run_forever]: the result of every iteration with the sleep after it; an
    exception is logged, and the loop sleeps after it as after an iteration without work. *)
Fixpoint run_forever (w : Worker) (its : list Iteration) (db : Db) : list (outcome bool * option float) * Db :=
  match its with
  | [] => ([], db)
  | it :: its =>
      let '(worked, db) := iterate w it db in
      let sleep :=
        match worked with
        | Ok true => None
        | Ok false | Raise _ => Some (worker_poll_interval_seconds (settings w))
        end in
      let '(rest, db) := run_forever w its db in
      ((worked, sleep) :: rest, db)
  end.
