(* ===== verification/Claiming.v ===== *)
(** What [claim_one] guarantees: it takes the earliest due delivery no other transaction
    holds, reserves evidence before any request can start, ends what must not be sent, and
    keeps the invariant without ever failing on a database that satisfies it. *)
From S2P Require Import Prelude PyStr Errors Floats FloatConv Json Retry StateMachine DemoRuns Models Datetime.
From S2P Require Import Database Repositories Invariant Transport Config Worker.
From Stdlib Require Import ZArith.

(** ** Constraints of the worker's writes *)

(** A worker built by the constructor from validated settings. *)
Record worker_ok (w : Worker) : Prop := {
  wo_fields : settings_fields (settings w) = true;
  wo_policy : make_policy (worker_max_attempts (settings w)) (worker_base_delay_seconds (settings w))
                (worker_max_delay_seconds (settings w)) = Ok (retry_policy w);
  wo_id : varchar 160 (worker_id w) = true
}.

Lemma make_policy_Ok n b m p : make_policy n b m = Ok p → p = mkRetryPolicy n b m ∧ (1 ≤ n)%Z.
Proof. unfold make_policy. intros H. repeat case_match; simplify_eq. bool_simpl. done. Qed.

Lemma worker_max w : worker_ok w → (1 ≤ max_attempts (retry_policy w) ≤ 100)%Z.
Proof.
  intros [Hf Hp _]. apply make_policy_Ok in Hp as [-> ?]. simpl. unfold settings_fields, int_field in Hf.
  bool_simpl. lia.
Qed.

Section update.
Context (db : Db) (Hok : db_ok db).

(** An update that keeps the identity of a delivery and activates nothing violates nothing but
    the checks of the row itself. *)
Lemma update_constraints d d' :
  deliveries db !! Delivery.id d = Some d → Delivery.id d' = Delivery.id d →
  Delivery.event_id d' = Delivery.event_id d → Delivery.endpoint_id d' = Delivery.endpoint_id d →
  Delivery.replay_generation d' = Delivery.replay_generation d →
  Delivery.replayed_from_delivery_id d' = Delivery.replayed_from_delivery_id d →
  Delivery.replay_idempotency_key d' = Delivery.replay_idempotency_key d →
  (active (Delivery.status d') = true → active (Delivery.status d) = true) →
  violated (Delivery.checks d') = None → violated (delivery_constraints db d') = None.
Proof.
  intros Hd E1 E2 E3 E4 E5 E6 Ha Hc. apply delivery_constraints_None. rewrite E2, E3, E5. split_and!.
  - done.
  - by eapply ok_delivery_event.
  - by eapply ok_delivery_endpoint.
  - intros s Hs. right. by eapply ok_delivery_source.
  - apply (no_conflict_update (row := Delivery) Delivery.conflict _ d' d);
      [exact (ok_delivery_unique db Hok)|by change (row_id d') with (Delivery.id d'); rewrite E1|].
    intros k r _ _. unfold Delivery.conflict, Delivery.same_generation, Delivery.same_replay_request, Delivery.both_active.
    rewrite E2, E3, E4, E5, E6. tauto.
Qed.

Lemma update_attempt_constraints a a' :
  attempts db !! DeliveryAttempt.id a = Some a → DeliveryAttempt.id a' = DeliveryAttempt.id a →
  DeliveryAttempt.delivery_id a' = DeliveryAttempt.delivery_id a →
  DeliveryAttempt.attempt_number a' = DeliveryAttempt.attempt_number a →
  DeliveryAttempt.lease_token a' = DeliveryAttempt.lease_token a →
  DeliveryAttempt.status a' ≠ ATTEMPT_IN_PROGRESS →
  violated (DeliveryAttempt.checks a') = None → violated (attempt_constraints db a') = None.
Proof.
  intros Ha E1 E2 E3 E4 Hs Hc. apply attempt_constraints_None. rewrite E2. split_and!.
  - done.
  - by eapply ok_attempt_delivery.
  - apply (no_conflict_update (row := DeliveryAttempt) DeliveryAttempt.conflict _ a' a);
      [exact (ok_attempt_unique db Hok)|by change (row_id a') with (DeliveryAttempt.id a'); rewrite E1|].
    intros k r _ _. unfold DeliveryAttempt.conflict. rewrite E2, E3, E4. tauto.
Qed.
End update.

(** The checks that hold of a row the worker rewrites. *)
Lemma row_checks d :
  violated (Delivery.checks d) = None ↔
  (0 ≤ Delivery.replay_generation d)%Z ∧
  is_null (Delivery.replayed_from_delivery_id d) = is_null (Delivery.replay_idempotency_key d) ∧
  nullable not_empty (Delivery.replay_idempotency_key d) = true ∧ (0 ≤ Delivery.attempt_count d)%Z ∧
  (is_null (Delivery.lease_owner d) = is_null (Delivery.lease_expires_at d) ∧
   is_null (Delivery.lease_owner d) = is_null (Delivery.lease_token d)) ∧
  (Delivery.status d = IN_PROGRESS ↔ is_null (Delivery.lease_owner d) = false) ∧
  (Delivery.status d = DELIVERED → is_null (Delivery.delivered_at d) = false).
Proof.
  rewrite violated_None. unfold Delivery.checks. rewrite !Forall_cons, Forall_nil. cbn [snd].
  rewrite !Z.leb_le, andb_true_iff, !eqb_true_iff, orb_true_iff, !negb_true_iff, bool_decide_eq_false.
  assert (Hb : bool_decide (Delivery.status d = IN_PROGRESS) = negb (is_null (Delivery.lease_owner d)) ↔
    (Delivery.status d = IN_PROGRESS ↔ is_null (Delivery.lease_owner d) = false)).
  { case_bool_decide; destruct (is_null _); simpl; naive_solver. }
  rewrite Hb. destruct (decide (Delivery.status d = DELIVERED)); naive_solver.
Qed.

Lemma row_types d :
  Delivery.types d = true ↔
  int4 (Delivery.replay_generation d) = true ∧ nullable (varchar 255) (Delivery.replay_idempotency_key d) = true ∧
  int4 (Delivery.attempt_count d) = true ∧ nullable (varchar 160) (Delivery.lease_owner d) = true ∧
  nullable text (Delivery.last_error d) = true.
Proof. unfold Delivery.types. rewrite !andb_true_iff. tauto. Qed.

Lemma attempt_types a :
  DeliveryAttempt.types a = true ↔
  int4 (DeliveryAttempt.attempt_number a) = true ∧ nullable int4 (DeliveryAttempt.http_status_code a) = true ∧
  nullable (varchar 120) (DeliveryAttempt.error_type a) = true ∧ nullable text (DeliveryAttempt.error_message a) = true ∧
  nullable text (DeliveryAttempt.response_body_excerpt a) = true ∧ nullable int4 (DeliveryAttempt.duration_ms a) = true ∧
  nullable int8 (DeliveryAttempt.request_timestamp a) = true.
Proof. unfold DeliveryAttempt.types. rewrite !andb_true_iff. tauto. Qed.

(** ** The clock and the lease *)

(** Timestamps at which a lease or a retry of at most a day stays representable. *)
Definition near (now : datetime) : Prop := (datetime_min ≤ now ≤ datetime_max - 86402000000)%Z.

Lemma lease_time w now :
  worker_ok w → near now →
  ∃ us, timedelta_us (worker_lease_seconds (settings w)) = Ok us ∧ (0 ≤ us)%Z ∧
    datetime_add now us = Ok (now + us)%Z.
Proof.
  intros [Hf _ _] Hn. unfold settings_fields in Hf. bool_simpl.
  match goal with H : float_field 600 _ = true |- _ => apply (float_field_ordinary 600) in H as [Ho Hle]; [|done] end.
  destruct (timedelta_bounded (worker_lease_seconds (settings w)) Ho) as (us & Hus & Hb).
  - apply (fle_trans _ (float_of_Z 600)); done.
  - exists us. split_and!; [done|lia|]. apply datetime_add_in_range. unfold near, datetime_min, datetime_max in *. lia.
Qed.

(** ** Reserving an attempt *)

(** All attempts of a delivery are resolved, and numbered from 1 to its count. *)
Definition settled (db : Db) (d : Delivery) : Prop :=
  (∀ n, (∃ a, attempt_of db (Delivery.id d) n a) ↔ (1 ≤ n ≤ Delivery.attempt_count d)%Z) ∧
  (∀ n a, attempt_of db (Delivery.id d) n a → DeliveryAttempt.status a ≠ ATTEMPT_IN_PROGRESS).

Section reserve.
Context (w : Worker) (env : ClaimEnv) (endpoint : Endpoint) (db : Db) (d : Delivery) (event : Event) (us : Z)
  (payload : list (pystr * json)).
Context (Hw : worker_ok w) (Hok : db_ok db) (Hd : deliveries db !! Delivery.id d = Some d).
Context (Hactive : active (Delivery.status d) = true) (Hsettled : settled db d).
Context (Hevent : events db !! Delivery.event_id d = Some event) (Hpayload : Event.payload event = JDict payload).
Context (Hcount : (0 ≤ Delivery.attempt_count d < 100)%Z).
Context (Hlease : timedelta_us (worker_lease_seconds (settings w)) = Ok us)
  (Hexpires : datetime_add (ce_now env) us = Ok (ce_now env + us)%Z).
Context (Hattempt : attempts db !! ce_attempt_id env = None).
Context (Htoken : ∀ n a, attempt_of db (Delivery.id d) n a → DeliveryAttempt.lease_token a ≠ ce_lease_token env).

Let d' := leased w (ce_lease_token env) (ce_now env + us)%Z (ce_now env) d.
Let a := reserved (ce_attempt_id env) (ce_lease_token env) (ce_now env) d'.
Let db1 := set_deliveries (<[Delivery.id d := d']> (deliveries db)) db.
Let db2 := set_attempts (<[ce_attempt_id env := a]> (attempts db1)) db1.

Lemma leased_types : Delivery.types d' = true.
Proof.
  destruct (ok_delivery_row db Hok _ d Hd) as [Ht _]. apply row_types in Ht as (Hg & Hk & _ & _ & He).
  apply row_types. simpl. split_and!; try done; [|apply Hw]. unfold int4.
  apply andb_true_iff. rewrite !Z.leb_le. lia.
Qed.

Lemma leased_constraints : violated (delivery_constraints db d') = None.
Proof.
  apply (update_constraints db Hok d d'); try done.
  destruct (ok_delivery_row db Hok _ d Hd) as [_ Hc]. apply row_checks in Hc as (Hg & Hm & Hk & _).
  apply row_checks. simpl. split_and!; try done. lia.
Qed.

Lemma leased_ok : db_ok db1.
Proof. apply (set_delivery_ok db d' Hok leased_types leased_constraints). Qed.

Lemma reserved_constraints : violated (attempt_constraints db1 a) = None.
Proof.
  apply attempt_constraints_None. split_and!.
  - apply violated_None. unfold DeliveryAttempt.checks. rewrite !Forall_cons, Forall_nil. simpl.
    split_and!; try done. apply Z.leb_le. lia.
  - simpl. rewrite lookup_insert_eq. eauto.
  - intros k r Hr. right. intros (Ek & Hc). simpl in Ek, Hc.
    assert (Hat : attempt_of db (Delivery.id d) (DeliveryAttempt.attempt_number r) r).
    { split_and!; [|done|done]. by rewrite (ok_attempt_key db Hok k r Hr : DeliveryAttempt.id r = k). }
    destruct Hsettled as [Hnum Hres]. destruct Hc as [En|[Et|[_ Es]]].
    + assert (1 ≤ DeliveryAttempt.attempt_number r ≤ Delivery.attempt_count d)%Z by (apply Hnum; eauto). lia.
    + by apply (Htoken _ r Hat).
    + by apply (Hres _ r Hat).
Qed.

Lemma reserved_ok : db_ok db2.
Proof.
  apply (set_attempt_ok db1 a leased_ok); [|apply reserved_constraints].
  unfold DeliveryAttempt.types. simpl. unfold int4. rewrite !andb_true_r. apply andb_true_iff.
  rewrite !Z.leb_le. lia.
Qed.

Lemma reserve_run :
  reserve_attempt w env endpoint d db =
  Ok (webhook_of event endpoint d' (ce_attempt_id env) (ce_lease_token env) (dict_get payload (lit "run_id")), db2).
Proof.
  unfold reserve_attempt. erewrite tx_bind_Ok by (unfold lift; by rewrite Hlease). cbv beta iota.
  erewrite tx_bind_Ok by (unfold lift; by rewrite Hexpires). cbv beta zeta iota.
  erewrite tx_bind_Ok by done. cbv beta. rewrite Hevent.
  erewrite tx_bind_Ok by (apply update_delivery_run; [by exists d|apply leased_types|apply leased_constraints]).
  erewrite tx_bind_Ok.
  2: { apply insert_attempt_run; [done| |apply reserved_constraints].
       destruct (ok_attempt_row db2 reserved_ok (ce_attempt_id env) a) as [Ht _]; [|done].
       simpl. by rewrite lookup_insert_eq. }
  erewrite tx_bind_Ok by (unfold lift, payload_get; by rewrite Hpayload). done.
Qed.

Lemma reserve_attempt_of k n r :
  attempt_of db2 k n r ↔
  (r = a ∧ k = Delivery.id d ∧ n = (Delivery.attempt_count d + 1)%Z) ∨ attempt_of db k n r.
Proof.
  unfold attempt_of. simpl. split.
  - intros (Hr & Ek & En). apply lookup_insert_Some in Hr as [[_ <-]|[_ Hr]]; [left; by simpl in *|right; done].
  - intros [(-> & -> & ->)|(Hr & Ek & En)]; [by rewrite lookup_insert_eq|].
    rewrite lookup_insert_ne; [done|]. intros E. rewrite <- E in Hr. congruence.
Qed.

Lemma reserve_progress : progress_inv db2 d'.
Proof.
  destruct Hsettled as [Hnum Hres].
  assert (Ha : attempt_of db2 (Delivery.id d') (Delivery.attempt_count d') a) by (apply reserve_attempt_of; by left).
  split; try done.
  - intros n. setoid_rewrite reserve_attempt_of. simpl. split.
    + intros [r [(_ & _ & ->)|Hr]]; [lia|].
      assert (1 ≤ n ≤ Delivery.attempt_count d)%Z by (apply Hnum; eauto). lia.
    + intros Hn. destruct (decide (n = Delivery.attempt_count d + 1)%Z) as [->|Hne]; [exists a; by left|].
      destruct (proj2 (Hnum n)) as [r Hr]; [lia|]. exists r. by right.
  - intros _. by exists a.
  - intros n r [(-> & _ & ->)|Hr]%reserve_attempt_of Hs; [done|]. by destruct (Hres n r Hr).
  - simpl. split; [by intros [? ?]|by intros [?|?]].
Qed.
End reserve.

(** ** Rewriting a delivery together with its current attempt *)

(** The database after the flush of a delivery and of one of its attempts. *)
Definition rewrite_db (d : Delivery) (a : DeliveryAttempt) (db : Db) : Db :=
  set_attempts (<[DeliveryAttempt.id a := a]> (attempts db))
    (set_deliveries (<[Delivery.id d := d]> (deliveries db)) db).

Section resolve.
Context (db : Db) (d d' : Delivery) (a a' : DeliveryAttempt).
Context (Hok : db_ok db) (Hd : deliveries db !! Delivery.id d = Some d).
Context (Hnum : ∀ n, (∃ a, attempt_of db (Delivery.id d) n a) ↔ (1 ≤ n ≤ Delivery.attempt_count d)%Z).
Context (Hres : ∀ n a, attempt_of db (Delivery.id d) n a → DeliveryAttempt.status a = ATTEMPT_IN_PROGRESS →
  n = Delivery.attempt_count d).
Context (Ha : attempt_of db (Delivery.id d) (Delivery.attempt_count d) a).
Context (Hid : Delivery.id d' = Delivery.id d) (Hev : Delivery.event_id d' = Delivery.event_id d)
  (Hep : Delivery.endpoint_id d' = Delivery.endpoint_id d)
  (Hgen : Delivery.replay_generation d' = Delivery.replay_generation d)
  (Hsrc : Delivery.replayed_from_delivery_id d' = Delivery.replayed_from_delivery_id d)
  (Hkey : Delivery.replay_idempotency_key d' = Delivery.replay_idempotency_key d)
  (Hcnt : Delivery.attempt_count d' = Delivery.attempt_count d)
  (Hact : active (Delivery.status d) = true).
Context (Htypes : Delivery.types d' = true) (Hchecks : violated (Delivery.checks d') = None).
Context (Hid' : DeliveryAttempt.id a' = DeliveryAttempt.id a)
  (Hdel' : DeliveryAttempt.delivery_id a' = DeliveryAttempt.delivery_id a)
  (Hnum' : DeliveryAttempt.attempt_number a' = DeliveryAttempt.attempt_number a)
  (Htok' : DeliveryAttempt.lease_token a' = DeliveryAttempt.lease_token a)
  (Hst' : DeliveryAttempt.status a' ≠ ATTEMPT_IN_PROGRESS).
Context (Htypes' : DeliveryAttempt.types a' = true) (Hchecks' : violated (DeliveryAttempt.checks a') = None).

Let db1 := set_deliveries (<[Delivery.id d' := d']> (deliveries db)) db.

Lemma resolve_constraints : violated (delivery_constraints db d') = None.
Proof. by apply (update_constraints db Hok d d'). Qed.

Lemma resolve_ok1 : db_ok db1.
Proof. apply (set_delivery_ok db d' Hok Htypes resolve_constraints). Qed.

Lemma resolve_constraints' : violated (attempt_constraints db1 a') = None.
Proof. destruct Ha as (Hl & _). by apply (update_attempt_constraints db1 resolve_ok1 a a'). Qed.

Lemma resolve_ok : db_ok (rewrite_db d' a' db).
Proof. apply (set_attempt_ok db1 a' resolve_ok1 Htypes' resolve_constraints'). Qed.

Lemma resolve_run {A} (x : A) :
  (_ ← update_delivery d'; (_ ← update_attempt a'; mret x)) db = Ok (x, rewrite_db d' a' db).
Proof.
  destruct Ha as (Hl & _).
  erewrite tx_bind_Ok by (apply update_delivery_run; [rewrite Hid; eauto|done|apply resolve_constraints]).
  erewrite tx_bind_Ok by (apply update_attempt_run; [rewrite Hid'; simpl; eauto|done|apply resolve_constraints']).
  done.
Qed.

Lemma resolve_attempt_of k n r :
  attempt_of (rewrite_db d' a' db) k n r ↔
  (r = a' ∧ k = Delivery.id d ∧ n = Delivery.attempt_count d) ∨
  (attempt_of db k n r ∧ r ≠ a' ∧ DeliveryAttempt.id r ≠ DeliveryAttempt.id a).
Proof.
  destruct Ha as (Hl & Hk & Hn). unfold attempt_of. simpl. rewrite Hid'. split.
  - intros (Hr & Ek & En). apply lookup_insert_Some in Hr as [[_ <-]|[Hne Hr]].
    + left. split_and!; [done|congruence|congruence].
    + right. split_and!; try done. intros ->. by rewrite Hid' in Hne.
  - intros [(-> & -> & ->)|((Hr & Ek & En) & _ & Hne)].
    + split_and!; [by rewrite Hid', lookup_insert_eq|congruence|congruence].
    + by rewrite lookup_insert_ne.
Qed.

Lemma resolve_numbers n :
  (∃ r, attempt_of (rewrite_db d' a' db) (Delivery.id d') n r) ↔ (1 ≤ n ≤ Delivery.attempt_count d')%Z.
Proof.
  rewrite Hid, Hcnt, <- Hnum. setoid_rewrite resolve_attempt_of. split.
  - intros [r [(_ & _ & ->)|(Hr & _)]]; eauto.
  - intros [r Hr]. destruct (decide (DeliveryAttempt.id r = DeliveryAttempt.id a)) as [E|Hne].
    + exists a'. left. destruct Hr as (Hl1 & Ek1 & En1), Ha as (Hl2 & _ & En2).
      rewrite E in Hl1. split_and!; [done|done|congruence].
    + exists r. right. split_and!; [done| |done]. intros ->. by rewrite Hid' in Hne.
Qed.

Lemma resolve_settled : settled (rewrite_db d' a' db) d'.
Proof.
  split; [apply resolve_numbers|]. intros n r [(-> & _ & _)|(Hr & _ & Hne)]%resolve_attempt_of; [done|].
  intros Hs. rewrite Hid in Hr. pose proof (Hres n r Hr Hs) as ->.
  by rewrite (attempt_of_unique db Hok _ _ _ _ Hr Ha) in Hne.
Qed.

Lemma resolve_other r :
  DeliveryAttempt.delivery_id r ≠ Delivery.id d →
  attempts (rewrite_db d' a' db) !! DeliveryAttempt.id r = Some r ↔ attempts db !! DeliveryAttempt.id r = Some r.
Proof.
  intros Hne. destruct Ha as (Hl & Hk & _). simpl. rewrite Hid'. split.
  - intros [[E <-]|[_ Hr]]%lookup_insert_Some; [congruence|done].
  - intros Hr. rewrite lookup_insert_ne; [done|]. intros E. rewrite <- E in Hr. congruence.
Qed.
End resolve.

(** ** The specification of a claim *)

(** The delivery a claim takes: claimable, and the earliest of the claimable ones. *)
Definition picked (env : ClaimEnv) (db : Db) (d : Delivery) : Prop :=
  deliveries db !! Delivery.id d = Some d ∧ claimable env db d ∧
  ∀ k r, deliveries db !! k = Some r → claimable env db r → key_le (claim_key d) (claim_key r).

Lemma pick_run env db :
  db_ok db →
  (∃ d, picked env db d ∧ one_or_none (λ db, take 1 (claim_candidates env db)) db = Ok (Some d, db)) ∨
  ((∀ k d, deliveries db !! k = Some d → ¬ claimable env db d) ∧
   one_or_none (λ db, take 1 (claim_candidates env db)) db = Ok (None, db)).
Proof.
  intros Hok. unfold one_or_none, claim_candidates.
  destruct (order_by key_le claim_key _) as [|d l] eqn:El; simpl.
  - right. split; [|done]. intros k d Hd Hc.
    assert (Hin : d ∈ select (claimable env db) (deliveries db)) by (apply elem_of_select; eauto).
    apply (elem_of_order_by key_le claim_key) in Hin. rewrite El in Hin. by apply elem_of_nil in Hin.
  - left. exists d. split; [|done]. apply order_by_head_min in El as [Hin Hmin]; [|apply _..].
    apply elem_of_select in Hin as [Hc [k Hk]]. split_and!; [|done|].
    + by rewrite (delivery_id_of db Hok k d Hk).
    + intros k' r Hr Hcr. destruct (Hmin r) as [->|Hle]; [apply elem_of_select; eauto|reflexivity|done].
Qed.

Definition reserved_db (w : Worker) (env : ClaimEnv) (us : Z) (d : Delivery) (db : Db) : Db :=
  let d' := leased w (ce_lease_token env) (ce_now env + us)%Z (ce_now env) d in
  set_attempts (<[ce_attempt_id env := reserved (ce_attempt_id env) (ce_lease_token env) (ce_now env) d']> (attempts db))
    (set_deliveries (<[Delivery.id d := d']> (deliveries db)) db).

Definition claim_webhook (w : Worker) (env : ClaimEnv) (us : Z) (event : Event) (endpoint : Endpoint) (d : Delivery)
  (payload : list (pystr * json)) : OutboundWebhook :=
  webhook_of event endpoint (leased w (ce_lease_token env) (ce_now env + us)%Z (ce_now env) d)
    (ce_attempt_id env) (ce_lease_token env) (dict_get payload (lit "run_id")).

Inductive claim_spec (w : Worker) (env : ClaimEnv) (db : Db) : outcome (option Claim) * Db → Prop :=
| cs_idle :
    (∀ k d, deliveries db !! k = Some d → ¬ claimable env db d) → claim_spec w env db (Ok None, db)
| cs_drop d endpoint reason :
    picked env db d → Delivery.status d ≠ IN_PROGRESS →
    endpoints db !! Delivery.endpoint_id d = Some endpoint →
    Endpoint.enabled endpoint = false ∨ (max_attempts (retry_policy w) ≤ Delivery.attempt_count d)%Z →
    _unclaimable_due_reason w d (Endpoint.enabled endpoint) = Ok (Some reason) →
    claim_spec w env db
      (Ok (Some (Resolution (mkDeliveryResolution (Delivery.id d) reason))),
       set_deliveries (<[Delivery.id d :=
         Delivery.set_last_error (Some (take 2048 reason)) (dead_letter (ce_now env) d)]> (deliveries db)) db)
| cs_claim d endpoint event payload us :
    picked env db d → Delivery.status d ≠ IN_PROGRESS →
    endpoints db !! Delivery.endpoint_id d = Some endpoint → Endpoint.enabled endpoint = true →
    (Delivery.attempt_count d < max_attempts (retry_policy w))%Z →
    events db !! Delivery.event_id d = Some event → Event.payload event = JDict payload →
    timedelta_us (worker_lease_seconds (settings w)) = Ok us →
    claim_spec w env db
      (Ok (Some (Outbound (claim_webhook w env us event endpoint d payload))), reserved_db w env us d db)
| cs_expire_drop d endpoint a reason :
    picked env db d → Delivery.status d = IN_PROGRESS →
    endpoints db !! Delivery.endpoint_id d = Some endpoint →
    Endpoint.enabled endpoint = false ∨ (max_attempts (retry_policy w) ≤ Delivery.attempt_count d)%Z →
    attempts db !! DeliveryAttempt.id a = Some a → lease_attempt d a →
    claim_spec w env db
      (Ok (Some (Resolution (mkDeliveryResolution (Delivery.id d) reason))),
       rewrite_db (dead_letter (ce_now env) (lease_expired reason d)) (indeterminate reason (ce_now env) a) db)
| cs_expire_claim d endpoint a event payload us reason :
    picked env db d → Delivery.status d = IN_PROGRESS →
    endpoints db !! Delivery.endpoint_id d = Some endpoint → Endpoint.enabled endpoint = true →
    (Delivery.attempt_count d < max_attempts (retry_policy w))%Z →
    attempts db !! DeliveryAttempt.id a = Some a → lease_attempt d a →
    events db !! Delivery.event_id d = Some event → Event.payload event = JDict payload →
    timedelta_us (worker_lease_seconds (settings w)) = Ok us →
    let flushed := Delivery.set_updated_at (ce_func_now env) (lease_expired reason d) in
    claim_spec w env db
      (Ok (Some (Outbound (claim_webhook w env us event endpoint flushed payload))),
       reserved_db w env us flushed (rewrite_db flushed (indeterminate reason (ce_now env) a) db)).

Lemma text_take n s : text s = true → text (take n s) = true.
Proof.
  unfold text. rewrite !forallb_forall. intros Hs c Hc. apply Hs.
  apply list_elem_of_In. apply list_elem_of_In in Hc. by eapply subseteq_take.
Qed.

Lemma text_app s t : text (s ++ t) = text s && text t.
Proof. apply forallb_app. Qed.

Lemma digits_text c : (0 ≤ c)%Z → text (lit "HTTP " ++ str_of_Z c) = true.
Proof.
  intros Hc. rewrite text_app. apply andb_true_iff. split; [done|].
  unfold text. apply forallb_forall. intros x Hx. apply list_elem_of_In in Hx.
  pose proof (str_of_Z_digits c Hc) as Hd. rewrite Forall_forall in Hd. apply Hd in Hx.
  apply digit_range in Hx. unfold is_surrogate, in_range.
  rewrite andb_true_iff, !negb_true_iff, andb_false_iff, N.eqb_neq, !N.leb_gt. lia.
Qed.

Section claim.
Context (w : Worker) (env : ClaimEnv) (db : Db).
Context (Hw : worker_ok w) (Hinv : inv db) (Hnow : near (ce_now env)).
Context (Hattempt : attempts db !! ce_attempt_id env = None).
Context (Htoken : ∀ k a, attempts db !! k = Some a → DeliveryAttempt.lease_token a ≠ ce_lease_token env).
Let Hok : db_ok db := inv_ok db Hinv.

Lemma claimable_active d : claimable env db d → active (Delivery.status d) = true.
Proof.
  intros (Hd & _). unfold due in Hd. apply orb_true_iff in Hd as [Hd|Hd]; bool_simpl.
  - rewrite !elem_of_cons, elem_of_nil in H. by destruct H as [->|[->|?]].
  - by rewrite H.
Qed.

Lemma count_nonneg k d : deliveries db !! k = Some d → (0 ≤ Delivery.attempt_count d)%Z.
Proof. intros Hd. destruct (ok_delivery_row db Hok k d Hd) as [_ Hc]. apply row_checks in Hc. tauto. Qed.

Lemma remaining_run d k :
  deliveries db !! k = Some d →
  has_attempt_remaining (retry_policy w) (Delivery.attempt_count d) =
    Ok (Delivery.attempt_count d <? max_attempts (retry_policy w))%Z.
Proof. intros Hd. apply has_attempt_remaining_Ok. by eapply count_nonneg. Qed.

Lemma event_of k d :
  deliveries db !! k = Some d →
  ∃ event payload, events db !! Delivery.event_id d = Some event ∧ Event.payload event = JDict payload.
Proof.
  intros Hd. destruct (ok_delivery_event db Hok k d Hd) as [event He].
  destruct (ei_payload db event (inv_event db Hinv _ event He)) as [_ [payload Hp]]. eauto.
Qed.

Lemma fresh_token k n a :
  attempt_of db k n a → DeliveryAttempt.lease_token a ≠ ce_lease_token env.
Proof. intros (Ha & _). by eapply Htoken. Qed.

(** ** Dead-lettering due work *)

Section drop.
Context (d : Delivery) (reason : pystr).
Context (Hd : deliveries db !! Delivery.id d = Some d) (Hact : active (Delivery.status d) = true)
  (Hst : Delivery.status d ≠ IN_PROGRESS) (Hreason : text reason = true).
Let d' := Delivery.set_last_error (Some (take 2048 reason)) (dead_letter (ce_now env) d).
Let db' := set_deliveries (<[Delivery.id d := d']> (deliveries db)) db.

Lemma dead_types : Delivery.types d' = true.
Proof.
  destruct (ok_delivery_row db Hok _ d Hd) as [Ht _]. apply row_types in Ht as (? & ? & ? & _ & _).
  apply row_types. split_and!; try done. by apply text_take.
Qed.

Lemma dead_constraints : violated (delivery_constraints db d') = None.
Proof.
  apply (update_constraints db Hok d d'); try done.
  destruct (ok_delivery_row db Hok _ d Hd) as [_ Hc]. apply row_checks in Hc as (? & ? & ? & ? & _).
  apply row_checks. split_and!; done.
Qed.

Lemma drop_run : _dead_letter_without_attempt d reason (ce_now env) db = Ok (mkDeliveryResolution (Delivery.id d) reason, db').
Proof.
  unfold _dead_letter_without_attempt.
  erewrite tx_bind_Ok by (unfold lift; by destruct (Delivery.status d)).
  by erewrite tx_bind_Ok by (apply update_delivery_run; [by exists d|apply dead_types|apply dead_constraints]).
Qed.

Lemma drop_inv : inv db'.
Proof.
  apply (update_inv db db' d d' Hinv); try done.
  { apply (set_delivery_ok db d' Hok dead_types dead_constraints). }
  destruct (inv_progress db Hinv _ d Hd) as [Hnum Hev Hres Hsch Hpend Hdel Hret].
  split; try done.
  - intros n a Ha Hs. by destruct (Hres n a Ha Hs).
  - split; [by intros [? ?]|by intros [?|?]].
Qed.
End drop.

(** ** The lease of an expired attempt *)

Lemma evidence_run d :
  deliveries db !! Delivery.id d = Some d → Delivery.status d = IN_PROGRESS →
  ∃ a, attempts db !! DeliveryAttempt.id a = Some a ∧ lease_attempt d a ∧
    one_or_none (λ db, select (lease_attempt d) (attempts db)) db = Ok (Some a, db).
Proof.
  intros Hd Hst. destruct (pi_evidence db d (inv_progress db Hinv _ d Hd) Hst) as (a & Ha & Has & Ht).
  pose proof Ha as (Hl & Hk & Hn).
  assert (Hla : lease_attempt d a) by (by repeat split).
  exists a. split_and!; [done|done|].
  assert (Hr : reads (one_or_none (λ db, select (lease_attempt d) (attempts db))) db (λ o, o = Some a)).
  { apply wp_reads, (wp_find (lease_attempt d) attempts); [apply Hok| | |].
    - intros k k' r r' Hr Hr' (E1 & E2 & _) (E3 & E4 & _).
      apply (ok_attempt_unique db Hok k k' r r' Hr Hr'). split; [congruence|left; congruence].
    - intros r (E1 & E2 & _) Hr. split; [done|]. f_equal.
      by apply (attempt_of_unique db Hok (Delivery.id d) (Delivery.attempt_count d) r a).
    - intros Hn'. by destruct (Hn' _ _ Hl). }
  by destruct Hr as (o & -> & ->).
Qed.

Lemma indeterminate_ok reason a :
  attempts db !! DeliveryAttempt.id a = Some a → DeliveryAttempt.status a = ATTEMPT_IN_PROGRESS →
  text reason = true →
  DeliveryAttempt.types (indeterminate reason (ce_now env) a) = true ∧
  violated (DeliveryAttempt.checks (indeterminate reason (ce_now env) a)) = None.
Proof.
  intros Ha Hs Hr. destruct (ok_attempt_row db Hok _ a Ha) as [Ht Hc]. split.
  - apply attempt_types in Ht as (? & ? & _ & _ & ? & ? & ?). apply attempt_types. split_and!; try done.
    apply text_take. by rewrite text_app, Hr.
  - apply violated_None in Hc. unfold DeliveryAttempt.checks in Hc. rewrite !Forall_cons in Hc. cbn [snd] in Hc.
    destruct Hc as (H1 & H2 & H3 & H4 & H5 & H6 & _).
    apply violated_None. unfold DeliveryAttempt.checks. rewrite !Forall_cons, Forall_nil. cbn [snd].
    unfold DeliveryAttempt.lifecycle_in_progress, DeliveryAttempt.lifecycle_completed, DeliveryAttempt.lifecycle_indeterminate in *. rewrite Hs in H6. simpl in *.
    rewrite ?orb_false_r, !andb_true_iff in H6. destruct_and!.
    repeat match goal with H : is_null _ = true |- _ => rewrite H end. split_and!; done.
Qed.

(** ** A plain claim *)

Section plain.
Context (d : Delivery) (event : Event) (payload : list (pystr * json)) (us : Z).
Context (Hd : deliveries db !! Delivery.id d = Some d) (Hact : active (Delivery.status d) = true)
  (Hst : Delivery.status d ≠ IN_PROGRESS).

Lemma plain_settled : settled db d.
Proof.
  destruct (inv_progress db Hinv _ d Hd) as [Hnum _ Hres _ _ _ _]. split; [done|].
  intros n a Ha Hs. by destruct (Hres n a Ha Hs).
Qed.

Lemma plain_inv :
  timedelta_us (worker_lease_seconds (settings w)) = Ok us →
  (Delivery.attempt_count d < max_attempts (retry_policy w))%Z →
  events db !! Delivery.event_id d = Some event → Event.payload event = JDict payload →
  inv (reserved_db w env us d db).
Proof.
  intros Hus Hmax He Hp. pose proof (worker_max w Hw) as Hm. pose proof (count_nonneg _ d Hd).
  apply (update_inv db (reserved_db w env us d db) d
    (leased w (ce_lease_token env) (ce_now env + us)%Z (ce_now env) d) Hinv); try done.
  - apply (reserved_ok w env db d us); try done; [apply plain_settled|lia|apply fresh_token].
  - intros a Hne. simpl. split.
    + intros [[E <-]|[_ Ha]]%lookup_insert_Some; [by simpl in Hne|done].
    + intros Ha. rewrite lookup_insert_ne; [done|]. intros E. rewrite <- E in Ha. congruence.
  - apply (reserve_progress w env db d us); try done; [apply plain_settled|lia].
Qed.
End plain.

(** ** An expired lease *)

Section expire.
Context (d : Delivery) (a : DeliveryAttempt) (reason : pystr) (func_now : datetime).
Context (Hd : deliveries db !! Delivery.id d = Some d) (Hst : Delivery.status d = IN_PROGRESS)
  (Ha : attempts db !! DeliveryAttempt.id a = Some a) (Hla : lease_attempt d a) (Hreason : text reason = true).
Let a' := indeterminate reason (ce_now env) a.
Let dropped := dead_letter (ce_now env) (lease_expired reason d).
Let flushed := Delivery.set_updated_at func_now (lease_expired reason d).

Lemma expire_attempt_of : attempt_of db (Delivery.id d) (Delivery.attempt_count d) a.
Proof. destruct Hla as (E1 & E2 & _). done. Qed.

Lemma expire_attempt_ok :
  DeliveryAttempt.types a' = true ∧ violated (DeliveryAttempt.checks a') = None.
Proof. apply indeterminate_ok; [done|apply Hla|done]. Qed.

Lemma expire_active : active (Delivery.status d) = true.
Proof. by rewrite Hst. Qed.

Lemma expire_resolved n r :
  attempt_of db (Delivery.id d) n r → DeliveryAttempt.status r = ATTEMPT_IN_PROGRESS → n = Delivery.attempt_count d.
Proof. intros Hr Hs. by apply (pi_resolved db d (inv_progress db Hinv _ d Hd) n r). Qed.

Lemma expire_types :
  (Delivery.types dropped = true ∧ violated (Delivery.checks dropped) = None) ∧
  (Delivery.types flushed = true ∧ violated (Delivery.checks flushed) = None).
Proof.
  destruct (ok_delivery_row db Hok _ d Hd) as [Ht Hc].
  apply row_types in Ht as (? & ? & ? & ? & _). apply row_checks in Hc as (? & ? & ? & ? & ? & ? & ?).
  assert (text (take 2048 (lit "lease_expired: " ++ reason)) = true) by (by apply text_take; rewrite text_app, Hreason).
  rewrite !row_types, !row_checks. destruct_and!. split_and!; done.
Qed.

Lemma dropped_run {A} (x : A) :
  (_ ← update_delivery dropped; (_ ← update_attempt a'; mret x)) db = Ok (x, rewrite_db dropped a' db).
Proof.
  destruct expire_types as [[? ?] _], expire_attempt_ok as [? ?].
  apply (resolve_run db d dropped a a'); try done; [apply expire_attempt_of|apply expire_active].
Qed.

Lemma flushed_run {A} (x : A) :
  (_ ← update_delivery flushed; (_ ← update_attempt a'; mret x)) db = Ok (x, rewrite_db flushed a' db).
Proof.
  destruct expire_types as [_ [? ?]], expire_attempt_ok as [? ?].
  apply (resolve_run db d flushed a a'); try done; [apply expire_attempt_of|apply expire_active].
Qed.

Lemma dropped_inv : inv (rewrite_db dropped a' db).
Proof.
  destruct expire_types as [[? ?] _], expire_attempt_ok as [? ?].
  pose proof (pi_numbers db d (inv_progress db Hinv _ d Hd)) as Hnum.
  assert (Hset : settled (rewrite_db dropped a' db) dropped)
    by (apply (resolve_settled db d dropped a a'); done || apply expire_attempt_of || apply expire_resolved).
  apply (update_inv db (rewrite_db dropped a' db) d dropped Hinv); try done.
  - apply expire_active.
  - apply (resolve_ok db d dropped a a'); try done; [apply expire_attempt_of|apply expire_active].
  - intros r. by apply (resolve_other db d dropped a a' expire_attempt_of).
  - destruct Hset as [Hn Hr]. split; try done.
    + intros n r Har Hs. by destruct (Hr n r Har).
    + split; [by intros [? ?]|by intros [?|?]].
Qed.

Lemma flushed_ok : db_ok (rewrite_db flushed a' db).
Proof.
  destruct expire_types as [_ [? ?]], expire_attempt_ok as [? ?].
  apply (resolve_ok db d flushed a a'); try done; [apply expire_attempt_of|apply expire_active].
Qed.

Lemma flushed_settled : settled (rewrite_db flushed a' db) flushed.
Proof.
  pose proof (pi_numbers db d (inv_progress db Hinv _ d Hd)) as Hnum.
  apply (resolve_settled db d flushed a a'); done || apply expire_attempt_of || apply expire_resolved.
Qed.

Lemma flushed_fresh_attempt : attempts (rewrite_db flushed a' db) !! ce_attempt_id env = None.
Proof. simpl. rewrite lookup_insert_ne; [done|]. intros E. congruence. Qed.

Lemma flushed_fresh_token n r :
  attempt_of (rewrite_db flushed a' db) (Delivery.id flushed) n r → DeliveryAttempt.lease_token r ≠ ce_lease_token env.
Proof.
  intros (Hr & _). simpl in Hr. apply lookup_insert_Some in Hr as [[_ <-]|[_ Hr]]; [by apply (Htoken _ a Ha)|].
  by apply (Htoken _ r Hr).
Qed.

Lemma flushed_lookup : deliveries (rewrite_db flushed a' db) !! Delivery.id flushed = Some flushed.
Proof. simpl. by rewrite lookup_insert_eq. Qed.

Lemma flushed_inv us event payload :
  timedelta_us (worker_lease_seconds (settings w)) = Ok us →
  (Delivery.attempt_count d < max_attempts (retry_policy w))%Z →
  events db !! Delivery.event_id d = Some event → Event.payload event = JDict payload →
  inv (reserved_db w env us flushed (rewrite_db flushed a' db)).
Proof.
  intros Hus Hmax He Hp. pose proof (worker_max w Hw) as Hm. pose proof (count_nonneg _ d Hd).
  apply (update_inv db _ d (leased w (ce_lease_token env) (ce_now env + us)%Z (ce_now env) flushed) Hinv); try done.
  - apply expire_active.
  - apply (reserved_ok w env _ flushed us); try done;
      [apply flushed_ok|apply flushed_lookup|apply expire_active|apply flushed_settled|simpl; lia|apply flushed_fresh_token].
  - simpl. by rewrite insert_insert_eq.
  - intros r Hne. simpl. split.
    + intros [[E <-]|[_ Hr]]%lookup_insert_Some; [by simpl in Hne|].
      by apply (resolve_other db d flushed a a' expire_attempt_of).
    + intros Hr. rewrite lookup_insert_ne; [by apply (resolve_other db d flushed a a' expire_attempt_of)|].
      intros E. rewrite <- E in Hr. congruence.
  - apply (reserve_progress w env _ flushed us); try done; [apply flushed_settled|simpl; lia|apply flushed_fresh_attempt].
Qed.
End expire.

(** ** The code implements the specification *)

Lemma expired_reason_text enabled exhausted : text (expired_reason enabled exhausted) = true.
Proof. by destruct enabled, exhausted. Qed.

Lemma due_reason_text d e reason :
  _unclaimable_due_reason w d e = Ok (Some reason) → text reason = true.
Proof.
  unfold _unclaimable_due_reason. intros (r & _ & [= H])%outcome_bind_Ok.
  destruct e, r; simpl in H; simplify_eq; done.
Qed.

Lemma reserve_ok d endpoint event payload us :
  deliveries db !! Delivery.id d = Some d → active (Delivery.status d) = true → Delivery.status d ≠ IN_PROGRESS →
  (Delivery.attempt_count d < max_attempts (retry_policy w))%Z →
  events db !! Delivery.event_id d = Some event → Event.payload event = JDict payload →
  timedelta_us (worker_lease_seconds (settings w)) = Ok us → datetime_add (ce_now env) us = Ok (ce_now env + us)%Z →
  reserve_attempt w env endpoint d db =
    Ok (claim_webhook w env us event endpoint d payload, reserved_db w env us d db).
Proof.
  intros Hd Hact Hst Hmax He Hp Hus Hexp. pose proof (worker_max w Hw). pose proof (count_nonneg _ d Hd).
  apply (reserve_run w env endpoint db d event us payload); try done;
    [by apply plain_settled|lia|apply fresh_token].
Qed.

Lemma claim_refines :
  let r := run_tx (claim_one w env) db in claim_spec w env db r ∧ inv r.2.
Proof.
  cbv zeta. unfold run_tx, claim_one.
  destruct (pick_run env db Hok) as [(d & Hpick & E)|[Hn E]]; erewrite tx_bind_Ok by exact E; cbv beta iota;
    [|by split; [apply cs_idle|]].
  pose proof Hpick as (Hd & Hc & _). pose proof (claimable_active d Hc) as Hact.
  destruct (lease_time w (ce_now env) Hw Hnow) as (us & Hus & _ & Hexp).
  destruct (event_of _ d Hd) as (event & payload & He & Hp).
  erewrite tx_bind_Ok by done. cbv beta.
  destruct Hc as (_ & [endpoint Hep] & _). rewrite Hep.
  destruct (bool_decide (Delivery.status d = IN_PROGRESS)) eqn:Hst; bool_simpl.
  - destruct (evidence_run d Hd Hst) as (a & Ha & Hla & Erun).
    unfold _resolve_expired_attempt.
    set (reason := expired_reason (Endpoint.enabled endpoint)
           (negb (Delivery.attempt_count d <? max_attempts (retry_policy w))%Z)).
    assert (Hr : text reason = true) by apply expired_reason_text.
    destruct (Endpoint.enabled endpoint && negb (negb (Delivery.attempt_count d <? max_attempts (retry_policy w))%Z)) eqn:Hgo.
    + erewrite tx_bind_Ok.
      2: { erewrite tx_bind_Ok by exact Erun. cbv beta iota.
           erewrite tx_bind_Ok by (unfold lift; by rewrite (remaining_run d _ Hd)). cbv beta zeta.
           rewrite Hgo. 
           by apply (flushed_run d a reason (ce_func_now env) Hd Hst Ha Hla Hr). }
      cbv beta iota. bool_simpl.
      pose proof (worker_max w Hw). pose proof (count_nonneg _ d Hd).
      erewrite tx_bind_Ok.
      2: { apply (reserve_run w env endpoint _ (Delivery.set_updated_at (ce_func_now env) (lease_expired reason d)) event us payload); try done.
           - by apply flushed_ok. - by apply flushed_lookup. - by apply flushed_settled.
           - simpl. lia. - by apply flushed_fresh_attempt. - by apply flushed_fresh_token. }
      split; [by apply cs_expire_claim|]. by apply (flushed_inv d a reason (ce_func_now env) Hd Hst Ha Hla Hr us event payload).
    + erewrite tx_bind_Ok.
      2: { erewrite tx_bind_Ok by exact Erun. cbv beta iota.
           erewrite tx_bind_Ok by (unfold lift; by rewrite (remaining_run d _ Hd)). cbv beta zeta.
           rewrite Hgo. erewrite tx_bind_Ok by (unfold lift; by rewrite Hst).
           by apply (dropped_run d a reason (ce_func_now env) Hd Hst Ha Hla Hr). }
      split; [|by apply (dropped_inv d a reason (ce_func_now env) Hd Hst Ha Hla Hr)].
      apply (cs_expire_drop w env db d endpoint a reason); try done.
      destruct (Endpoint.enabled endpoint); [right|by left]. simpl in Hgo. rewrite negb_involutive in Hgo. by bool_simpl.
  - destruct (_unclaimable_due_reason w d (Endpoint.enabled endpoint)) as [[reason|]|e] eqn:Hreason.
    + erewrite tx_bind_Ok by done. cbv beta iota.
      pose proof (due_reason_text _ _ _ Hreason) as Hr.
      erewrite tx_bind_Ok by (by apply (drop_run d reason)).
      split; [|by apply (drop_inv d reason)]. apply (cs_drop w env db d endpoint reason); try done.
      unfold _unclaimable_due_reason in Hreason. rewrite (remaining_run d _ Hd) in Hreason. simpl in Hreason.
      destruct (Endpoint.enabled endpoint); [right|by left]. simpl in Hreason.
      destruct (_ <? _)%Z eqn:Hlt; [done|]. by bool_simpl.
    + erewrite tx_bind_Ok by done. cbv beta iota.
      unfold _unclaimable_due_reason in Hreason. rewrite (remaining_run d _ Hd) in Hreason. simpl in Hreason.
      destruct (Endpoint.enabled endpoint) eqn:Hen, (_ <? _)%Z eqn:Hlt; try done. bool_simpl.
      erewrite tx_bind_Ok by (unfold lift; by destruct (Delivery.status d)). cbv beta iota.
      erewrite tx_bind_Ok by (by apply (reserve_ok d endpoint event payload us)).
      split; [by apply cs_claim|]. by apply (plain_inv d event payload us).
    + unfold _unclaimable_due_reason in Hreason. by rewrite (remaining_run d _ Hd) in Hreason.
Qed.
End claim.

(** ** Properties *)

(** The identifiers a claim draws are new. *)
Definition claim_fresh (env : ClaimEnv) (db : Db) : Prop :=
  attempts db !! ce_attempt_id env = None ∧
  ∀ k a, attempts db !! k = Some a → DeliveryAttempt.lease_token a ≠ ce_lease_token env.

(** The transitions a delivery can still make: each claim and each finalization uses one up. *)
Definition remaining_work (max : Z) (d : Delivery) : Z :=
  if terminal (Delivery.status d) then 0
  else 1 + 2 * (max - Delivery.attempt_count d) + (if bool_decide (Delivery.status d = IN_PROGRESS) then 1 else 0).

Section remaining_work.
Context (max : Z) (d d' : Delivery) (Hmax : (Delivery.attempt_count d ≤ max)%Z).
Context (Hactive : active (Delivery.status d) = true).

Lemma work_active : (1 ≤ remaining_work max d)%Z.
Proof. unfold remaining_work. unfold active in Hactive. destruct (terminal _); [done|]. case_bool_decide; lia. Qed.

Lemma work_ended : terminal (Delivery.status d') = true → (remaining_work max d' < remaining_work max d)%Z.
Proof. intros Ht. pose proof work_active. unfold remaining_work at 1. rewrite Ht. lia. Qed.

Lemma work_claimed :
  Delivery.status d' = IN_PROGRESS → Delivery.attempt_count d' = (Delivery.attempt_count d + 1)%Z →
  (remaining_work max d' < remaining_work max d)%Z.
Proof.
  intros Hs Hc. unfold remaining_work. rewrite Hs, Hc. simpl. unfold active in Hactive.
  destruct (terminal _); [done|]. case_bool_decide; lia.
Qed.

Lemma work_finished :
  Delivery.status d = IN_PROGRESS → Delivery.attempt_count d' = Delivery.attempt_count d →
  Delivery.status d' ≠ IN_PROGRESS → (remaining_work max d' < remaining_work max d)%Z.
Proof.
  intros Hs Hc Hn. unfold remaining_work. rewrite Hs, Hc. simpl.
  destruct (terminal (Delivery.status d')); [lia|]. case_bool_decide; [done|]. lia.
Qed.
End remaining_work.

(** How one delivery may change in a step of the worker: along the lifecycle, keeping its place in its
    chain, its terminal rows untouched, its attempt count at most at the budget, and never without
    using up some of its remaining work. *)
Definition moved (max : Z) (d d' : Delivery) : Prop :=
  rtc lifecycle (Delivery.status d) (Delivery.status d') ∧
  (terminal (Delivery.status d) = true → d' = d) ∧
  Delivery.event_id d' = Delivery.event_id d ∧ Delivery.endpoint_id d' = Delivery.endpoint_id d ∧
  Delivery.replay_generation d' = Delivery.replay_generation d ∧
  Delivery.replayed_from_delivery_id d' = Delivery.replayed_from_delivery_id d ∧
  Delivery.replay_idempotency_key d' = Delivery.replay_idempotency_key d ∧
  Delivery.created_at d' = Delivery.created_at d ∧
  (Delivery.attempt_count d ≤ Delivery.attempt_count d' ≤ Z.max (Delivery.attempt_count d) max)%Z ∧
  ((Delivery.attempt_count d ≤ max)%Z → d' = d ∨ (remaining_work max d' < remaining_work max d)%Z).

Lemma moved_refl max d : moved max d d.
Proof. unfold moved. split_and!; auto; done || lia. Qed.

(** A step that rewrites one delivery. *)
Definition moves_one (max : Z) (db db' : Db) : Prop :=
  endpoints db' = endpoints db ∧ events db' = events db ∧
  ((deliveries db' = deliveries db ∧ attempts db' = attempts db) ∨
   ∃ d d', deliveries db !! Delivery.id d = Some d ∧ deliveries db' = <[Delivery.id d := d']> (deliveries db) ∧
     Delivery.id d' = Delivery.id d ∧ moved max d d' ∧
     ∀ k a, DeliveryAttempt.delivery_id a ≠ Delivery.id d → attempts db !! k = Some a → attempts db' !! k = Some a).

Lemma active_lifecycle s : active s = true → s ≠ IN_PROGRESS → lifecycle s IN_PROGRESS ∧ lifecycle s DEAD_LETTERED.
Proof. destruct s; try done; split; constructor. Qed.

Lemma claim_spec_moves w env db r :
  inv db → claim_fresh env db → claim_spec w env db r → moves_one (max_attempts (retry_policy w)) db r.2.
Proof.
  intros Hinv [Hf _] Hr. pose proof (inv_ok db Hinv) as Hok.
  destruct Hr as [Hn|d endpoint reason Hp Hst Hep Hwhy Hreason|d endpoint event payload us Hp Hst Hep Hen Hmax He Hpl Hus|
    d endpoint a reason Hp Hst Hep Hwhy Ha Hla|d endpoint a event payload us reason Hp Hst Hep Hen Hmax Ha Hla He Hpl Hus flushed];
    split; try done; split; try done; simpl; [by left|right..];
    destruct Hp as (Hd & Hc & _); apply claimable_active in Hc as Hact.
  - eexists d, _. split_and!; [done|done|done| |done].
    destruct (active_lifecycle _ Hact Hst). split; [by apply rtc_once|].
    split; [unfold active in Hact; by destruct (terminal _)|]. simpl. split_and!; try (done || lia). intros Hle. right. by apply work_ended.
  - eexists d, _. split_and!; [done|done|done| |].
    + destruct (active_lifecycle _ Hact Hst). split; [by apply rtc_once|].
      split; [unfold active in Hact; by destruct (terminal _)|]. simpl. split_and!; try (done || lia). intros Hle. right. by apply work_claimed.
    + intros k a _ Hka. rewrite lookup_insert_ne; [done|]. intros <-. congruence.
  - eexists d, _. split_and!; [done|done|done| |].
    + split; [simpl; apply rtc_once; rewrite Hst; constructor|].
      split; [by rewrite Hst|]. simpl. split_and!; try (done || lia). intros Hle. right. by apply work_ended.
    + intros k r Hne Hka. rewrite lookup_insert_ne; [done|].
      intros <-. destruct Hla as (E & _). congruence.
  - exists d, (leased w (ce_lease_token env) (ce_now env + us)%Z (ce_now env) flushed).
    split_and!; [done|by rewrite insert_insert_eq|done| |].
    + split; [simpl; rewrite Hst; reflexivity|].
      split; [by rewrite Hst|]. simpl. split_and!; try (done || lia). intros Hle. right. by apply work_claimed.
    + intros k r Hne Hka. rewrite lookup_insert_ne by (intros <-; congruence).
      rewrite lookup_insert_ne; [done|]. intros <-. destruct Hla as (E & _). congruence.
Qed.

(** A claim that finds something uses up work of the row it finds. *)
Lemma claim_spec_works w env db c db' :
  claim_spec w env db (Ok (Some c), db') →
  (∀ k d, deliveries db !! k = Some d → (Delivery.attempt_count d ≤ max_attempts (retry_policy w))%Z) →
  ∃ d d', deliveries db !! Delivery.id d = Some d ∧ deliveries db' = <[Delivery.id d := d']> (deliveries db) ∧
    (remaining_work (max_attempts (retry_policy w)) d' < remaining_work (max_attempts (retry_policy w)) d)%Z.
Proof.
  intros Hspec Hb. inversion Hspec; subst;
    match goal with H : picked _ _ _ |- _ =>
      pose proof H as (Hd & Hc & _); apply claimable_active in Hc; pose proof (Hb _ _ Hd) end.
  - eexists d, _. split; [done|]. split; [done|]. by apply work_ended.
  - eexists d, _. split; [done|]. split; [done|]. by apply work_claimed.
  - eexists d, _. split; [done|]. split; [done|]. by apply work_ended.
  - exists d, (leased w (ce_lease_token env) (ce_now env + us)%Z (ce_now env) flushed).
    split; [done|]. split; [simpl; by rewrite insert_insert_eq|]. by apply work_claimed.
Qed.

(** C9: a claim never fails: on a database that satisfies the invariant, for a worker with validated
    settings, fresh identifiers and a clock inside the calendar, [claim_one] returns, commits exactly
    what its specification says, and keeps the invariant; no stuck lease, no missing evidence and no
    constraint can make it raise. *)
Theorem claim_total w env db :
  worker_ok w → inv db → near (ce_now env) → claim_fresh env db →
  ∃ claim db', run_tx (claim_one w env) db = (Ok claim, db') ∧
    claim_spec w env db (Ok claim, db') ∧ inv db'.
Proof.
  intros Hw Hinv Hn [Hf Ht]. destruct (claim_refines w env db Hw Hinv Hn Hf Ht) as [Hspec Hinv'].
  destruct (run_tx (claim_one w env) db) as [[claim|e] db'].
  - by exists claim, db'.
  - inversion Hspec.
Qed.

Definition claim_target (c : Claim) : UUID :=
  match c with
  | Outbound webhook => OutboundWebhook.delivery_id webhook
  | Resolution resolution => dr_delivery_id resolution
  end.

(** The key of a due row starts with its due time. *)
Lemma claim_key_due db k d clock :
  inv db → deliveries db !! k = Some d → due clock d = true →
  Some (claim_key d).1 =
    if bool_decide (Delivery.status d = IN_PROGRESS) then Delivery.lease_expires_at d else Delivery.next_attempt_at d.
Proof.
  intros Hinv Hd Hdue. destruct (ok_delivery_row db (inv_ok db Hinv) k d Hd) as [_ Hc].
  apply row_checks in Hc as (_ & _ & _ & _ & [E1 E2] & _). unfold due, claim_key, reached in *. cbn [fst].
  apply orb_true_iff in Hdue as [[[Hs%bool_decide_eq_true Hn]%andb_true_iff Ht]%andb_true_iff|[Hs Hl]%andb_true_iff].
  - rewrite bool_decide_eq_false_2 by (intros E; rewrite E in Hs; rewrite !elem_of_cons in Hs; by destruct Hs as [|[|?%elem_of_nil]]).
    rewrite Ht in E2. rewrite E2 in E1. destruct (Delivery.lease_expires_at d); [done|].
    by destruct (Delivery.next_attempt_at d).
  - rewrite Hs. by destruct (Delivery.lease_expires_at d).
Qed.


(** C11: evidence precedes every request: when a claim hands out a webhook, the committed database
    holds its delivery in progress, leased to this worker under the webhook's token until now plus the
    lease time, with the next attempt number within the budget, and an in-progress attempt with exactly
    the webhook's identifier, number and token; and the webhook carries the stored body of the
    delivery's event and the target and secret of its enabled endpoint. *)
Theorem claim_reserves w env db webhook db' :
  worker_ok w → inv db → near (ce_now env) → claim_fresh env db →
  run_tx (claim_one w env) db = (Ok (Some (Outbound webhook)), db') →
  ∃ d0 d a event endpoint us,
    deliveries db !! OutboundWebhook.delivery_id webhook = Some d0 ∧
    deliveries db' !! OutboundWebhook.delivery_id webhook = Some d ∧ owns_lease w webhook d ∧
    timedelta_us (worker_lease_seconds (settings w)) = Ok us ∧
    Delivery.lease_expires_at d = Some (ce_now env + us)%Z ∧
    Delivery.attempt_count d = (Delivery.attempt_count d0 + 1)%Z ∧
    Delivery.attempt_count d = OutboundWebhook.attempt_number webhook ∧
    (Delivery.attempt_count d ≤ max_attempts (retry_policy w))%Z ∧
    attempts db' !! OutboundWebhook.attempt_id webhook = Some a ∧ reserved_for webhook a ∧
    events db !! Delivery.event_id d0 = Some event ∧
    OutboundWebhook.payload_bytes webhook = Event.payload_bytes event ∧
    endpoints db !! Delivery.endpoint_id d0 = Some endpoint ∧ Endpoint.enabled endpoint = true ∧
    OutboundWebhook.endpoint_url webhook = Endpoint.target_url endpoint ∧
    OutboundWebhook.signing_secret webhook = Endpoint.signing_secret endpoint.
Proof.
  intros Hw Hinv Hn [Hf Ht] E. destruct (claim_refines w env db Hw Hinv Hn Hf Ht) as [Hspec _]. rewrite E in Hspec.
  inversion Hspec; subst; match goal with H : picked _ _ ?d |- _ => destruct H as (Hd & Hc & Hmin) end.
  - eexists d, _, _, event, endpoint, us. simpl. rewrite !lookup_insert_eq. split_and!; try done. simpl. lia.
  - eexists d, _, _, event, endpoint, us. simpl. rewrite !lookup_insert_eq. split_and!; try done. simpl. lia.
Qed.

(** A claim changes at most one delivery, and that one along the documented lifecycle: terminal
    deliveries, the attempts of all other deliveries, events and endpoints are untouched, and the
    attempt count never exceeds the configured budget. *)
Theorem claim_moves w env db :
  worker_ok w → inv db → near (ce_now env) → claim_fresh env db →
  moves_one (max_attempts (retry_policy w)) db (run_tx (claim_one w env) db).2.
Proof.
  intros Hw Hinv Hn Hf. pose proof Hf as [Hf1 Ht].
  destruct (claim_refines w env db Hw Hinv Hn Hf1 Ht) as [Hspec _]. by apply (claim_spec_moves w env).
Qed.
