(* ===== verification/Finalizing.v ===== *)
(** What [finalize] guarantees: only the holder of the lease can complete an attempt, the
    outcome decides the next state, the retry is scheduled within the configured bounds, and
    the invariant is kept. *)
From S2P Require Import Prelude PyStr Errors Floats FloatConv Json Retry StateMachine Models Datetime.
From S2P Require Import Database Repositories Invariant Transport Config Worker Claiming.
From Stdlib Require Import ZArith.

(** ** Assumptions on a result *)

(** Values PostgreSQL can store, from clocks that did not step back between the two readings. *)
Record storable (r : AttemptResult) : Prop := {
  so_message : nullable text (AttemptResult.error_message r) = true;
  so_excerpt : nullable text (AttemptResult.response_body_excerpt r) = true;
  so_duration : int4 (AttemptResult.duration_ms r) = true;
  so_timestamp : int8 (AttemptResult.request_timestamp r) = true;
  so_clock : (AttemptResult.started_at r ≤ AttemptResult.finished_at r)%Z
}.

(** The attempt identifier belongs to the lease token: both were drawn by the same claim. *)
Definition issued (webhook : OutboundWebhook) (db : Db) : Prop :=
  ∀ k a, attempts db !! k = Some a →
    DeliveryAttempt.lease_token a = OutboundWebhook.lease_token webhook → k = OutboundWebhook.attempt_id webhook.

Definition fraction (f : float) : Prop := valid_float f = true ∧ fle fzero f = true ∧ fle f fone = true.

(** ** The decision *)

(** Where an attempt leads: what the disposition and the budget say. *)
Definition target_of (w : Worker) (webhook : OutboundWebhook) (result : AttemptResult) : DeliveryStatus :=
  match AttemptResult.disposition result with
  | SUCCEEDED => DELIVERED
  | RETRY => if (OutboundWebhook.attempt_number webhook <? max_attempts (retry_policy w))%Z
             then RETRY_WAIT else DEAD_LETTERED
  | TERMINAL_FAILURE => DEAD_LETTERED
  end.

Lemma worker_policy w : worker_ok w → policy_ok (retry_policy w) = true.
Proof.
  intros [Hf Hp _]. apply make_policy_Ok in Hp as [-> _]. unfold settings_fields in Hf. bool_simpl.
  unfold policy_ok. simpl. unfold int_field in *. bool_simpl.
  repeat match goal with H : float_field _ _ = true |- _ => apply float_field_ordinary in H as [H ?]; [|done] end.
  rewrite !andb_true_iff, !Z.leb_le. split_and!; done.
Qed.

Lemma worker_day w :
  worker_ok w →
  (ordinary (max_delay_seconds (retry_policy w)) = true ∧ fle (max_delay_seconds (retry_policy w)) (float_of_Z 86400) = true) ∧
  (ordinary (worker_retry_after_cap_seconds (settings w)) = true ∧
   fle (worker_retry_after_cap_seconds (settings w)) (float_of_Z 86400) = true).
Proof.
  intros [Hf Hp _]. apply make_policy_Ok in Hp as [-> _]. unfold settings_fields in Hf. bool_simpl.
  split; by apply float_field_ordinary.
Qed.

(** The decision is always made, and its delay is at most a day and at least the receiver's hint. *)
Lemma retry_decision_run w webhook result f :
  worker_ok w → evidence (worker_retry_after_cap_seconds (settings w)) result → fraction f →
  (1 ≤ OutboundWebhook.attempt_number webhook ≤ 100)%Z →
  ∃ delay, retry_decision w webhook result f = Ok (target_of w webhook result, delay) ∧
    match delay with
    | None => target_of w webhook result ≠ RETRY_WAIT
    | Some x => target_of w webhook result = RETRY_WAIT ∧ AttemptResult.disposition result = RETRY ∧
        ordinary x = true ∧ fle x (float_of_Z 86400) = true ∧
        (∀ s, AttemptResult.retry_after_seconds result = Some s → fle s x = true) ∧
        ∃ backoff, delay_seconds (retry_policy w) (OutboundWebhook.attempt_number webhook) f = Ok backoff ∧
          x = match AttemptResult.retry_after_seconds result with Some s => fmax backoff s | None => backoff end
    end.
Proof.
  intros Hw Hev (Hfv & Hf0 & Hf1) Hn. unfold retry_decision, target_of.
  destruct (AttemptResult.disposition result) eqn:Hdisp; simpl.
  - by exists None.
  - rewrite has_attempt_remaining_Ok by lia. simpl. destruct (_ <? _)%Z eqn:Hlt; [|by exists None].
    pose proof (worker_policy w Hw) as Hpol. destruct (worker_day w Hw) as [[Hmo Hmd] [Hco Hcd]].
    assert (Hd : ∃ d, delay_seconds (retry_policy w) (OutboundWebhook.attempt_number webhook) f = Ok d ∧
      ordinary d = true ∧ fle d (max_delay_seconds (retry_policy w)) = true)
      by (apply delay_seconds_ok; done || lia).
    destruct Hd as (d & -> & Hdo & Hdm). simpl.
    assert (Hd86 : fle d (float_of_Z 86400) = true) by (by eapply fle_trans, Hmd).
    destruct (AttemptResult.retry_after_seconds result) as [s|] eqn:Hra.
    + destruct (ev_retry_after _ _ Hev s Hra) as (_ & Hso & Hsc).
      assert (Hs86 : fle s (float_of_Z 86400) = true) by (by eapply fle_trans, Hcd).
      destruct (fmax_ordinary d s Hdo Hso) as (Hmax & _ & Hge).
      eexists (Some _). split; [done|]. split_and!; try done.
      * unfold fmax. by destruct (flt d s).
      * by intros s' [= <-].
      * by exists d.
    + eexists (Some _). split; [done|]. split_and!; try done. by exists d.
  - by exists None.
Qed.

(** ** The specification of a finalization *)

(** When a retry is due: the time of the database plus the back-off of the policy, or the receiver's
    Retry-After where that is longer. *)
Definition retry_due (w : Worker) (webhook : OutboundWebhook) (result : AttemptResult) (f : float) (now t : datetime) : Prop :=
  ∃ backoff delay us,
    delay_seconds (retry_policy w) (OutboundWebhook.attempt_number webhook) f = Ok backoff ∧
    delay = match AttemptResult.retry_after_seconds result with Some s => fmax backoff s | None => backoff end ∧
    (∀ s, AttemptResult.retry_after_seconds result = Some s → fle s delay = true) ∧
    timedelta_us delay = Ok us ∧ t = (now + us)%Z.

Inductive finalize_spec (w : Worker) (webhook : OutboundWebhook) (result : AttemptResult) (f : float) (now : datetime)
  (db : Db)
  : outcome bool * Db → Prop :=
| fs_stale :
    (∀ k d, deliveries db !! k = Some d → owns_lease w webhook d →
       Delivery.attempt_count d ≠ OutboundWebhook.attempt_number webhook) →
    finalize_spec w webhook result f now db (Ok false, db)
| fs_done d a sched :
    deliveries db !! Delivery.id d = Some d → owns_lease w webhook d →
    Delivery.attempt_count d = OutboundWebhook.attempt_number webhook →
    attempts db !! DeliveryAttempt.id a = Some a → reserved_for webhook a →
    match sched with
    | None => target_of w webhook result ≠ RETRY_WAIT
    | Some t => target_of w webhook result = RETRY_WAIT ∧ (now ≤ t ≤ now + 86402000000)%Z ∧
        retry_due w webhook result f now t
    end →
    finalize_spec w webhook result f now db
      (Ok true, rewrite_db (finished result (target_of w webhook result) sched now d) (completed result sched now a) db).

Section finalize.
Context (w : Worker) (webhook : OutboundWebhook) (result : AttemptResult) (f : float) (now : datetime) (db : Db).
Context (Hw : worker_ok w) (Hinv : inv db) (Hissued : issued webhook db) (Hnow : near now).
Context (Hev : evidence (worker_retry_after_cap_seconds (settings w)) result).
Let Hok : db_ok db := inv_ok db Hinv.

Lemma owner_reads :
  reads (one_or_none (λ db, select (owns_lease w webhook) (deliveries db))) db (λ o, match o with
    | Some d => owns_lease w webhook d ∧ deliveries db !! Delivery.id d = Some d
    | None => ∀ k d, deliveries db !! k = Some d → ¬ owns_lease w webhook d
    end).
Proof.
  apply wp_reads, (wp_find (owns_lease w webhook) deliveries); [apply Hok| |auto|auto].
  intros k k' d d' Hd Hd' (E1 & _) (E2 & _).
  rewrite <- (delivery_id_of db Hok k d Hd), <- (delivery_id_of db Hok k' d' Hd'). congruence.
Qed.

(** The evidence of an owned lease. *)
Lemma owner_evidence d :
  deliveries db !! Delivery.id d = Some d → owns_lease w webhook d →
  Delivery.attempt_count d = OutboundWebhook.attempt_number webhook →
  ∃ a, attempts db !! DeliveryAttempt.id a = Some a ∧ reserved_for webhook a ∧
    attempt_of db (Delivery.id d) (Delivery.attempt_count d) a ∧
    one_or_none (λ db, select (reserved_for webhook) (attempts db)) db = Ok (Some a, db).
Proof.
  intros Hd (E1 & E2 & _ & E4) Ec.
  destruct (pi_evidence db d (inv_progress db Hinv _ d Hd) E2) as (a & Ha & Has & Ht).
  pose proof Ha as (Hl & Hk & Hn).
  assert (Etok : DeliveryAttempt.lease_token a = OutboundWebhook.lease_token webhook) by congruence.
  assert (Hr : reserved_for webhook a).
  { split_and!; [by apply (Hissued _ a Hl)|congruence|congruence|done|done]. }
  exists a. split_and!; [done|done|done|].
  assert (Hreads : reads (one_or_none (λ db, select (reserved_for webhook) (attempts db))) db (λ o, o = Some a)).
  { apply wp_reads, (wp_find (reserved_for webhook) attempts); [apply Hok| | |].
    - intros k k' r r' Hr1 Hr2 (F1 & _) (F2 & _).
      rewrite <- (attempt_id_of db Hok k r Hr1), <- (attempt_id_of db Hok k' r' Hr2). congruence.
    - intros r (F1 & _) Hr1. destruct Hr as (F2 & _). split; [done|]. f_equal.
      change (row_id r) with (DeliveryAttempt.id r) in Hr1. rewrite F1, <- F2 in Hr1. congruence.
    - intros Hnone. by destruct (Hnone _ _ Hl). }
  by destruct Hreads as (o & -> & ->).
Qed.

Section finished.
Context (d : Delivery) (a : DeliveryAttempt) (sched : option datetime).
Context (Hd : deliveries db !! Delivery.id d = Some d) (Howns : owns_lease w webhook d)
  (Hcount : Delivery.attempt_count d = OutboundWebhook.attempt_number webhook)
  (Ha : attempts db !! DeliveryAttempt.id a = Some a) (Hres : reserved_for webhook a)
  (Hat : attempt_of db (Delivery.id d) (Delivery.attempt_count d) a)
  (Hsched : match sched with None => target_of w webhook result ≠ RETRY_WAIT
            | Some t => target_of w webhook result = RETRY_WAIT end).
Context (Hstore : storable result).
Let d' := finished result (target_of w webhook result) sched now d.
Let a' := completed result sched now a.

Lemma last_error_text : nullable text (_last_error result) = true.
Proof.
  unfold _last_error. case_bool_decide; [done|]. cbn [nullable].
  destruct (AttemptResult.http_status_code result) as [c|] eqn:Hc.
  - destruct (ev_status _ _ Hev c Hc) as [_ ->]. apply (digits_text c).
    destruct (ev_status _ _ Hev c Hc) as [Hcl _]. unfold classify_status_code in Hcl.
    destruct (negb _) eqn:E; [done|]. bool_simpl. lia.
  - destruct (ev_failure _ _ Hev Hc) as (_ & _ & Het).
    assert (Hm : text match AttemptResult.error_message result with
                      | Some (c :: m) => c :: m | _ => lit "outbound request failed" end = true).
    { pose proof (so_message result Hstore) as Ht. destruct (AttemptResult.error_message result) as [[|c m]|]; done. }
    rewrite !elem_of_cons, elem_of_nil in Het.
    destruct Het as [->|[->|[]]]; cbn [nullable]; apply text_take; by rewrite !text_app, Hm.
Qed.

Lemma finished_ok : Delivery.types d' = true ∧ violated (Delivery.checks d') = None.
Proof.
  destruct (ok_delivery_row db Hok _ d Hd) as [Ht Hc].
  apply row_types in Ht as (? & ? & ? & _). apply row_checks in Hc as (? & ? & ? & ? & _).
  rewrite row_types, row_checks. split_and!; try done; [apply last_error_text| |].
  - simpl. unfold target_of. destruct (AttemptResult.disposition result); [done|by destruct (_ <? _)%Z|done].
  - simpl. intros ->. done.
Qed.

Lemma classified_range c disposition : classify_status_code c = Ok disposition → (100 ≤ c ≤ 599)%Z.
Proof. unfold classify_status_code. destruct (negb _) eqn:E; [done|]. by bool_simpl. Qed.

Lemma completed_ok : DeliveryAttempt.types a' = true ∧ violated (DeliveryAttempt.checks a') = None.
Proof.
  destruct (ok_attempt_row db Hok _ a Ha) as [Ht Hc].
  apply attempt_types in Ht as (Hn & _). destruct Hstore as [Hm Hx Hdu Hti Hcl].
  assert (Hcode : nullable (λ n, (100 <=? n) && (n <=? 599))%Z (AttemptResult.http_status_code result) = true).
  { destruct (AttemptResult.http_status_code result) as [c|] eqn:Ec; [|done]. simpl.
    destruct (ev_status _ _ Hev c Ec) as [Hcls _]. apply classified_range in Hcls.
    apply andb_true_iff. rewrite !Z.leb_le. lia. }
  split.
  - rewrite attempt_types. split_and!; try done.
    + simpl. destruct (AttemptResult.http_status_code result) as [c|]; [|done]. simpl in *. bool_simpl.
      unfold int4. apply andb_true_iff. rewrite !Z.leb_le. lia.
    + simpl. destruct (AttemptResult.http_status_code result) as [c|] eqn:Ec.
      * by destruct (ev_status _ _ Hev c Ec) as [_ ->].
      * destruct (ev_failure _ _ Hev Ec) as (_ & _ & Het). rewrite !elem_of_cons, elem_of_nil in Het.
        by destruct Het as [->|[->|[]]].
  - apply violated_None in Hc. unfold DeliveryAttempt.checks in Hc. rewrite !Forall_cons in Hc. destruct Hc as (H1 & _).
    apply violated_None. unfold DeliveryAttempt.checks. rewrite !Forall_cons, Forall_nil. cbn [snd].
    split_and!; try done; simpl; apply Z.leb_le; [apply Hev|apply Hev|done].
Qed.

Lemma finish_active : active (Delivery.status d) = true.
Proof. destruct Howns as (_ & -> & _). done. Qed.

Lemma finish_run {A} (x : A) :
  (_ ← update_delivery d'; (_ ← update_attempt a'; mret x)) db = Ok (x, rewrite_db d' a' db).
Proof.
  destruct finished_ok as [? ?], completed_ok as [? ?].
  apply (resolve_run db d d' a a'); try done. apply finish_active.
Qed.

Lemma finish_inv : inv (rewrite_db d' a' db).
Proof.
  destruct finished_ok as [? ?], completed_ok as [? ?]. pose proof (inv_progress db Hinv _ d Hd) as Hp.
  pose proof (pi_numbers db d Hp) as Hnum.
  assert (Hset : settled (rewrite_db d' a' db) d').
  { apply (resolve_settled db d d' a a'); try done. intros n r Hr Hs. by apply (pi_resolved db d Hp n r). }
  assert (Hnew : attempt_of (rewrite_db d' a' db) (Delivery.id d') (Delivery.attempt_count d') a')
    by (apply (resolve_attempt_of db d d' a a'); [done..|by left]).
  apply (update_inv db (rewrite_db d' a' db) d d' Hinv); try done.
  - apply finish_active.
  - apply (resolve_ok db d d' a a'); try done. apply finish_active.
  - intros r. by apply (resolve_other db d d' a a').
  - destruct Hset as [Hn Hr]. split; try done.
    + unfold d', target_of. simpl. destruct (AttemptResult.disposition result); [done|by destruct (_ <? _)%Z|done].
    + intros n r Har Hs. by destruct (Hr n r Har).
    + simpl. unfold target_of in *. destruct sched as [t|].
      * rewrite Hsched. split; eauto.
      * split; [by intros [? ?]|]. intros [Ht|Ht]; [|done].
        destruct (AttemptResult.disposition result); [done|by destruct (_ <? _)%Z|done].
    + simpl. unfold target_of. destruct (AttemptResult.disposition result); [done|by destruct (_ <? _)%Z|done].
    + simpl. intros Ht. exists a'. split; [done|]. simpl. unfold target_of in Ht.
      destruct (AttemptResult.disposition result); [done|by destruct (_ <? _)%Z|done].
    + simpl. intros Ht. exists a'. split; [done|]. split; [|done]. simpl. unfold target_of in Ht.
      by destruct (AttemptResult.disposition result).
Qed.
End finished.

(** ** The code implements the specification *)

Context (Hf : fraction f) (Hnumber : (1 ≤ OutboundWebhook.attempt_number webhook ≤ 100)%Z).

(** The time of the retry. *)
Lemma schedule_run delay :
  match delay with
  | None => target_of w webhook result ≠ RETRY_WAIT
  | Some x => target_of w webhook result = RETRY_WAIT ∧ AttemptResult.disposition result = RETRY ∧
      ordinary x = true ∧ fle x (float_of_Z 86400) = true ∧
      (∀ s, AttemptResult.retry_after_seconds result = Some s → fle s x = true) ∧
      ∃ backoff, delay_seconds (retry_policy w) (OutboundWebhook.attempt_number webhook) f = Ok backoff ∧
        x = match AttemptResult.retry_after_seconds result with Some s => fmax backoff s | None => backoff end
  end →
  ∃ sched, match delay with
           | Some delay => Some <$> (us ← timedelta_us delay; datetime_add now us)
           | None => Ok None
           end = Ok sched ∧
    match sched with
    | None => target_of w webhook result ≠ RETRY_WAIT
    | Some t => target_of w webhook result = RETRY_WAIT ∧ (now ≤ t ≤ now + 86402000000)%Z ∧
        retry_due w webhook result f now t
    end.
Proof.
  destruct delay as [x|]; intros Hd; [|by exists None].
  destruct Hd as (Ht & _ & Ho & Hle & Hra & backoff & Hb0 & Hx). destruct (timedelta_bounded x Ho Hle) as (us & Hus & Hb).
  exists (Some (now + us)%Z). rewrite Hus. simpl.
  rewrite datetime_add_in_range by (unfold near, datetime_min, datetime_max in *; lia).
  split; [done|]. split; [done|]. split; [lia|]. by exists backoff, x, us.
Qed.

Lemma finalize_refines :
  let r := run_tx (finalize w webhook result f now) db in
  (storable result → finalize_spec w webhook result f now db r ∧ inv r.2).
Proof.
  cbv zeta. intros Hstore. unfold run_tx, finalize.
  destruct (retry_decision_run w webhook result f Hw Hev Hf Hnumber) as (delay & Hdec & Hdelay).
  erewrite tx_bind_Ok by (unfold lift; by rewrite Hdec). cbv beta iota. unfold finalize_tx. cbn [fst snd].
  destruct owner_reads as (o & E & Ho). erewrite tx_bind_Ok by exact E. cbv beta iota.
  destruct o as [d|]; [|split; [|done]; apply fs_stale; intros k d Hd Hown; by destruct (Ho k d Hd)].
  destruct Ho as [Hown Hd].
  destruct (Delivery.attempt_count d =? OutboundWebhook.attempt_number webhook)%Z eqn:Hc; bool_simpl; cbn [negb].
  2: { split; [|done]. apply fs_stale. intros k d2 Hd2 (E2 & _). destruct Hown as (E1 & _).
       assert (k = Delivery.id d) as -> by (rewrite <- (delivery_id_of db Hok k d2 Hd2); congruence).
       congruence. }
  destruct (owner_evidence d Hd Hown Hc) as (a & Ha & Hres & Hat & Erun).
  erewrite tx_bind_Ok by exact Erun. cbv beta iota.
  destruct (schedule_run delay Hdelay) as (sched & Hsched & Hbound).
  erewrite tx_bind_Ok.
  2: { unfold lift. destruct Hown as (_ & -> & _). unfold target_of.
       destruct (AttemptResult.disposition result); [done|by destruct (_ <? _)%Z|done]. }
  erewrite tx_bind_Ok by (unfold lift; by rewrite Hsched). cbv beta.
  assert (Hs : match sched with None => target_of w webhook result ≠ RETRY_WAIT
               | Some t => target_of w webhook result = RETRY_WAIT end) by (destruct sched; tauto).
  rewrite (finish_run d a sched) by done.
  split; [by apply fs_done|]. by apply finish_inv.
Qed.

(** A body with a character PostgreSQL text cannot hold. *)
Lemma finalize_unstorable d :
  deliveries db !! Delivery.id d = Some d → owns_lease w webhook d →
  Delivery.attempt_count d = OutboundWebhook.attempt_number webhook →
  nullable text (_last_error result) = true →
  nullable text (AttemptResult.response_body_excerpt result) = false →
  ∃ msg, run_tx (finalize w webhook result f now) db = (Raise (DataErr msg), db).
Proof.
  intros Hd Hown Hc Hle Hx. unfold run_tx, finalize.
  destruct (retry_decision_run w webhook result f Hw Hev Hf Hnumber) as (delay & Hdec & Hdelay).
  erewrite tx_bind_Ok by (unfold lift; by rewrite Hdec). cbv beta iota. unfold finalize_tx. cbn [fst snd].
  destruct owner_reads as (o & E & Ho). erewrite tx_bind_Ok by exact E. cbv beta iota.
  destruct o as [d2|]; [|by destruct (Ho _ d Hd)]. destruct Ho as [Hown2 Hd2].
  assert (d2 = d) as ->.
  { destruct Hown as (E1 & _), Hown2 as (E2 & _).
    change (row_id d2) with (Delivery.id d2) in Hd2. rewrite E2, <- E1 in Hd2. congruence. }
  rewrite (proj2 (Z.eqb_eq _ _) Hc). cbn [negb].
  destruct (owner_evidence d Hd Hown Hc) as (a & Ha & Hres & Hat & Erun).
  erewrite tx_bind_Ok by exact Erun. cbv beta iota.
  destruct (schedule_run delay Hdelay) as (sched & Hsched & Hbound).
  erewrite tx_bind_Ok.
  2: { unfold lift. destruct Hown as (_ & -> & _). unfold target_of.
       destruct (AttemptResult.disposition result); [done|by destruct (_ <? _)%Z|done]. }
  erewrite tx_bind_Ok by (unfold lift; by rewrite Hsched). cbv beta.
  set (d' := finished result (target_of w webhook result) sched now d).
  assert (Hfin : Delivery.types d' = true ∧ violated (Delivery.checks d') = None).
  { destruct (ok_delivery_row db Hok _ d Hd) as [Ht Hch].
    apply row_types in Ht as (? & ? & ? & _). apply row_checks in Hch as (? & ? & ? & ? & _).
    rewrite row_types, row_checks. split_and!; try done.
    - simpl. unfold target_of. destruct (AttemptResult.disposition result); [done|by destruct (_ <? _)%Z|done].
    - simpl. intros ->. done. }
  destruct Hfin as [Ht Hch].
  erewrite tx_bind_Ok.
  2: { apply update_delivery_run; [exists d; exact Hd|done|]. apply (update_constraints db Hok d d'); try done.
       intros _. destruct Hown as (_ & -> & _). done. }
  unfold mbind, tx_bind, update_attempt. rewrite bool_decide_eq_true_2 by (simpl; by exists a).
  unfold check_row. assert (Hty : DeliveryAttempt.types (completed result sched now a) = false).
  { apply not_true_is_false. rewrite attempt_types. intros (_ & _ & _ & _ & Hx' & _). simpl in Hx'. congruence. }
  rewrite Hty. simpl. eauto.
Qed.
End finalize.

(** A finalization that changed the database stored the result, so the result can be stored. *)
Lemma finalize_stores w webhook result f now db b db' :
  run_tx (finalize w webhook result f now) db = (Ok b, db') → db' = db ∨ storable result.
Proof.
  intros Hrun%run_tx_Ok. unfold finalize in Hrun.
  apply tx_bind_inv in Hrun as (decision & db1 & Hd & Hrun). unfold lift in Hd.
  destruct (retry_decision _ _ _ _); [|done]. injection Hd as <- <-. unfold finalize_tx in Hrun.
  apply tx_bind_inv in Hrun as (od & db1 & Hq & Hrun).
  assert (db1 = db) as -> by (unfold one_or_none in Hq; by destruct (view_rows _); simplify_eq).
  destruct od as [d|]; [|left; by injection Hrun].
  destruct (negb _); [left; by injection Hrun|].
  apply tx_bind_inv in Hrun as (oa & db2 & _ & Hrun). destruct oa as [att|]; [|done].
  apply tx_bind_inv in Hrun as (? & db3 & _ & Hrun). apply tx_bind_inv in Hrun as (sched & db4 & _ & Hrun).
  apply tx_bind_inv in Hrun as (? & db5 & _ & Hrun). apply tx_bind_inv in Hrun as ([] & db6 & Ha & _).
  right. unfold update_attempt in Ha. case_bool_decide; [|done].
  destruct (check_row _ _) as [[]|] eqn:Hc; [|done]. apply check_row_Ok in Hc as [Ht Hc].
  apply attempt_types in Ht as (_ & _ & _ & Hm & Hx & Hdu & Hti).
  apply attempt_constraints_None in Hc as [Hc _]. apply violated_None in Hc.
  unfold DeliveryAttempt.checks in Hc. rewrite !Forall_cons in Hc. destruct_and?; simpl in *.
  split; try done. repeat match goal with H : (_ <=? _)%Z = true |- _ => apply Z.leb_le in H end. done.
Qed.

(** ** Properties *)

(** What [finalize] is entitled to: a claimed webhook, evidence of the transport, a random fraction, and
    a clock inside the calendar. *)
Record finalizable (w : Worker) (webhook : OutboundWebhook) (result : AttemptResult) (f : float) (now : datetime)
  (db : Db) : Prop := {
  fz_worker : worker_ok w;
  fz_inv : inv db;
  fz_issued : issued webhook db;
  fz_now : near now;
  fz_evidence : evidence (worker_retry_after_cap_seconds (settings w)) result;
  fz_fraction : fraction f;
  fz_number : (1 ≤ OutboundWebhook.attempt_number webhook ≤ 100)%Z
}.

Lemma finalize_implements w webhook result f now db :
  finalizable w webhook result f now db → storable result →
  finalize_spec w webhook result f now db (run_tx (finalize w webhook result f now) db) ∧
  inv (run_tx (finalize w webhook result f now) db).2.
Proof. intros []. by apply finalize_refines. Qed.

Lemma target_lifecycle w webhook result : lifecycle IN_PROGRESS (target_of w webhook result).
Proof.
  unfold target_of. destruct (AttemptResult.disposition result); [constructor|destruct (_ <? _)%Z; constructor|constructor].
Qed.

Lemma finalize_spec_moves w webhook result f now db r max :
  inv db → finalize_spec w webhook result f now db r → moves_one max db r.2.
Proof.
  intros Hinv Hr. destruct Hr as [Hn|d a sched Hd Hown Hc Ha Hres Hs]; split; try done; split; try done; [by left|right].
  exists d, (finished result (target_of w webhook result) sched now d). simpl.
  pose proof Hown as (_ & Hst & _). split_and!; [done|done|done| |].
  - split; [simpl; rewrite Hst; apply rtc_once, target_lifecycle|]. split; [by rewrite Hst|].
    simpl. split_and!; try (done || lia). intros Hle. right. apply work_finished; try done.
    simpl. intros Et. pose proof (target_lifecycle w webhook result) as Hl. rewrite Et in Hl. inversion Hl.
  - intros k r Hne Hk. rewrite lookup_insert_ne; [done|].
    intros <-. destruct Hown as (E1 & _), Hres as (_ & E2 & _). congruence.
Qed.

Lemma finalize_moves w webhook result f now db max :
  finalizable w webhook result f now db → moves_one max db (run_tx (finalize w webhook result f now) db).2.
Proof.
  intros Hz. destruct (run_tx _ db) as [[b|e] db'] eqn:Hrun; simpl.
  - destruct (finalize_stores _ _ _ _ _ _ _ _ Hrun) as [->|Hstore]; [by repeat split; left|].
    destruct (finalize_implements _ _ _ _ _ _ Hz Hstore) as [Hspec _]. rewrite Hrun in Hspec.
    apply (finalize_spec_moves _ _ _ _ _ _ _ max (fz_inv _ _ _ _ _ _ Hz) Hspec).
  - apply run_tx_Raise in Hrun as [_ ->]. by repeat split; left.
Qed.

(** C13: results are fenced: [finalize] answers [False] and changes nothing exactly when no delivery is
    in progress under this worker's identity with the webhook's token and attempt number, so a result
    that arrives after the lease was lost or reclaimed has no effect; and it answers [True] only
    by completing the in-progress attempt that the claim reserved for this webhook. *)
Theorem finalize_fenced w webhook result f now db :
  finalizable w webhook result f now db → storable result →
  (∀ db', run_tx (finalize w webhook result f now) db = (Ok false, db') ↔
     db' = db ∧ ∀ k d, deliveries db !! k = Some d → owns_lease w webhook d →
       Delivery.attempt_count d ≠ OutboundWebhook.attempt_number webhook) ∧
  (∀ db', run_tx (finalize w webhook result f now) db = (Ok true, db') →
     ∃ d a, deliveries db !! OutboundWebhook.delivery_id webhook = Some d ∧ owns_lease w webhook d ∧
       attempts db !! OutboundWebhook.attempt_id webhook = Some a ∧ reserved_for webhook a).
Proof.
  intros Hz Hstore. destruct (finalize_implements _ _ _ _ _ _ Hz Hstore) as [Hspec _]. split.
  - intros db'. split.
    + intros E. rewrite E in Hspec. by inversion Hspec; subst.
    + intros [-> Hn]. inversion Hspec as [|d a sched Hd Hown Hc]; [done|]. by destruct (Hn _ d Hd Hown).
  - intros db' E. rewrite E in Hspec. inversion Hspec as [|d a sched Hd Hown Hc Ha Hres]; subst.
    pose proof Hown as (E1 & _). pose proof Hres as (E2 & _). exists d, a. rewrite <- E1, <- E2. done.
Qed.


(** A response the transport reports faithfully can make the finalization of a successful delivery
    impossible: when the body excerpt holds a NUL character, which PostgreSQL text does not accept,
    [finalize] raises a data error, the transaction rolls back, and the delivery stays leased, to be
    sent again after the lease expires. *)
Theorem finalize_nul_excerpt w webhook result f now db d :
  finalizable w webhook result f now db →
  deliveries db !! Delivery.id d = Some d → owns_lease w webhook d →
  Delivery.attempt_count d = OutboundWebhook.attempt_number webhook →
  AttemptResult.disposition result = SUCCEEDED →
  (∃ s, AttemptResult.response_body_excerpt result = Some s ∧ 0%N ∈ s) →
  ∃ msg, run_tx (finalize w webhook result f now) db = (Raise (DataErr msg), db).
Proof.
  intros [] Hd Hown Hc Hsucc (s & Hs & Hnul). apply (finalize_unstorable w webhook result f now db) with (d := d); try done.
  - unfold _last_error. by rewrite Hsucc, bool_decide_eq_true_2.
  - rewrite Hs. simpl. apply not_true_is_false. unfold text. rewrite forallb_forall. intros Ht.
    specialize (Ht 0%N ltac:(by apply list_elem_of_In)). done.
Qed.
