(* ===== verification/Generations.v ===== *)
(** The chain of generations of one event and endpoint: consequences of the invariant
    that the services rely on. *)
From S2P Require Import Prelude PyStr Errors Json Retry StateMachine Models Database Repositories Invariant.
From Stdlib Require Import ZArith.

Import DeliveryRepository.

Section chain.
Context (db : Db) (Hinv : inv db).
Let Hok : db_ok db := inv_ok db Hinv.

(** No delivery of the chain has a later generation. *)
Definition latest (d : Delivery) : Prop :=
  ∀ k d', deliveries db !! k = Some d' →
    in_chain (Delivery.event_id d) (Delivery.endpoint_id d) d' →
    (Delivery.replay_generation d' ≤ Delivery.replay_generation d)%Z.

Lemma generation_nonneg k d : deliveries db !! k = Some d → (0 ≤ Delivery.replay_generation d)%Z.
Proof.
  intros Hd. destruct (ok_delivery_row db Hok k d Hd) as [_ Hc].
  apply violated_None in Hc. unfold Delivery.checks in Hc. apply Forall_cons in Hc as [Hg _].
  simpl in Hg. lia.
Qed.

Lemma same_generation_eq k k' d d' :
  deliveries db !! k = Some d → deliveries db !! k' = Some d' →
  in_chain (Delivery.event_id d) (Delivery.endpoint_id d) d' →
  Delivery.replay_generation d = Delivery.replay_generation d' → k = k'.
Proof.
  intros Hd Hd' [E1 E2] Eg. apply (ok_delivery_unique db Hok k k' d d'); [done..|].
  left. split_and!; congruence.
Qed.

(** Every earlier generation exists, and is dead-lettered. *)
Lemma earlier_generation n k d :
  deliveries db !! k = Some d → Delivery.replay_generation d = Z.of_nat n →
  ∀ g, (0 ≤ g < Z.of_nat n)%Z →
  ∃ d', deliveries db !! Delivery.id d' = Some d' ∧
    in_chain (Delivery.event_id d) (Delivery.endpoint_id d) d' ∧
    Delivery.replay_generation d' = g ∧ Delivery.status d' = DEAD_LETTERED.
Proof.
  revert k d. induction n as [|n IH]; intros k d Hd Hg g Hr; [lia|].
  destruct (inv_chain db Hinv k d Hd) as [Hi Hs].
  destruct (Delivery.replayed_from_delivery_id d) as [s|] eqn:Es; [|by rewrite (proj2 Hi eq_refl) in Hg].
  destruct (Hs s eq_refl) as (ds & Hds & [E1 E2] & Egen & Hst).
  destruct (decide (g = Z.of_nat n)) as [->|Hne].
  - exists ds. split_and!; [|done|lia|done]. by rewrite (delivery_id_of db Hok s ds Hds).
  - destruct (IH s ds Hds ltac:(lia) g ltac:(lia)) as (d' & ? & [E3 E4] & ?).
    exists d'. split; [done|]. split; [|done]. split; congruence.
Qed.

Lemma superseded_dead k k' d d' :
  deliveries db !! k = Some d → deliveries db !! k' = Some d' →
  in_chain (Delivery.event_id d) (Delivery.endpoint_id d) d' →
  (Delivery.replay_generation d < Delivery.replay_generation d')%Z → Delivery.status d = DEAD_LETTERED.
Proof.
  intros Hd Hd' [E1 E2] Hlt. pose proof (generation_nonneg k d Hd).
  destruct (earlier_generation (Z.to_nat (Delivery.replay_generation d')) k' d' Hd' ltac:(lia)
    (Delivery.replay_generation d) ltac:(lia)) as (d'' & Hd'' & [E3 E4] & Eg & Hst).
  assert (k = Delivery.id d'') as ->.
  { apply (same_generation_eq _ _ d d''); [done|done|split; congruence|done]. }
  congruence.
Qed.

(** An active delivery is the latest of its chain. *)
Lemma active_latest k d : deliveries db !! k = Some d → active (Delivery.status d) = true → latest d.
Proof.
  intros Hd Ha k' d' Hd' Hc. destruct (Z.le_gt_cases (Delivery.replay_generation d') (Delivery.replay_generation d));
    [done|]. by rewrite (superseded_dead k k' d d') in Ha.
Qed.

Lemma one_successor_eq k k' d d' s :
  deliveries db !! k = Some d → deliveries db !! k' = Some d' →
  Delivery.replayed_from_delivery_id d = Some s → Delivery.replayed_from_delivery_id d' = Some s → d = d'.
Proof.
  intros Hd Hd' Es Es'.
  destruct (ci_source db d (inv_chain db Hinv k d Hd) s Es) as (s1 & Hs1 & [E1 E2] & Eg & _).
  destruct (ci_source db d' (inv_chain db Hinv k' d' Hd') s Es') as (s2 & Hs2 & [E3 E4] & Eg' & _).
  simplify_eq. assert (k = k') as ->; [|congruence].
  apply (same_generation_eq k k' d d'); [done|done|split; congruence|lia].
Qed.
End chain.

(** The deliveries of an event to an endpoint form one linear chain: generations are consecutive
    from 0, only the latest can be anything but dead-lettered, at most one of them is active, a
    delivery has at most one successor, and the successor has the next generation. *)
Theorem generation_chain db k d :
  inv db → deliveries db !! k = Some d →
  (∀ g, (0 ≤ g < Delivery.replay_generation d)%Z →
     ∃ d', deliveries db !! Delivery.id d' = Some d' ∧
       in_chain (Delivery.event_id d) (Delivery.endpoint_id d) d' ∧
       Delivery.replay_generation d' = g ∧ Delivery.status d' = DEAD_LETTERED) ∧
  (∀ k' d', deliveries db !! k' = Some d' → in_chain (Delivery.event_id d) (Delivery.endpoint_id d) d' →
     active (Delivery.status d) = true →
     k' = k ∨ (Delivery.replay_generation d' < Delivery.replay_generation d)%Z) ∧
  (∀ k1 k2 d1 d2, deliveries db !! k1 = Some d1 → deliveries db !! k2 = Some d2 →
     Delivery.replayed_from_delivery_id d1 = Some k → Delivery.replayed_from_delivery_id d2 = Some k →
     d1 = d2 ∧ Delivery.replay_generation d1 = (Delivery.replay_generation d + 1)%Z).
Proof.
  intros Hinv Hd. pose proof (generation_nonneg db Hinv k d Hd). split_and!.
  - intros g Hg. apply (earlier_generation db Hinv (Z.to_nat (Delivery.replay_generation d)) k d Hd); lia.
  - intros k' d' Hd' Hc Ha. pose proof (active_latest db Hinv k d Hd Ha k' d' Hd' Hc).
    destruct (decide (Delivery.replay_generation d' = Delivery.replay_generation d)); [left|right; lia].
    symmetry. by apply (same_generation_eq db Hinv k k' d d').
  - intros k1 k2 d1 d2 H1 H2 E1 E2. split; [by eapply one_successor_eq|].
    destruct (ci_source db d1 (inv_chain db Hinv k1 d1 H1) k E1) as (s & Hs & _ & Eg & _). by simplify_eq.
Qed.
