(* ===== verification/Services.v ===== *)
(** [services.py]: endpoint registration, idempotent event ingestion, replay of
    dead-lettered deliveries, and the read services.

    Random identifiers, the clock of the API process and the transaction time of the
    database are arguments ([Env]); request bodies are validated in [Schemas], headers in
    [Routers].  Every operation runs inside the caller's transaction. *)
From S2P Require Import Prelude PyStr Errors Json Sha256 Serialization Retry StateMachine Models Datetime.
From S2P Require Import Database Repositories Invariant.
From Stdlib Require Import ZArith.

Definition LOCAL_SOURCE : pystr := lit "local-api".
Definition RECEIVER_LAB_ROUTES : list pystr := [lit "orders"; lit "shipping"; lit "inventory"].

(** What a request reads from its surroundings: [uuid4()] for the row it creates first and
    for its delivery, [datetime.now(UTC)], and the [now()] of the database transaction. *)
Record Env := mkEnv {
  uuid1 : UUID;
  uuid2 : UUID;
  clock_now : datetime;
  db_now : datetime
}.

(** ** Requests and results *)

(** [schemas.EndpointCreateRequest] and [schemas.EventPublishRequest], validated. *)
Record EndpointCreateRequest := mkEndpointCreateRequest { ecr_name : pystr; ecr_url : pystr }.
Record EventPublishRequest := mkEventPublishRequest {
  epr_endpoint_id : UUID;
  epr_type : pystr;
  epr_data : list (pystr * json)
}.

Record CreatedEndpoint := mkCreatedEndpoint { ce_endpoint : Endpoint; plaintext_signing_secret : pystr }.
Record PublishedEvent := mkPublishedEvent {
  pe_event : Event; pe_delivery : Delivery; pe_idempotent_replay : bool }.
Record EventDetails := mkEventDetails { ed_event : Event; ed_deliveries : list Delivery }.
Record DeliveryAttempts := mkDeliveryAttempts { da_delivery : Delivery; da_attempts : list DeliveryAttempt }.
Record ReplayedDelivery := mkReplayedDelivery {
  rd_source_delivery : Delivery; rd_delivery : Delivery; rd_idempotent_replay : bool }.

Definition domain_error (status : Z) (code title detail : pystr) : exn :=
  DomainExn (mkDomainError status code title detail).

(** ** Endpoint registration *)

Module EndpointService.
(** [{receiver_base, *(f"{receiver_base}/{route}" ...)}] *)
Definition allowed_urls (receiver_lab_url : pystr) : list pystr :=
  let receiver_base := rstrip_slash receiver_lab_url in
  receiver_base :: map (λ route, receiver_base ++ lit "/" ++ route) RECEIVER_LAB_ROUTES.

Definition url_not_allowed (receiver_lab_url : pystr) : exn :=
  domain_error 422 (lit "receiver_url_not_allowed") (lit "Endpoint URL is not allowed")
    (lit "This local milestone accepts only the configured Receiver Lab routes under " ++
     rstrip_slash receiver_lab_url ++ lit ".").

(** [EndpointService.create]; [secret] is the string the secret factory returns, and [second_now] the second
    reading of the clock. *)
Definition create (receiver_lab_url secret : pystr) (env : Env) (second_now : datetime) (request : EndpointCreateRequest)
  : tx CreatedEndpoint :=
  if negb (str_in (rstrip_slash (ecr_url request)) (allowed_urls receiver_lab_url))
  then raise (url_not_allowed receiver_lab_url)
  else
    match utf8_encode secret with
    | None => raise UnicodeEncodeErr
    | Some signing_secret =>
        let endpoint := Endpoint.mk (uuid1 env) (ecr_name request) (ecr_url request) signing_secret 1 true
                          (clock_now env) second_now in
        _ ← EndpointRepository.create endpoint;
        mret (mkCreatedEndpoint endpoint secret)
    end.
End EndpointService.

(** ** Event ingestion *)

Module EventService.
Definition endpoint_not_found (endpoint_id : UUID) : exn :=
  domain_error 404 (lit "endpoint_not_found") (lit "Endpoint not found")
    (lit "Endpoint " ++ str_of_uuid endpoint_id ++ lit " does not exist.").

Definition invalid_event_data : exn :=
  domain_error 422 (lit "invalid_event_data") (lit "Event data is not valid JSON")
    (lit "Event data must contain only finite, JSON-compatible values.").

Definition endpoint_disabled (endpoint_id : UUID) : exn :=
  domain_error 409 (lit "endpoint_disabled") (lit "Endpoint is disabled")
    (lit "Endpoint " ++ str_of_uuid endpoint_id ++ lit " cannot accept new deliveries.").

Definition idempotency_key_reused : exn :=
  domain_error 409 (lit "idempotency_key_reused") (lit "Idempotency key was reused")
    (lit "The same Idempotency-Key was already used with a different request.").

(** The fingerprint of a request, a [CanonicalJSONError] mapped to a 422. *)
Definition request_fingerprint (request : EventPublishRequest) : outcome pystr :=
  match canonical_sha256
          (fingerprint_value (epr_endpoint_id request) (epr_type request) (JDict (epr_data request))) with
  | Raise (CanonicalJSONErr _) => Raise invalid_event_data
  | r => r
  end.

(** The outbound body. *)
Definition payload_value (event_id : UUID) (created_at : datetime) (request : EventPublishRequest) : json :=
  JDict [(lit "id", JStr (str_of_uuid event_id)); (lit "type", JStr (epr_type request));
         (lit "created_at", JStr (_json_timestamp created_at)); (lit "data", JDict (epr_data request))].

Definition new_event (env : Env) (request : EventPublishRequest) (idempotency_key fingerprint : pystr)
  (payload_bytes : bytes) : NewEvent :=
  Event.mk (uuid1 env) LOCAL_SOURCE (epr_type request) idempotency_key (JDict (epr_data request))
    payload_bytes fingerprint (sha256_hex payload_bytes) (clock_now env).

(** The columns a [Delivery] is not given take their defaults: [status] is pending, and the
    server sets [next_attempt_at] to [now()]. *)
Definition initial_delivery (env : Env) (endpoint : Endpoint) : Delivery :=
  Delivery.mk (uuid2 env) (uuid1 env) (Endpoint.id endpoint) 0 None None PENDING 0 (Some (db_now env))
    None None None None None (clock_now env) (clock_now env).

(** [EventService._resolve_idempotent_replay] *)
Definition _resolve_idempotent_replay (endpoint_id : UUID) (idempotency_key fingerprint : pystr)
  : tx PublishedEvent :=
  event ← EventRepository.get_by_idempotency_key LOCAL_SOURCE idempotency_key;
  match event with
  | None => raise (RuntimeErr (lit "conflicting event could not be read after ON CONFLICT"))
  | Some event =>
      if negb (eqb_str (Event.request_fingerprint_sha256 event) fingerprint) then raise idempotency_key_reused
      else
        delivery ← DeliveryRepository.get_initial (Event.id event) endpoint_id;
        match delivery with
        | None => raise (RuntimeErr (lit "accepted event is missing its initial delivery"))
        | Some delivery => mret (mkPublishedEvent event delivery true)
        end
  end.

(** [EventService.publish] *)
Definition publish (env : Env) (request : EventPublishRequest) (idempotency_key : pystr)
  : tx PublishedEvent :=
  endpoint ← EndpointRepository.get (epr_endpoint_id request);
  match endpoint with
  | None => raise (endpoint_not_found (epr_endpoint_id request))
  | Some endpoint =>
      fingerprint ← lift (request_fingerprint request);
      payload_bytes ← lift (canonical_json_bytes (payload_value (uuid1 env) (clock_now env) request));
      let candidate := new_event env request idempotency_key fingerprint payload_bytes in
      inserted ← EventRepository.insert_if_absent candidate;
      if negb inserted then
        _resolve_idempotent_replay (epr_endpoint_id request) idempotency_key fingerprint
      else if negb (Endpoint.enabled endpoint) then raise (endpoint_disabled (epr_endpoint_id request))
      else
        delivery ← DeliveryRepository.create (initial_delivery env endpoint);
        event ← EventRepository.get (uuid1 env);
        match event with
        | None => raise (RuntimeErr (lit "inserted event could not be read in its transaction"))
        | Some event => mret (mkPublishedEvent event delivery false)
        end
  end.
End EventService.

(** ** Replay *)

Definition delivery_not_found (delivery_id : UUID) : exn :=
  domain_error 404 (lit "delivery_not_found") (lit "Delivery not found")
    (lit "Delivery " ++ str_of_uuid delivery_id ++ lit " does not exist.").

Module ReplayService.
Definition superseded (delivery_id latest_id : UUID) : exn :=
  domain_error 409 (lit "replay_source_superseded") (lit "Replay source has been superseded")
    (lit "Delivery " ++ str_of_uuid delivery_id ++ lit " has already been superseded by delivery " ++
     str_of_uuid latest_id ++ lit ".").

Definition not_replayable (delivery_id : UUID) (status : DeliveryStatus) : exn :=
  domain_error 409 (lit "delivery_not_replayable") (lit "Delivery is not replayable")
    (lit "Delivery " ++ str_of_uuid delivery_id ++ lit " has status " ++ DeliveryStatus_value status ++
     lit "; only the latest dead-lettered generation can be replayed.").

Definition blocked (block_code : ReplayBlockCode) : exn :=
  domain_error 409 (ReplayBlockCode_value block_code) (lit "Payload correction is required")
    (lit "The receiver permanently rejected this immutable payload. Publish a corrected event instead of replaying the unchanged body.").

Definition active_exists (active_id : UUID) : exn :=
  domain_error 409 (lit "active_delivery_exists") (lit "An active delivery already exists")
    (lit "Delivery " ++ str_of_uuid active_id ++ lit " is already active for this event and endpoint.").

Definition endpoint_disabled (endpoint_id : UUID) : exn :=
  domain_error 409 (lit "endpoint_disabled") (lit "Endpoint is disabled")
    (lit "Endpoint " ++ str_of_uuid endpoint_id ++ lit " cannot accept a replay delivery.").

(** The block code of the last attempt, if there is an attempt. *)
Definition block_code_of (attempts : list DeliveryAttempt) : outcome (option ReplayBlockCode) :=
  match last attempts with
  | Some a => replay_block_code (DeliveryAttempt.http_status_code a) (DeliveryAttempt.response_body_excerpt a)
  | None => Ok None
  end.

(** The next generation; [next_attempt_at] is set to [now()] by the server. *)
Definition next_generation (env : Env) (source : Delivery) (idempotency_key : pystr) : Delivery :=
  Delivery.mk (uuid1 env) (Delivery.event_id source) (Delivery.endpoint_id source)
    (Delivery.replay_generation source + 1) (Some (Delivery.id source)) (Some idempotency_key) PENDING 0
    (Some (db_now env)) None None None None None (clock_now env) (clock_now env).

(** The part of [ReplayService.replay] after the idempotency check: the conditions on the
    source, in the order of the code, and the new generation. *)
Definition replay_source (env : Env) (delivery_id : UUID) (source : Delivery) (idempotency_key : pystr)
  : tx ReplayedDelivery :=
  latest ← DeliveryRepository.get_latest (Delivery.event_id source) (Delivery.endpoint_id source);
  match latest with
  | None => raise (RuntimeErr (lit "delivery chain has no latest generation"))
  | Some latest =>
      if negb (bool_decide (Delivery.id latest = Delivery.id source))
      then raise (superseded delivery_id (Delivery.id latest))
      else if negb (bool_decide (Delivery.status source = DEAD_LETTERED))
      then raise (not_replayable delivery_id (Delivery.status source))
      else
        attempts ← DeliveryRepository.list_attempts (Delivery.id source);
        block_code ← lift (block_code_of attempts);
        match block_code with
        | Some block_code => raise (blocked block_code)
        | None =>
            active ← DeliveryRepository.get_active (Delivery.event_id source) (Delivery.endpoint_id source);
            match active with
            | Some active => raise (active_exists (Delivery.id active))
            | None =>
                endpoint ← EndpointRepository.get (Delivery.endpoint_id source);
                match endpoint with
                | None => raise (RuntimeErr (lit "delivery references an endpoint that does not exist"))
                | Some endpoint =>
                    if negb (Endpoint.enabled endpoint) then raise (endpoint_disabled (Endpoint.id endpoint))
                    else
                      replay ← DeliveryRepository.create (next_generation env source idempotency_key);
                      mret (mkReplayedDelivery source replay false)
                end
            end
        end
  end.

(** [ReplayService.replay] *)
Definition replay (env : Env) (delivery_id : UUID) (idempotency_key : pystr) : tx ReplayedDelivery :=
  candidate ← DeliveryRepository.get delivery_id;
  match candidate with
  | None => raise (delivery_not_found delivery_id)
  | Some candidate =>
      event ← EventRepository.get_for_update (Delivery.event_id candidate);
      match event with
      | None => raise (RuntimeErr (lit "delivery references an event that could not be locked"))
      | Some _ =>
          source ← DeliveryRepository.get_for_update delivery_id;
          match source with
          | None => raise (RuntimeErr (lit "delivery disappeared after its event was locked"))
          | Some source =>
              existing ← DeliveryRepository.get_by_replay_request (Delivery.id source) idempotency_key;
              match existing with
              | Some existing => mret (mkReplayedDelivery source existing true)
              | None => replay_source env delivery_id source idempotency_key
              end
          end
      end
  end.
End ReplayService.

(** ** Queries *)

Module QueryService.
Definition event_details (event_id : UUID) : tx EventDetails :=
  event ← EventRepository.get event_id;
  match event with
  | None =>
      raise (domain_error 404 (lit "event_not_found") (lit "Event not found")
               (lit "Event " ++ str_of_uuid event_id ++ lit " does not exist."))
  | Some event =>
      deliveries ← DeliveryRepository.list_for_event event_id;
      mret (mkEventDetails event deliveries)
  end.

Definition delivery_attempts (delivery_id : UUID) : tx DeliveryAttempts :=
  delivery ← DeliveryRepository.get_with_attempts delivery_id;
  match delivery with
  | None => raise (delivery_not_found delivery_id)
  | Some (delivery, attempts) => mret (mkDeliveryAttempts delivery attempts)
  end.
End QueryService.
