(* ===== verification/Fixtures.v ===== *)
(** A small concrete database for the examples of the other files: one enabled endpoint, a request
    to it, and the identifiers and times a publication of it reads. *)
From S2P Require Import Prelude PyStr Errors Json Retry StateMachine Models Database Repositories.
From S2P Require Import Invariant Services.
From Stdlib Require Import ZArith.

Definition lab_endpoint : Endpoint :=
  Endpoint.mk 7 (lit "orders") (lit "http://receiver-lab:8100/webhooks/orders") (blit "ehsec_demo") 1 true 0 0.

Definition lab_db : Db := mkDb {[ 7%N := lab_endpoint ]} ∅ ∅ ∅.

Lemma lab_inv : inv lab_db.
Proof.
  split; [|intros k r; simpl; by rewrite lookup_empty..].
  apply (set_endpoint_ok empty_db lab_endpoint empty_db_ok); reflexivity.
Qed.

Definition lab_request : EventPublishRequest :=
  mkEventPublishRequest 7 (lit "order.created") [(lit "run_id", JStr (lit "demo-1")); (lit "total", JInt 12)].

Definition lab_key : pystr := lit "order-1".
Definition lab_env : Env := mkEnv 100 101 1700000000000000 1700000000250000.

Definition lab_fingerprint : pystr :=
  match EventService.request_fingerprint lab_request with Ok f => f | Raise _ => [] end.

Lemma lab_fingerprint_ok : EventService.request_fingerprint lab_request = Ok lab_fingerprint.
Proof. vm_compute. reflexivity. Qed.

Lemma lab_key_unused k e : events lab_db !! k = Some e → ¬ EventRepository.by_key LOCAL_SOURCE lab_key e.
Proof. simpl. by rewrite lookup_empty. Qed.
