(* ===== verification/Publishing.v ===== *)
(** What [EndpointService.create] and [EventService.publish] guarantee: the allow-list
    of targets, acceptance of a new event with its initial delivery, idempotency,
    conflict detection, and preservation of the invariant. *)
From S2P Require Import Prelude PyStr Errors Json Sha256 Serialization Signing Retry StateMachine Models.
From S2P Require Import Datetime Database Repositories Invariant Fixtures Services.
From Stdlib Require Import ZArith.

(** ** Encoding of the outbound body *)

Definition encodable (s : pystr) : Prop := Forall (λ c, is_Some (utf8_char c)) s.

Lemma utf8_encode_is_Some s : is_Some (utf8_encode s) ↔ encodable s.
Proof.
  unfold encodable. induction s as [|c s IH]; simpl; [by split; [constructor|eauto]|].
  rewrite Forall_cons, <- IH. destruct (utf8_char c), (utf8_encode s);
    (split; [intros [? ?]|intros [[? ?] [? ?]]]); try done; eauto.
Qed.

Lemma encodable_app s t : encodable (s ++ t) ↔ encodable s ∧ encodable t.
Proof. apply Forall_app. Qed.

Lemma ascii_encodable s : is_ascii s = true → encodable s.
Proof.
  unfold is_ascii, encodable. rewrite forallb_forall. intros Hs. apply Forall_forall.
  intros c Hc. apply list_elem_of_In, Hs in Hc. unfold utf8_char. rewrite Hc. eauto.
Qed.

Lemma escape_char_encodable c : is_Some (utf8_char c) → encodable (escape_char c).
Proof.
  intros Hc. unfold escape_char.
  repeat (case_match; [by apply ascii_encodable|]). case_match.
  - apply Forall_app; split; [by apply ascii_encodable|apply ascii_encodable, hex_digits_ascii].
  - by constructor.
Qed.

Lemma dump_string_encodable s : encodable s → encodable (dump_string s).
Proof.
  intros Hs. unfold dump_string. apply Forall_app; split; [by apply ascii_encodable|].
  apply Forall_app; split; [|by apply ascii_encodable].
  induction Hs as [|c s Hc Hs IH]; [constructor|]. apply Forall_app. split; [|done].
  by apply escape_char_encodable.
Qed.

Lemma hex_digits_text w n : text (hex_digits w n) = true.
Proof.
  revert n. induction w as [|w IH]; intros n; [done|]. unfold text. cbn [hex_digits].
  rewrite forallb_app. fold (text (hex_digits w (n / 16))). rewrite IH. simpl. rewrite andb_true_r.
  pose proof (hex_digit_class n) as Hd. unfold is_digit, is_surrogate, in_range in *.
  rewrite andb_true_iff, !negb_true_iff, andb_false_iff, N.eqb_neq, !N.leb_gt.
  apply orb_true_iff in Hd as [Hd|Hd]; apply andb_true_iff in Hd as [H1 H2];
    apply N.leb_le in H1, H2; lia.
Qed.

Lemma sha256_hex_text m : text (sha256_hex m) = true.
Proof.
  unfold sha256_hex, state_words, text. cbn [map concat].
  rewrite !forallb_app. by rewrite !(hex_digits_text 8 : ∀ n, forallb _ _ = true).
Qed.

Lemma str_of_uuid_ascii u : is_ascii (str_of_uuid u) = true.
Proof.
  assert (Hh : Forall (λ c, (c <? 128)%N = true) (hex_digits 32 u)).
  { apply Forall_forall. intros c Hc. pose proof (hex_digits_ascii 32 u) as Ha.
    unfold is_ascii in Ha. rewrite forallb_forall in Ha. by apply Ha, list_elem_of_In. }
  unfold is_ascii, str_of_uuid. rewrite forallb_forall. intros c Hc%list_elem_of_In. revert c Hc.
  apply Forall_forall. repeat (apply Forall_app; split);
    repeat (apply Forall_take || apply Forall_drop); done || by repeat constructor.
Qed.

Lemma pad_digits_ascii w n : is_ascii (pad_digits w n) = true.
Proof.
  revert n. induction w as [|w IH]; intros n; [done|]. unfold is_ascii. cbn [pad_digits].
  rewrite forallb_app. fold (is_ascii (pad_digits w (n / 10))). rewrite IH. simpl. rewrite andb_true_r.
  apply N.ltb_lt. pose proof (Z.mod_pos_bound n 10). lia.
Qed.

Lemma json_timestamp_ascii t : is_ascii (_json_timestamp t) = true.
Proof.
  assert (Hp : ∀ w n, forallb (λ c, (c <? 128)%N) (pad_digits w n) = true) by apply pad_digits_ascii.
  unfold _json_timestamp, isoformat_naive, is_ascii. repeat case_match; rewrite ?forallb_app, ?Hp; done.
Qed.

Lemma canonical_dict_cons d b : canonical_json_bytes (JDict d) = Ok b → b ≠ [].
Proof.
  unfold canonical_json_bytes. cbn [json_dumps]. destruct (all_some _) as [items|]; [|done].
  cbn [fmap option_fmap option_map]. unfold dump_items. rewrite utf8_encode_app.
  replace (utf8_encode [123%N]) with (Some (blit "{")) by done.
  destruct (utf8_encode (_ ++ _)); [|done]. by intros [= <-].
Qed.

(** A value whose canonical bytes exist. *)
Definition dumpable (v : json) : Prop := ∃ s, json_dumps v = Some s ∧ encodable s.

Lemma canonical_dumpable v : is_Ok (canonical_json_bytes v) ↔ dumpable v.
Proof.
  unfold is_Ok, dumpable, canonical_json_bytes. split.
  - destruct (json_dumps v) as [s|]; [|by intros [? ?]]. destruct (utf8_encode s) eqn:E; [|by intros [? ?]].
    intros _. exists s. split; [done|]. apply utf8_encode_is_Some. eauto.
  - intros (s & -> & [b ->]%utf8_encode_is_Some). eauto.
Qed.

Lemma join_comma_encodable l : encodable (join_comma l) ↔ Forall encodable l.
Proof.
  induction l as [|x [|y l] IH].
  - by split; constructor.
  - simpl. by rewrite Forall_singleton.
  - change (join_comma (x :: y :: l)) with (x ++ [44%N] ++ join_comma (y :: l)).
    rewrite !encodable_app, IH, (Forall_cons _ x). split; [tauto|]. intros [? ?]. split_and!; [done| |done].
    by apply ascii_encodable.
Qed.

Lemma dump_items_encodable items :
  encodable (dump_items items) ↔ Forall (λ kv, encodable (dump_string kv.1) ∧ encodable kv.2) items.
Proof.
  assert (Ha : ∀ c, (c <? 128)%N = true → encodable [c]).
  { intros c Hc. apply ascii_encodable. simpl. by rewrite Hc. }
  unfold dump_items. rewrite !encodable_app, join_comma_encodable, Forall_map, merge_sort_Permutation.
  transitivity (Forall (λ kv, encodable (dump_string kv.1 ++ [58%N] ++ kv.2)) items).
  - split; [tauto|]. intros ?. split_and!; auto.
  - apply Forall_iff. intros [k v]. rewrite !encodable_app. simpl. split; [tauto|].
    intros [? ?]. split_and!; auto.
Qed.

Lemma dict_dumpable d :
  dumpable (JDict d) ↔ Forall (λ kx, encodable (dump_string kx.1) ∧ dumpable kx.2) d.
Proof.
  unfold dumpable at 1. cbn [json_dumps].
  assert (Hi : Forall (λ kx, encodable (dump_string kx.1) ∧ dumpable kx.2) d ↔
    ∃ items, map (λ '(k, x), pair k <$> json_dumps x) d = map Some items ∧
      Forall (λ kv, encodable (dump_string kv.1) ∧ encodable kv.2) items).
  { split.
    - induction 1 as [|[k x] d [Hk (s & Hs & He)] Hd (items & E & HF)]; [by exists []|].
      exists ((k, s) :: items). simpl in *. rewrite E, Hs. split; [done|by constructor].
    - intros (items & E & HF). revert items E HF.
      induction d as [|[k x] d IH]; intros [|[k' s] items]; simpl; try done.
      intros [= Ex Ed] [Hk HF]%Forall_cons. destruct (json_dumps x) as [s'|] eqn:Es; simplify_eq/=.
      constructor; [|by eapply IH]. simpl in *. destruct Hk. unfold dumpable. eauto. }
  rewrite Hi. split.
  - intros (s & [items [E ->]]%fmap_Some & He). apply all_some_Some in E.
    exists items. split; [done|]. by apply dump_items_encodable.
  - intros (items & E%all_some_Some & HF). rewrite E. eexists. split; [done|]. by apply dump_items_encodable.
Qed.

Lemma string_dumpable s : encodable s → dumpable (JStr s).
Proof. intros Hs. exists (dump_string s). split; [done|by apply dump_string_encodable]. Qed.

(** When the fingerprint can be computed, so can the body. *)
Lemma payload_encodes u t r fp :
  EventService.request_fingerprint r = Ok fp →
  (∃ b, canonical_json_bytes (EventService.payload_value u t r) = Ok b ∧ b ≠ []) ∧ length fp = 64 ∧ text fp = true.
Proof.
  unfold EventService.request_fingerprint, EventService.payload_value, fingerprint_value, canonical_sha256.
  generalize (JDict (epr_data r)) as v. intros v Hf.
  destruct (canonical_json_bytes _) as [enc|e] eqn:Ee; [|by destruct e]. cbn in Hf. simplify_eq.
  split; [|split; [apply sha256_hex_length|apply sha256_hex_text]].
  assert (Hd : dumpable (JDict [(lit "endpoint_id", JStr (str_of_uuid (epr_endpoint_id r)));
    (lit "type", JStr (epr_type r)); (lit "data", v)])).
  { apply canonical_dumpable. unfold is_Ok. eauto. }
  rewrite dict_dumpable, !Forall_cons in Hd. destruct Hd as (_ & [_ Ht] & [_ Hv] & _).
  destruct (proj2 (canonical_dumpable (JDict [(lit "id", JStr (str_of_uuid u)); (lit "type", JStr (epr_type r));
         (lit "created_at", JStr (_json_timestamp t)); (lit "data", v)]))) as [b Hb].
  - apply dict_dumpable. rewrite !Forall_cons. simpl fst. simpl snd.
    assert (Hk : ∀ k, is_ascii k = true → encodable (dump_string k))
      by (intros; by apply dump_string_encodable, ascii_encodable).
    split_and!; [by apply Hk| |by apply Hk|done|by apply Hk| |by apply Hk|done|constructor];
      apply string_dumpable, ascii_encodable; [apply str_of_uuid_ascii|apply json_timestamp_ascii].
  - exists b. split; [done|]. by eapply canonical_dict_cons.
Qed.

(** ** One run of [publish] *)

Section publish.
Context (env : Env) (request : EventPublishRequest) (key : pystr).

Definition candidate (fingerprint : pystr) (body : bytes) : Event :=
  EventService.new_event env request key fingerprint body.

Definition with_new_event (fingerprint : pystr) (body : bytes) (db : Db) : Db :=
  set_events (<[uuid1 env := candidate fingerprint body]> (events db)) db.

(** The database after a new event was accepted. *)
Definition accepted_db (fingerprint : pystr) (body : bytes) (endpoint : Endpoint) (db : Db) : Db :=
  set_deliveries (<[uuid2 env := EventService.initial_delivery env endpoint]> (deliveries db))
    (with_new_event fingerprint body db).

Lemma key_unused db fp body :
  db_ok db →
  no_conflict Event.conflict (events db) (candidate fp body) ↔
  (∀ k e, events db !! k = Some e → ¬ EventRepository.by_key LOCAL_SOURCE key e) ∨
  (∃ e, events db !! uuid1 env = Some e ∧ EventRepository.by_key LOCAL_SOURCE key e).
Proof.
  intros Hok. unfold no_conflict, map_Forall. split.
  - intros Hn. destruct (decide (map_Exists (λ _ e, EventRepository.by_key LOCAL_SOURCE key e) (events db)))
      as [(k & e & He & Hb)|Hne].
    + destruct (Hn k e He) as [->|Hc]; [right; by exists e|]. destruct Hc. destruct Hb. done.
    + left. intros k e He Hb. apply Hne. by exists k, e.
  - intros [Hn|(e & He & Hb)] k e' He'.
    + right. intros [? ?]. by apply (Hn k e').
    + destruct (decide (k = uuid1 env)) as [->|Hne]; [by left|right]. intros [E1 E2]. apply Hne.
      destruct Hb as [E3 E4]. apply (ok_event_unique db Hok k (uuid1 env) e' e); [done..|].
      split; simpl in *; congruence.
Qed.

Section run.
Context (db : Db) (Hok : db_ok db).
Context (endpoint : Endpoint) (Hep : endpoints db !! epr_endpoint_id request = Some endpoint).
Context (fp : pystr) (Hfp : EventService.request_fingerprint request = Ok fp).
Context (body : bytes)
  (Hbody : canonical_json_bytes (EventService.payload_value (uuid1 env) (clock_now env) request) = Ok body).

(** The steps before the insert. *)
Lemma publish_prefix :
  EventService.publish env request key db =
  (inserted ← EventRepository.insert_if_absent (candidate fp body);
   if negb inserted then
     EventService._resolve_idempotent_replay (epr_endpoint_id request) key fp
   else if negb (Endpoint.enabled endpoint) then
     raise (EventService.endpoint_disabled (epr_endpoint_id request))
   else
     delivery ← DeliveryRepository.create (EventService.initial_delivery env endpoint);
     event ← EventRepository.get (uuid1 env);
     match event with
     | None => raise (RuntimeErr (lit "inserted event could not be read in its transaction"))
     | Some event => mret (mkPublishedEvent event delivery false)
     end) db.
Proof.
  unfold EventService.publish. erewrite tx_bind_Ok by done. cbv beta. rewrite Hep.
  erewrite tx_bind_Ok by (unfold lift; by rewrite Hfp). cbv beta.
  by erewrite tx_bind_Ok by (unfold lift; by rewrite Hbody).
Qed.

Context (Htypes : Event.types (candidate fp body) = true).
Context (Hchecks : violated (Event.checks (candidate fp body)) = None).

Lemma insert_new :
  no_conflict Event.conflict (events db) (candidate fp body) → events db !! uuid1 env = None →
  EventRepository.insert_if_absent (candidate fp body) db = Ok (true, with_new_event fp body db).
Proof.
  intros Hn Hf. unfold EventRepository.insert_if_absent, insert_event_if_absent, event_constraints.
  rewrite (proj2 (check_row_Ok _ _) (conj Htypes Hchecks)). simpl.
  rewrite bool_decide_eq_true_2 by done. rewrite bool_decide_eq_false_2; [done|].
  simpl. rewrite Hf. by intros [? ?].
Qed.

Lemma insert_existing :
  ¬ no_conflict Event.conflict (events db) (candidate fp body) →
  EventRepository.insert_if_absent (candidate fp body) db = Ok (false, db).
Proof.
  intros Hn. unfold EventRepository.insert_if_absent, insert_event_if_absent, event_constraints.
  rewrite (proj2 (check_row_Ok _ _) (conj Htypes Hchecks)). simpl.
  by rewrite bool_decide_eq_false_2.
Qed.

Lemma endpoint_row_id : Endpoint.id endpoint = epr_endpoint_id request.
Proof. by apply (endpoint_id_of db Hok). Qed.

(** The rows a new publication adds satisfy the constraints. *)
Lemma initial_constraints :
  (∀ k e, events db !! k = Some e → ¬ EventRepository.by_key LOCAL_SOURCE key e) →
  events db !! uuid1 env = None →
  violated (delivery_constraints (with_new_event fp body db) (EventService.initial_delivery env endpoint)) = None.
Proof.
  intros Hn Hf. apply delivery_constraints_None. split_and!; [done| | |done|]; simpl.
  - rewrite lookup_insert_eq. eauto.
  - rewrite endpoint_row_id. eauto.
  - intros k d Hd. right. pose proof (ok_delivery_event db Hok k d Hd) as [e He].
    intros [(E & _)|[(_ & _ & E & _)|(E & _)]]; simpl in E; [|done|];
      rewrite <- E, Hf in He; done.
Qed.

Lemma publish_new :
  (∀ k e, events db !! k = Some e → ¬ EventRepository.by_key LOCAL_SOURCE key e) →
  events db !! uuid1 env = None → deliveries db !! uuid2 env = None →
  Endpoint.enabled endpoint = true →
  EventService.publish env request key db =
  Ok (mkPublishedEvent (candidate fp body) (EventService.initial_delivery env endpoint) false,
      accepted_db fp body endpoint db).
Proof.
  intros Hn Hf Hf2 Hen. rewrite publish_prefix.
  erewrite tx_bind_Ok by (apply insert_new; [apply key_unused; [done|by left]|done]).
  rewrite Hen. cbn [negb]. cbv beta.
  erewrite tx_bind_Ok.
  2: { unfold DeliveryRepository.create. erewrite tx_bind_Ok; [done|].
       apply insert_delivery_run; [done|done|by apply initial_constraints]. }
  erewrite tx_bind_Ok by done. cbv beta. simpl. by rewrite lookup_insert_eq.
Qed.

(** A key already used. *)
Section existing.
Context (e : Event) (He : events db !! Event.id e = Some e)
  (Hkey : EventRepository.by_key LOCAL_SOURCE key e).
Context (Hfresh : events db !! uuid1 env = None).

Lemma key_used : ¬ no_conflict Event.conflict (events db) (candidate fp body).
Proof.
  rewrite key_unused by done. intros [Hn|(e' & He' & _)]; [by apply (Hn _ _ He)|congruence].
Qed.

Lemma get_by_idempotency_key_run :
  EventRepository.get_by_idempotency_key LOCAL_SOURCE key db = Ok (Some e, db).
Proof.
  assert (Hw : wp (EventRepository.get_by_idempotency_key LOCAL_SOURCE key)
    (λ r db', r = Some e ∧ db' = db) (λ _, False) db).
  { apply wp_get_by_idempotency_key; [done| |intros Hn; by destruct (Hn _ _ He)].
    intros e' [E1 E2] He'. destruct Hkey as [E3 E4]. split; [|done]. f_equal.
    assert (Event.id e' = Event.id e) as Ei
      by (apply (ok_event_unique db Hok _ _ e' e); [done..|]; split; congruence).
    congruence. }
  unfold wp in Hw. destruct (EventRepository.get_by_idempotency_key _ _ _) as [[r db']|]; [|done].
  by destruct Hw as [-> ->].
Qed.

Lemma publish_existing :
  EventService.publish env request key db =
  if eqb_str (Event.request_fingerprint_sha256 e) fp then
    (delivery ← DeliveryRepository.get_initial (Event.id e) (epr_endpoint_id request);
     match delivery with
     | None => raise (RuntimeErr (lit "accepted event is missing its initial delivery"))
     | Some delivery => mret (mkPublishedEvent e delivery true)
     end) db
  else Raise EventService.idempotency_key_reused.
Proof.
  rewrite publish_prefix. erewrite tx_bind_Ok by (apply insert_existing, key_used).
  cbn [negb]. cbv beta. unfold EventService._resolve_idempotent_replay.
  erewrite tx_bind_Ok by apply get_by_idempotency_key_run. cbv beta.
  cbn match. by destruct (eqb_str _ _).
Qed.
End existing.
End run.
End publish.

Lemma get_initial_run db event_id endpoint_id d :
  db_ok db → deliveries db !! Delivery.id d = Some d →
  DeliveryRepository.in_chain event_id endpoint_id d → Delivery.replay_generation d = 0%Z →
  DeliveryRepository.get_initial event_id endpoint_id db = Ok (Some d, db).
Proof.
  intros Hok Hd Hc Hg.
  assert (Hw : wp (DeliveryRepository.get_initial event_id endpoint_id)
    (λ r db', r = Some d ∧ db' = db) (λ _, False) db).
  { apply wp_get_initial; [done| |intros Hn; by destruct (Hn _ _ Hd)].
    intros d' [E1 E2] Hg' Hd'. split; [|done]. f_equal. destruct Hc as [E3 E4].
    assert (Delivery.id d' = Delivery.id d) as Ei
      by (apply (ok_delivery_unique db Hok _ _ d' d); [done..|]; left; split_and!; congruence).
    congruence. }
  unfold wp in Hw. destruct (DeliveryRepository.get_initial _ _ _) as [[r db']|]; [|done].
  by destruct Hw as [-> ->].
Qed.

(** What a publication that returned says. *)
Lemma publish_Ok env request key db p db' :
  db_ok db → EventService.publish env request key db = Ok (p, db') →
  ∃ endpoint fp body,
    endpoints db !! epr_endpoint_id request = Some endpoint ∧
    EventService.request_fingerprint request = Ok fp ∧
    canonical_json_bytes (EventService.payload_value (uuid1 env) (clock_now env) request) = Ok body ∧
    Event.types (candidate env request key fp body) = true ∧
    violated (Event.checks (candidate env request key fp body)) = None ∧
    (no_conflict Event.conflict (events db) (candidate env request key fp body) ∧
     events db !! uuid1 env = None ∧ deliveries db !! uuid2 env = None ∧ Endpoint.enabled endpoint = true ∧
     p = mkPublishedEvent (candidate env request key fp body) (EventService.initial_delivery env endpoint) false ∧
     db' = accepted_db env request key fp body endpoint db ∧
     db_ok (accepted_db env request key fp body endpoint db) ∨
     ∃ e d, events db !! Event.id e = Some e ∧ EventRepository.by_key LOCAL_SOURCE key e ∧
       Event.request_fingerprint_sha256 e = fp ∧
       deliveries db !! Delivery.id d = Some d ∧
       DeliveryRepository.in_chain (Event.id e) (epr_endpoint_id request) d ∧
       Delivery.replay_generation d = 0%Z ∧
       p = mkPublishedEvent e d true ∧ db' = db).
Proof.
  intros Hok. unfold EventService.publish. intros (ep & db0 & [= <- <-] & Hrun)%tx_bind_inv.
  destruct (endpoints db !! _) as [endpoint|] eqn:Hep; [|done].
  apply tx_bind_inv in Hrun as (fp & db0 & Hfp & Hrun). unfold lift in Hfp.
  destruct (EventService.request_fingerprint request) as [fp'|] eqn:Hf; [|done]. injection Hfp as -> <-.
  apply tx_bind_inv in Hrun as (body & db0 & Hb & Hrun). unfold lift in Hb.
  destruct (canonical_json_bytes _) as [body'|] eqn:Hbody; [|done]. injection Hb as -> <-.
  apply tx_bind_inv in Hrun as (ins & db1 & Hi & Hrun).
  apply insert_event_Ok in Hi as (Ht & Hc & [(-> & Hn & Hfresh & ->)|(-> & Hn & ->)]);
    exists endpoint, fp, body; (split_and!; [done..|]); cbn [negb] in Hrun.
  - left. destruct (Endpoint.enabled endpoint); [|done]. cbn [negb] in Hrun.
    apply tx_bind_inv in Hrun as (d & db2 & Hd & Hrun).
    apply tx_bind_inv in Hd as ([] & db3 & Hd & [= <- <-]).
    pose proof (set_event_ok db _ Hok Ht Hc Hn) as Hok1.
    apply insert_delivery_Ok in Hd as (Hnd & Htd & Hcd & ->).
    apply tx_bind_inv in Hrun as (e & db4 & [= <- <-] & Hrun). simpl in Hrun.
    rewrite lookup_insert_eq in Hrun. injection Hrun as <- <-.
    split_and!; [done..|]. by apply (set_delivery_ok (with_new_event env request key fp body db) (EventService.initial_delivery env endpoint)).
  - right. unfold EventService._resolve_idempotent_replay in Hrun.
    apply tx_bind_inv in Hrun as (oe & db2 & He & Hrun).
    assert (Hw := wp_get_by_idempotency_key db Hok (λ _, True) LOCAL_SOURCE key
      (λ r db', db' = db ∧ match r with Some e => EventRepository.by_key LOCAL_SOURCE key e ∧ events db !! Event.id e = Some e | None => True end)).
    unfold wp in Hw. rewrite He in Hw. destruct Hw as [-> Hw]; [by auto|by auto|].
    destruct oe as [e|]; [|done]. destruct Hw as [Hkey Hlk].
    destruct (negb _) eqn:Heq; [done|]. unfold eqb_str in Heq. bool_simpl.
    apply tx_bind_inv in Hrun as (od & db2 & Hd & Hrun).
    assert (Hw := wp_get_initial db Hok (λ _, True) (Event.id e) (epr_endpoint_id request)
      (λ r db', db' = db ∧ match r with Some d => DeliveryRepository.in_chain (Event.id e) (epr_endpoint_id request) d ∧ Delivery.replay_generation d = 0%Z ∧ deliveries db !! Delivery.id d = Some d | None => True end)).
    unfold wp in Hw. rewrite Hd in Hw. destruct Hw as [-> Hw]; [by auto|by auto|].
    destruct od as [d|]; [|done]. destruct Hw as (? & ? & ?). injection Hrun as <- <-.
    exists e, d. done.
Qed.

(** The request's fields fit their columns, and the two identifiers are not empty. *)
Definition request_fits (request : EventPublishRequest) (key : pystr) : bool :=
  varchar 255 (epr_type request) && varchar 255 key && jsonb (JDict (epr_data request)) &&
  not_empty (epr_type request) && not_empty key.

Section candidate.
Context (env : Env) (request : EventPublishRequest) (key fp : pystr) (body : bytes).
Context (Hl : length fp = 64) (Ht : text fp = true) (Hb : body ≠ []).

Lemma candidate_types :
  Event.types (candidate env request key fp body) =
  varchar 255 (epr_type request) && varchar 255 key && jsonb (JDict (epr_data request)).
Proof.
  change (Event.types (candidate env request key fp body)) with
    (varchar 255 (epr_type request) && varchar 255 key && jsonb (JDict (epr_data request)) &&
     varchar 64 fp && varchar 64 (sha256_hex body)).
  unfold varchar at 3 4. rewrite Ht, sha256_hex_text, Hl, sha256_hex_length. cbn [andb].
  rewrite !bool_decide_eq_true_2 by lia. by rewrite !andb_true_r.
Qed.

Lemma candidate_checks :
  violated (Event.checks (candidate env request key fp body)) = None ↔
  not_empty (epr_type request) = true ∧ not_empty key = true.
Proof.
  rewrite violated_None. unfold Event.checks. rewrite !Forall_cons, Forall_nil. cbn [snd].
  change (Event.request_fingerprint_sha256 _) with fp. change (Event.payload_sha256 _) with (sha256_hex body).
  rewrite Hl, sha256_hex_length. simpl.
  assert (not_empty body = true) as -> by (by destruct body). intuition done.
Qed.

Lemma candidate_fits :
  Event.types (candidate env request key fp body) = true ∧
  violated (Event.checks (candidate env request key fp body)) = None ↔ request_fits request key = true.
Proof.
  rewrite candidate_types, candidate_checks. unfold request_fits. rewrite !andb_true_iff. tauto.
Qed.
End candidate.

(** ** Properties *)

Lemma drop_while_slashes (s : pystr) : ∃ n, s = replicate n 47%N ++ drop_while (λ c, (c =? 47)%N) s.
Proof.
  induction s as [|c s [n IH]]; simpl; [by exists 0|].
  destruct (N.eqb_spec c 47) as [->|_]; [|by exists 0]. exists (S n). simpl. by f_equal.
Qed.

Lemma rstrip_slash_spec s : ∃ n, s = rstrip_slash s ++ replicate n 47%N.
Proof.
  destruct (drop_while_slashes (rev s)) as [n E]. exists n. unfold rstrip_slash, rstrip_p.
  apply (f_equal (@rev N)) in E. rewrite rev_involutive, rev_app_distr in E. rewrite E at 1. f_equal.
  clear. induction n as [|n IH]; [done|]. simpl. rewrite IH. by rewrite <- replicate_cons_app.
Qed.

(** An endpoint is only registered for the configured Receiver Lab: the stored target is the
    configured base or one of its three routes, up to trailing slashes, so no other host can become
    a delivery target; the row is enabled, holds the UTF-8 secret that is returned once, and every
    other request is refused with 422 and leaves the database unchanged. *)
Theorem create_allow_list base secret env second_now request db :
  (∀ created db', run_tx (EndpointService.create base secret env second_now request) db = (Ok created, db') →
     let e := ce_endpoint created in
     (∃ route n, route ∈ [] :: map (λ r, lit "/" ++ r) RECEIVER_LAB_ROUTES ∧
        Endpoint.target_url e = rstrip_slash base ++ route ++ replicate n 47%N) ∧
     Endpoint.target_url e = ecr_url request ∧ Endpoint.enabled e = true ∧
     utf8_encode (plaintext_signing_secret created) = Some (Endpoint.signing_secret e) ∧
     endpoints db !! Endpoint.id e = None ∧
     db' = set_endpoints (<[Endpoint.id e := e]> (endpoints db)) db) ∧
  (str_in (rstrip_slash (ecr_url request)) (EndpointService.allowed_urls base) = false →
     run_tx (EndpointService.create base secret env second_now request) db = (Raise (EndpointService.url_not_allowed base), db)).
Proof.
  rewrite run_tx_Raise. setoid_rewrite run_tx_Ok. unfold EndpointService.create.
  destruct (str_in _ _) eqn:Ha; cbn [negb]; split; try done.
  intros created db' E. destruct (utf8_encode secret) as [sec|] eqn:Es; [|done].
  apply tx_bind_inv in E as (e & db2 & E & [= <- <-]).
  apply tx_bind_inv in E as ([] & db3 & E & [= <- <-]). unfold insert_endpoint in E.
  case_bool_decide as Hn; [done|]. destruct (check_row _ _); [|done]. injection E as <-. simpl.
  split_and!; try done; [|by apply eq_None_not_Some].
  destruct (rstrip_slash_spec (ecr_url request)) as [n En].
  unfold str_in, EndpointService.allowed_urls in Ha. bool_simpl.
  apply elem_of_cons in Ha as [Ha|Ha].
  - exists [], n. split; [left|]. by rewrite En, Ha at 1.
  - apply list_elem_of_fmap in Ha as (route & Ha & Hr). exists (lit "/" ++ route), n. split.
    + right. apply (list_elem_of_fmap_2 (λ r : pystr, lit "/" ++ r) RECEIVER_LAB_ROUTES). done.
    + by rewrite En, Ha, <- !(assoc_L (++)) at 1.
Qed.


(** What a publication leaves behind: its event under its key and the first delivery of the event. *)
Lemma published_rows env request key db p db' :
  inv db → run_tx (EventService.publish env request key) db = (Ok p, db') →
  ∃ fp, EventService.request_fingerprint request = Ok fp ∧ request_fits request key = true ∧
    events db' !! Event.id (pe_event p) = Some (pe_event p) ∧
    EventRepository.by_key LOCAL_SOURCE key (pe_event p) ∧ Event.request_fingerprint_sha256 (pe_event p) = fp ∧
    deliveries db' !! Delivery.id (pe_delivery p) = Some (pe_delivery p) ∧
    DeliveryRepository.in_chain (Event.id (pe_event p)) (epr_endpoint_id request) (pe_delivery p) ∧
    Delivery.replay_generation (pe_delivery p) = 0%Z.
Proof.
  intros [Hok _ _ _] Hrun%run_tx_Ok.
  apply publish_Ok in Hrun as (ep & fp & body & Hep & Hfp & Hb & Hty & Hch & Hcase); [|done].
  destruct (payload_encodes (uuid1 env) (clock_now env) request fp Hfp) as [(b & Hb1 & Hbn) [Hl Ht]].
  assert (b = body) as -> by congruence.
  pose proof (proj1 (candidate_fits env request key fp body Hl Ht Hbn) (conj Hty Hch)) as Hr.
  exists fp. split; [done|]. split; [done|].
  destruct Hcase as [(Hn & Hf1 & Hf2 & Hen & -> & -> & Hok1)|(e & d & He & Hk & Hfpe & Hd & Hc & Hg & -> & ->)];
    [simpl; rewrite !lookup_insert_eq|done].
  split_and!; try done. split; [done|]. by apply (endpoint_row_id request db Hok ep).
Qed.

(** The same request meets the event of its key, wherever its delivery is by then. *)
Lemma publish_again env request key db endpoint e d :
  db_ok db → endpoints db !! epr_endpoint_id request = Some endpoint →
  EventService.request_fingerprint request = Ok (Event.request_fingerprint_sha256 e) → request_fits request key = true →
  events db !! uuid1 env = None → events db !! Event.id e = Some e → EventRepository.by_key LOCAL_SOURCE key e →
  deliveries db !! Delivery.id d = Some d → DeliveryRepository.in_chain (Event.id e) (epr_endpoint_id request) d →
  Delivery.replay_generation d = 0%Z →
  run_tx (EventService.publish env request key) db = (Ok (mkPublishedEvent e d true), db).
Proof.
  intros Hok Hep Hfp Hr Hf He Hk Hd Hc Hg. apply run_tx_Ok.
  destruct (payload_encodes (uuid1 env) (clock_now env) request _ Hfp) as [(b & Hb & Hbn) [Hl Ht]].
  destruct (proj2 (candidate_fits env request key _ b Hl Ht Hbn) Hr) as [Hty Hch].
  rewrite (publish_existing env request key db Hok endpoint Hep _ Hfp b Hb Hty Hch e He Hk Hf).
  unfold eqb_str. rewrite bool_decide_eq_true_2 by done.
  by erewrite tx_bind_Ok by (by apply (get_initial_run db _ _ d)).
Qed.

Lemma request_fingerprint_errors request e :
  EventService.request_fingerprint request = Raise e →
  e = EventService.invalid_event_data ∨ e = UnicodeEncodeErr.
Proof.
  unfold EventService.request_fingerprint, canonical_sha256, canonical_json_bytes.
  destruct (json_dumps _); [|intros [= <-]; by left]. destruct (utf8_encode _); intros [= <-]. by right.
Qed.

(** Every refused publication leaves the database as it was, with the documented answer: 404 for an
    unknown endpoint, 422 for data JSON does not represent, 409 for a key used with a request of a
    different fingerprint, and 409 for a disabled endpoint, whose provisional event is rolled back. *)
Theorem publish_rejects env request key db :
  inv db →
  let run := run_tx (EventService.publish env request key) db in
  (endpoints db !! epr_endpoint_id request = None →
     run = (Raise (EventService.endpoint_not_found (epr_endpoint_id request)), db)) ∧
  ∀ endpoint, endpoints db !! epr_endpoint_id request = Some endpoint →
    (∀ e, EventService.request_fingerprint request = Raise e →
       run = (Raise e, db) ∧ (e = EventService.invalid_event_data ∨ e = UnicodeEncodeErr)) ∧
    (∀ fp, EventService.request_fingerprint request = Ok fp → request_fits request key = true →
       events db !! uuid1 env = None →
       (∀ k e, events db !! k = Some e → EventRepository.by_key LOCAL_SOURCE key e →
          Event.request_fingerprint_sha256 e ≠ fp → run = (Raise EventService.idempotency_key_reused, db)) ∧
       ((∀ k e, events db !! k = Some e → ¬ EventRepository.by_key LOCAL_SOURCE key e) →
          Endpoint.enabled endpoint = false →
          run = (Raise (EventService.endpoint_disabled (epr_endpoint_id request)), db))).
Proof.
  intros [Hok _ _ _]. cbv zeta. split.
  { intros Hep. apply run_tx_Raise. split; [|done]. unfold EventService.publish.
    erewrite tx_bind_Ok by done. cbv beta. by rewrite Hep. }
  intros endpoint Hep. split.
  { intros e He. split; [|by eapply request_fingerprint_errors]. apply run_tx_Raise. split; [|done].
    unfold EventService.publish. erewrite tx_bind_Ok by done. cbv beta. rewrite Hep.
    apply tx_bind_Raise. unfold lift. by rewrite He. }
  intros fp Hfp Hr Hf.
  destruct (payload_encodes (uuid1 env) (clock_now env) request fp Hfp) as [(b & Hb & Hbn) [Hl Ht]].
  destruct (proj2 (candidate_fits env request key fp b Hl Ht Hbn) Hr) as [Hty Hch].
  setoid_rewrite run_tx_Raise. split; intros.
  - split; [|done]. assert (Event.id e = k) as <- by (by apply (event_id_of db Hok)).
    rewrite (publish_existing env request key db Hok endpoint Hep fp Hfp b Hb Hty Hch e); [|done..].
    unfold eqb_str. by rewrite bool_decide_eq_false_2.
  - split; [|done]. rewrite (publish_prefix env request key db endpoint Hep fp Hfp b Hb).
    erewrite tx_bind_Ok by (apply insert_new; [done|done|apply key_unused; [done|by left]|done]).
    by rewrite H0.
Qed.

(** The initial delivery and its event satisfy the invariant. *)
Lemma accepted_inv env request key db endpoint fp body :
  inv db → endpoints db !! epr_endpoint_id request = Some endpoint →
  EventService.request_fingerprint request = Ok fp →
  events db !! uuid1 env = None → deliveries db !! uuid2 env = None →
  db_ok (accepted_db env request key fp body endpoint db) →
  inv (accepted_db env request key fp body endpoint db).
Proof.
  intros Hinv Hep Hfp Hf1 Hf2 Hok'. pose proof (inv_ok db Hinv) as Hok.
  set (d := EventService.initial_delivery env endpoint).
  assert (Hnone : ∀ k r, deliveries db !! k = Some r → Delivery.event_id r ≠ uuid1 env).
  { intros k r Hr E. destruct (ok_delivery_event db Hok k r Hr) as [e He]. congruence. }
  assert (Hdue : is_Some (Delivery.next_attempt_at d)) by (simpl; eauto).
  assert (Hc : chain_inv db d) by (by split).
  split; [done|..].
  - by apply (insert_progress db _ d Hinv).
  - intros k r. by apply (insert_chain db _ d Hinv).
  - intros k e He. simpl in He. apply lookup_insert_Some in He as [[<- <-]|[Hne He]].
    + split.
      * exists d. simpl. rewrite lookup_insert_eq, (endpoint_row_id request db Hok endpoint Hep).
        split_and!; try done. unfold EventService.request_fingerprint in Hfp. by repeat case_match.
      * intros k1 k2 r1 r2 H1 H2 E1 E2.
        apply (insert_lookup db _ d) in H1 as [[_ ->]|H1]; [|by destruct (Hnone _ _ H1)|done].
        apply (insert_lookup db _ d) in H2 as [[_ ->]|H2]; [done|by destruct (Hnone _ _ H2)|done].
      * simpl. eauto.
    + apply (insert_event db _ d Hinv Hf2) with (k := k); [done..|].
      simpl. intros E. pose proof (event_id_of db Hok k e He). congruence.
Qed.

(** A candidate that does not fit its columns fails with a data error. *)
Lemma insert_unfit env request key fp body db {A} (f : bool → tx A) e :
  length fp = 64 → text fp = true → body ≠ [] → epr_type request ≠ [] → key ≠ [] →
  request_fits request key = false →
  (inserted ← EventRepository.insert_if_absent (candidate env request key fp body); f inserted) db = Raise e →
  ∃ msg, e = DataErr msg.
Proof.
  intros Hl Ht Hb Hty Hk Hr Hrun.
  assert (Htypes : Event.types (candidate env request key fp body) = false).
  { rewrite candidate_types by done. unfold request_fits in Hr.
    assert (not_empty (epr_type request) = true) as E1 by (by destruct (epr_type request)).
    assert (not_empty key = true) as E2 by (by destruct key).
    by rewrite E1, E2, !andb_true_r in Hr. }
  revert Hrun. unfold mbind, tx_bind, EventRepository.insert_if_absent, insert_event_if_absent, check_row.
  rewrite Htypes. simpl. intros [= <-]. eauto.
Qed.

(** The failures after the insert of a candidate that fits. *)
Lemma publish_fails env request key db endpoint fp body e :
  inv db → events db !! uuid1 env = None → deliveries db !! uuid2 env = None →
  endpoints db !! epr_endpoint_id request = Some endpoint →
  EventService.request_fingerprint request = Ok fp →
  Event.types (candidate env request key fp body) = true →
  violated (Event.checks (candidate env request key fp body)) = None →
  canonical_json_bytes (EventService.payload_value (uuid1 env) (clock_now env) request) = Ok body →
  EventService.publish env request key db = Raise e →
  is_domain e = true ∨
  e = RuntimeErr (lit "accepted event is missing its initial delivery") ∧
  ∃ ev d, events db !! Event.id ev = Some ev ∧ deliveries db !! Delivery.id d = Some d ∧
    Delivery.event_id d = Event.id ev ∧ Delivery.endpoint_id d ≠ epr_endpoint_id request ∧
    Ok fp = canonical_sha256 (fingerprint_value (Delivery.endpoint_id d) (Event.event_type ev) (Event.payload ev)).
Proof.
  intros Hinv Hf1 Hf2 Hep Hfp Hty Hch Hb Hrun. pose proof (inv_ok db Hinv) as Hok.
  destruct (decide (map_Exists (λ _ e, EventRepository.by_key LOCAL_SOURCE key e) (events db)))
    as [(k & ev & Hev & Hk)|Hne].
  - assert (Event.id ev = k) as <- by (by apply (event_id_of db Hok)).
    rewrite (publish_existing env request key db Hok endpoint Hep fp Hfp body Hb Hty Hch ev) in Hrun; [|done..].
    unfold eqb_str in Hrun. case_bool_decide as Hfpe; [|injection Hrun as <-; by left].
    right. destruct (inv_event db Hinv _ ev Hev) as [(d & Hd & Ed & Hg & Hs) _ _].
    destruct (decide (Delivery.endpoint_id d = epr_endpoint_id request)) as [Ee|Hne].
    { erewrite tx_bind_Ok in Hrun by (by apply (get_initial_run db _ _ d)). done. }
    split; [|exists ev, d; split_and!; try done; by rewrite <- Hfpe, Hs].
    apply tx_bind_Raise_inv in Hrun as [Hrun|(od & db1 & Hget & Hrun)].
    { by destruct (wp_Raise _ _ _ _ _ (wp_get_initial db Hok (λ _, False) (Event.id ev)
        (epr_endpoint_id request) (λ _ _, True) ltac:(done) ltac:(done)) Hrun). }
    destruct od; [done|]. by injection Hrun as <-.
  - assert (Hn : ∀ k e, events db !! k = Some e → ¬ EventRepository.by_key LOCAL_SOURCE key e)
      by (intros k e' He' Hk; apply Hne; by exists k, e').
    destruct (Endpoint.enabled endpoint) eqn:Hen.
    + by rewrite (publish_new env request key db Hok endpoint Hep fp Hfp body Hb) in Hrun.
    + left. rewrite (publish_prefix env request key db endpoint Hep fp Hfp body Hb) in Hrun.
      erewrite tx_bind_Ok in Hrun by (apply insert_new; [done|done|apply key_unused; [done|by left]|done]).
      rewrite Hen in Hrun. by injection Hrun as <-.
Qed.

Lemma publish_keeps_inv env request key db :
  inv db → events db !! uuid1 env = None → deliveries db !! uuid2 env = None →
  inv (run_tx (EventService.publish env request key) db).2.
Proof.
  intros Hinv Hf1 Hf2. pose proof (inv_ok db Hinv) as Hok.
  destruct (run_tx _ db) as [[p|e] db'] eqn:Hrun; [|by apply run_tx_Raise in Hrun as [_ ->]].
  apply run_tx_Ok in Hrun.
  apply publish_Ok in Hrun as (ep & fp & body & Hep & Hfp & Hb & _ & _ & Hcase); [|done].
  destruct Hcase as [(_ & _ & _ & _ & _ & -> & Hok1)|(e & d & _ & _ & _ & _ & _ & _ & _ & ->)]; [|done].
  by apply accepted_inv.
Qed.

(** On a database that satisfies the invariant a publication keeps it, and can only fail with a
    documented domain error, with the surrogate error of the encoder, with a value that does not fit
    its column, or with the internal error for a fingerprint that equals the one of a request for
    another endpoint; no integrity error can surface. *)
Theorem publish_preserves env request key db :
  inv db → events db !! uuid1 env = None → deliveries db !! uuid2 env = None →
  epr_type request ≠ [] → key ≠ [] →
  let '(r, db') := run_tx (EventService.publish env request key) db in
  inv db' ∧
  match r with
  | Ok _ => True
  | Raise e =>
      db' = db ∧
      (is_domain e = true ∨
       (e = UnicodeEncodeErr ∧ EventService.request_fingerprint request = Raise UnicodeEncodeErr) ∨
       (request_fits request key = false ∧ ∃ msg, e = DataErr msg) ∨
       (e = RuntimeErr (lit "accepted event is missing its initial delivery") ∧
        ∃ ev d, events db !! Event.id ev = Some ev ∧ deliveries db !! Delivery.id d = Some d ∧
          Delivery.event_id d = Event.id ev ∧ Delivery.endpoint_id d ≠ epr_endpoint_id request ∧
          EventService.request_fingerprint request =
            canonical_sha256 (fingerprint_value (Delivery.endpoint_id d) (Event.event_type ev) (Event.payload ev))))
  end.
Proof.
  intros Hinv Hf1 Hf2 Hty Hkey. pose proof (inv_ok db Hinv) as Hok.
  pose proof (publish_keeps_inv env request key db Hinv Hf1 Hf2) as Hinv'.
  destruct (run_tx _ db) as [[p|e] db'] eqn:Hrun; [done|].
  apply run_tx_Raise in Hrun as [Hrun ->]. split; [done|]. split; [done|]. pose proof Hrun as Hraise.
  unfold EventService.publish in Hrun. erewrite tx_bind_Ok in Hrun by done. cbv beta in Hrun.
  destruct (endpoints db !! _) as [ep|] eqn:Hep; [|injection Hrun as <-; by left].
  destruct (EventService.request_fingerprint request) as [fp|e'] eqn:Hfp.
  2: { injection Hrun as <-. destruct (request_fingerprint_errors _ _ Hfp) as [->| ->]; [by left|right; left]. split; congruence. }
  destruct (payload_encodes (uuid1 env) (clock_now env) request fp Hfp) as [(b & Hb & Hbn) [Hl Ht]].
  destruct (decide (request_fits request key = true)) as [Hr|Hr%not_true_is_false].
  - destruct (proj2 (candidate_fits env request key fp b Hl Ht Hbn) Hr) as [Hty' Hch'].
    destruct (publish_fails env request key db ep fp b e) as [?|?]; [done..|by left|by do 3 right].
  - right; right; left. split; [done|].
    rewrite (publish_prefix env request key db ep Hep fp Hfp b Hb) in Hraise. by eapply insert_unfit, Hraise.
Qed.


Lemma publish_rejects_witness :
  run_tx (EventService.publish lab_env (mkEventPublishRequest 8 (lit "a") []) lab_key) lab_db =
    (Raise (EventService.endpoint_not_found 8), lab_db).
Proof.
  apply (publish_rejects lab_env (mkEventPublishRequest 8 (lit "a") []) lab_key lab_db lab_inv). reflexivity.
Defined.

Lemma publish_preserves_witness :
  inv (run_tx (EventService.publish lab_env lab_request lab_key) lab_db).2.
Proof.
  pose proof (publish_preserves lab_env lab_request lab_key lab_db lab_inv eq_refl eq_refl ltac:(discriminate)
    ltac:(discriminate)) as H.
  destruct (run_tx _ _) as [r db']. apply H.
Defined.

(** The example database after the publication. *)
Definition lab_accepted : Db :=
  Eval vm_compute in (run_tx (EventService.publish lab_env lab_request lab_key) lab_db).2.

Lemma lab_accepted_inv : inv lab_accepted.
Proof.
  assert (E : (run_tx (EventService.publish lab_env lab_request lab_key) lab_db).2 = lab_accepted)
    by (vm_compute; reflexivity).
  rewrite <- E. by apply publish_keeps_inv; [apply lab_inv|..].
Qed.
