(* ===== verification/Replaying.v ===== *)
(** What [ReplayService.replay] guarantees, through an abstract specification of its
    decision that the code refines. *)
From S2P Require Import Prelude PyStr Errors Json Serialization Retry StateMachine Models Database Repositories.
From S2P Require Import Invariant Generations Services Fixtures Publishing.
From Stdlib Require Import ZArith.

Import DeliveryRepository ReplayService.

(** The source of a replay request that no earlier replay answers. *)
Definition unanswered (db : Db) (k : UUID) (key : pystr) (source : Delivery) : Prop :=
  deliveries db !! k = Some source ∧ ∀ k' d, deliveries db !! k' = Some d → ¬ by_replay_request k key d.

(** ... and that the state of its chain allows. *)
Definition replayable (db : Db) (k : UUID) (key : pystr) (source : Delivery) : Prop :=
  unanswered db k key source ∧ latest db source ∧ Delivery.status source = DEAD_LETTERED.

(** ... and that neither the receiver's evidence nor the endpoint forbids. *)
Definition permitted (db : Db) (k : UUID) (key : pystr) (source : Delivery) (endpoint : Endpoint) : Prop :=
  replayable db k key source ∧ block_code_of (attempt_rows db k) = Ok None ∧
  endpoints db !! Delivery.endpoint_id source = Some endpoint.

Definition data_error : exn := DataErr (lit "value out of range for its column").

(** The decision on a replay request, branch by branch, as a relation between the database and the
    answer with the database after it. *)
Inductive replay_spec (env : Env) (k : UUID) (key : pystr) (db : Db) : outcome ReplayedDelivery * Db → Prop :=
| rs_missing :
    deliveries db !! k = None → replay_spec env k key db (Raise (delivery_not_found k), db)
| rs_again source d :
    deliveries db !! k = Some source → deliveries db !! Delivery.id d = Some d →
    by_replay_request k key d →
    replay_spec env k key db (Ok (mkReplayedDelivery source d true), db)
| rs_superseded source l :
    unanswered db k key source → deliveries db !! Delivery.id l = Some l →
    in_chain (Delivery.event_id source) (Delivery.endpoint_id source) l → latest db l →
    (Delivery.replay_generation source < Delivery.replay_generation l)%Z →
    replay_spec env k key db (Raise (superseded k (Delivery.id l)), db)
| rs_not_dead source :
    unanswered db k key source → latest db source → Delivery.status source ≠ DEAD_LETTERED →
    replay_spec env k key db (Raise (not_replayable k (Delivery.status source)), db)
| rs_unparsed source e :
    replayable db k key source → block_code_of (attempt_rows db k) = Raise e →
    replay_spec env k key db (Raise e, db)
| rs_blocked source c :
    replayable db k key source → block_code_of (attempt_rows db k) = Ok (Some c) →
    replay_spec env k key db (Raise (blocked c), db)
| rs_disabled source endpoint :
    permitted db k key source endpoint → Endpoint.enabled endpoint = false →
    replay_spec env k key db (Raise (endpoint_disabled (Endpoint.id endpoint)), db)
| rs_unfit source endpoint :
    permitted db k key source endpoint → Endpoint.enabled endpoint = true →
    Delivery.types (next_generation env source key) = false →
    replay_spec env k key db (Raise data_error, db)
| rs_accept source endpoint :
    permitted db k key source endpoint → Endpoint.enabled endpoint = true →
    let d := next_generation env source key in
    Delivery.types d = true →
    replay_spec env k key db
      (Ok (mkReplayedDelivery source d false), set_deliveries (<[Delivery.id d := d]> (deliveries db)) db).

Section replay.
Context (env : Env) (key : pystr) (db : Db) (Hinv : inv db).
Context (Hfresh : deliveries db !! uuid1 env = None) (Hkey : key ≠ []).
Let Hok : db_ok db := inv_ok db Hinv.

Lemma get_for_update_run k : get_for_update k db = Ok (deliveries db !! k, db).
Proof.
  assert (Hr : reads (get_for_update k) db (λ o, o = deliveries db !! k)).
  { apply wp_reads, (wp_find_id (row := Delivery) deliveries); [apply Hok|done]. }
  destruct Hr as (o & -> & ->). done.
Qed.

Lemma lock_event_run k d :
  deliveries db !! k = Some d → ∃ e, EventRepository.get_for_update (Delivery.event_id d) db = Ok (Some e, db).
Proof.
  intros Hd. destruct (ok_delivery_event db Hok k d Hd) as [e He].
  assert (Hr : reads (EventRepository.get_for_update (Delivery.event_id d)) db (λ o, o = Some e)).
  { apply wp_reads, (wp_find_id (row := Event) events); [apply Hok|done]. }
  destruct Hr as (o & -> & ->). eauto.
Qed.

Lemma replay_request_reads k :
  reads (get_by_replay_request k key) db (λ o, match o with
    | Some d => by_replay_request k key d ∧ deliveries db !! Delivery.id d = Some d
    | None => ∀ k' d, deliveries db !! k' = Some d → ¬ by_replay_request k key d
    end).
Proof. apply wp_reads, wp_get_by_replay_request; auto. Qed.

Lemma latest_reads k source :
  deliveries db !! k = Some source →
  reads (get_latest (Delivery.event_id source) (Delivery.endpoint_id source)) db (λ o, ∃ l, o = Some l ∧
    deliveries db !! Delivery.id l = Some l ∧ latest db l ∧
    in_chain (Delivery.event_id source) (Delivery.endpoint_id source) l ∧
    (Delivery.replay_generation source ≤ Delivery.replay_generation l)%Z).
Proof.
  intros Hs. apply wp_reads, wp_get_latest; [done|..].
  - intros l [E1 E2] Hl Hmax. split; [done|]. exists l. split_and!; try done.
    + intros k' d' Hd' [E3 E4]. apply (Hmax k' d' Hd'). split; congruence.
    + by apply (Hmax k source).
  - intros Hn. by destruct (Hn k source Hs).
Qed.

(** The source being the latest and dead-lettered, nothing in its chain is active. *)
Lemma no_active k source :
  deliveries db !! k = Some source → latest db source → Delivery.status source = DEAD_LETTERED →
  ∀ k' d, deliveries db !! k' = Some d →
    in_chain (Delivery.event_id source) (Delivery.endpoint_id source) d → active (Delivery.status d) = false.
Proof.
  intros Hs Hl Hst k' d Hd Hc. destruct Hc as [E1 E2]. apply not_true_is_false. intros Ha.
  pose proof (active_latest db Hinv k' d Hd Ha k source Hs ltac:(by split)) as H1.
  pose proof (Hl k' d Hd ltac:(by split)) as H2.
  assert (k = k') as <-
    by (apply (same_generation_eq db Hinv k k' source d); [done|done|by split|lia]).
  simplify_eq. by rewrite Hst in Ha.
Qed.

Lemma no_active_run k source :
  deliveries db !! k = Some source → latest db source → Delivery.status source = DEAD_LETTERED →
  get_active (Delivery.event_id source) (Delivery.endpoint_id source) db = Ok (None, db).
Proof.
  intros Hs Hl Hst.
  assert (Hr : reads (get_active (Delivery.event_id source) (Delivery.endpoint_id source)) db (λ o, o = None)).
  { apply wp_reads, wp_get_active; [done| |done]. intros d Hc Ha Hd.
    by rewrite (no_active k source Hs Hl Hst _ d Hd Hc) in Ha. }
  by destruct Hr as (o & -> & ->).
Qed.

(** The row of the next generation satisfies the constraints. *)
Lemma next_constraints k source :
  deliveries db !! k = Some source → latest db source → Delivery.status source = DEAD_LETTERED →
  (∀ k' d, deliveries db !! k' = Some d → ¬ by_replay_request k key d) →
  violated (delivery_constraints db (next_generation env source key)) = None.
Proof.
  intros Hs Hl Hst Hn. pose proof (generation_nonneg db Hinv k source Hs) as Hg.
  pose proof (delivery_id_of db Hok k source Hs) as Hid.
  apply delivery_constraints_None. split_and!.
  - apply violated_None. unfold Delivery.checks. rewrite !Forall_cons, Forall_nil. simpl.
    split_and!; try done; [lia|by destruct key].
  - apply (ok_delivery_event db Hok k source Hs).
  - apply (ok_delivery_endpoint db Hok k source Hs).
  - simpl. intros s [= <-]. right. rewrite Hid. eauto.
  - intros k' d Hd. right. intros [(E1 & E2 & E3)|[(E1 & E2 & _)|(E1 & E2 & _ & Ha)]]; simpl in *.
    + pose proof (Hl k' d Hd ltac:(split; congruence)). lia.
    + apply (Hn k' d Hd). split; congruence.
    + by rewrite (no_active k source Hs Hl Hst k' d Hd ltac:(split; congruence)) in Ha.
Qed.

Lemma accept_run k source endpoint :
  permitted db k key source endpoint → Endpoint.enabled endpoint = true →
  replay_spec env k key db (run_tx (
    replay ← DeliveryRepository.create (next_generation env source key);
    mret (mkReplayedDelivery source replay false)) db).
Proof.
  intros Hp Hen. pose proof Hp as (((Hs & Hn) & Hl & Hst) & _ & _).
  pose proof (next_constraints k source Hs Hl Hst Hn) as Hc.
  destruct (Delivery.types (next_generation env source key)) eqn:Ht.
  - unfold run_tx. erewrite tx_bind_Ok.
    2: { unfold create. erewrite tx_bind_Ok; [done|]. by apply insert_delivery_run. }
    by apply (rs_accept env k key db source endpoint).
  - unfold run_tx, mbind, tx_bind, create, insert_delivery. unfold mbind, tx_bind.
    rewrite bool_decide_eq_false_2 by (simpl; rewrite Hfresh; by intros [? ?]).
    unfold check_row. rewrite Ht. simpl. by eapply rs_unfit.
Qed.

Lemma replay_source_run k source :
  deliveries db !! k = Some source →
  (∀ k' d, deliveries db !! k' = Some d → ¬ by_replay_request k key d) →
  replay_spec env k key db (run_tx (replay_source env k source key) db).
Proof.
  intros Hs Hn. pose proof (delivery_id_of db Hok k source Hs) as Hid. unfold replay_source.
  destruct (latest_reads k source Hs) as (o & E & l & -> & Hl & Hlat & [Hc1 Hc2] & Hle).
  unfold run_tx. erewrite tx_bind_Ok by exact E. cbv beta iota.
  destruct (bool_decide (Delivery.id l = Delivery.id source)) eqn:Eid; cbn [negb]; bool_simpl.
  2: { apply (rs_superseded env k key db source l); [done|done|by split|done|].
       destruct (decide (Delivery.replay_generation source = Delivery.replay_generation l)); [|lia].
       destruct Eid. rewrite Hid. symmetry.
       by apply (same_generation_eq db Hinv k _ source l). }
  assert (l = source) as -> by congruence. clear E Hc1 Hc2 Hle.
  destruct (bool_decide (Delivery.status source = DEAD_LETTERED)) eqn:Hst; cbn [negb]; bool_simpl;
    [|by apply rs_not_dead].
  erewrite tx_bind_Ok by done. cbv beta iota. rewrite Hid.
  destruct (block_code_of (attempt_rows db k)) as [[c|]|e] eqn:Hb.
  - erewrite tx_bind_Ok by done. by eapply rs_blocked, Hb.
  - erewrite tx_bind_Ok by done. cbv beta iota.
    erewrite tx_bind_Ok by (by apply (no_active_run k source)). cbv beta iota.
    erewrite tx_bind_Ok by done. cbv beta iota.
    destruct (ok_delivery_endpoint db Hok k source Hs) as [endpoint Hep]. rewrite Hep.
    destruct (Endpoint.enabled endpoint) eqn:Hen; cbn [negb]; [|by eapply rs_disabled].
    by apply (accept_run k source endpoint); [split_and!|].
  - erewrite tx_bind_Raise by done. by eapply rs_unparsed, Hb.
Qed.

Lemma replay_refines k : replay_spec env k key db (run_tx (replay env k key) db).
Proof.
  unfold replay. unfold run_tx. erewrite tx_bind_Ok by done. cbv beta iota.
  destruct (deliveries db !! k) as [source|] eqn:Hs; [|by apply rs_missing].
  destruct (lock_event_run k source Hs) as [e He]. erewrite tx_bind_Ok by exact He. cbv beta iota.
  erewrite tx_bind_Ok by apply get_for_update_run. cbv beta iota. rewrite Hs. cbn match.
  pose proof (delivery_id_of db Hok k source Hs) as Hid. rewrite Hid.
  destruct (replay_request_reads k) as (o & E & Ho). erewrite tx_bind_Ok by exact E. cbv beta iota.
  destruct o as [d|].
  - destruct Ho as [Hr Hd]. by eapply rs_again.
  - by apply (replay_source_run k source).
Qed.
End replay.

Lemma block_code_of_errors l e : block_code_of l = Raise e → ∃ msg, e = ValueErr msg.
Proof.
  unfold block_code_of. destruct (last l) as [a|]; [|done]. apply replay_block_code_errors.
Qed.

(** The new generation satisfies the invariant. *)
Lemma next_generation_inv env k key db source :
  inv db → deliveries db !! k = Some source → Delivery.status source = DEAD_LETTERED →
  deliveries db !! uuid1 env = None →
  let d := next_generation env source key in
  db_ok (set_deliveries (<[Delivery.id d := d]> (deliveries db)) db) →
  inv (set_deliveries (<[Delivery.id d := d]> (deliveries db)) db).
Proof.
  intros Hinv Hs Hst Hf d Hok'.
  pose proof (delivery_id_of db (inv_ok db Hinv) k source Hs) as Hid.
  assert (Hdue : is_Some (Delivery.next_attempt_at d)) by (simpl; eauto).
  assert (Hc : chain_inv db d).
  { split; simpl.
    - pose proof (generation_nonneg db Hinv k source Hs). split; [lia|done].
    - intros s [= <-]. exists source. rewrite Hid. split_and!; [done|by split|lia|done]. }
  split; [done|..].
  - by apply (insert_progress db _ d Hinv).
  - intros k' r. by apply (insert_chain db _ d Hinv).
  - intros k' e He. apply (insert_event db _ d Hinv Hf) with (k := k'); [done..|].
    intros E. exists k, source. done.
Qed.

Lemma replay_keeps_inv env k key db :
  inv db → deliveries db !! uuid1 env = None → key ≠ [] → inv (run_tx (replay env k key) db).2.
Proof.
  intros Hinv Hf Hkey. pose proof (replay_refines env key db Hinv Hf Hkey k) as Hspec.
  destruct Hspec as [| | | | | | | |source endpoint Hp Hen d Ht]; try done. simpl.
  pose proof Hp as (((Hs & Hn) & Hl & Hst) & _ & _).
  apply (next_generation_inv env k key db source); try done.
  apply (set_delivery_ok db d); [by apply inv_ok|done|].
  by apply (next_constraints env key db Hinv Hkey k source).
Qed.

(** ** The specification is deterministic *)

Lemma latest_unique db l l' :
  inv db → deliveries db !! Delivery.id l = Some l → deliveries db !! Delivery.id l' = Some l' →
  in_chain (Delivery.event_id l) (Delivery.endpoint_id l) l' → latest db l → latest db l' → l = l'.
Proof.
  intros Hinv Hl Hl' [E1 E2] H1 H2.
  pose proof (H1 _ l' Hl' ltac:(by split)). pose proof (H2 _ l Hl ltac:(by split)).
  assert (Delivery.id l = Delivery.id l')
    by (apply (same_generation_eq db Hinv _ _ l l'); [done|done|by split|lia]).
  congruence.
Qed.

Lemma replay_answer_unique db k key d d' :
  db_ok db → deliveries db !! Delivery.id d = Some d → deliveries db !! Delivery.id d' = Some d' →
  by_replay_request k key d → by_replay_request k key d' → d = d'.
Proof.
  intros Hok Hd Hd' [E1 E2] [E3 E4].
  assert (Delivery.id d = Delivery.id d'); [|congruence].
  apply (ok_delivery_unique db Hok _ _ d d'); [done..|]. right; left.
  split_and!; [congruence|congruence|by rewrite E1|by rewrite E2].
Qed.

Lemma replay_spec_det env k key db r r' :
  inv db → replay_spec env k key db r → replay_spec env k key db r' → r = r'.
Proof.
  intros Hinv Hr Hr'. pose proof (inv_ok db Hinv) as Hok.
  destruct Hr, Hr'; unfold permitted, replayable, unanswered in *; destruct_and?; simplify_eq; try done;
    repeat match goal with d := _ |- _ => subst d end; try congruence;
    try (exfalso; match goal with
      | H : ∀ k' d, deliveries _ !! k' = Some d → ¬ _, Hd : deliveries _ !! _ = Some ?d, Hb : by_replay_request _ _ ?d |- _ =>
          by apply (H _ _ Hd)
      | Hl : latest _ ?s, Hd : deliveries _ !! _ = Some ?d, Hc : in_chain _ _ ?d |- _ =>
          pose proof (Hl _ _ Hd Hc); lia
      end).
  - by rewrite (replay_answer_unique db k key d d0).
  - match goal with H : in_chain _ _ l, H' : in_chain _ _ l0 |- _ => destruct H as [E1 E2], H' as [E3 E4] end.
    rewrite (latest_unique db l l0); try done. split; congruence.
Qed.

(** ** Properties *)

(** C16: [replay] implements its specification exactly: on a database that satisfies the invariant,
    with a fresh identifier and a key that is not empty, its answer and the database after it are
    the ones the specification's branches allow, and no other: a source that does not exist, a request
    already answered, a superseded source, a source that is not dead-lettered, evidence that blocks
    or cannot be read, a disabled endpoint, values that do not fit, and acceptance of one pending
    delivery of the next generation. *)
Theorem replay_exact env k key db r :
  inv db → deliveries db !! uuid1 env = None → key ≠ [] →
  run_tx (replay env k key) db = r ↔ replay_spec env k key db r.
Proof.
  intros Hinv Hf Hkey. pose proof (replay_refines env key db Hinv Hf Hkey k) as Hspec.
  split; [by intros <-|]. by apply replay_spec_det.
Qed.

(** A replay never rewrites history: every delivery, attempt, event and endpoint of before is
    unchanged after it, at most one delivery is added, the invariant is kept, and the only failures
    are domain errors, the uncaught error of an over-long integer in the receiver's answer, and a
    value that does not fit its column. *)
Theorem replay_preserves env k key db :
  inv db → deliveries db !! uuid1 env = None → key ≠ [] →
  let '(r, db') := run_tx (replay env k key) db in
  inv db' ∧ endpoints db' = endpoints db ∧ events db' = events db ∧ attempts db' = attempts db ∧
  (∀ k' d, deliveries db !! k' = Some d → deliveries db' !! k' = Some d) ∧
  (∀ k', k' ≠ uuid1 env → deliveries db' !! k' = deliveries db !! k') ∧
  match r with
  | Ok p => deliveries db' !! Delivery.id (rd_delivery p) = Some (rd_delivery p)
  | Raise e => db' = db ∧ (is_domain e = true ∨ (∃ msg, e = ValueErr msg) ∨ e = data_error)
  end.
Proof.
  intros Hinv Hf Hkey. pose proof (replay_refines env key db Hinv Hf Hkey k) as Hspec.
  pose proof (replay_keeps_inv env k key db Hinv Hf Hkey) as Hinv'.
  destruct Hspec as [| | | |source e Hr Hb| | | |source endpoint Hp Hen d Ht]; simpl in *;
    try (split_and!; by auto).
  - split_and!; try done. right; left. by eapply block_code_of_errors.
  - split_and!; try done.
    + intros k' d' Hd'. rewrite lookup_insert_ne; [done|]. intros <-. congruence.
    + intros k' Hne. by rewrite lookup_insert_ne.
    + by rewrite lookup_insert_eq.
Qed.

(** ** Examples *)

(** The example delivery after it was dead-lettered. *)
Definition lab_dead_delivery : Delivery :=
  Delivery.set_next_attempt_at None
    (Delivery.set_status DEAD_LETTERED (EventService.initial_delivery lab_env lab_endpoint)).

Definition lab_dead : Db := set_deliveries (<[101%N := lab_dead_delivery]> (deliveries lab_accepted)) lab_accepted.

Lemma lab_dead_inv : inv lab_dead.
Proof.
  apply (update_inv lab_accepted lab_dead (EventService.initial_delivery lab_env lab_endpoint) lab_dead_delivery);
    try reflexivity; [exact lab_accepted_inv| |].
  - apply (set_delivery_ok lab_accepted lab_dead_delivery (inv_ok _ lab_accepted_inv)); vm_compute; reflexivity.
  - assert (Hn : ∀ n a, ¬ attempt_of lab_dead 101 n a)
      by (intros n a [Ha _]; vm_compute in Ha; done).
    split; try done.
    + intros n. split; [intros [a Ha]; by apply Hn in Ha|simpl; lia].
    + intros n a Ha. by apply Hn in Ha.
    + simpl. split; [by intros [? ?]|by intros [?|?]].
Qed.

Definition lab_replay_env : Env := mkEnv 300 301 1700000100000000 1700000100500000.
Definition lab_replay_key : pystr := lit "replay-1".

Lemma replay_exact_witness :
  ∃ source, deliveries lab_dead !! 101%N = Some source ∧
    let d := next_generation lab_replay_env source lab_replay_key in
    replay_spec lab_replay_env 101 lab_replay_key lab_dead
      (Ok (mkReplayedDelivery source d false), set_deliveries (<[Delivery.id d := d]> (deliveries lab_dead)) lab_dead).
Proof.
  exists lab_dead_delivery. split; [vm_compute; reflexivity|].
  apply (replay_exact lab_replay_env 101 lab_replay_key lab_dead); [exact lab_dead_inv|vm_compute; reflexivity|discriminate|].
  vm_compute. reflexivity.
Defined.

Lemma replay_preserves_witness :
  let '(r, db') := run_tx (replay lab_replay_env 101 lab_replay_key) lab_dead in
  inv db' ∧ is_ok r = true ∧ deliveries db' !! 101%N = Some lab_dead_delivery.
Proof.
  pose proof (replay_preserves lab_replay_env 101 lab_replay_key lab_dead lab_dead_inv
    ltac:(vm_compute; reflexivity) ltac:(discriminate)) as H.
  assert (Hr : is_ok (run_tx (replay lab_replay_env 101 lab_replay_key) lab_dead).1 = true)
    by (vm_compute; reflexivity).
  destruct (run_tx _ lab_dead) as [r db']. destruct H as (Hi & _ & _ & _ & Hk & _).
  split; [exact Hi|]. split; [exact Hr|]. apply Hk. vm_compute. reflexivity.
Defined.

Lemma generation_chain_witness :
  deliveries lab_dead !! 101%N = Some lab_dead_delivery ∧ Delivery.replayed_from_delivery_id lab_dead_delivery ≠ Some 101%N.
Proof.
  assert (Hd : deliveries lab_dead !! 101%N = Some lab_dead_delivery) by (vm_compute; reflexivity).
  split; [exact Hd|]. destruct (generation_chain lab_dead 101 lab_dead_delivery lab_dead_inv Hd) as (_ & _ & H).
  intros E. destruct (H _ _ _ _ Hd Hd E E) as [_ Hg]. lia.
Defined.
