(* ===== verification/Maintenance.v ===== *)
(** [maintenance.py]: the retention job, which deletes the oldest events whose deliveries are
    all terminal, in bounded batches, inside one transaction.

    The candidates are read without a lock, and each statement sees what other transactions
    committed before it: the functions [others] give what they commit between the candidate
    query of a batch and its deletions. *)
From S2P Require Import Prelude PyStr Errors StateMachine Models Datetime Database Repositories Invariant Config.
From S2P Require Import Services Fixtures Publishing Replaying.
From Stdlib Require Import ZArith.

(** ** Deletion *)

(** The foreign key of a replay to its source. *)
Definition source_in (tbl : gmap UUID Delivery) (d : Delivery) : Prop :=
  match Delivery.replayed_from_delivery_id d with
  | Some s => is_Some (tbl !! s)
  | None => True
  end.

#[export] Instance source_in_dec tbl d : Decision (source_in tbl d).
Proof. unfold source_in. destruct (Delivery.replayed_from_delivery_id d); apply _. Defined.

(** [DELETE FROM deliveries WHERE P]: attempts cascade, a remaining replay restricts. *)
Definition delete_deliveries (P : Delivery → Prop) `{!∀ d, Decision (P d)} : tx unit := λ db,
  let kept := filter (λ row, ¬ P row.2) (deliveries db) in
  if bool_decide (map_Forall (λ _ d, source_in kept d) kept) then
    Ok (tt, set_attempts (filter (λ row, is_Some (kept !! DeliveryAttempt.delivery_id row.2)) (attempts db))
              (set_deliveries kept db))
  else Raise (IntegrityErr (lit "fk_deliveries_replayed_from_delivery_id_deliveries")).

(** [DELETE FROM events WHERE id IN ids RETURNING id]: a remaining delivery restricts. *)
Definition delete_events (ids : list UUID) : tx (list UUID) := λ db,
  if bool_decide (map_Forall (λ _ d, Delivery.event_id d ∉ ids) (deliveries db)) then
    Ok (Event.id <$> select (λ e, Event.id e ∈ ids) (events db),
        set_events (filter (λ row, Event.id row.2 ∉ ids) (events db)) db)
  else Raise (IntegrityErr (lit "fk_deliveries_event_id_events")).

(** ** The batch *)

Definition MAINTENANCE_LOCK_ID : Z := 4815162342.

Definition ACTIVE_DELIVERY_STATUSES : list DeliveryStatus := [PENDING; IN_PROGRESS; RETRY_WAIT].

Record CleanupResult := mkCleanupResult {
  lock_acquired : bool;
  deleted_events : Z;
  batches : Z
}.

Definition has_active_delivery (db : Db) (e : Event) : Prop :=
  select (λ d, Delivery.event_id d = Event.id e ∧ Delivery.status d ∈ ACTIVE_DELIVERY_STATUSES) (deliveries db) ≠ [].

#[export] Instance has_active_delivery_dec db e : Decision (has_active_delivery db e).
Proof. unfold has_active_delivery. apply _. Defined.

(** The candidate statement without its limit. *)
Definition expired_events (cutoff : datetime) (db : Db) : list Event :=
  order_by key_le (λ e, (Event.created_at e, Event.id e))
    (select (λ e, (Event.created_at e < cutoff)%Z ∧ ¬ has_active_delivery db e) (events db)).

(** What other transactions commit at a point of this one. *)
Definition interleave (others : Db → Db) : tx unit := λ db, Ok (tt, others db).

(** The two deletions of [maintenance._delete_terminal_event_batch]. *)
Definition delete_batch (event_ids : list UUID) : tx Z :=
  _ ← delete_deliveries (λ d, Delivery.event_id d ∈ event_ids);
  deleted ← delete_events event_ids;
  mret (Z.of_nat (length deleted)).

(** [maintenance._delete_terminal_event_batch] *)
Definition _delete_terminal_event_batch (others : Db → Db) (cutoff : datetime) (limit : Z) : tx Z :=
  event_ids ← query (λ db, Event.id <$> take (Z.to_nat limit) (expired_events cutoff db));
  match event_ids with
  | [] => mret 0%Z
  | _ =>
      _ ← interleave others;
      delete_batch event_ids
  end.

(** The loop of [purge_expired_demo_events]; [None] when the fuel is spent. *)
Fixpoint purge_loop (fuel : nat) (others : nat → Db → Db) (cutoff : datetime)
  (batch_size max_events deleted_events batches : Z) : tx (option (Z * Z)) :=
  if (deleted_events <? max_events)%Z then
    match fuel with
    | O => mret None
    | S fuel =>
        let limit := Z.min batch_size (max_events - deleted_events) in
        deleted ← _delete_terminal_event_batch (others fuel) cutoff limit;
        if (deleted =? 0)%Z then mret (Some (deleted_events, batches))
        else purge_loop fuel others cutoff batch_size max_events (deleted_events + deleted) (batches + 1)
    end
  else mret (Some (deleted_events, batches)).

(** [maintenance.purge_expired_demo_events]; [cutoff] is [None] for a naive datetime. *)
Definition purge_expired_demo_events (lock : bool) (others : nat → Db → Db) (cutoff : option datetime)
  (batch_size max_events : Z) : tx CleanupResult :=
  match cutoff with
  | None => raise (ValueErr (lit "cutoff must be timezone-aware"))
  | Some cutoff =>
      if (batch_size <? 1)%Z then raise (ValueErr (lit "batch_size must be at least one"))
      else if (max_events <? 1)%Z then raise (ValueErr (lit "max_events must be at least one"))
      else if negb lock then mret (mkCleanupResult false 0 0)
      else
        counts ← purge_loop (Z.to_nat max_events) others cutoff batch_size max_events 0 0;
        match counts with
        | Some (deleted_events, batches) => mret (mkCleanupResult true deleted_events batches)
        | None => raise (RuntimeErr (lit "purge loop out of fuel"))
        end
  end.

(** [maintenance.run_cleanup] *)
Definition run_cleanup (s : Settings) (lock : bool) (others : nat → Db → Db) (now : datetime) : tx CleanupResult :=
  cutoff ← lift (datetime_add now (- (retention_days s * 86400000000)));
  purge_expired_demo_events lock others (Some cutoff) (retention_batch_size s) (retention_max_events_per_run s).

(** ** The database without some events *)

Definition remove_events (ids : list UUID) (db : Db) : Db :=
  let kept := filter (λ row, Delivery.event_id row.2 ∉ ids) (deliveries db) in
  mkDb (endpoints db) (filter (λ row, Event.id row.2 ∉ ids) (events db)) kept
    (filter (λ row, is_Some (kept !! DeliveryAttempt.delivery_id row.2)) (attempts db)).

Section remove.
Context (ids : list UUID) (db : Db).

Lemma remove_events_Some k e :
  events (remove_events ids db) !! k = Some e ↔ events db !! k = Some e ∧ Event.id e ∉ ids.
Proof. simpl. by rewrite map_lookup_filter_Some. Qed.

Lemma remove_deliveries_Some k d :
  deliveries (remove_events ids db) !! k = Some d ↔ deliveries db !! k = Some d ∧ Delivery.event_id d ∉ ids.
Proof. simpl. by rewrite map_lookup_filter_Some. Qed.

Lemma remove_attempts_Some k a :
  attempts (remove_events ids db) !! k = Some a ↔
  attempts db !! k = Some a ∧
  ∃ d, deliveries db !! DeliveryAttempt.delivery_id a = Some d ∧ Delivery.event_id d ∉ ids.
Proof.
  simpl. rewrite map_lookup_filter_Some. simpl. f_equiv. unfold is_Some.
  setoid_rewrite map_lookup_filter_Some. done.
Qed.

Context (Hinv : inv db).

Lemma remove_ok : db_ok (remove_events ids db).
Proof.
  destruct (inv_ok db Hinv) as [Kn Ke Kd Ka Re Rv Rd Ra Uv Ud Ua Fv Fe Fs Fa]. split; try done.
  - intros k e [He _]%remove_events_Some. by apply Ke.
  - intros k d [Hd _]%remove_deliveries_Some. by apply Kd.
  - intros k a [Ha _]%remove_attempts_Some. by apply Ka.
  - intros k e [He _]%remove_events_Some. eauto.
  - intros k d [Hd _]%remove_deliveries_Some. eauto.
  - intros k a [Ha _]%remove_attempts_Some. eauto.
  - intros k k' e e' [He _]%remove_events_Some [He' _]%remove_events_Some. eauto.
  - intros k k' d d' [Hd _]%remove_deliveries_Some [Hd' _]%remove_deliveries_Some. eauto.
  - intros k k' a a' [Ha _]%remove_attempts_Some [Ha' _]%remove_attempts_Some. eauto.
  - intros k d [Hd Hn]%remove_deliveries_Some. destruct (Fv k d Hd) as [e He].
    exists e. apply remove_events_Some. split; [done|]. by rewrite (Ke _ e He : Event.id e = _).
  - intros k d [Hd _]%remove_deliveries_Some. eauto.
  - intros k d s [Hd Hn]%remove_deliveries_Some Hs.
    destruct (ci_source db d (inv_chain db Hinv k d Hd) s Hs) as (ds & Hds & [Hev _] & _).
    exists ds. apply remove_deliveries_Some. by rewrite Hev.
  - intros k a [Ha (d & Hd & Hn)]%remove_attempts_Some. exists d. by apply remove_deliveries_Some.
Qed.

Lemma remove_attempt_of k d n a :
  deliveries db !! k = Some d → Delivery.event_id d ∉ ids →
  attempt_of (remove_events ids db) k n a ↔ attempt_of db k n a.
Proof.
  intros Hd Hn. unfold attempt_of. rewrite remove_attempts_Some. split; [tauto|].
  intros (Ha & E1 & E2). split_and!; [done| |done..]. exists d. by rewrite E1.
Qed.

Lemma remove_inv : inv (remove_events ids db).
Proof.
  split; [apply remove_ok|..].
  - intros k d [Hd Hn]%remove_deliveries_Some.
    assert (Hat : ∀ n a, attempt_of (remove_events ids db) (Delivery.id d) n a ↔ attempt_of db (Delivery.id d) n a).
    { intros n a. apply remove_attempt_of with d; [|done].
      by rewrite (delivery_id_of db (inv_ok db Hinv) k d Hd). }
    destruct (inv_progress db Hinv k d Hd). split; try done.
    + intros n. setoid_rewrite Hat. done.
    + setoid_rewrite Hat. done.
    + intros n a. rewrite Hat. eauto.
    + setoid_rewrite Hat. done.
    + setoid_rewrite Hat. done.
  - intros k d [Hd Hn]%remove_deliveries_Some. destruct (inv_chain db Hinv k d Hd) as [Hi Hs]. split; [done|].
    intros s (ds & Hds & Hc & Hrest)%Hs. exists ds. rewrite remove_deliveries_Some.
    destruct Hc as [Hev Hep]. by rewrite Hev.
  - intros k e [He Hn]%remove_events_Some. destruct (inv_event db Hinv k e He) as [(d & Hd & Ee & Hrest) Hep Hp].
    split; [|intros k1 k2 d1 d2 [Hd1 _]%remove_deliveries_Some [Hd2 _]%remove_deliveries_Some; by eapply Hep|done].
    exists d. rewrite remove_deliveries_Some, Ee. done.
Qed.
End remove.

(** ** The candidates *)

Lemma active_statuses s : s ∈ ACTIVE_DELIVERY_STATUSES ↔ active s = true.
Proof. unfold ACTIVE_DELIVERY_STATUSES. rewrite !elem_of_cons, elem_of_nil. destruct s; naive_solver. Qed.

Lemma has_active_delivery_spec db e :
  has_active_delivery db e ↔
  ∃ k d, deliveries db !! k = Some d ∧ Delivery.event_id d = Event.id e ∧ active (Delivery.status d) = true.
Proof.
  unfold has_active_delivery. split.
  - intros H. destruct (select _ _) as [|d l] eqn:E; [done|].
    assert (Hin : d ∈ d :: l) by left. rewrite <- E in Hin.
    apply elem_of_select in Hin as [[H1 H2%active_statuses] [k Hk]]. by exists k, d.
  - intros (k & d & Hk & H1 & H2%active_statuses) E.
    assert (Hin : d ∈ []) by (rewrite <- E; apply elem_of_select; eauto). by apply elem_of_nil in Hin.
Qed.

(** What retention may delete: an event older than the cutoff whose deliveries are all terminal. *)
Definition expired (cutoff : datetime) (db : Db) (e : Event) : Prop :=
  events db !! Event.id e = Some e ∧ (Event.created_at e < cutoff)%Z ∧
  ∀ k d, deliveries db !! k = Some d → Delivery.event_id d = Event.id e → terminal (Delivery.status d) = true.

Lemma elem_of_expired cutoff db e : inv db → e ∈ expired_events cutoff db ↔ expired cutoff db e.
Proof.
  intros Hinv. unfold expired_events, expired.
  rewrite elem_of_order_by, elem_of_select, has_active_delivery_spec. split.
  - intros [[Hc Hn] [k Hk]]. pose proof (event_id_of db (inv_ok db Hinv) k e Hk) as E. subst k. split_and!; [done|done|].
    intros k' d Hd He. apply not_false_is_true. intros Ht. apply Hn. exists k', d. split_and!; [done|done|]. unfold active. by rewrite Ht.
  - intros (He & Hc & Ht). split; [|eauto]. split; [done|]. intros (k & d & Hd & Ee & Ha).
    unfold active in Ha. by rewrite (Ht k d Hd Ee) in Ha.
Qed.

Lemma expired_NoDup cutoff db : inv db → NoDup (Event.id <$> expired_events cutoff db).
Proof.
  intros Hinv. apply (NoDup_fmap_2_strong Event.id).
  - intros x y Hx Hy E. apply elem_of_expired in Hx as [Hx _], Hy as [Hy _]; try done. congruence.
  - unfold expired_events. rewrite order_by_perm. apply select_NoDup, Hinv.
Qed.

Lemma expired_remove cutoff ids db e :
  inv db → expired cutoff (remove_events ids db) e ↔ expired cutoff db e ∧ Event.id e ∉ ids.
Proof.
  intros Hinv. unfold expired. rewrite remove_events_Some. split.
  - intros ((He & Hn) & Hc & Ht). split_and!; try done. intros k d Hd Ee. apply (Ht k); [|done].
    apply remove_deliveries_Some. by rewrite Ee.
  - intros ((He & Hc & Ht) & Hn). split_and!; try done. intros k d [Hd _]%remove_deliveries_Some. by eapply Ht.
Qed.

(** Deleting the first candidates leaves the others, in their order. *)
Lemma expired_drop cutoff n db :
  inv db →
  expired_events cutoff (remove_events (Event.id <$> take n (expired_events cutoff db)) db) =
  drop n (expired_events cutoff db).
Proof.
  intros Hinv. set (L := expired_events cutoff db). set (ids := Event.id <$> take n L).
  pose proof (remove_inv ids db Hinv) as Hinv'.
  pose proof (expired_NoDup cutoff db Hinv) as Hnd. fold L in Hnd.
  rewrite <- (take_drop n L), fmap_app in Hnd. apply NoDup_app in Hnd as (_ & Hdisj & Hnd).
  assert (Hel : ∀ e, e ∈ expired_events cutoff (remove_events ids db) ↔ e ∈ drop n L).
  { intros e. rewrite elem_of_expired, expired_remove, <- elem_of_expired by done. fold L. split.
    - intros [He Hn]. rewrite <- (take_drop n L) in He. apply elem_of_app in He as [He|He]; [|done].
      destruct Hn. by apply list_elem_of_fmap_2.
    - intros He. split; [rewrite <- (take_drop n L); apply elem_of_app; by right|].
      intros Hin. apply (Hdisj _ Hin). by apply list_elem_of_fmap_2. }
  apply (StronglySorted_unique_strong (key_rel key_le (λ e, (Event.created_at e, Event.id e)))).
  - intros x y Hx Hy H1 H2. apply Hel, subseteq_drop, elem_of_expired in Hx as [Hx _]; [|done].
    apply subseteq_drop, elem_of_expired in Hy as [Hy _]; [|done].
    pose proof (anti_symm key_le _ _ H1 H2) as [= _ E]. congruence.
  - apply order_by_sorted; apply _.
  - apply (StronglySorted_app_1_r _ (take n L)). rewrite take_drop. apply order_by_sorted; apply _.
  - apply NoDup_Permutation; [by eapply NoDup_fmap_1, expired_NoDup|by eapply NoDup_fmap_1|done].
Qed.

(** ** The deletions *)

(** On a database that satisfies the invariant the two statements delete exactly the events given,
    with everything that belongs to them. *)
Lemma deletions_run ids db :
  inv db →
  delete_deliveries (λ d, Delivery.event_id d ∈ ids) db =
    Ok (tt, set_attempts (attempts (remove_events ids db)) (set_deliveries (deliveries (remove_events ids db)) db)) ∧
  delete_events ids (set_attempts (attempts (remove_events ids db)) (set_deliveries (deliveries (remove_events ids db)) db)) =
    Ok (Event.id <$> select (λ e, Event.id e ∈ ids) (events db), remove_events ids db).
Proof.
  intros Hinv. split.
  - unfold delete_deliveries. rewrite bool_decide_eq_true_2; [done|].
    intros k d Hd. unfold source_in. destruct (Delivery.replayed_from_delivery_id d) as [s|] eqn:Es; [|done].
    by apply (ok_delivery_source _ (remove_ok ids db Hinv) k d s).
  - unfold delete_events. rewrite bool_decide_eq_true_2; [done|].
    intros k d Hd. by apply (remove_deliveries_Some ids db k d) in Hd as [_ Hn].
Qed.

Lemma delete_batch_run ids db :
  inv db →
  delete_batch ids db = Ok (Z.of_nat (length (Event.id <$> select (λ e, Event.id e ∈ ids) (events db))), remove_events ids db).
Proof.
  intros Hinv. destruct (deletions_run ids db Hinv) as [E1 E2]. unfold delete_batch.
  erewrite tx_bind_Ok by exact E1. by erewrite tx_bind_Ok by exact E2.
Qed.

Lemma deleted_rows ids db :
  inv db → NoDup ids → (∀ k, k ∈ ids → is_Some (events db !! k)) →
  length (Event.id <$> select (λ e, Event.id e ∈ ids) (events db)) = length ids.
Proof.
  intros Hinv Hnd Hall. apply Permutation_length, NoDup_Permutation; [|done|].
  - apply (NoDup_fmap_2_strong Event.id); [|apply select_NoDup, Hinv].
    intros x y [_ [k Hx]]%elem_of_select [_ [k' Hy]]%elem_of_select E.
    rewrite (event_id_of db (inv_ok db Hinv) k x Hx), (event_id_of db (inv_ok db Hinv) k' y Hy) in E. congruence.
  - intros k. rewrite list_elem_of_fmap. split.
    + intros (e & -> & [He _]%elem_of_select). done.
    + intros Hk. destruct (Hall k Hk) as [e He]. pose proof (event_id_of db (inv_ok db Hinv) k e He) as <-.
      exists e. split; [done|]. apply elem_of_select. eauto.
Qed.

Lemma remove_nil db : inv db → remove_events [] db = db.
Proof.
  intros Hinv. destruct db as [eps evs dels atts]. unfold remove_events. simpl. f_equal; apply map_filter_id.
  - intros. apply not_elem_of_nil.
  - intros. apply not_elem_of_nil.
  - intros k a Ha. destruct (ok_attempt_delivery _ (inv_ok _ Hinv) k a Ha) as [d Hd]. exists d.
    apply map_lookup_filter_Some. split; [done|apply not_elem_of_nil].
Qed.

Lemma remove_app ids ids' db : inv db → remove_events ids' (remove_events ids db) = remove_events (ids ++ ids') db.
Proof.
  intros Hinv. unfold remove_events at 1 3. simpl.
  assert (Hd : filter (λ row : UUID * Delivery, Delivery.event_id row.2 ∉ ids')
      (filter (λ row, Delivery.event_id row.2 ∉ ids) (deliveries db)) =
    filter (λ row, Delivery.event_id row.2 ∉ ids ++ ids') (deliveries db)).
  { rewrite map_filter_filter. apply map_filter_ext. intros k d _. simpl. rewrite elem_of_app. tauto. }
  rewrite Hd. f_equal.
  - rewrite map_filter_filter. apply map_filter_ext. intros k e _. simpl. rewrite elem_of_app. tauto.
  - rewrite map_filter_filter. apply map_filter_ext. intros k a _. simpl.
    split; [tauto|]. intros [d Hs]. split; [eauto|].
    apply map_lookup_filter_Some in Hs as [Hs Hn]. simpl in Hn. rewrite elem_of_app in Hn.
    exists d. apply map_lookup_filter_Some. simpl. tauto.
Qed.

(** A batch without interference. *)
Lemma batch_run cutoff limit db :
  inv db →
  let L := expired_events cutoff db in
  _delete_terminal_event_batch id cutoff limit db =
    Ok (Z.of_nat (length (take (Z.to_nat limit) L)), remove_events (Event.id <$> take (Z.to_nat limit) L) db).
Proof.
  intros Hinv L. unfold _delete_terminal_event_batch. erewrite tx_bind_Ok by done. cbv beta. fold L.
  set (ids := Event.id <$> take (Z.to_nat limit) L).
  assert (Hlen : length (take (Z.to_nat limit) L) = length ids) by (unfold ids; by rewrite length_fmap).
  rewrite Hlen.
  assert (Hrows : length (Event.id <$> select (λ e, Event.id e ∈ ids) (events db)) = length ids).
  { apply deleted_rows; [done| |].
    - unfold ids. rewrite fmap_take. apply (sublist_NoDup _ (Event.id <$> L)); [by apply expired_NoDup|apply sublist_take].
    - intros k Hk. unfold ids in Hk. apply list_elem_of_fmap in Hk as (e & -> & He).
      apply subseteq_take, elem_of_expired in He as [He _]; eauto. }
  destruct ids as [|i l] eqn:Ei; [simpl; by rewrite remove_nil|].
  erewrite tx_bind_Ok by done. rewrite delete_batch_run by done. by rewrite <- Hrows.
Qed.

(** ** The loop *)

(** The number of batches of a given size. *)
Definition batch_count (batch_size n : Z) : Z := ((n + batch_size - 1) / batch_size)%Z.

Lemma batch_count_0 bs : (1 ≤ bs)%Z → batch_count bs 0 = 0%Z.
Proof. intros. unfold batch_count. apply Z.div_small. lia. Qed.

Lemma batch_count_full bs n : (1 ≤ bs)%Z → batch_count bs (bs + n) = (1 + batch_count bs n)%Z.
Proof.
  intros. unfold batch_count. replace (bs + n + bs - 1)%Z with (n + bs - 1 + 1 * bs)%Z by lia.
  rewrite Z.div_add by lia. lia.
Qed.

Lemma batch_count_one bs n : (1 ≤ n ≤ bs)%Z → batch_count bs n = 1%Z.
Proof.
  intros. unfold batch_count. replace (n + bs - 1)%Z with (n - 1 + 1 * bs)%Z by lia.
  rewrite Z.div_add by lia. rewrite Z.div_small; lia.
Qed.

(** What a run may still delete. *)
Definition quota (max_events deleted : Z) (L : list Event) : nat := min (Z.to_nat (max_events - deleted)) (length L).

Lemma purge_loop_run fuel cutoff bs max del b db :
  inv db → (1 ≤ bs)%Z → Z.to_nat (max - del) ≤ fuel →
  let L := expired_events cutoff db in
  let n := quota max del L in
  purge_loop fuel (λ _, id) cutoff bs max del b db =
    Ok (Some (del + Z.of_nat n, b + batch_count bs (Z.of_nat n))%Z, remove_events (Event.id <$> take n L) db).
Proof.
  intros Hinv Hbs. revert del b db Hinv. induction fuel as [|fuel IH]; intros del b db Hinv Hfuel L n.
  - simpl. destruct (del <? max)%Z eqn:E; bool_simpl; [lia|].
    assert (n = 0) as -> by (unfold n, quota; lia). simpl. rewrite remove_nil by done.
    rewrite batch_count_0 by done. by rewrite !Z.add_0_r.
  - cbn [purge_loop]. destruct (del <? max)%Z eqn:E; bool_simpl.
    2: { assert (n = 0) as -> by (unfold n, quota; lia). simpl. rewrite remove_nil by done.
         rewrite batch_count_0 by done. by rewrite !Z.add_0_r. }
    set (k := Z.to_nat (Z.min bs (max - del))).
    erewrite tx_bind_Ok by (by apply batch_run). cbv beta. fold L k.
    destruct (Z.of_nat (length (take k L)) =? 0)%Z eqn:Ek; bool_simpl.
    + assert (take k L = []) as Et by (apply nil_length_inv; lia).
      assert (HL : length L = 0) by (rewrite length_take in Ek; unfold k in *; lia).
      assert (n = 0) as -> by (unfold n, quota; lia). rewrite Et. simpl. rewrite remove_nil by done.
      rewrite batch_count_0 by done. by rewrite !Z.add_0_r.
    + set (k' := length (take k L)) in *.
      assert (Hk' : k' = min k (length L)) by (unfold k'; by rewrite length_take).
      assert (Ht : take k L = take k' L).
      { rewrite Hk'. destruct (decide (k ≤ length L)); [f_equal; lia|]. rewrite !take_ge by lia. done. }
      rewrite Ht, IH; [|by apply remove_inv|unfold k in Hk'; lia].
      pose proof (expired_drop cutoff k' db Hinv : expired_events cutoff (remove_events (Event.id <$> take k' L) db) = _) as Hdrop.
      rewrite Hdrop. fold L.
      assert (Hn : n = k' + quota max (del + Z.of_nat k') (drop k' L))
        by (unfold n, quota; rewrite length_drop; unfold k in Hk'; lia).
      rewrite remove_app by done. rewrite <- fmap_app. rewrite take_take_drop, <- Hn.
      f_equal. f_equal. f_equal. f_equal; [lia|].
      destruct (decide (Z.of_nat k' = bs)) as [Eb|Hb].
      * rewrite Hn, Nat2Z.inj_add, Eb, batch_count_full by done. lia.
      * assert (quota max (del + Z.of_nat k') (drop k' L) = 0) as Eq
          by (unfold quota; rewrite length_drop; unfold k in Hk'; lia).
        rewrite Eq in *. rewrite Hn, Nat.add_0_r. simpl. rewrite batch_count_0 by done.
        rewrite batch_count_one by (unfold k in Hk'; lia). lia.
Qed.

Lemma delete_batch_count ids db n db' : delete_batch ids db = Ok (n, db') → (0 ≤ n)%Z.
Proof.
  intros (? & ? & _ & Hn)%tx_bind_inv. apply tx_bind_inv in Hn as (del' & ? & _ & Hn). injection Hn as <- _. lia.
Qed.

(** The loop ends whatever other transactions do. *)
Lemma purge_loop_ends fuel others cutoff bs max del b db r db' :
  (1 ≤ bs)%Z → Z.to_nat (max - del) ≤ fuel →
  purge_loop fuel others cutoff bs max del b db = Ok (r, db') → ∃ counts, r = Some counts.
Proof.
  intros Hbs. revert del b db. induction fuel as [|fuel IH]; intros del b db Hfuel; cbn [purge_loop];
    (destruct (del <? max)%Z eqn:E; bool_simpl; [|intros [= <- _]; eauto]).
  - lia.
  - intros (n & db1 & Hn & Hr)%tx_bind_inv. destruct (n =? 0)%Z eqn:En; bool_simpl; [injection Hr as <- _; eauto|].
    assert (0 ≤ n)%Z.
    { unfold _delete_terminal_event_batch in Hn. apply tx_bind_inv in Hn as (ids & db2 & _ & Hn).
      destruct ids as [|i l]; [injection Hn as <- _; lia|].
      apply tx_bind_inv in Hn as (? & ? & _ & Hn). by apply delete_batch_count in Hn. }
    by eapply IH, Hr; lia.
Qed.

(** ** Properties *)

Lemma purge_run cutoff bs max db :
  inv db → (1 ≤ bs)%Z → (1 ≤ max)%Z →
  let L := expired_events cutoff db in
  let n := min (Z.to_nat max) (length L) in
  run_tx (purge_expired_demo_events true (λ _, id) (Some cutoff) bs max) db =
    (Ok (mkCleanupResult true (Z.of_nat n) (batch_count bs (Z.of_nat n))),
     remove_events (Event.id <$> take n L) db).
Proof.
  intros Hinv Hbs Hmax L n. apply run_tx_Ok. unfold purge_expired_demo_events.
  destruct (bs <? 1)%Z eqn:E1; [bool_simpl; lia|]. destruct (max <? 1)%Z eqn:E2; [bool_simpl; lia|]. cbn [negb].
  erewrite tx_bind_Ok by (by apply purge_loop_run; try lia). cbv beta iota. fold L.
  replace (quota max 0 L) with n by (unfold n, quota; lia). done.
Qed.

(** C33: retention deletes exactly the oldest expired events, within its bounds: when no other
    transaction interferes, a run with the lock removes the first [max_events] events, oldest first,
    among those older than the cutoff whose deliveries are all terminal, together with all their
    deliveries and attempts and nothing else; it reports that number and the number of batches of
    the configured size, leaves the rest of the candidates for later runs, and keeps the invariant. *)
Theorem purge_exact cutoff bs max db :
  inv db → (1 ≤ bs)%Z → (1 ≤ max)%Z →
  let L := expired_events cutoff db in
  let n := min (Z.to_nat max) (length L) in
  let db' := remove_events (Event.id <$> take n L) db in
  run_tx (purge_expired_demo_events true (λ _, id) (Some cutoff) bs max) db =
    (Ok (mkCleanupResult true (Z.of_nat n) (batch_count bs (Z.of_nat n))), db') ∧
  (∀ e, e ∈ L ↔ expired cutoff db e) ∧
  StronglySorted (key_rel key_le (λ e, (Event.created_at e, Event.id e))) L ∧
  expired_events cutoff db' = drop n L ∧ inv db'.
Proof.
  intros Hinv Hbs Hmax L n db'. split_and!.
  - by apply purge_run.
  - intros e. by apply elem_of_expired.
  - apply order_by_sorted; apply _.
  - by apply expired_drop.
  - by apply remove_inv.
Qed.

Lemma purge_removes lock cutoff bs max db :
  inv db → ∃ ids, (run_tx (purge_expired_demo_events lock (λ _, id) cutoff bs max) db).2 = remove_events ids db ∧
    ∀ k, k ∈ ids → ∃ c e, cutoff = Some c ∧ Event.id e = k ∧ expired c db e.
Proof.
  intros Hinv. destruct cutoff as [c|]; [|exists []; rewrite remove_nil by done; by split; [|intros k ?%elem_of_nil]].
  destruct (bs <? 1)%Z eqn:E1; [|destruct (max <? 1)%Z eqn:E2; [|destruct lock]].
  - exists []. rewrite remove_nil by done. split; [|by intros k ?%elem_of_nil].
    unfold run_tx, purge_expired_demo_events. by rewrite E1.
  - exists []. rewrite remove_nil by done. split; [|by intros k ?%elem_of_nil].
    unfold run_tx, purge_expired_demo_events. by rewrite E1, E2.
  - bool_simpl. rewrite purge_run by done. eexists. split; [done|].
    intros k (e & -> & He)%list_elem_of_fmap. exists c, e. split_and!; [done|done|].
    apply subseteq_take in He. by apply elem_of_expired.
  - exists []. rewrite remove_nil by done. split; [|by intros k ?%elem_of_nil].
    unfold run_tx, purge_expired_demo_events. by rewrite E1, E2.
Qed.

(** Retention leaves active work untouched and no orphan behind: for all settings, with or
    without the lock, without interference a delivery that is not terminal survives with its event,
    deliveries and attempts survive exactly when their event survives, and survivors are unchanged. *)
Theorem purge_keeps_active lock cutoff bs max db :
  inv db →
  let db' := (run_tx (purge_expired_demo_events lock (λ _, id) cutoff bs max) db).2 in
  inv db' ∧ endpoints db' = endpoints db ∧
  (∀ k d, deliveries db !! k = Some d → active (Delivery.status d) = true →
     deliveries db' !! k = Some d ∧ events db' !! Delivery.event_id d = events db !! Delivery.event_id d) ∧
  (∀ k e, events db' !! k = Some e → events db !! k = Some e) ∧
  (∀ k d, deliveries db' !! k = Some d ↔
     deliveries db !! k = Some d ∧ is_Some (events db' !! Delivery.event_id d)) ∧
  (∀ k a, attempts db' !! k = Some a ↔
     attempts db !! k = Some a ∧ is_Some (deliveries db' !! DeliveryAttempt.delivery_id a)).
Proof.
  intros Hinv. cbv zeta. destruct (purge_removes lock cutoff bs max db Hinv) as (ids & -> & Hids).
  pose proof (inv_ok db Hinv) as Hok.
  assert (Hev : ∀ k d, deliveries db !! k = Some d →
    is_Some (events (remove_events ids db) !! Delivery.event_id d) ↔ Delivery.event_id d ∉ ids).
  { intros k d Hd. destruct (ok_delivery_event db Hok k d Hd) as [e He].
    pose proof (event_id_of db Hok _ e He) as Ei. split.
    - intros [e' [He' Hn]%remove_events_Some]. simplify_eq. by rewrite <- Ei.
    - intros Hn. exists e. apply remove_events_Some. by rewrite Ei. }
  split_and!.
  - by apply remove_inv.
  - done.
  - intros k d Hd Ha. assert (Hn : Delivery.event_id d ∉ ids).
    { intros (c & e & _ & Ee & _ & _ & Ht)%Hids. unfold active in Ha. by rewrite (Ht k d Hd) in Ha. }
    split; [by apply remove_deliveries_Some|].
    destruct (ok_delivery_event db Hok k d Hd) as [e He]. rewrite He. apply remove_events_Some.
    by rewrite (event_id_of db Hok _ e He).
  - by intros k e [He _]%remove_events_Some.
  - intros k d. rewrite remove_deliveries_Some. split; intros [Hd Hn]; (split; [done|]); by apply (Hev k d Hd).
  - intros k a. rewrite remove_attempts_Some. f_equiv. unfold is_Some. f_equiv. intros d.
    by rewrite remove_deliveries_Some.
Qed.

(** What a run can raise besides the refusal of its arguments. *)
Definition integrity (e : exn) : Prop := ∃ name, e = IntegrityErr name.

Lemma delete_batch_raises ids db e : delete_batch ids db = Raise e → integrity e.
Proof.
  intros [Hb|(? & db3 & _ & Hb)]%tx_bind_Raise_inv.
  - unfold delete_deliveries in Hb. case_bool_decide; [done|]. injection Hb as <-. by eexists.
  - apply tx_bind_Raise_inv in Hb as [Hb|(? & db4 & _ & Hb)]; [|done].
    unfold delete_events in Hb. case_bool_decide; [done|]. injection Hb as <-. by eexists.
Qed.

Lemma batch_raises others cutoff limit db e :
  _delete_terminal_event_batch others cutoff limit db = Raise e → integrity e.
Proof.
  unfold _delete_terminal_event_batch.
  intros [Hb|(ids & db1 & _ & Hb)]%tx_bind_Raise_inv; [done|]. destruct ids as [|i l]; [done|].
  apply tx_bind_Raise_inv in Hb as [Hb|(? & db2 & _ & Hb)]; [done|]. by apply delete_batch_raises in Hb.
Qed.

Lemma purge_loop_raises fuel others cutoff bs max del b db e :
  purge_loop fuel others cutoff bs max del b db = Raise e → integrity e.
Proof.
  revert db del b. induction fuel as [|fuel IH]; intros db del b; cbn [purge_loop]; destruct (del <? max)%Z; try done.
  intros [Hb|(n & db1 & _ & Hb)]%tx_bind_Raise_inv; [by eapply batch_raises|].
  destruct (n =? 0)%Z; [done|]. by eapply IH.
Qed.

(** The retention loop ends: whatever other transactions commit in between, a run with a cutoff and
    valid bounds returns a result or raises the integrity error of a concurrent insertion; its fuel
    of [max_events] rounds is never spent. *)
Theorem purge_terminates lock others cutoff bs max db :
  (1 ≤ bs)%Z → (1 ≤ max)%Z →
  match run_tx (purge_expired_demo_events lock others (Some cutoff) bs max) db with
  | (Ok r, _) => lock_acquired r = lock
  | (Raise e, db') => integrity e ∧ db' = db
  end.
Proof.
  intros Hbs Hmax. destruct (run_tx _ db) as [r db'] eqn:Er. unfold purge_expired_demo_events in Er.
  destruct (bs <? 1)%Z eqn:E1; [bool_simpl; lia|]. destruct (max <? 1)%Z eqn:E2; [bool_simpl; lia|].
  destruct lock; cbn [negb] in Er; [|by injection Er as <- _]. destruct r as [r|e].
  - apply run_tx_Ok, tx_bind_inv in Er as (counts & db1 & Hl & Er).
    destruct (purge_loop_ends (Z.to_nat max) others cutoff bs max 0 0 db counts db1) as [[x y] ->]; [done|lia|done|].
    by injection Er as <- _.
  - apply run_tx_Raise in Er as [Er ->]. split; [|done].
    apply tx_bind_Raise_inv in Er as [Er|(counts & db1 & Hl & Er)]; [by eapply purge_loop_raises|].
    destruct (purge_loop_ends (Z.to_nat max) others cutoff bs max 0 0 db counts db1) as [[x y] ->]; [done|lia|done|done].
Qed.

(** C34: active work is not safe from a concurrent retention run: the candidates are selected without a
    lock on the event that a replay holds, so when a replay of a dead-lettered delivery commits
    between the selection of its event and the deletions, the accepted, pending generation is
    deleted with the event. *)
Theorem purge_race env k key cutoff limit db p db1 source :
  inv db → deliveries db !! uuid1 env = None → key ≠ [] →
  deliveries db !! k = Some source →
  (∃ e, e ∈ take (Z.to_nat limit) (expired_events cutoff db) ∧ Event.id e = Delivery.event_id source) →
  run_tx (ReplayService.replay env k key) db = (Ok p, db1) → rd_idempotent_replay p = false →
  deliveries db1 !! uuid1 env = Some (rd_delivery p) ∧ Delivery.status (rd_delivery p) = PENDING ∧
  ∃ n db', _delete_terminal_event_batch (λ db, (run_tx (ReplayService.replay env k key) db).2) cutoff limit db
      = Ok (n, db') ∧ deliveries db' !! uuid1 env = None.
Proof.
  intros Hinv Hf Hkey Hs (e & He & Ee) Hrun Hnew.
  pose proof (replay_refines env key db Hinv Hf Hkey k) as Hspec.
  pose proof (replay_keeps_inv env k key db Hinv Hf Hkey) as Hinv1. rewrite Hrun in Hspec, Hinv1. simpl in Hinv1.
  assert (Hd : deliveries db1 !! uuid1 env = Some (rd_delivery p) ∧ Delivery.status (rd_delivery p) = PENDING ∧
    Delivery.event_id (rd_delivery p) = Delivery.event_id source).
  { inversion Hspec as [|? d ? ? ?| | | | | | |source' endpoint Hp Hen d Ht]; subst; simpl in *; [done|].
    destruct Hp as (((Hs' & _) & _) & _). simplify_eq. by rewrite lookup_insert_eq. }
  destruct Hd as (Hd & Hst & Hev). split_and!; [done|done|].
  unfold _delete_terminal_event_batch. erewrite tx_bind_Ok by done. cbv beta.
  set (ids := Event.id <$> take (Z.to_nat limit) (expired_events cutoff db)).
  assert (Hin : Delivery.event_id source ∈ ids) by (rewrite <- Ee; by apply list_elem_of_fmap_2).
  clearbody ids.
  destruct ids as [|i l]; [by apply elem_of_nil in Hin|].
  eexists _, (remove_events (i :: l) db1). split.
  - erewrite tx_bind_Ok by (unfold interleave; by rewrite Hrun). by apply delete_batch_run.
  - destruct (deliveries (remove_events (i :: l) db1) !! uuid1 env) as [d|] eqn:El; [|done].
    apply remove_deliveries_Some in El as [El Hn]. destruct Hn. by simplify_eq; rewrite Hev.
Qed.

(** ** Examples *)

Definition lab_cutoff : datetime := 1800000000000000.

Lemma lab_expired : length (expired_events lab_cutoff lab_dead) = 1.
Proof. vm_compute. reflexivity. Qed.

Lemma purge_exact_witness :
  run_tx (purge_expired_demo_events true (λ _, id) (Some lab_cutoff) 500 5000) lab_dead =
    (Ok (mkCleanupResult true 1 1), remove_events [100%N] lab_dead) ∧
  deliveries (remove_events [100%N] lab_dead) !! 101%N = None.
Proof.
  split; [|vm_compute; reflexivity].
  destruct (purge_exact lab_cutoff 500 5000 lab_dead lab_dead_inv ltac:(lia) ltac:(lia)) as [E _].
  rewrite E, lab_expired. vm_compute. reflexivity.
Defined.

Lemma purge_keeps_active_witness :
  let db' := (run_tx (purge_expired_demo_events true (λ _, id) (Some lab_cutoff) 500 5000) lab_accepted).2 in
  inv db' ∧ is_Some (deliveries db' !! 101%N).
Proof.
  cbv zeta.
  destruct (purge_keeps_active true (Some lab_cutoff) 500 5000 lab_accepted lab_accepted_inv) as (Hi & _ & Ha & _).
  split; [exact Hi|]. eexists. apply Ha; vm_compute; reflexivity.
Defined.

Lemma purge_terminates_witness :
  match run_tx (purge_expired_demo_events true (λ _, id) (Some lab_cutoff) 2 3) lab_dead with
  | (Ok r, _) => lock_acquired r = true
  | (Raise e, db') => integrity e ∧ db' = lab_dead
  end.
Proof. apply (purge_terminates true (λ _, id) lab_cutoff 2 3 lab_dead); lia. Defined.

Definition lab_replayed : outcome ReplayedDelivery * Db :=
  Eval vm_compute in run_tx (ReplayService.replay lab_replay_env 101 lab_replay_key) lab_dead.

Lemma purge_race_witness :
  ∃ n db', _delete_terminal_event_batch
      (λ db, (run_tx (ReplayService.replay lab_replay_env 101 lab_replay_key) db).2) lab_cutoff 500 lab_dead = Ok (n, db') ∧
    is_Some (deliveries lab_replayed.2 !! 300%N) ∧ deliveries db' !! 300%N = None.
Proof.
  destruct lab_replayed as [[p|e] db1] eqn:E; [|discriminate].
  assert (Er : run_tx (ReplayService.replay lab_replay_env 101 lab_replay_key) lab_dead = lab_replayed)
    by (vm_compute; reflexivity).
  assert (Hn : match lab_replayed.1 with Ok p => rd_idempotent_replay p | Raise _ => true end = false)
    by (vm_compute; reflexivity).
  rewrite E in Er, Hn. simpl in Hn.
  destruct (purge_race lab_replay_env 101 lab_replay_key lab_cutoff 500 lab_dead p db1 lab_dead_delivery)
    as (Hd & _ & n & db' & Hb & Hgone); [exact lab_dead_inv|vm_compute; reflexivity|discriminate|vm_compute; reflexivity| |exact Er|exact Hn|].
  - eexists. split; [vm_compute; left|vm_compute; reflexivity].
  - exists n, db'. split; [exact Hb|]. split; [|exact Hgone]. simpl. exists (rd_delivery p). exact Hd.
Defined.
