(* ===== verification/System.v ===== *)
(** The running system: API requests, workers, the retention job, operators and crashes as a
    step relation on the database and the requests that are out.

    A step is one committed or rolled-back transaction; which transactions hold rows that a claim
    passes over is part of the claim's argument.  Workers share the settings; any number of them
    runs, and each claimed webhook stays out until its worker finalizes it or dies.  A batch of the
    retention job is two steps, because its candidate query locks nothing: the identifiers it
    selected stay pending while other transactions commit, and its deletions come later. *)
From S2P Require Import Prelude PyStr Errors Floats FloatConv Json Retry StateMachine Models Datetime Database.
From S2P Require Import Repositories Invariant Transport Config Worker Claiming Finalizing Services Fixtures Publishing Replaying Maintenance.
From Stdlib Require Import ZArith.

(** ** The interface of the transport *)

(** What the worker relies on: whatever the receiver does, a result is consistent evidence. *)
Class DeliveryTransport (cap : float) := {
  deliver : OutboundWebhook → outcome AttemptResult;
  deliver_evidence : ∀ webhook r, deliver webhook = Ok r → evidence cap r
}.

(** [send_webhook] over any HTTP client, date parser and clock provides it. *)
Section http.
Context (cap : float) (client : OutboundRequest → post_outcome) (parsedate : date_parser) (clock : SendClock).
Context (Hcap : ordinary cap = true) (Hclock : (0 ≤ sc_started_at clock ≤ datetime_max)%Z).

Lemma http_evidence webhook r : send_webhook client parsedate webhook cap clock = Ok r → evidence cap r.
Proof. intros Hr. by destruct (send_evidence _ _ _ _ _ _ Hcap Hclock Hr). Qed.

#[export] Instance http_transport : DeliveryTransport cap := {|
  deliver webhook := send_webhook client parsedate webhook cap clock;
  deliver_evidence := http_evidence
|}.
End http.

(** ** States and steps *)

Record Flight := mkFlight { fl_worker : Worker; fl_webhook : OutboundWebhook }.

(** The database, the webhooks that are out, and the batches of events that retention has selected
    and not yet deleted. *)
Record State := mkState { st_db : Db; st_flights : list Flight; st_selected : list (list UUID) }.

Definition fl_token (f : Flight) : UUID := OutboundWebhook.lease_token (fl_webhook f).

(** An operator switches an endpoint on or off; no code of the repository does. *)
Definition switch_endpoint (k : UUID) (on : bool) (db : Db) : Db :=
  set_endpoints (alter (λ e, Endpoint.mk (Endpoint.id e) (Endpoint.name e) (Endpoint.target_url e)
    (Endpoint.signing_secret e) (Endpoint.secret_version e) on (Endpoint.created_at e) (Endpoint.updated_at e))
    k (endpoints db)) db.

(** The webhooks out after a claim. *)
Definition claimed (w : Worker) (r : outcome (option Claim)) (fl : list Flight) : list Flight :=
  match r with
  | Ok (Some (Outbound webhook)) => mkFlight w webhook :: fl
  | _ => fl
  end.

Section system.
Context (base : pystr) (config : Settings).
Let cap := worker_retry_after_cap_seconds config.
Let budget := worker_max_attempts config.

Inductive step : State → State → Prop :=
| step_create secret env second_now request db fl sel :
    step (mkState db fl sel) (mkState (run_tx (EndpointService.create base secret env second_now request) db).2 fl sel)
| step_publish env request key db fl sel :
    events db !! uuid1 env = None → deliveries db !! uuid2 env = None → (∀ ids, ids ∈ sel → uuid1 env ∉ ids) →
    step (mkState db fl sel) (mkState (run_tx (EventService.publish env request key) db).2 fl sel)
| step_replay env k key db fl sel :
    deliveries db !! uuid1 env = None → key ≠ [] →
    step (mkState db fl sel) (mkState (run_tx (ReplayService.replay env k key) db).2 fl sel)
| step_claim w env db fl sel :
    worker_ok w → settings w = config → near (ce_now env) → claim_fresh env db →
    ce_lease_token env ∉ map fl_token fl →
    step (mkState db fl sel)
      (mkState (run_tx (claim_one w env) db).2 (claimed w (run_tx (claim_one w env) db).1 fl) sel)
| step_finalize (T : DeliveryTransport cap) f result random_fraction now db fl1 fl2 sel :
    deliver (fl_webhook f) = Ok result → fraction random_fraction → near now →
    step (mkState db (fl1 ++ f :: fl2) sel)
      (mkState (run_tx (finalize (fl_worker f) (fl_webhook f) result random_fraction now) db).2 (fl1 ++ fl2) sel)
| step_crash f db fl1 fl2 sel :
    step (mkState db (fl1 ++ f :: fl2) sel) (mkState db (fl1 ++ fl2) sel)
| step_operator k on db fl sel :
    step (mkState db fl sel) (mkState (switch_endpoint k on db) fl sel)
| step_select cutoff limit db fl sel :
    step (mkState db fl sel)
      (mkState db fl ((Event.id <$> take (Z.to_nat limit) (expired_events cutoff db)) :: sel))
| step_delete ids db fl sel1 sel2 :
    step (mkState db fl (sel1 ++ ids :: sel2)) (mkState (run_tx (delete_batch ids) db).2 fl (sel1 ++ sel2))
| step_abandon ids db fl sel1 sel2 :
    step (mkState db fl (sel1 ++ ids :: sel2)) (mkState db fl (sel1 ++ sel2)).

Definition initial : State := mkState empty_db [] [].

Definition reachable (s : State) : Prop := rtc step initial s.

(** ** What one step may do to the database *)

Definition lab_target (url : pystr) : Prop := str_in (rstrip_slash url) (EndpointService.allowed_urls base) = true.

(** The response text an attempt keeps has the bound the transport gives it. *)
Definition short_excerpt (a : DeliveryAttempt) : Prop :=
  nullable (λ s, bool_decide (length s ≤ RESPONSE_BODY_EXCERPT_BYTES)) (DeliveryAttempt.response_body_excerpt a) = true.

(** The frame of a transaction: [new] is the attempt it may add, with its token, [born] the event it
    may add with a first delivery, and [gone] are the events it may remove with their deliveries. *)
Record frame (new : option (UUID * UUID)) (born : option UUID) (gone : list UUID) (db db' : Db) : Prop := {
  fr_inv : inv db';
  fr_targets : ∀ k e', endpoints db' !! k = Some e' →
    lab_target (Endpoint.target_url e') ∨
    ∃ e, endpoints db !! k = Some e ∧ Endpoint.target_url e = Endpoint.target_url e';
  fr_attempts : ∀ k a', attempts db' !! k = Some a' →
    (∃ a, attempts db !! k = Some a ∧ DeliveryAttempt.lease_token a = DeliveryAttempt.lease_token a') ∨
    new = Some (k, DeliveryAttempt.lease_token a');
  fr_deliveries : ∀ k d', deliveries db' !! k = Some d' →
    (∃ d, deliveries db !! k = Some d ∧ moved budget d d') ∨
    (deliveries db !! k = None ∧ Delivery.status d' = PENDING ∧ Delivery.attempt_count d' = 0%Z ∧
     (is_Some (Delivery.replayed_from_delivery_id d') ∨ born = Some (Delivery.event_id d')));
  fr_kept : ∀ k d, deliveries db !! k = Some d → Delivery.event_id d ∉ gone → is_Some (deliveries db' !! k);
  fr_events : ∀ k e e', events db !! k = Some e → events db' !! k = Some e' → e' = e;
  fr_excerpts : ∀ k a', attempts db' !! k = Some a' →
    short_excerpt a' ∨
    ∃ a, attempts db !! k = Some a ∧ DeliveryAttempt.response_body_excerpt a = DeliveryAttempt.response_body_excerpt a'
}.

Lemma frame_refl new born gone db : inv db → frame new born gone db db.
Proof. intros Hinv. split; [done|..]; eauto using moved_refl; congruence. Qed.

(** Transactions that leave the deliveries and attempts alone. *)
Lemma frame_endpoints db eps :
  inv db →
  let db' := set_endpoints eps db in
  db_ok db' →
  (∀ k e', eps !! k = Some e' → lab_target (Endpoint.target_url e') ∨
     ∃ e, endpoints db !! k = Some e ∧ Endpoint.target_url e = Endpoint.target_url e') →
  frame None None [] db db'.
Proof.
  intros Hinv db' Hok' He. split; simpl; eauto using moved_refl; [|congruence].
  destruct Hinv as [_ Hp Hc Hev]. split; [done|..].
  - intros k d Hd. destruct (Hp k d Hd). by split.
  - intros k d Hd. destruct (Hc k d Hd). by split.
  - intros k e Hk. destruct (Hev k e Hk). by split.
Qed.

Lemma create_frame secret env second_now request db :
  inv db → frame None None [] db (run_tx (EndpointService.create base secret env second_now request) db).2.
Proof.
  intros Hinv. destruct (run_tx _ db) as [[p|e] db'] eqn:Hrun; simpl.
  2: { apply run_tx_Raise in Hrun as [_ ->]. by apply frame_refl. }
  apply run_tx_Ok in Hrun. unfold EndpointService.create in Hrun.
  destruct (str_in _ _) eqn:Ha; cbn [negb] in Hrun; [|done].
  destruct (utf8_encode secret) as [sec|]; [|done].
  apply tx_bind_inv in Hrun as (e & db2 & E & [= _ <-]).
  apply tx_bind_inv in E as ([] & db3 & E & [= <- <-]). unfold insert_endpoint in E.
  case_bool_decide as Hn; [done|]. destruct (check_row _ _) as [[]|] eqn:Hc; [|done].
  apply check_row_Ok in Hc as [Ht Hc]. injection E as <-.
  apply frame_endpoints; [done|by apply set_endpoint_ok; [apply Hinv|..]|].
  intros k e' [[<- <-]|[_ He]]%lookup_insert_Some; [by left|right; eauto].
Qed.

Lemma switch_frame k on db : inv db → frame None None [] db (switch_endpoint k on db).
Proof.
  intros Hinv.
  assert (Hl : ∀ k' e', endpoints (switch_endpoint k on db) !! k' = Some e' →
    ∃ e, endpoints db !! k' = Some e ∧ Endpoint.id e' = Endpoint.id e ∧ Endpoint.types e' = Endpoint.types e ∧
      Endpoint.checks e' = Endpoint.checks e ∧ Endpoint.target_url e = Endpoint.target_url e').
  { intros k' e'. simpl. rewrite lookup_alter_Some. intros [(-> & e & He & ->)|[_ He]]; [by exists e|by exists e']. }
  apply frame_endpoints; [done| |intros k' e' (e & He & _ & _ & _ & Hu)%Hl; eauto].
  destruct (inv_ok db Hinv) as [Kn Ke Kd Ka Re Rv Rd Ra Uv Ud Ua Fv Fe Fs Fa]. split; try done.
  - intros k' e' (e & He & Hi & _)%Hl. change (Endpoint.id e' = k'). rewrite Hi. by apply (Kn k' e).
  - intros k' e' (e & He & _ & Ht & Hc & _)%Hl. rewrite Ht, Hc. eauto.
  - intros k' d Hd. destruct (Fe k' d Hd) as [e He]. simpl.
    destruct (decide (Delivery.endpoint_id d = k)) as [<-|Hne];
      [rewrite lookup_alter_eq; simpl; rewrite He|rewrite lookup_alter_ne by done]; eauto.
Qed.

Lemma publish_frame env request key db :
  inv db → events db !! uuid1 env = None → deliveries db !! uuid2 env = None →
  frame None (Some (uuid1 env)) [] db (run_tx (EventService.publish env request key) db).2.
Proof.
  intros Hinv Hf1 Hf2. pose proof (publish_keeps_inv env request key db Hinv Hf1 Hf2) as Hinv'.
  destruct (run_tx _ db) as [[p|e] db'] eqn:Hrun; simpl in *.
  2: { apply run_tx_Raise in Hrun as [_ ->]. by apply frame_refl. }
  apply run_tx_Ok in Hrun.
  apply publish_Ok in Hrun as (ep & fp & body & _ & _ & _ & _ & _ & Hcase); [|apply Hinv].
  destruct Hcase as [(_ & _ & _ & _ & _ & -> & _)|(e & d & _ & _ & _ & _ & _ & _ & _ & ->)]; [|by apply frame_refl].
  split; simpl; eauto.
  - intros k d' [[<- <-]|[_ Hd]]%lookup_insert_Some; [right; split_and!; auto|left; eauto using moved_refl].
  - intros k d Hd _. rewrite lookup_insert_is_Some. destruct (decide (uuid2 env = k)); eauto.
  - intros k e0 e' He [[<- <-]|[_ He']]%lookup_insert_Some; congruence.
Qed.

Lemma replay_frame env k key db :
  inv db → deliveries db !! uuid1 env = None → key ≠ [] →
  frame None None [] db (run_tx (ReplayService.replay env k key) db).2.
Proof.
  intros Hinv Hf Hkey. pose proof (replay_keeps_inv env k key db Hinv Hf Hkey) as Hinv'.
  pose proof (replay_refines env key db Hinv Hf Hkey k) as Hspec.
  destruct Hspec as [| | | | | | | |source endpoint Hp Hen d Ht]; try by apply frame_refl.
  split; simpl; eauto.
  - intros k' d' [[<- <-]|[_ Hd]]%lookup_insert_Some; [right; split_and!; eauto|left; eauto using moved_refl].
  - intros k' d' Hd _. rewrite lookup_insert_is_Some. destruct (decide (uuid1 env = k')); eauto.
  - congruence.
Qed.

(** The deletions of retention, whatever they are given. *)
Lemma delete_frame ids db : inv db → frame None None ids db (run_tx (delete_batch ids) db).2.
Proof.
  intros Hinv. unfold run_tx. rewrite delete_batch_run by done. simpl.
  split; [by apply remove_inv|eauto|..].
  - intros k a [Ha _]%remove_attempts_Some. eauto.
  - intros k d [Hd _]%remove_deliveries_Some. eauto using moved_refl.
  - intros k d Hd Hn. exists d. by apply remove_deliveries_Some.
  - intros k e e' He [He' _]%remove_events_Some. congruence.
  - intros k a [Ha _]%remove_attempts_Some. eauto.
Qed.

(** The worker's transactions rewrite one delivery. *)
Lemma frame_moves new born gone db db' :
  inv db' → moves_one budget db db' →
  (∀ k a', attempts db' !! k = Some a' →
    (∃ a, attempts db !! k = Some a ∧ DeliveryAttempt.lease_token a = DeliveryAttempt.lease_token a') ∨
    new = Some (k, DeliveryAttempt.lease_token a')) →
  (∀ k a', attempts db' !! k = Some a' →
    short_excerpt a' ∨
    ∃ a, attempts db !! k = Some a ∧ DeliveryAttempt.response_body_excerpt a = DeliveryAttempt.response_body_excerpt a') →
  frame new born gone db db'.
Proof.
  intros Hinv' (Ee & Ev & Hmove) Ha Hx. split; try done; [rewrite Ee; eauto| | |rewrite Ev; congruence].
  - destruct Hmove as [[-> _]|(d & d' & Hd & -> & Hid & Hm & _)]; [eauto using moved_refl|].
    intros k r [[<- <-]|[_ Hr]]%lookup_insert_Some; left; eauto using moved_refl.
  - destruct Hmove as [[-> _]|(d & d' & Hd & -> & _)]; [eauto|].
    intros k r Hr _. rewrite lookup_insert_is_Some. destruct (decide (Delivery.id d = k)); eauto.
Qed.

Lemma max_is_budget w : worker_ok w → settings w = config → max_attempts (retry_policy w) = budget.
Proof. intros [_ Hp _] <-. by apply make_policy_Ok in Hp as [-> _]. Qed.

Lemma claim_frame w env db :
  worker_ok w → settings w = config → inv db → near (ce_now env) → claim_fresh env db →
  frame (Some (ce_attempt_id env, ce_lease_token env)) None [] db (run_tx (claim_one w env) db).2.
Proof.
  intros Hw Hs Hinv Hn Hfresh. pose proof Hfresh as [Hf Ht].
  destruct (claim_refines w env db Hw Hinv Hn Hf Ht) as [Hspec Hinv'].
  pose proof (claim_spec_moves w env db _ Hinv Hfresh Hspec) as Hm. rewrite (max_is_budget w Hw Hs) in Hm.
  apply frame_moves; [done|done| |]; intros k a';
    (destruct Hspec as [Hnone|d endpoint reason Hp|d endpoint event payload us Hp|d endpoint a reason Hp Hst Hep Hwhy Ha Hla|
      d endpoint a event payload us reason Hp Hst Hep Hen Hmax Ha Hla]; simpl; eauto).
  - intros [[<- <-]|[_ Hk]]%lookup_insert_Some; [by right|eauto].
  - intros [[<- <-]|[_ Hk]]%lookup_insert_Some; [by left; exists a|eauto].
  - intros [[<- <-]|[_ Hk]]%lookup_insert_Some; [by right|].
    apply lookup_insert_Some in Hk as [[<- <-]|[_ Hk]]; [by left; exists a|eauto].
  - intros [[<- <-]|[_ Hk]]%lookup_insert_Some; [by left|eauto].
  - intros [[<- <-]|[_ Hk]]%lookup_insert_Some; [by right; exists a|eauto].
  - intros [[<- <-]|[_ Hk]]%lookup_insert_Some; [by left|].
    apply lookup_insert_Some in Hk as [[<- <-]|[_ Hk]]; [by right; exists a|eauto].
Qed.

Lemma finalize_frame w webhook result f now db :
  finalizable w webhook result f now db → frame None None [] db (run_tx (finalize w webhook result f now) db).2.
Proof.
  intros Hz. destruct (run_tx _ db) as [[b|e] db'] eqn:Hrun; simpl.
  2: { apply run_tx_Raise in Hrun as [_ ->]. apply frame_refl, Hz. }
  destruct (finalize_stores _ _ _ _ _ _ _ _ Hrun) as [->|Hstore]; [apply frame_refl, Hz|].
  destruct (finalize_implements _ _ _ _ _ _ Hz Hstore) as [Hspec Hinv']. rewrite Hrun in Hspec, Hinv'.
  pose proof (finalize_spec_moves _ _ _ _ _ _ _ budget (fz_inv _ _ _ _ _ _ Hz) Hspec) as Hm.
  apply frame_moves; [done|done| |]; intros k a';
    (inversion Hspec as [|d a sched Hd Hown Hc Ha Hres]; subst; simpl; [eauto|]);
    intros [[<- <-]|[_ Hk]]%lookup_insert_Some; [left; by exists a|eauto| |eauto].
  left. apply (ev_excerpt _ _ (fz_evidence _ _ _ _ _ _ Hz)).
Qed.

(** ** The invariant of the system *)

Context (Hconfig : settings_fields config = true).

Record flight_ok (db : Db) (f : Flight) : Prop := {
  fo_worker : worker_ok (fl_worker f);
  fo_settings : settings (fl_worker f) = config;
  fo_issued : issued (fl_webhook f) db;
  fo_number : (1 ≤ OutboundWebhook.attempt_number (fl_webhook f) ≤ budget)%Z;
  fo_target : lab_target (OutboundWebhook.endpoint_url (fl_webhook f))
}.

(** Of a batch that retention has selected, only replays can be unfinished. *)
Definition selection_ok (db : Db) (ids : list UUID) : Prop :=
  ∀ k d, deliveries db !! k = Some d → Delivery.event_id d ∈ ids →
    terminal (Delivery.status d) = true ∨ is_Some (Delivery.replayed_from_delivery_id d).

Record sys_inv (s : State) : Prop := {
  si_db : inv (st_db s);
  si_targets : ∀ k e, endpoints (st_db s) !! k = Some e → lab_target (Endpoint.target_url e);
  si_budget : ∀ k d, deliveries (st_db s) !! k = Some d → (Delivery.attempt_count d ≤ budget)%Z;
  si_flights : ∀ f, f ∈ st_flights s → flight_ok (st_db s) f;
  si_tokens : NoDup (map fl_token (st_flights s));
  si_excerpts : ∀ k a, attempts (st_db s) !! k = Some a → short_excerpt a;
  si_selected : ∀ ids, ids ∈ st_selected s → selection_ok (st_db s) ids
}.

Lemma budget_range : (1 ≤ budget ≤ 100)%Z.
Proof. unfold budget, settings_fields, int_field in *. bool_simpl. lia. Qed.

Lemma initial_inv : sys_inv initial.
Proof.
  split; simpl; [apply empty_inv|intros k r; by rewrite lookup_empty..|by intros f ?%elem_of_nil|constructor|intros k r; by rewrite lookup_empty|].
  by intros ids ?%elem_of_nil.
Qed.

Lemma frame_flight new born gone db db' f :
  frame new born gone db db' →
  (∀ k, new ≠ Some (k, fl_token f)) → flight_ok db f → flight_ok db' f.
Proof.
  intros Hf Hn []. split; try done. intros k a' Ha' Ht.
  destruct (fr_attempts _ _ _ _ _ Hf k a' Ha') as [(a & Ha & Et)|Hnew].
  - apply (fo_issued0 k a Ha). by rewrite Et.
  - destruct (Hn k). rewrite Hnew, Ht. done.
Qed.

Lemma frame_selection new born gone db db' ids :
  frame new born gone db db' → (∀ i, born = Some i → i ∉ ids) → selection_ok db ids → selection_ok db' ids.
Proof.
  intros Hf Hborn Hok k d' Hd' Hin.
  destruct (fr_deliveries _ _ _ _ _ Hf k d' Hd') as [(d & Hd & Hm)|(_ & _ & _ & [Hr|E])].
  - destruct Hm as (_ & Hterm & Ee & _ & _ & Er & _). rewrite Ee in Hin. rewrite Er.
    destruct (Hok k d Hd Hin) as [Ht|Hs]; [|by right]. left. by rewrite (Hterm Ht).
  - by right.
  - by destruct (Hborn _ E).
Qed.

(** A transaction within its frame keeps the invariant; webhooks and selections may be dropped. *)
Lemma frame_sys new born gone db db' fl fl' sel sel' :
  sys_inv (mkState db fl sel) → frame new born gone db db' → fl' `sublist_of` fl → sel' `sublist_of` sel →
  (∀ k t, new = Some (k, t) → t ∉ map fl_token fl) → (∀ i, born = Some i → ∀ ids, ids ∈ sel → i ∉ ids) →
  sys_inv (mkState db' fl' sel').
Proof.
  intros [Hinv Ht Hb Hfl Hnd Hx Hsel] Hf Hsub Hsubs Hnew Hborn. pose proof budget_range. simpl in *. split; simpl.
  - apply Hf.
  - intros k e' He'. destruct (fr_targets _ _ _ _ _ Hf k e' He') as [|(e & He & <-)]; eauto.
  - intros k d' Hd'. destruct (fr_deliveries _ _ _ _ _ Hf k d' Hd') as [(d & Hd & Hm)|(_ & _ & -> & _)]; [|lia].
    destruct Hm as (_ & _ & _ & _ & _ & _ & _ & _ & Hc & _). pose proof (Hb k d Hd). lia.
  - intros f Hin. assert (Hin' : f ∈ fl) by (by eapply elem_of_submseteq, sublist_submseteq).
    assert (Htok : ∀ k, new ≠ Some (k, fl_token f)).
    { intros k E. apply (Hnew _ _ E). by apply (list_elem_of_fmap_2 fl_token fl). }
    by eapply frame_flight; [done|done|apply Hfl].
  - apply (sublist_NoDup _ (map fl_token fl)); [done|]. by apply (fmap_sublist fl_token).
  - intros k a' Ha'. destruct (fr_excerpts _ _ _ _ _ Hf k a' Ha') as [|(a & Ha & E)]; [done|].
    unfold short_excerpt. rewrite <- E. by apply (Hx k).
  - intros ids Hin. assert (Hin' : ids ∈ sel) by (by eapply elem_of_submseteq, sublist_submseteq).
    eapply frame_selection; [done| |by apply Hsel]. intros i Hi. by apply (Hborn i Hi).
Qed.

(** The batch that the candidate query selects. *)
Lemma select_ok cutoff limit db :
  inv db → selection_ok db (Event.id <$> take (Z.to_nat limit) (expired_events cutoff db)).
Proof.
  intros Hinv k d Hd (e & Ee & He)%list_elem_of_fmap. left.
  apply subseteq_take, elem_of_expired in He as (_ & _ & Ht); [|done]. by apply (Ht k).
Qed.

(** The webhook of a claim. *)
Lemma claim_flight w env db webhook db' :
  worker_ok w → settings w = config → inv db → near (ce_now env) → claim_fresh env db →
  (∀ k e, endpoints db !! k = Some e → lab_target (Endpoint.target_url e)) →
  run_tx (claim_one w env) db = (Ok (Some (Outbound webhook)), db') →
  flight_ok db' (mkFlight w webhook) ∧ OutboundWebhook.lease_token webhook = ce_lease_token env.
Proof.
  intros Hw Hs Hinv Hn Hfresh Htgt Hrun. pose proof (claim_frame w env db Hw Hs Hinv Hn Hfresh) as Hf.
  rewrite Hrun in Hf. simpl in Hf. destruct Hfresh as [Hf1 Ht].
  destruct (claim_refines w env db Hw Hinv Hn Hf1 Ht) as [Hspec _]. rewrite Hrun in Hspec.
  assert (Hw' : OutboundWebhook.lease_token webhook = ce_lease_token env ∧
    OutboundWebhook.attempt_id webhook = ce_attempt_id env ∧
    (1 ≤ OutboundWebhook.attempt_number webhook ≤ budget)%Z ∧ lab_target (OutboundWebhook.endpoint_url webhook)).
  { rewrite <- (max_is_budget w Hw Hs).
    inversion Hspec as [|d endpoint reason Hp|d endpoint event payload us Hp Hst Hep Hen Hmax|
      d endpoint a reason Hp|d endpoint a event payload us reason Hp Hst Hep Hen Hmax]; subst;
      destruct Hp as (Hd & _); pose proof (count_nonneg db Hinv _ d Hd);
      simpl; (split_and!; [done|done|lia|lia|by eapply Htgt]). }
  destruct Hw' as (Et & Ei & Hnum & Hu). split; [|done]. split; try done. simpl.
  intros k a Ha Etok. rewrite Et in Etok.
  destruct (fr_attempts _ _ _ _ _ Hf k a Ha) as [(a0 & Ha0 & E)|Hnew].
  - destruct (Ht k a0 Ha0). congruence.
  - injection Hnew as <- _. by rewrite Ei.
Qed.

Lemma flight_finalizable (T : DeliveryTransport cap) f result fr now db :
  flight_ok db f → inv db → deliver (fl_webhook f) = Ok result → fraction fr → near now →
  finalizable (fl_worker f) (fl_webhook f) result fr now db.
Proof.
  intros [Hw Hs Hi Hn _] Hinv Hr Hf Hnow. pose proof budget_range.
  split; try done; [|lia]. rewrite Hs. by eapply deliver_evidence.
Qed.

Lemma step_inv s s' : sys_inv s → step s s' → sys_inv s'.
Proof.
  intros Hs Hstep. pose proof Hs as [Hinv Ht Hb Hfl Hnd Hx Hsel].
  destruct Hstep; simpl in *.
  - eapply frame_sys; [done|by apply create_frame|done..].
  - eapply frame_sys; [done|by apply publish_frame|done|done|done|]. by intros i [= <-].
  - eapply frame_sys; [done|by apply replay_frame|done..].
  - assert (Hs' : sys_inv (mkState (run_tx (claim_one w env) db).2 fl sel)).
    { eapply frame_sys; [done|by apply claim_frame|done|done| |done]. by intros k t [= <- <-]. }
    destruct (run_tx (claim_one w env) db) as [r db'] eqn:Hrun. simpl in *. unfold claimed.
    destruct r as [[[webhook|]|]|]; try done.
    destruct (claim_flight w env db webhook db') as [Hok Etok]; [done..|].
    destruct Hs' as [? ? ? Hfl' ? ? ?]. split; try done; simpl in *.
    + intros f [->|Hin]%elem_of_cons; [done|by apply Hfl'].
    + constructor; [|done]. unfold fl_token at 1. simpl. by rewrite Etok.
  - apply (frame_sys None None [] db _ (fl1 ++ f :: fl2) _ sel);
      [done| |by apply sublist_app; [done|apply sublist_cons]|done|done|done].
    apply finalize_frame. eapply flight_finalizable; try done. apply Hfl, elem_of_app. right. left.
  - eapply frame_sys; [done|by apply (frame_refl None None [])|by apply sublist_app; [done|apply sublist_cons]|done..].
  - eapply frame_sys; [done|by apply switch_frame|done..].
  - split; try done. simpl. intros ids [->|Hin]%elem_of_cons; [by apply select_ok|by apply Hsel].
  - eapply frame_sys; [done|by apply delete_frame|done|by apply sublist_app; [done|apply sublist_cons]|done|done].
  - eapply frame_sys; [done|by apply (frame_refl None None [])|done|by apply sublist_app; [done|apply sublist_cons]|done|done].
Qed.

Lemma steps_inv s s' : rtc step s s' → sys_inv s → sys_inv s'.
Proof. induction 1 as [|? ? ? Hstep _ IH]; [done|]. intros Hs. apply IH. by eapply step_inv. Qed.

Lemma reachable_inv s : reachable s → sys_inv s.
Proof.
  unfold reachable. revert s. apply (rtc_ind_r (R := step) sys_inv initial); [apply initial_inv|].
  intros x y _ Hstep Hx. by eapply step_inv.
Qed.

(** A step stays within its frame, and what it removes was selected by retention before. *)
Lemma step_frame s s' : sys_inv s → step s s' →
  ∃ new born gone, frame new born gone (st_db s) (st_db s') ∧ (gone = [] ∨ gone ∈ st_selected s).
Proof.
  intros Hs Hstep. pose proof Hs as [Hinv Ht Hb Hfl Hnd Hx Hsel].
  assert (Hsame : ∃ new born gone, frame new born gone (st_db s) (st_db s) ∧ (gone = [] ∨ gone ∈ st_selected s))
    by (exists None, None, []; split; [by apply frame_refl|by left]).
  destruct Hstep; simpl in *; try done; eexists _, _, _.
  - split; [by apply create_frame|by left].
  - split; [by apply publish_frame|by left].
  - split; [by apply replay_frame|by left].
  - split; [by apply claim_frame|by left].
  - split; [|by left]. apply finalize_frame. eapply flight_finalizable; try done. apply Hfl, elem_of_app. right. left.
  - split; [by apply switch_frame|by left].
  - split; [by apply delete_frame|]. right. apply elem_of_app. right. left.
Qed.

(** The batches pending after a step were pending before, but for one that was just selected. *)
Lemma step_selects s s' ids :
  sys_inv s → step s s' → ids ∈ st_selected s' →
  ids ∈ st_selected s ∨
  (∀ k d, deliveries (st_db s) !! k = Some d → Delivery.event_id d ∈ ids → terminal (Delivery.status d) = true).
Proof.
  intros Hs Hstep. pose proof (si_db s Hs) as Hinv. destruct Hstep; simpl in *; try by left.
  - intros [->|Hin]%elem_of_cons; [right|by left]. intros k d Hd (e & Ee & He)%list_elem_of_fmap.
    apply subseteq_take, elem_of_expired in He as (_ & _ & Ht); [|done]. by apply (Ht k).
  - intros [Hin|Hin]%elem_of_app; left; apply elem_of_app; [by left|right; by right].
  - intros [Hin|Hin]%elem_of_app; left; apply elem_of_app; [by left|right; by right].
Qed.

(** ** Progress *)

(** The time from which an active delivery is due. *)
Lemma due_reached db k d clock :
  inv db → deliveries db !! k = Some d → active (Delivery.status d) = true →
  due clock d = ((claim_key d).1 <=? clock)%Z.
Proof.
  intros Hinv Hd Ha. destruct (ok_delivery_row db (inv_ok db Hinv) k d Hd) as [_ Hc].
  apply row_checks in Hc as (_ & _ & _ & _ & [E1 E2] & Hip & _).
  pose proof (pi_schedule db d (inv_progress db Hinv k d Hd)) as Hsch.
  unfold due, claim_key. simpl.
  destruct (decide (Delivery.status d = IN_PROGRESS)) as [Es|Hne].
  - rewrite Es. simpl. apply Hip in Es. rewrite Es in E1.
    by destruct (Delivery.lease_expires_at d).
  - assert (Hn : is_null (Delivery.lease_owner d) = true) by (destruct (is_null _); naive_solver).
    rewrite Hn in E1, E2. destruct (Delivery.lease_expires_at d); [done|].
    destruct (Delivery.lease_token d); [done|].
    rewrite (bool_decide_eq_false_2 _ Hne). simpl. rewrite orb_false_r, andb_true_r.
    destruct (proj2 Hsch) as [t ->]; [by destruct (Delivery.status d); auto|].
    rewrite bool_decide_eq_true_2; [done|].
    rewrite !elem_of_cons. destruct (Delivery.status d); try done; auto.
Qed.

(** Identifiers no row and no request in flight uses. *)
Lemma claim_env_exists db fl (P : UUID → bool) clock :
  ∃ env, ce_now env = 0%Z ∧ ce_row_clock env = clock ∧ claim_fresh env db ∧ ce_lease_token env ∉ map fl_token fl ∧
    ce_locked_endpoints env = [] ∧
    ∀ k, is_Some (deliveries db !! k) → k ∈ ce_locked_deliveries env ↔ P k = false.
Proof.
  set (id := fresh (dom (attempts db))).
  set (tokens := list_to_set (map fl_token fl) ∪
    list_to_set (map (λ row, DeliveryAttempt.lease_token row.2) (map_to_list (attempts db))) : gset UUID).
  set (locked := filter (λ k, P k = false) (elements (dom (deliveries db)))).
  exists (mkClaimEnv 0 clock 0 (fresh tokens) id locked []). simpl.
  pose proof (is_fresh tokens) as Ht. unfold tokens in Ht at 2.
  rewrite not_elem_of_union, !not_elem_of_list_to_set in Ht. destruct Ht as [Ht1 Ht2].
  split_and!; try done.
  - split; simpl; [apply not_elem_of_dom, is_fresh|]. intros k a Ha E. apply Ht2. rewrite <- E.
    by apply (list_elem_of_fmap_2 (λ row : UUID * DeliveryAttempt, DeliveryAttempt.lease_token row.2) _ (k, a)),
      elem_of_map_to_list.
  - intros k Hk. unfold locked. rewrite list_elem_of_filter, elem_of_elements, elem_of_dom. tauto.
Qed.

Context (id : pystr) (policy : RetryPolicy)
  (Hworker : worker_ok (mkWorker id config policy)).
Let w := mkWorker id config policy.

(** A claim of a worker that dies at once: nothing is sent and nothing is finalized. *)
Inductive crashing_claim : State → State → Prop :=
| crash_claim w env db fl sel :
    worker_ok w → settings w = config → near (ce_now env) → claim_fresh env db →
    ce_lease_token env ∉ map fl_token fl →
    crashing_claim (mkState db fl sel) (mkState (run_tx (claim_one w env) db).2 fl sel).

Lemma crashing_claim_steps s s' : crashing_claim s s' → rtc step s s'.
Proof.
  intros []. eapply rtc_l; [by apply (step_claim w0 env)|].
  destruct (run_tx (claim_one w0 env) db) as [[[[webhook|]|]|] db']; try apply rtc_refl.
  apply rtc_once, (step_crash (mkFlight w0 webhook) db' [] fl).
Qed.

Lemma crashing_claims_steps n s s' : nsteps crashing_claim n s s' → rtc step s s'.
Proof. induction 1 as [|n x y z H _ IH]; [apply rtc_refl|]. etrans; [by apply crashing_claim_steps|done]. Qed.

Lemma crashing_claims_keep n s s' :
  nsteps crashing_claim n s s' → st_flights s' = st_flights s ∧ st_selected s' = st_selected s.
Proof. induction 1 as [|n x y z [] _ [-> ->]]; by split. Qed.

(** A claim that finds only one delivery unlocked, at the time it is due, takes it: it is dead-lettered,
    or one more of its attempts is used up. *)
Lemma claim_works s k d :
  sys_inv s → deliveries (st_db s) !! k = Some d → active (Delivery.status d) = true →
  ∃ s' d', crashing_claim s s' ∧ deliveries (st_db s') !! k = Some d' ∧
    (Delivery.status d' = DEAD_LETTERED ∨
     active (Delivery.status d') = true ∧ Delivery.attempt_count d' = (Delivery.attempt_count d + 1)%Z).
Proof.
  intros Hs Hd Ha. destruct s as [db fl sel]. pose proof Hs as [Hinv Ht Hb Hfl Hnd Hx Hsel]. simpl in *.
  pose proof (delivery_id_of db (inv_ok db Hinv) k d Hd) as Hid.
  destruct (claim_env_exists db fl (λ k', bool_decide (k' = k)) (λ _, (claim_key d).1))
    as (env & En & Ec & Hfresh & Htok & Hle & Hld).
  assert (Hn : near (ce_now env)) by (rewrite En; split; vm_compute; discriminate).
  assert (Hcl : claimable env db d).
  { split_and!.
    - rewrite Ec, (due_reached db k) by done. by apply Z.leb_le.
    - by apply (ok_delivery_endpoint db (inv_ok db Hinv) k).
    - rewrite Hid, Hld by eauto. rewrite bool_decide_eq_false. naive_solver.
    - rewrite Hle. apply not_elem_of_nil. }
  assert (Honly : ∀ r, picked env db r → r = d).
  { intros r (Hr & (_ & _ & Hnl & _) & _). destruct (decide (Delivery.id r = k)) as [E|Hne]; [congruence|].
    destruct Hnl. apply Hld; [eauto|]. by apply bool_decide_eq_false_2. }
  pose proof (crash_claim w env db fl sel Hworker eq_refl Hn Hfresh Htok) as Hstep.
  eexists _. assert (Hex : ∃ d', deliveries (run_tx (claim_one w env) db).2 !! k = Some d' ∧
    (Delivery.status d' = DEAD_LETTERED ∨
     active (Delivery.status d') = true ∧ Delivery.attempt_count d' = (Delivery.attempt_count d + 1)%Z));
    [|destruct Hex as (d' & ?); exists d'; by split].
  pose proof Hfresh as [Hf1 Hf2]. destruct (claim_refines w env db Hworker Hinv Hn Hf1 Hf2) as [Hspec _].
  destruct Hspec as [Hnone|r endpoint reason Hp Hst|r endpoint event payload us Hp Hst|
    r endpoint a reason Hp Hst Hep Hwhy Hat Hla|r endpoint a event payload us reason Hp Hst];
    [by destruct (Hnone k d)|..]; apply Honly in Hp as ->; rewrite <- Hid; simpl;
    rewrite lookup_insert_eq; eexists; (split; [done|]); auto.
Qed.

Lemma claims_end m s k d :
  sys_inv s → deliveries (st_db s) !! k = Some d → active (Delivery.status d) = true →
  (budget - Delivery.attempt_count d ≤ Z.of_nat m)%Z →
  ∃ n s' d', nsteps crashing_claim n s s' ∧ (Z.of_nat n ≤ Z.of_nat m + 1)%Z ∧
    deliveries (st_db s') !! k = Some d' ∧ Delivery.status d' = DEAD_LETTERED.
Proof.
  revert s d. induction m as [|m IH]; intros s d Hs Hd Ha Hm;
    destruct (claim_works s k d) as (s1 & d1 & Hstep & Hd1 & Hcase); try done;
    assert (Hs1 : sys_inv s1) by (by eapply steps_inv, Hs; apply crashing_claim_steps);
    (destruct Hcase as [Hend|[Ha1 Ec]]; [exists 1, s1, d1; split_and!; [by apply nsteps_once|lia|done|done]|]).
  - pose proof (si_budget _ Hs1 k d1 Hd1). lia.
  - destruct (IH s1 d1) as (n & s2 & d2 & Hn & Hle & Hd2 & Hend); [done|done|done|lia|].
    exists (S n), s2, d2. split_and!; [by eapply nsteps_l|lia|done|done].
Qed.
End system.

(** ** Properties *)

(** C1: every reachable state is sound: whatever requests, workers, retention runs, operators and crashes
    interleave, the database satisfies the invariant of its deliveries, attempts, chains and events;
    every endpoint, and the target of every request that is out, is a route of the configured
    Receiver Lab; and no delivery is attempted more often than the configured budget. *)
Theorem reachable_sound base config s :
  settings_fields config = true → reachable base config s →
  inv (st_db s) ∧
  (∀ k e, endpoints (st_db s) !! k = Some e → lab_target base (Endpoint.target_url e)) ∧
  (∀ k d, deliveries (st_db s) !! k = Some d → (Delivery.attempt_count d ≤ worker_max_attempts config)%Z) ∧
  (∀ f, f ∈ st_flights s → lab_target base (OutboundWebhook.endpoint_url (fl_webhook f)) ∧
     (1 ≤ OutboundWebhook.attempt_number (fl_webhook f) ≤ worker_max_attempts config)%Z).
Proof.
  intros Hc Hr. destruct (reachable_inv base config Hc s Hr) as [Hinv Ht Hb Hf _].
  split_and!; try done. intros f Hin. destruct (Hf f Hin). done.
Qed.

(** C3: at most one worker can decide the outcome of a delivery: of all requests that are out in a
    reachable state, at most one belongs to the current lease of a delivery, so every other result
    for it is stale and will be ignored by the fence. *)
Theorem single_holder base config s k d f1 f2 :
  settings_fields config = true → reachable base config s →
  deliveries (st_db s) !! k = Some d → f1 ∈ st_flights s → f2 ∈ st_flights s →
  owns_lease (fl_worker f1) (fl_webhook f1) d → owns_lease (fl_worker f2) (fl_webhook f2) d → f1 = f2.
Proof.
  intros Hc Hr Hd H1 H2 (_ & _ & _ & E1) (_ & _ & _ & E2).
  pose proof (si_tokens _ _ _ (reachable_inv base config Hc s Hr)) as Hnd.
  assert (Et : fl_token f1 = fl_token f2) by (unfold fl_token; congruence).
  apply list_elem_of_lookup in H1 as [i Hi], H2 as [j Hj].
  assert (i = j) as ->; [|congruence].
  apply (NoDup_lookup (map fl_token (st_flights s)) i j (fl_token f1)); [done|..].
  - by apply (list_lookup_fmap_Some_2 fl_token).
  - rewrite Et. by apply (list_lookup_fmap_Some_2 fl_token).
Qed.

(** C2: no step breaks a promise made: in a reachable state, one step of anything moves a delivery only
    along the documented lifecycle, never touches a terminal one, never lowers its attempt count,
    keeps its place in its chain, and uses up remaining work when it changes it.  A delivery
    disappears only by the deletions of a retention batch that was selected before, and then it is
    terminal or a replay; and retention selects an event only when all its deliveries are terminal.
    (A replay that commits between the selection and the deletions of its event is lost.) *)
Theorem step_keeps_promises base config s s' :
  settings_fields config = true → reachable base config s → step base config s s' →
  (∀ k d, deliveries (st_db s) !! k = Some d →
    match deliveries (st_db s') !! k with
    | Some d' => moved (worker_max_attempts config) d d' ∧
        (d' = d ∨ (remaining_work (worker_max_attempts config) d' < remaining_work (worker_max_attempts config) d)%Z)
    | None => ∃ ids, ids ∈ st_selected s ∧ Delivery.event_id d ∈ ids ∧
        (terminal (Delivery.status d) = true ∨ is_Some (Delivery.replayed_from_delivery_id d))
    end) ∧
  (∀ ids, ids ∈ st_selected s' → ids ∈ st_selected s ∨
    ∀ k d, deliveries (st_db s) !! k = Some d → Delivery.event_id d ∈ ids → terminal (Delivery.status d) = true).
Proof.
  intros Hc Hr Hstep. pose proof (reachable_inv base config Hc s Hr) as Hs.
  destruct (step_frame base config Hc s s' Hs Hstep) as (new & born & gone & Hf & Hgone).
  split; [|intros ids; by eapply step_selects].
  intros k d Hd. destruct (deliveries (st_db s') !! k) as [d'|] eqn:Hd'.
  - destruct (fr_deliveries _ _ _ _ _ _ _ Hf k d' Hd') as [(d0 & Hd0 & Hm)|(Hn & _)]; [|congruence].
    simplify_eq. split; [done|]. apply Hm. by apply (si_budget _ _ _ Hs k).
  - destruct (decide (Delivery.event_id d ∈ gone)) as [Hin|Hn].
    2: { destruct (fr_kept _ _ _ _ _ _ _ Hf k d Hd Hn). congruence. }
    destruct Hgone as [->|Hg]; [by apply elem_of_nil in Hin|].
    exists gone. split_and!; [done|done|]. by apply (si_selected _ _ _ Hs gone Hg k).
Qed.

(** C4: due work is never stuck: in a reachable state every active delivery has a due time, and from
    that time on every claim that meets neither its row nor its endpoint locked hands out or
    resolves some delivery that was due no later; none answers that there is nothing to do. *)
Theorem due_work_claimed base config s k d w env :
  settings_fields config = true → reachable base config s →
  deliveries (st_db s) !! k = Some d → active (Delivery.status d) = true →
  worker_ok w → near (ce_now env) → claim_fresh env (st_db s) →
  ((claim_key d).1 ≤ ce_row_clock env k)%Z →
  k ∉ ce_locked_deliveries env → Delivery.endpoint_id d ∉ ce_locked_endpoints env →
  ∃ c db', run_tx (claim_one w env) (st_db s) = (Ok (Some c), db') ∧
    ∃ r, deliveries (st_db s) !! claim_target c = Some r ∧ key_le (claim_key r) (claim_key d).
Proof.
  intros Hc Hr Hd Ha Hw Hn [Hf1 Hf2] Hdue Hl1 Hl2.
  pose proof (si_db _ _ _ (reachable_inv base config Hc s Hr)) as Hinv.
  pose proof (delivery_id_of _ (inv_ok _ Hinv) k d Hd) as Hid.
  assert (Hcl : claimable env (st_db s) d).
  { split_and!; rewrite ?Hid; try done.
    - rewrite (due_reached _ k) by done. by apply Z.leb_le.
    - by apply (ok_delivery_endpoint _ (inv_ok _ Hinv) k). }
  destruct (claim_refines w env (st_db s) Hw Hinv Hn Hf1 Hf2) as [Hspec _].
  inversion Hspec as [Hnone|r endpoint reason Hp|r endpoint event payload us Hp|r endpoint a reason Hp|
    r endpoint a event payload us reason Hp]; [by destruct (Hnone k d)|..];
    destruct Hp as (Hr1 & _ & Hmin); (eexists _, _; split; [done|]); exists r; (split; [done|]); by eapply Hmin.
Qed.

(** C5: every accepted delivery comes to an end even if every worker crashes right after its claim and
    no receiver ever answers: from every reachable state claims alone, each by a worker that dies
    without sending or finalizing anything, bring an active delivery to the dead letters, at most
    one claim for each attempt left in its budget and one more. *)
Theorem delivery_can_end base config s k d id w :
  settings_fields config = true → make_worker config id = Ok w → varchar 160 (worker_id w) = true →
  reachable base config s → deliveries (st_db s) !! k = Some d → active (Delivery.status d) = true →
  ∃ n s' d', nsteps (crashing_claim config) n s s' ∧
    (Z.of_nat n ≤ worker_max_attempts config - Delivery.attempt_count d + 1)%Z ∧
    rtc (step base config) s s' ∧ st_flights s' = st_flights s ∧ st_selected s' = st_selected s ∧
    deliveries (st_db s') !! k = Some d' ∧ Delivery.status d' = DEAD_LETTERED.
Proof.
  intros Hc Hmk Hid Hr Hd Ha. apply outcome_bind_Ok in Hmk as (p & Hp & [= <-]).
  pose proof (reachable_inv base config Hc s Hr) as Hs. pose proof (si_budget _ _ _ Hs k d Hd) as Hb.
  destruct (claims_end base config Hc (take 160 id) p ltac:(by split)
    (Z.to_nat (worker_max_attempts config - Delivery.attempt_count d)) s k d)
    as (n & s' & d' & Hn & Hle & Hd' & Hend); [done|done|done|lia|].
  destruct (crashing_claims_keep _ _ _ _ Hn) as [Ef Es].
  exists n, s', d'. split_and!; [done|lia|by eapply crashing_claims_steps|done..].
Qed.

(** One iteration of the worker is a sequence of steps: [run_once] with any HTTP client and any outage of
    the database refines the step relation (a claim, then the finalization of its webhook, or a crash
    where the claim, the transport or the finalization raises), so what holds of all reachable states
    holds between its transactions. *)
Theorem run_once_refines base config w o1 o2 cenv client parsedate clock fr now db fl sel :
  settings_fields config = true → worker_ok w → settings w = config → near (ce_now cenv) → near now →
  claim_fresh cenv db → ce_lease_token cenv ∉ map fl_token fl → fraction fr →
  (0 ≤ sc_started_at clock ≤ datetime_max)%Z →
  rtc (step base config) (mkState db fl sel)
    (mkState (run_once w o1 o2 cenv client parsedate clock fr now db).2 fl sel).
Proof.
  intros Hc Hw Hs Hn1 Hn2 Hf Ht Hfr Hclk.
  pose proof (crashing_claim_steps base config _ _ (crash_claim config w cenv db fl sel Hw Hs Hn1 Hf Ht)) as Hcrash.
  pose proof (step_claim base config w cenv db fl sel Hw Hs Hn1 Hf Ht) as Hclaim. unfold run_once.
  destruct o1 as [[e []]|]; [exact Hcrash|apply rtc_refl|]. cbn [transact].
  destruct (run_tx (claim_one w cenv) db) as [[[[webhook|]|]|e] db1]; simpl in Hclaim |- *; try by apply rtc_once.
  eapply rtc_l; [exact Hclaim|]. apply rtc_once.
  destruct (worker_day w Hw) as [_ [Hcap _]]. rewrite Hs in *.
  set (T := http_transport (worker_retry_after_cap_seconds config) client parsedate clock Hcap Hclk).
  destruct (send_webhook _ _ _ _ _) as [result|e] eqn:Hsend; [|apply (step_crash base config (mkFlight w webhook) db1 [] fl sel)].
  pose proof (step_finalize base config T (mkFlight w webhook) result fr now db1 [] fl sel Hsend Hfr Hn2) as Hfin.
  cbn [app fl_worker fl_webhook] in Hfin. destruct o2 as [[e []]|]; cbn [transact ou_committed ou_error snd].
  - exact Hfin.
  - apply (step_crash base config (mkFlight w webhook) db1 [] fl sel).
  - by destruct (run_tx (finalize w webhook result fr now) db1) as [[b|e] db2].
Qed.

(** ** Retention as steps *)

Section retention.
Context (base : pystr) (config : Settings) (Hconfig : settings_fields config = true).
Context (fl : list Flight) (sel : list (list UUID)).

(** The batch that a candidate query of retention selects. *)
Definition batch_of (cutoff : datetime) (limit : Z) (db : Db) : list UUID :=
  Event.id <$> take (Z.to_nat limit) (expired_events cutoff db).

(** What commits between the selection and the deletions of a batch is made of steps. *)
Definition others_step (others : Db → Db) (cutoff : datetime) (limit : Z) (db : Db) : Prop :=
  rtc (step base config) (mkState db fl (batch_of cutoff limit db :: sel))
    (mkState (others db) fl (batch_of cutoff limit db :: sel)).

(** The same for every round of the loop. *)
Fixpoint others_ok (fuel : nat) (others : nat → Db → Db) (cutoff : datetime) (bs max del : Z) (db : Db) : Prop :=
  match fuel with
  | O => True
  | S fuel =>
      let limit := Z.min bs (max - del) in
      others_step (others fuel) cutoff limit db ∧
      match _delete_terminal_event_batch (others fuel) cutoff limit db with
      | Ok (n, db') => others_ok fuel others cutoff bs max (del + n) db'
      | Raise _ => True
      end
  end.

(** A run of retention, round by round: the oldest expired events are selected, other transactions
    commit, and of the selected events those that are left are removed with all that belongs to them
    and counted, until a round removes none or the bound is reached. *)
Definition left_of (ids : list UUID) (db : Db) : Z :=
  Z.of_nat (length (select (λ e, Event.id e ∈ ids) (events db))).

Inductive retention_run (cutoff : datetime) (bs max : Z) : Z → Z → Db → Z → Z → Db → Prop :=
| run_full del b db :
    (max ≤ del)%Z → retention_run cutoff bs max del b db del b db
| run_last del b db db1 :
    (del < max)%Z →
    let ids := batch_of cutoff (Z.min bs (max - del)) db in
    rtc (step base config) (mkState db fl (ids :: sel)) (mkState db1 fl (ids :: sel)) →
    left_of ids db1 = 0%Z →
    retention_run cutoff bs max del b db del b (remove_events ids db1)
| run_batch del b db db1 del' b' db' :
    (del < max)%Z →
    let ids := batch_of cutoff (Z.min bs (max - del)) db in
    rtc (step base config) (mkState db fl (ids :: sel)) (mkState db1 fl (ids :: sel)) →
    (0 < left_of ids db1)%Z →
    retention_run cutoff bs max (del + left_of ids db1) (b + 1) (remove_events ids db1) del' b' db' →
    retention_run cutoff bs max del b db del' b' db'.

Lemma left_of_nil db : left_of [] db = 0%Z.
Proof.
  unfold left_of. rewrite (proj2 (length_zero_iff_nil _)); [done|].
  apply elem_of_nil_inv. intros e [Hin _]%elem_of_select. by apply elem_of_nil in Hin.
Qed.

(** One batch: the selection, the others, the deletions. *)
Lemma batch_steps others cutoff limit db :
  let ids := batch_of cutoff limit db in
  sys_inv base config (mkState db fl sel) → others_step others cutoff limit db →
  ∃ db1, rtc (step base config) (mkState db fl (ids :: sel)) (mkState db1 fl (ids :: sel)) ∧
    _delete_terminal_event_batch others cutoff limit db = Ok (left_of ids db1, remove_events ids db1) ∧
    rtc (step base config) (mkState db fl sel) (mkState (remove_events ids db1) fl sel).
Proof.
  intros ids Hs Hothers. unfold _delete_terminal_event_batch. erewrite tx_bind_Ok by done. cbv beta.
  unfold others_step in Hothers. fold (batch_of cutoff limit db).
  pose proof (step_select base config cutoff limit db fl sel) as Hsel. fold (batch_of cutoff limit db) in Hsel.
  fold ids in Hothers, Hsel |- *. clearbody ids.
  pose proof (rtc_l _ _ _ _ Hsel Hothers) as Hpath.
  pose proof (step_delete base config ids (others db) fl [] sel) as Hdel. cbn [app] in Hdel.
  pose proof (si_db _ _ _ (steps_inv base config Hconfig _ _ Hpath Hs)) as Hinv. cbn [st_db] in Hinv.
  unfold run_tx in Hdel. rewrite delete_batch_run in Hdel by done. cbn [snd] in Hdel.
  destruct ids as [|i l].
  - exists db. rewrite remove_nil, left_of_nil by apply (si_db _ _ _ Hs). split_and!; [apply rtc_refl|done|apply rtc_refl].
  - exists (others db). split_and!; [done| |by eapply rtc_r].
    erewrite tx_bind_Ok by done. rewrite delete_batch_run by done. unfold left_of. by rewrite length_fmap.
Qed.

Lemma purge_loop_steps fuel others cutoff bs max del b db :
  (max - del ≤ Z.of_nat fuel)%Z →
  sys_inv base config (mkState db fl sel) → others_ok fuel others cutoff bs max del db →
  ∃ del' b' db', purge_loop fuel others cutoff bs max del b db = Ok (Some (del', b'), db') ∧
    retention_run cutoff bs max del b db del' b' db' ∧
    rtc (step base config) (mkState db fl sel) (mkState db' fl sel).
Proof.
  revert del b db. induction fuel as [|fuel IH]; intros del b db Hfuel Hs Hok; cbn [purge_loop];
    (destruct (del <? max)%Z eqn:Hdel; bool_simpl;
      [|exists del, b, db; split_and!; [done|by apply run_full|apply rtc_refl]]); [lia|].
  destruct Hok as [Hst Hok]. destruct (batch_steps _ _ _ _ Hs Hst) as (db1 & Hrace & E & Hpath). rewrite E in Hok.
  erewrite tx_bind_Ok by exact E. destruct (left_of _ _ =? 0)%Z eqn:En; bool_simpl.
  - eexists del, b, _. split_and!; [done|by apply run_last|done].
  - assert (Hpos : (0 < left_of (batch_of cutoff (Z.min bs (max - del)) db) db1)%Z) by (unfold left_of in *; lia).
    destruct (IH (del + left_of (batch_of cutoff (Z.min bs (max - del)) db) db1)%Z (b + 1)%Z
      (remove_events (batch_of cutoff (Z.min bs (max - del)) db) db1))
      as (del' & b' & db' & Hrun & Hr & Hpath'); [lia|by eapply steps_inv|done|].
    exists del', b', db'. split_and!; [done|by eapply run_batch|by etrans].
Qed.
End retention.

(** C15: A run of the retention job is a sequence of steps: whatever other transactions commit between
    the selection and the deletions of each of its batches, as long as these are themselves steps of
    the system, the run returns; round by round it selects the oldest expired events, up to the batch
    size and what is left of its bound, removes those of them that are still there with all that
    belongs to them, and counts these and the batches, until a round removes none or the bound is
    reached; and all of this leads from one state of the system to another by steps, with no batch
    left pending. *)
Theorem purge_refines base config others cutoff bs max db fl sel :
  settings_fields config = true → reachable base config (mkState db fl sel) → (1 ≤ bs)%Z → (1 ≤ max)%Z →
  others_ok base config fl sel (Z.to_nat max) others cutoff bs max 0 db →
  ∃ n b db', run_tx (purge_expired_demo_events true others (Some cutoff) bs max) db = (Ok (mkCleanupResult true n b), db') ∧
    retention_run base config fl sel cutoff bs max 0 0 db n b db' ∧
    rtc (step base config) (mkState db fl sel) (mkState db' fl sel).
Proof.
  intros Hc Hr Hbs Hmax Hok. pose proof (reachable_inv base config Hc _ Hr) as Hs.
  destruct (purge_loop_steps base config Hc fl sel (Z.to_nat max) others cutoff bs max 0 0 db)
    as (n & b & db' & Hl & Hrun & Hpath); [lia|done|done|].
  exists n, b, db'. split; [|done]. apply run_tx_Ok. unfold purge_expired_demo_events.
  destruct (bs <? 1)%Z eqn:E1; [bool_simpl; lia|]. destruct (max <? 1)%Z eqn:E2; [bool_simpl; lia|]. cbn [negb].
  by erewrite tx_bind_Ok by exact Hl.
Qed.
