(* ===== verification/Examples.v ===== *)
(** The worker and the whole system on a concrete run: an endpoint is registered, an event is
    published, claimed, answered and finalized, and the theorems apply to it. *)
From S2P Require Import Prelude PyStr Errors Floats FloatConv Json Retry StateMachine Models Datetime Database.
From S2P Require Import Repositories Invariant Transport Config Worker Claiming Finalizing Services Fixtures Publishing Replaying.
From S2P Require Import Maintenance System.
From Stdlib Require Import ZArith.

(** ** The worker *)

Definition lab_worker : Worker :=
  mkWorker (lit "worker-1") default_settings (mkRetryPolicy 8 (float_of_Z 10) (float_of_Z 3600)).

Lemma lab_worker_made : make_worker default_settings (lit "worker-1") = Ok lab_worker.
Proof. vm_compute. reflexivity. Qed.

Lemma lab_worker_ok : worker_ok lab_worker.
Proof. split; vm_compute; reflexivity. Qed.

Definition lab_now : datetime := 1700000001000000.
Definition lab_claim_env : ClaimEnv := mkClaimEnv lab_now (λ _, lab_now) lab_now 200 201 [] [].

Lemma lab_near : near lab_now.
Proof. unfold near. split; vm_compute; discriminate. Qed.

Lemma lab_claim_fresh : claim_fresh lab_claim_env lab_accepted.
Proof. split; [reflexivity|]. intros k a Ha. vm_compute in Ha. done. Qed.

Definition lab_claimed : Db := Eval vm_compute in (run_tx (claim_one lab_worker lab_claim_env) lab_accepted).2.

Definition lab_webhook : OutboundWebhook :=
  Eval vm_compute in
  match (run_tx (claim_one lab_worker lab_claim_env) lab_accepted).1 with
  | Ok (Some (Outbound webhook)) => webhook
  | _ => OutboundWebhook.mk 0 0 0 [] [] [] [] 0 0 None
  end.

Lemma lab_claim_run :
  run_tx (claim_one lab_worker lab_claim_env) lab_accepted = (Ok (Some (Outbound lab_webhook)), lab_claimed).
Proof. vm_compute. reflexivity. Qed.

Lemma claim_total_witness :
  ∃ claim db', run_tx (claim_one lab_worker lab_claim_env) lab_accepted = (Ok claim, db') ∧ inv db'.
Proof.
  destruct (claim_total lab_worker lab_claim_env lab_accepted lab_worker_ok lab_accepted_inv lab_near lab_claim_fresh)
    as (c & db' & E & _ & Hi).
  exists c, db'. split; [exact E|exact Hi].
Defined.


Lemma claim_reserves_witness :
  ∃ d a, deliveries lab_claimed !! 101%N = Some d ∧ owns_lease lab_worker lab_webhook d ∧
    attempts lab_claimed !! 201%N = Some a ∧ reserved_for lab_webhook a.
Proof.
  destruct (claim_reserves lab_worker lab_claim_env lab_accepted lab_webhook lab_claimed lab_worker_ok
    lab_accepted_inv lab_near lab_claim_fresh lab_claim_run)
    as (d0 & d & a & event & endpoint & us & _ & Hd & Ho & _ & _ & _ & _ & _ & Ha & Hr & _).
  exists d, a. split; [exact Hd|]. split; [exact Ho|]. split; [exact Ha|exact Hr].
Defined.

Lemma claim_moves_witness : endpoints (run_tx (claim_one lab_worker lab_claim_env) lab_accepted).2 = endpoints lab_accepted.
Proof.
  apply (claim_moves lab_worker lab_claim_env lab_accepted lab_worker_ok lab_accepted_inv lab_near lab_claim_fresh).
Defined.

Lemma lab_claimed_inv : inv lab_claimed.
Proof.
  destruct lab_claim_fresh as [Hf Ht].
  destruct (claim_refines lab_worker lab_claim_env lab_accepted lab_worker_ok lab_accepted_inv lab_near Hf Ht) as [_ Hi].
  by rewrite lab_claim_run in Hi.
Qed.

(** ** Results *)

(** The receiver answers 503 with a hint of two minutes. *)
Definition lab_result : AttemptResult :=
  AttemptResult.mk RETRY (Some 503%Z) None None (Some (lit "busy")) 1700000001 (Some (float_of_Z 120))
    lab_now (lab_now + 40000)%Z 40.

(** The receiver answers 200 with a body that holds a NUL. *)
Definition lab_nul_result : AttemptResult :=
  AttemptResult.mk SUCCEEDED (Some 200%Z) None None (Some (lit "ok" ++ [0%N])) 1700000001 None
    lab_now (lab_now + 40000)%Z 40.

Lemma lab_evidence : evidence (worker_retry_after_cap_seconds (settings lab_worker)) lab_result.
Proof.
  split; try (intros s [= <-]; split_and!); try discriminate; vm_compute; done.
Qed.

Lemma lab_nul_evidence : evidence (worker_retry_after_cap_seconds (settings lab_worker)) lab_nul_result.
Proof.
  split; try (intros s [= <-]; split_and!); try discriminate; vm_compute; done.
Qed.

Lemma lab_storable : storable lab_result.
Proof. split; simpl; try reflexivity. unfold lab_now. lia. Qed.

Lemma lab_issued : issued lab_webhook lab_claimed.
Proof.
  assert (H : map_Forall (λ k a, DeliveryAttempt.lease_token a = OutboundWebhook.lease_token lab_webhook →
    k = OutboundWebhook.attempt_id lab_webhook) (attempts lab_claimed))
    by (apply (bool_decide_eq_true_1 _); vm_compute; reflexivity).
  intros k a Ha. by apply (map_Forall_lookup_1 _ _ _ _ H).
Qed.

Lemma lab_half : fraction (S754_finite false 4503599627370496 (-53)).
Proof. split_and!; vm_compute; reflexivity. Qed.

Lemma lab_finalizable result :
  evidence (worker_retry_after_cap_seconds (settings lab_worker)) result →
  finalizable lab_worker lab_webhook result (S754_finite false 4503599627370496 (-53)) lab_now lab_claimed.
Proof.
  intros He. split; [exact lab_worker_ok|exact lab_claimed_inv|exact lab_issued|exact lab_near|exact He|exact lab_half|].
  simpl. lia.
Qed.

Definition lab_held : Delivery :=
  Eval vm_compute in default (EventService.initial_delivery lab_env lab_endpoint) (deliveries lab_claimed !! 101%N).

Lemma lab_held_row : deliveries lab_claimed !! OutboundWebhook.delivery_id lab_webhook = Some lab_held.
Proof. vm_compute. reflexivity. Qed.

Lemma lab_held_owned : owns_lease lab_worker lab_webhook lab_held.
Proof. split_and!; vm_compute; reflexivity. Qed.

Lemma finalize_fenced_witness :
  run_tx (finalize lab_worker lab_webhook lab_result (S754_finite false 4503599627370496 (-53)) lab_now)
    lab_claimed ≠ (Ok false, lab_claimed).
Proof.
  intros E.
  destruct (finalize_fenced lab_worker lab_webhook lab_result (S754_finite false 4503599627370496 (-53)) lab_now
    lab_claimed (lab_finalizable lab_result lab_evidence) lab_storable) as [H _].
  apply H in E as [_ Hn]. apply (Hn _ lab_held lab_held_row lab_held_owned). reflexivity.
Defined.


Lemma finalize_nul_excerpt_witness :
  ∃ msg, run_tx (finalize lab_worker lab_webhook lab_nul_result (S754_finite false 4503599627370496 (-53)) lab_now)
    lab_claimed = (Raise (DataErr msg), lab_claimed).
Proof.
  apply (finalize_nul_excerpt lab_worker lab_webhook lab_nul_result (S754_finite false 4503599627370496 (-53)) lab_now
    lab_claimed lab_held (lab_finalizable lab_nul_result lab_nul_evidence) lab_held_row lab_held_owned eq_refl eq_refl).
  exists (lit "ok" ++ [0%N]). split; [reflexivity|]. apply elem_of_app. right. left.
Defined.

(** ** The system *)

Definition lab_base : pystr := lit "http://receiver-lab:8100/webhooks".

(** The state after registration, publication and a claim. *)
Definition lab_state : State := mkState lab_claimed [mkFlight lab_worker lab_webhook] [].

Lemma lab_accepted_reachable : reachable lab_base default_settings (mkState lab_accepted [] []).
Proof.
  apply (rtc_l _ _ (mkState lab_db [] [])).
  - pose proof (step_create lab_base default_settings (lit "ehsec_demo") (mkEnv 7 0 0 0) 0
      (mkEndpointCreateRequest (lit "orders") (lit "http://receiver-lab:8100/webhooks/orders")) empty_db [] []) as H.
    assert (E : (run_tx (EndpointService.create lab_base (lit "ehsec_demo") (mkEnv 7 0 0 0) 0
      (mkEndpointCreateRequest (lit "orders") (lit "http://receiver-lab:8100/webhooks/orders"))) empty_db).2 = lab_db)
      by (vm_compute; reflexivity).
    by rewrite E in H.
  - apply rtc_once. pose proof (step_publish lab_base default_settings lab_env lab_request lab_key lab_db [] [] eq_refl eq_refl ltac:(by intros ids ?%elem_of_nil)) as H.
    assert (E : (run_tx (EventService.publish lab_env lab_request lab_key) lab_db).2 = lab_accepted)
      by (vm_compute; reflexivity).
    by rewrite E in H.
Qed.

Lemma lab_claim_step : step lab_base default_settings (mkState lab_accepted [] []) lab_state.
Proof.
  pose proof (step_claim lab_base default_settings lab_worker lab_claim_env lab_accepted [] [] lab_worker_ok eq_refl
    lab_near lab_claim_fresh (not_elem_of_nil _)) as H.
  rewrite lab_claim_run in H. exact H.
Qed.

Lemma lab_reachable : reachable lab_base default_settings lab_state.
Proof. eapply rtc_r; [apply lab_accepted_reachable|apply lab_claim_step]. Qed.

Lemma lab_fields : settings_fields default_settings = true.
Proof. vm_compute. reflexivity. Qed.

Lemma reachable_sound_witness : inv lab_claimed ∧ lab_target lab_base (OutboundWebhook.endpoint_url lab_webhook).
Proof.
  destruct (reachable_sound lab_base default_settings lab_state lab_fields lab_reachable) as (Hi & _ & _ & Hf).
  split; [exact Hi|]. apply (Hf (mkFlight lab_worker lab_webhook)). left.
Defined.

Lemma single_holder_witness :
  mkFlight lab_worker lab_webhook = mkFlight lab_worker lab_webhook.
Proof.
  apply (single_holder lab_base default_settings lab_state 101 lab_held (mkFlight lab_worker lab_webhook)
    (mkFlight lab_worker lab_webhook) lab_fields lab_reachable lab_held_row); [left|left|exact lab_held_owned|exact lab_held_owned].
Defined.

Lemma step_keeps_promises_witness :
  (remaining_work 8 lab_held < remaining_work 8 (EventService.initial_delivery lab_env lab_endpoint))%Z.
Proof.
  destruct (step_keeps_promises lab_base default_settings (mkState lab_accepted [] []) lab_state
    lab_fields lab_accepted_reachable lab_claim_step) as [H _].
  specialize (H 101%N (EventService.initial_delivery lab_env lab_endpoint) ltac:(vm_compute; reflexivity)).
  change (deliveries (st_db lab_state) !! 101%N) with (deliveries lab_claimed !! OutboundWebhook.delivery_id lab_webhook) in H.
  rewrite lab_held_row in H. destruct H as [_ [E|Hlt]]; [|exact Hlt].
  apply (f_equal Delivery.status) in E. vm_compute in E. discriminate.
Defined.

Lemma due_work_claimed_witness :
  ∃ c db', run_tx (claim_one lab_worker lab_claim_env) lab_accepted = (Ok (Some c), db').
Proof.
  destruct (due_work_claimed lab_base default_settings (mkState lab_accepted [] []) 101
    (EventService.initial_delivery lab_env lab_endpoint) lab_worker lab_claim_env lab_fields lab_accepted_reachable)
    as (c & db' & E & _);
    [vm_compute; reflexivity|reflexivity|exact lab_worker_ok|exact lab_near|exact lab_claim_fresh|
     vm_compute; discriminate|apply not_elem_of_nil|apply not_elem_of_nil|].
  exists c, db'. exact E.
Defined.

Lemma delivery_can_end_witness :
  ∃ n s' d', nsteps (crashing_claim default_settings) n lab_state s' ∧ (Z.of_nat n ≤ 8)%Z ∧
    deliveries (st_db s') !! 101%N = Some d' ∧ Delivery.status d' = DEAD_LETTERED.
Proof.
  destruct (delivery_can_end lab_base default_settings lab_state 101 lab_held (lit "worker-1") lab_worker lab_fields
    lab_worker_made eq_refl lab_reachable lab_held_row eq_refl) as (n & s' & d' & Hn & Hle & _ & _ & _ & Hd & Hend).
  exists n, s', d'. split; [exact Hn|]. split; [exact Hle|]. split; [exact Hd|exact Hend].
Defined.

Definition lab_client (request : OutboundRequest) : post_outcome := Responded 503 (Some (lit "120")) (blit "busy").
Definition lab_parsedate : date_parser := λ _, Raise (ValueErr (lit "no date")).
Definition lab_send_clock : SendClock := mkSendClock lab_now (lab_now + 40000)%Z fzero fone.

Lemma run_once_refines_witness :
  rtc (step lab_base default_settings) (mkState lab_accepted [] [])
    (mkState (run_once lab_worker None (Some (mkOutage (DatabaseErr (lit "connection reset")) true)) lab_claim_env lab_client lab_parsedate lab_send_clock
      (S754_finite false 4503599627370496 (-53)) lab_now lab_accepted).2 [] []).
Proof.
  apply (run_once_refines lab_base default_settings lab_worker None _ lab_claim_env lab_client lab_parsedate lab_send_clock
    (S754_finite false 4503599627370496 (-53)) lab_now lab_accepted [] [] lab_fields lab_worker_ok eq_refl lab_near lab_near
    lab_claim_fresh (not_elem_of_nil _) lab_half). split; vm_compute; discriminate.
Defined.
