(* ===== verification/Polling.v ===== *)
(** The polling loop of the worker: it survives every failure of an iteration, and it cannot spin.

    Each iteration that does not sleep uses up work of some delivery: every delivery can be claimed
    and finalized only so often, so in a system without new requests the loop comes to rest. *)
From S2P Require Import Prelude PyStr Errors Floats Json Retry StateMachine Models Datetime Database Repositories.
From S2P Require Import Invariant Transport Config Worker Claiming Finalizing Services Fixtures Publishing System Examples.
From Stdlib Require Import ZArith.

(** ** The work left in a database *)

Section work.
Context (max : Z).

Definition work_of (tbl : gmap UUID Delivery) : Z := map_fold (λ _ d n, remaining_work max d + n)%Z 0%Z tbl.

(** The transitions all deliveries together can still make. *)
Definition total_work (db : Db) : Z := work_of (deliveries db).

Definition within_budget (db : Db) : Prop :=
  ∀ k d, deliveries db !! k = Some d → (Delivery.attempt_count d ≤ max)%Z.

Lemma work_of_insert_new tbl k d : tbl !! k = None → work_of (<[k := d]> tbl) = (remaining_work max d + work_of tbl)%Z.
Proof. intros Hk. unfold work_of. by rewrite map_fold_insert_L by (intros; lia || done). Qed.

Lemma work_of_insert tbl k d d' :
  tbl !! k = Some d → work_of (<[k := d']> tbl) = (work_of tbl - remaining_work max d + remaining_work max d')%Z.
Proof.
  intros Hk. rewrite <- insert_delete_eq, work_of_insert_new by apply lookup_delete_eq.
  rewrite <- (insert_delete_id tbl k d) at 2 by done. rewrite work_of_insert_new by apply lookup_delete_eq. lia.
Qed.

Lemma work_of_nonneg tbl :
  (∀ k d, tbl !! k = Some d → (Delivery.attempt_count d ≤ max)%Z) → (0 ≤ work_of tbl)%Z.
Proof.
  induction tbl as [|k d tbl Hk IH] using map_ind; intros Hb; [done|]. rewrite work_of_insert_new by done.
  assert (0 ≤ work_of tbl)%Z.
  { apply IH. intros k' d' Hd'. apply (Hb k'). rewrite lookup_insert_ne; [done|]. congruence. }
  pose proof (Hb k d (lookup_insert_eq _ _ _)). unfold remaining_work. destruct (terminal _); [lia|]. case_bool_decide; lia.
Qed.

Lemma work_of_bound tbl :
  (0 ≤ max)%Z → (∀ k d, tbl !! k = Some d → (0 ≤ Delivery.attempt_count d)%Z) →
  (work_of tbl ≤ (2 * max + 2) * Z.of_nat (size tbl))%Z.
Proof.
  intros Hmax. induction tbl as [|k d tbl Hk IH] using map_ind; intros Hn.
  { rewrite map_size_empty. unfold work_of. rewrite map_fold_empty. lia. }
  rewrite work_of_insert_new, map_size_insert_None by done.
  assert (work_of tbl ≤ (2 * max + 2) * Z.of_nat (size tbl))%Z.
  { apply IH. intros k' d' Hd'. apply (Hn k'). rewrite lookup_insert_ne; [done|]. congruence. }
  pose proof (Hn k d (lookup_insert_eq _ _ _)). unfold remaining_work. destruct (terminal _); [lia|]. case_bool_decide; lia.
Qed.

Lemma moves_work db db' : within_budget db → moves_one max db db' → (total_work db' ≤ total_work db)%Z.
Proof.
  intros Hb (_ & _ & [[E _]|(d & d' & Hd & E & _ & Hm & _)]); unfold total_work; rewrite E; [done|].
  rewrite (work_of_insert _ _ d) by done.
  destruct Hm as (_ & _ & _ & _ & _ & _ & _ & _ & _ & Hm). destruct (Hm (Hb _ _ Hd)) as [->|]; lia.
Qed.
End work.

(** ** One iteration *)

(** An iteration that found work, after which the loop does not sleep. *)
Definition found (worked : outcome bool) : bool := match worked with Ok b => b | Raise _ => false end.

Section polling.
Context (base : pystr) (config : Settings) (Hconfig : settings_fields config = true).
Context (w : Worker) (Hworker : worker_ok w) (Hsettings : settings w = config).
Let budget := worker_max_attempts config.

(** What an iteration may rely on: a plausible clock, and identifiers that are new. *)
Record iteration_ok (it : Iteration) (s : State) : Prop := {
  io_claim_now : near (ce_now (it_claim it));
  io_now : near (it_now it);
  io_fresh : claim_fresh (it_claim it) (st_db s);
  io_token : ce_lease_token (it_claim it) ∉ map fl_token (st_flights s);
  io_fraction : fraction (it_fraction it);
  io_clock : (0 ≤ sc_started_at (it_clock it) ≤ datetime_max)%Z
}.

Lemma iterate_steps it db fl sel :
  iteration_ok it (mkState db fl sel) → rtc (step base config) (mkState db fl sel) (mkState (iterate w it db).2 fl sel).
Proof. intros []. by apply run_once_refines. Qed.

(** A claim uses up work when it finds some, and never makes any. *)
Lemma claim_uses_work cenv db fl sel :
  sys_inv base config (mkState db fl sel) → near (ce_now cenv) → claim_fresh cenv db →
  let '(r, db1) := run_tx (claim_one w cenv) db in
  (total_work budget db1 + match r with Ok (Some _) => 1 | _ => 0 end ≤ total_work budget db)%Z.
Proof.
  intros Hs Hn [Hf1 Hf2]. pose proof Hs as [Hinv _ Hb _ _ _ _]. simpl in *.
  pose proof (max_is_budget config w Hworker Hsettings) as Hmax.
  destruct (claim_refines w cenv db Hworker Hinv Hn Hf1 Hf2) as [Hspec _].
  destruct (run_tx (claim_one w cenv) db) as [[[c|]|e] db1]; [|inversion Hspec; subst; lia|by inversion Hspec].
  destruct (claim_spec_works _ _ _ _ _ Hspec) as (d & d' & Hd & E & Hlt); [by rewrite Hmax|]. rewrite Hmax in Hlt.
  unfold total_work. rewrite E, (work_of_insert _ _ _ d) by done. unfold budget in *. lia.
Qed.

(** A finalization makes no work. *)
Lemma finalize_uses_work webhook result it db fl sel :
  sys_inv base config (mkState db (mkFlight w webhook :: fl) sel) →
  fraction (it_fraction it) → near (it_now it) → (0 ≤ sc_started_at (it_clock it) ≤ datetime_max)%Z →
  send_webhook (it_client it) (it_parsedate it) webhook (worker_retry_after_cap_seconds config) (it_clock it) = Ok result →
  (total_work budget (run_tx (finalize w webhook result (it_fraction it) (it_now it)) db).2 ≤ total_work budget db)%Z.
Proof.
  intros Hs Hfr Hn Hclk Hsend. destruct (worker_day w Hworker) as [_ [Hcap _]]. rewrite Hsettings in *.
  set (T := http_transport (worker_retry_after_cap_seconds config) (it_client it) (it_parsedate it) (it_clock it) Hcap Hclk).
  pose proof Hs as [Hinv _ Hb Hfl _ _ _]. simpl in *.
  pose proof (flight_finalizable base config Hconfig T (mkFlight w webhook) result (it_fraction it) (it_now it) db) as Hz.
  apply (moves_work budget db); [done|]. apply finalize_moves, Hz; try done. apply Hfl. left.
Qed.

Lemma iterate_works it db fl sel :
  sys_inv base config (mkState db fl sel) → iteration_ok it (mkState db fl sel) →
  (total_work budget (iterate w it db).2 + (if found (iterate w it db).1 then 1 else 0) ≤
     total_work budget db)%Z.
Proof.
  intros Hs [Hn1 Hn2 Hf Ht Hfr Hclk]. simpl in *.
  pose proof (claim_uses_work _ _ _ _ Hs Hn1 Hf) as Hclaim.
  pose proof (step_inv base config Hconfig _ _ Hs (step_claim base config w _ db fl sel Hworker Hsettings Hn1 Hf Ht)) as Hs1.
  unfold iterate, run_once, transact. destruct (it_claim_outage it) as [[e []]|]; cbn [ou_error ou_committed].
  { destruct (run_tx (claim_one w (it_claim it)) db) as [r db1]. simpl. destruct r as [[]|]; lia. }
  { simpl. lia. }
  destruct (run_tx (claim_one w (it_claim it)) db) as [[[[webhook|]|]|e] db1]; simpl in Hs1 |- *; try lia.
  destruct (send_webhook _ _ _ _ _) as [result|e] eqn:Hsend; [|simpl; lia]. rewrite Hsettings in Hsend.
  assert (Hfin : (total_work budget (run_tx (finalize w webhook result (it_fraction it) (it_now it)) db1).2 ≤
    total_work budget db1)%Z) by (eapply finalize_uses_work; eauto).
  destruct (it_finalize_outage it) as [[e []]|]; simpl; [lia|lia|].
  destruct (run_tx (finalize _ _ _ _ _) db1) as [[b|e] db2]; simpl in *; lia.
Qed.

(** The iterations of a run: each is [iteration_ok] for the database it meets. *)
Fixpoint iterations_ok (its : list Iteration) (db : Db) (fl : list Flight) (sel : list (list UUID)) : Prop :=
  match its with
  | [] => True
  | it :: its => iteration_ok it (mkState db fl sel) ∧ iterations_ok its (iterate w it db).2 fl sel
  end.

(** The iterations after which the loop went on at once. *)
Definition busy (log : list (outcome bool * option float)) : nat := length (List.filter (λ r, is_null r.2) log).

Lemma run_forever_works its db fl sel :
  sys_inv base config (mkState db fl sel) → iterations_ok its db fl sel →
  let '(log, db') := run_forever w its db in
  length log = length its ∧ rtc (step base config) (mkState db fl sel) (mkState db' fl sel) ∧
  (Z.of_nat (busy log) + total_work budget db' ≤ total_work budget db)%Z.
Proof.
  revert db. induction its as [|it its IH]; intros db Hs Hits.
  { split; [done|]. split; [apply rtc_refl|]. unfold busy. simpl. lia. }
  destruct Hits as [Hit Hits]. cbn [run_forever].
  pose proof (iterate_steps it db fl sel Hit) as Hsteps. pose proof (iterate_works it db fl sel Hs Hit) as Hw.
  assert (Hs' : sys_inv base config (mkState (iterate w it db).2 fl sel)) by (by eapply steps_inv).
  specialize (IH _ Hs' Hits). destruct (iterate w it db) as [worked db1]. cbn [fst snd] in *.
  destruct (run_forever w its db1) as [log db']. destruct IH as (Hl & Hr & Hb).
  split_and!; [cbn; by f_equal|by etrans|].
  unfold busy in *. destruct worked as [[]|e]; cbn in *; lia.
Qed.
End polling.

(** The loop sleeps after every iteration that did not work. *)
Lemma run_forever_sleeps w its db worked sleep :
  (worked, sleep) ∈ (run_forever w its db).1 →
  sleep = match worked with
          | Ok true => None
          | Ok false | Raise _ => Some (worker_poll_interval_seconds (settings w))
          end.
Proof.
  revert db. induction its as [|it its IH]; intros db; cbn [run_forever]; [by intros ?%elem_of_nil|].
  destruct (iterate w it db) as [worked' db1]. specialize (IH db1). destruct (run_forever w its db1) as [log db'].
  intros [[= <- <-]|Hin]%elem_of_cons; [done|by apply IH].
Qed.

(** ** Main result *)

(** C8: the polling loop survives and comes to rest: whatever its iterations meet (receivers, failures of
    the transport, outages of the database during the claim or the finalization, committed or rolled
    back), it runs all of them, moves the system only by its steps, sleeps for the poll interval after
    every iteration that found no work and after every iteration that failed, and goes on without a
    sleep at most twice per delivery and attempt and twice more. *)
Theorem run_forever_rests base config w its db fl sel :
  settings_fields config = true → worker_ok w → settings w = config → reachable base config (mkState db fl sel) →
  iterations_ok w its db fl sel →
  let '(log, db') := run_forever w its db in
  length log = length its ∧ rtc (step base config) (mkState db fl sel) (mkState db' fl sel) ∧
  (∀ worked sleep, (worked, sleep) ∈ log →
     sleep = match worked with
             | Ok true => None
             | Ok false | Raise _ => Some (worker_poll_interval_seconds config)
             end) ∧
  (Z.of_nat (length (List.filter (λ r, is_null r.2) log)) ≤
     (2 * worker_max_attempts config + 2) * Z.of_nat (size (deliveries db)))%Z.
Proof.
  intros Hc Hw Hsw Hr Hits. pose proof (reachable_inv base config Hc _ Hr) as Hs.
  pose proof (run_forever_works base config Hc w Hw Hsw its db fl sel Hs Hits) as H.
  pose proof (run_forever_sleeps w its db) as Hsl. rewrite Hsw in Hsl. fold busy.
  destruct (run_forever w its db) as [log db']. destruct H as (Hl & Hsteps & Hwork). split; [done|]. split; [done|].
  split; [exact Hsl|]. fold (busy log).
  assert (Hs' : sys_inv base config (mkState db' fl sel)) by (by eapply steps_inv).
  pose proof (work_of_nonneg _ _ (si_budget _ _ _ Hs')) as H0. pose proof (budget_range config Hc) as Hb.
  etrans; [|apply work_of_bound; [lia|]].
  - unfold total_work in *. simpl in *. lia.
  - intros k d Hd. destruct (ok_delivery_row db (inv_ok db (si_db _ _ _ Hs)) k d Hd) as [_ Hck].
    by apply row_checks in Hck as (_ & _ & _ & ? & _).
Qed.

(** ** Witness: the database is down for two iterations (the first claim is committed although the
    connection broke, the second is rolled back); then the worker finds nothing that is due, for the
    lost claim holds its lease; an hour later the next worker attempts the delivery, and the one
    after it has nothing to do *)

Definition lab_iteration (o1 : option Outage) (now : datetime) (token attempt_id : UUID) : Iteration :=
  mkIteration o1 None (mkClaimEnv now (λ _, now) now token attempt_id [] []) lab_client lab_parsedate
    (mkSendClock now (now + 40000)%Z fzero fone) (S754_finite false 4503599627370496 (-53)) now.

Definition lab_down (committed : bool) : option Outage := Some (mkOutage (DatabaseErr (lit "connection refused")) committed).

Definition lab_hour_later : datetime := (lab_now + 3600000000)%Z.

Definition lab_iterations : list Iteration :=
  [lab_iteration (lab_down true) lab_now 200 201; lab_iteration (lab_down false) lab_now 202 203;
   lab_iteration None lab_now 204 205; lab_iteration None lab_hour_later 206 207; lab_iteration None lab_hour_later 208 209].

Lemma lab_hour_later_near : near lab_hour_later.
Proof. split; vm_compute; discriminate. Qed.

Lemma lab_iterations_ok : iterations_ok lab_worker lab_iterations lab_accepted [] [].
Proof.
  assert (Hfresh : ∀ db o n a t, attempts db !! a = None →
    bool_decide (map_Forall (λ _ r, DeliveryAttempt.lease_token r ≠ t) (attempts db)) = true →
    claim_fresh (it_claim (lab_iteration o n t a)) db).
  { intros db o n a t Ha Ht%bool_decide_eq_true. split; [exact Ha|]. intros k r Hr. exact (Ht k r Hr). }
  unfold lab_iterations. cbn [iterations_ok]. split_and!; [..|done];
    (split; [first [exact lab_near|exact lab_hour_later_near]|first [exact lab_near|exact lab_hour_later_near]|
       apply Hfresh; vm_compute; reflexivity|apply not_elem_of_nil|exact lab_half|split; vm_compute; discriminate]).
Qed.

Lemma run_forever_rests_witness :
  map (λ r, (found r.1, is_null r.2)) (run_forever lab_worker lab_iterations lab_accepted).1 =
    [(false, false); (false, false); (false, false); (true, true); (false, false)] ∧
  (Z.of_nat (length (List.filter (λ r, is_null r.2) (run_forever lab_worker lab_iterations lab_accepted).1)) ≤ 18)%Z.
Proof.
  split; [vm_compute; reflexivity|].
  pose proof (run_forever_rests lab_base default_settings lab_worker lab_iterations lab_accepted [] [] lab_fields
    lab_worker_ok eq_refl lab_accepted_reachable lab_iterations_ok) as H.
  destruct (run_forever _ _ _) as [log db']. destruct H as (_ & _ & _ & H). exact H.
Defined.
