(* ===== verification/ReceiverLab.v ===== *)
(** [receiver_lab/api.py]: the deterministic webhook receiver of the demonstrations: its
    in-memory registry of runs, its control plane, the validation of payloads, and the
    webhook handler.

    A run is reached through the registry, never copied: [configured_state] and
    [webhook_state] return which run the handler goes on to mutate ([run_ref]), and the
    mutations are written through that reference.  Every handler holds the registry's lock
    over all of its reads and writes, so it is one step here. *)
From S2P Require Import Prelude PyStr Errors Json Decoding Sha256 Serialization Models.
From S2P Require Import DemoRuns Retry Transport.
From Stdlib Require Import ZArith.
From Stdlib Require Strings.Byte.

Definition MAX_SCOPED_RUNS : nat := 100.
Definition MAX_REQUESTS_PER_RUN : nat := 100.
Definition CONTROL_REQUEST_LIMIT : nat := 20.
Definition RATE_LIMIT_RETRY_AFTER_SECONDS : Z := 5.

(** ** Contracts *)

Record ReceiverContract := mkReceiverContract {
  route : pystr;
  required_text : list pystr;
  required_positive_integer : list pystr
}.

Definition RECEIVER_CONTRACTS : list (pystr * ReceiverContract) :=
  [(lit "order.paid",
      mkReceiverContract (lit "orders") [lit "order_id"; lit "customer_id"; lit "currency"] [lit "amount_cents"]);
   (lit "demo.order.paid", mkReceiverContract (lit "orders") [lit "order_id"] []);
   (lit "shipment.dispatched",
      mkReceiverContract (lit "shipping") [lit "shipment_id"; lit "order_id"; lit "carrier"; lit "tracking_number"] []);
   (lit "inventory.threshold_reached",
      mkReceiverContract (lit "inventory") [lit "sku"; lit "warehouse_id"]
        [lit "quantity_remaining"; lit "reorder_threshold"])].

(** ** State *)

Inductive ReceiverMode :=
| MODE_SUCCESS
| MODE_FAIL_THEN_SUCCEED
| MODE_RATE_LIMITED
| MODE_TIMEOUT
| MODE_PERMANENT_FAILURE.

#[export] Instance ReceiverMode_eq_dec : EqDecision ReceiverMode.
Proof. solve_decision. Defined.

Definition ReceiverMode_value (m : ReceiverMode) : pystr :=
  match m with
  | MODE_SUCCESS => lit "success"
  | MODE_FAIL_THEN_SUCCEED => lit "fail_then_succeed"
  | MODE_RATE_LIMITED => lit "rate_limited"
  | MODE_TIMEOUT => lit "timeout"
  | MODE_PERMANENT_FAILURE => lit "permanent_failure"
  end.

Record ReceiverConfiguration := mkReceiverConfiguration {
  mode : ReceiverMode;
  failures_before_success : Z;
  delay_ms : Z
}.

Definition default_configuration : ReceiverConfiguration := mkReceiverConfiguration MODE_SUCCESS 0 0.

(** The bounds of the fields. *)
Definition configuration_fields (c : ReceiverConfiguration) : bool :=
  (0 <=? failures_before_success c)%Z && (failures_before_success c <=? 20)%Z &&
  (0 <=? delay_ms c)%Z && (delay_ms c <=? 30000)%Z.

(** One entry of the evidence of a run. *)
Record ReceivedRequest := mkReceivedRequest {
  rq_sequence : Z;
  rq_attempt : Z;
  rq_event_id : option pystr;
  rq_delivery_id : option pystr;
  rq_event_type : option pystr;
  rq_receiver_route : pystr;
  rq_delivery_attempt : option Z;
  rq_request_timestamp : option Z;
  rq_received_at : datetime;
  rq_response_status_code : Z;
  rq_receiver_mode : pystr;
  rq_signature_present : bool;
  rq_body_preview : pystr;
  rq_body_sha256 : pystr
}.

Record ReceiverRunState := mkReceiverRunState {
  configuration : ReceiverConfiguration;
  scenario_attempts : Z;
  sequence : Z;
  requests : list ReceivedRequest
}.

Definition new_run : ReceiverRunState := mkReceiverRunState default_configuration 0 0 [].

(** The registry; the ordered dict is its items, least recently used first. *)
Record ReceiverState := mkReceiverState {
  default_run : ReceiverRunState;
  scoped : list (pystr * ReceiverRunState)
}.

Definition initial_receiver : ReceiverState := mkReceiverState new_run [].

(** [ReceiverState.reset] *)
Definition reset (st : ReceiverState) : ReceiverState := initial_receiver.

(** ** The registry *)

(** [scoped.pop(run_id, None)] *)
Definition pop (run_id : pystr) (runs : list (pystr * ReceiverRunState)) : list (pystr * ReceiverRunState) :=
  filter (λ item, item.1 ≠ run_id) runs.

(** [while len(scoped) > MAX_SCOPED_RUNS: scoped.popitem(last=False)] *)
Fixpoint evict (runs : list (pystr * ReceiverRunState)) : list (pystr * ReceiverRunState) :=
  match runs with
  | [] => []
  | _ :: rest => if (MAX_SCOPED_RUNS <? length runs)%nat then evict rest else runs
  end.

(** Where the run a handler mutates is kept. *)
Inductive run_ref := DefaultRun | ScopedRun (run_id : pystr).

(** [ReceiverState.configured_state] *)
Definition configured_state (run_id : option pystr) (st : ReceiverState) : run_ref * ReceiverState :=
  match run_id with
  | None => (DefaultRun, st)
  | Some run_id =>
      let run := default new_run (dict_get (scoped st) run_id) in
      (ScopedRun run_id, mkReceiverState (default_run st) (evict (pop run_id (scoped st) ++ [(run_id, run)])))
  end.

(** [ReceiverState.webhook_state] *)
Definition webhook_state (run_id : option pystr) (st : ReceiverState) : run_ref * ReceiverState :=
  match run_id with
  | None => (DefaultRun, st)
  | Some run_id =>
      match dict_get (scoped st) run_id with
      | None => (DefaultRun, st)
      | Some run => (ScopedRun run_id, mkReceiverState (default_run st) (pop run_id (scoped st) ++ [(run_id, run)]))
      end
  end.

(** The run behind a reference, and a mutation of it. *)
Definition get_run (ref : run_ref) (st : ReceiverState) : ReceiverRunState :=
  match ref with
  | DefaultRun => default_run st
  | ScopedRun run_id => default new_run (dict_get (scoped st) run_id)
  end.

Definition update_run (ref : run_ref) (f : ReceiverRunState → ReceiverRunState) (st : ReceiverState) : ReceiverState :=
  match ref with
  | DefaultRun => mkReceiverState (f (default_run st)) (scoped st)
  | ScopedRun run_id =>
      mkReceiverState (default_run st)
        (map (λ item, if bool_decide (item.1 = run_id) then (item.1, f item.2) else item) (scoped st))
  end.

(** The last [n] entries, [l[-n:]]. *)
Definition last_entries {A : Type} (n : nat) (l : list A) : list A := drop (length l - n) l.

(** ** The control plane *)

(** [configure] *)
Definition configure (c : ReceiverConfiguration) (run_id : option pystr) (st : ReceiverState) : ReceiverState :=
  let '(ref, st) := configured_state run_id st in
  update_run ref (λ run, mkReceiverRunState c 0 (sequence run) (requests run)) st.

(** [control_state] *)
Definition control_state (run_id : option pystr) (st : ReceiverState)
  : (ReceiverConfiguration * Z * list ReceivedRequest) * ReceiverState :=
  let '(ref, st) := configured_state run_id st in
  let run := get_run ref st in
  ((configuration run, scenario_attempts run, last_entries CONTROL_REQUEST_LIMIT (requests run)), st).

(** [list_requests] *)
Definition list_requests (run_id : option pystr) (st : ReceiverState) : (nat * list ReceivedRequest) * ReceiverState :=
  let '(ref, st) := configured_state run_id st in
  let run := get_run ref st in
  ((length (requests run), requests run), st).

(** ** Validation *)

(** The first required text field that is missing or blank. *)
Fixpoint missing_text (data : list (pystr * json)) (fields : list pystr) : option (pystr * pystr) :=
  match fields with
  | [] => None
  | field_name :: fields =>
      match dict_get data field_name with
      | Some (JStr value) =>
          match strip value with
          | [] => Some (lit "missing_" ++ field_name, lit "data." ++ field_name ++ lit " is required.")
          | _ => missing_text data fields
          end
      | _ => Some (lit "missing_" ++ field_name, lit "data." ++ field_name ++ lit " is required.")
      end
  end.

(** The first required positive integer that is none. *)
Fixpoint invalid_integer (data : list (pystr * json)) (fields : list pystr) : option (pystr * pystr) :=
  match fields with
  | [] => None
  | field_name :: fields =>
      match dict_get data field_name with
      | Some (JInt value) =>
          if (value <=? 0)%Z
          then Some (lit "invalid_" ++ field_name, lit "data." ++ field_name ++ lit " must be a positive integer.")
          else invalid_integer data fields
      | _ => Some (lit "invalid_" ++ field_name, lit "data." ++ field_name ++ lit " must be a positive integer.")
      end
  end.

Definition currency_error (event_type : pystr) (data : list (pystr * json)) : option (pystr * pystr) :=
  if eqb_str event_type (lit "order.paid") then
    match dict_get data (lit "currency") with
    | Some (JStr currency) =>
        if bool_decide (length (strip currency) = 3%nat) then None
        else Some (lit "invalid_currency", lit "data.currency must be a three-letter code.")
    | _ => Some (lit "invalid_currency", lit "data.currency must be a three-letter code.")
    end
  else None.

(** The checks of a payload against the contract of its type. *)
Definition contract_error (event_type : pystr) (contract : ReceiverContract) (receiver_channel : option pystr)
  (payload : list (pystr * json)) : option (pystr * pystr) :=
  if match receiver_channel with Some channel => negb (eqb_str channel (route contract)) | None => false end then
    Some (lit "wrong_receiver_route", event_type ++ lit " must be sent to /webhooks/" ++ route contract ++ lit ".")
  else
    match dict_get payload (lit "data") with
    | Some (JDict data) =>
        match missing_text data (required_text contract) with
        | Some error => Some error
        | None =>
            match invalid_integer data (required_positive_integer contract) with
            | Some error => Some error
            | None => currency_error event_type data
            end
        end
    | _ => Some (lit "invalid_data", lit "data must be a JSON object.")
    end.

(** [_payload_validation_error] *)
Definition _payload_validation_error (body : bytes) (receiver_channel : option pystr) (validate_unknown : bool)
  : outcome (option (pystr * pystr)) :=
  match json_loads_bytes body with
  | Raise UnicodeDecodeErr | Raise JSONDecodeErr =>
      Ok (Some (lit "invalid_json", lit "The webhook body must be valid JSON."))
  | Raise e => Raise e
  | Ok (JDict payload) =>
      let event_type := match dict_get payload (lit "type") with Some (JStr t) => Some t | _ => None end in
      match event_type ≫= (λ t, pair t <$> dict_get RECEIVER_CONTRACTS t) with
      | None =>
          Ok (if validate_unknown
              then Some (lit "unsupported_event_type", lit "type must name a Receiver Lab event contract.")
              else None)
      | Some (t, contract) => Ok (contract_error t contract receiver_channel payload)
      end
  | Ok _ => Ok (Some (lit "invalid_payload", lit "The webhook body must be a JSON object."))
  end.

(** [_response_evidence] *)
Definition _response_evidence (status_code : Z) (validation_error : option (pystr * pystr)) : pystr * pystr :=
  match validation_error with
  | Some error => error
  | None =>
      if (status_code =? 429)%Z then
        (lit "rate_limited",
         lit "Receiver Lab asked the worker to retry after " ++ str_of_Z RATE_LIMIT_RETRY_AFTER_SECONDS ++
         lit " seconds.")
      else if (status_code =? 503)%Z then
        (lit "temporarily_unavailable", lit "Receiver Lab is in the controlled unavailable state.")
      else (lit "accepted", lit "Receiver Lab accepted the webhook.")
  end.

(** ** The webhook handler *)

(** The request headers of the handler, already parsed by the framework. *)
Record WebhookHeaders := mkWebhookHeaders {
  wh_event_id : option pystr;
  wh_delivery_id : option pystr;
  wh_event_type : option pystr;
  wh_delivery_attempt : option Z;
  wh_request_timestamp : option Z;
  wh_signature : option pystr;
  wh_demo_run_id : option pystr
}.

Record WebhookResponse := mkWebhookResponse {
  rs_status_code : Z;
  rs_content : json;
  rs_retry_after : option pystr;
  rs_sleep_ms : Z
}.

(** The status of a valid or invalid payload at the [attempt]-th request of a run. *)
Definition response_status (c : ReceiverConfiguration) (attempt : Z) (validation_error : option (pystr * pystr)) : Z :=
  match validation_error with
  | Some _ => 400
  | None =>
      if bool_decide (mode c = MODE_RATE_LIMITED) then
        if (failures_before_success c =? 0)%Z || (attempt <=? failures_before_success c)%Z then 429 else 200
      else if bool_decide (mode c = MODE_FAIL_THEN_SUCCEED) && (attempt <=? failures_before_success c)%Z then 503
      else 200
  end.

(** [receiver_channel or "legacy-generic"] *)
Definition route_label (receiver_channel : option pystr) : pystr :=
  match receiver_channel with
  | Some (c :: s) => c :: s
  | _ => lit "legacy-generic"
  end.

Definition received (h : WebhookHeaders) (receiver_channel : option pystr) (body : bytes) (received_at : datetime)
  (c : ReceiverConfiguration) (sequence attempt status : Z) : ReceivedRequest :=
  mkReceivedRequest sequence attempt (wh_event_id h) (wh_delivery_id h) (wh_event_type h)
    (route_label receiver_channel) (wh_delivery_attempt h) (wh_request_timestamp h) received_at status
    (ReceiverMode_value (mode c)) (match wh_signature h with Some _ => true | None => false end)
    (utf8_decode_replace (take 1024 body)) (sha256_hex body).

(** [receive_webhook]: the response, and the registry also when the handler raises. *)
Definition receive_webhook (receiver_channel : option pystr) (h : WebhookHeaders) (body : bytes)
  (received_at : datetime) (st : ReceiverState) : outcome WebhookResponse * ReceiverState :=
  let '(ref, st) := webhook_state (wh_demo_run_id h) st in
  let st := update_run ref (λ run, mkReceiverRunState (configuration run) (scenario_attempts run + 1)
                              (sequence run + 1) (requests run)) st in
  let run := get_run ref st in
  let c := configuration run in
  match _payload_validation_error body receiver_channel
          (match receiver_channel with Some _ => true | None => bool_decide (mode c = MODE_PERMANENT_FAILURE) end) with
  | Raise e => (Raise e, st)
  | Ok validation_error =>
      let status := response_status c (scenario_attempts run) validation_error in
      let '(response_code, response_detail) := _response_evidence status validation_error in
      let entry := received h receiver_channel body received_at c (sequence run) (scenario_attempts run) status in
      let st := update_run ref (λ run, mkReceiverRunState (configuration run) (scenario_attempts run) (sequence run)
                                  (last_entries MAX_REQUESTS_PER_RUN (requests run ++ [entry]))) st in
      (Ok (mkWebhookResponse status
             (JDict [(lit "code", JStr response_code); (lit "detail", JStr response_detail)])
             (if (status =? 429)%Z then Some (str_of_Z RATE_LIMIT_RETRY_AFTER_SECONDS) else None)
             (if bool_decide (mode c = MODE_TIMEOUT) then delay_ms c else 0)), st)
  end.

(** ** The registry as a map *)

Lemma evict_drop runs : evict runs = drop (length runs - MAX_SCOPED_RUNS) runs.
Proof.
  induction runs as [|r rest IH]; [done|]. cbn [evict].
  destruct (Nat.ltb_spec MAX_SCOPED_RUNS (length (r :: rest))) as [Hlt|Hge].
  - rewrite IH. cbn [length] in Hlt |- *. replace (S (length rest) - MAX_SCOPED_RUNS)
      with (S (length rest - MAX_SCOPED_RUNS)) by lia. done.
  - replace (length (r :: rest) - MAX_SCOPED_RUNS) with 0 by lia. done.
Qed.

Lemma evict_length runs : length (evict runs) ≤ MAX_SCOPED_RUNS.
Proof. rewrite evict_drop, length_drop. lia. Qed.

Lemma dict_get_pop runs r k :
  dict_get (pop r runs) k = if bool_decide (k = r) then None else dict_get runs k.
Proof.
  unfold pop. induction runs as [|[j run] runs IH]; [by case_bool_decide|].
  rewrite filter_cons. simpl. destruct (decide (j ≠ r)) as [Hne|E%dec_stable].
  - simpl. rewrite IH. repeat case_bool_decide; congruence.
  - rewrite IH. subst j. repeat case_bool_decide; congruence.
Qed.

Definition update_item (r : pystr) (f : ReceiverRunState → ReceiverRunState) (item : pystr * ReceiverRunState) :=
  if bool_decide (item.1 = r) then (item.1, f item.2) else item.

Lemma dict_get_update runs r f k :
  dict_get (map (update_item r f) runs) k = if bool_decide (k = r) then f <$> dict_get runs k else dict_get runs k.
Proof.
  induction runs as [|[j run] runs IH]; simpl; [by case_bool_decide|].
  unfold update_item at 1. simpl. rewrite IH.
  repeat case_bool_decide; simpl in *; congruence || (by repeat case_bool_decide; congruence).
Qed.

Lemma dict_get_pop_append runs r run k :
  dict_get (pop r runs ++ [(r, run)]) k = if bool_decide (k = r) then Some run else dict_get runs k.
Proof. rewrite dict_get_app, dict_get_pop. simpl. case_bool_decide; [done|]. by destruct (dict_get runs k). Qed.

Lemma last_entries_length {A} n (l : list A) : length (last_entries n l) ≤ n.
Proof. unfold last_entries. rewrite length_drop. lia. Qed.

Lemma evict_append runs item : evict (runs ++ [item]) = drop (length runs + 1 - MAX_SCOPED_RUNS) runs ++ [item].
Proof.
  rewrite evict_drop, length_app. cbn [length]. apply drop_app_le. unfold MAX_SCOPED_RUNS. lia.
Qed.

(** ** The invariant *)

(** The evidence of a run: bounded, and ordered by sequence numbers not above the counter. *)
Record run_inv (run : ReceiverRunState) : Prop := {
  ri_attempts : (0 ≤ scenario_attempts run ≤ sequence run)%Z;
  ri_length : length (requests run) ≤ MAX_REQUESTS_PER_RUN;
  ri_sorted : StronglySorted (λ a b, (rq_sequence a < rq_sequence b)%Z) (requests run);
  ri_sequence : Forall (λ rq, (rq_sequence rq ≤ sequence run)%Z) (requests run)
}.

Record receiver_inv (st : ReceiverState) : Prop := {
  rv_default : run_inv (default_run st);
  rv_keys : NoDup (scoped st).*1;
  rv_runs : Forall (λ item, run_inv item.2) (scoped st);
  rv_length : length (scoped st) ≤ MAX_SCOPED_RUNS
}.

Lemma new_run_inv : run_inv new_run.
Proof. split; simpl; [lia|unfold MAX_REQUESTS_PER_RUN; lia|constructor|constructor]. Qed.

Lemma initial_receiver_inv : receiver_inv initial_receiver.
Proof. split; simpl; [apply new_run_inv|constructor|constructor|lia]. Qed.

Lemma scoped_run_inv runs r :
  Forall (λ item, run_inv item.2) runs → run_inv (default new_run (dict_get runs r)).
Proof.
  intros H. destruct (dict_get runs r) as [run|] eqn:E; [|apply new_run_inv].
  apply dict_get_elem in E. by apply (proj1 (Forall_forall _ _) H) in E.
Qed.

Lemma get_run_inv ref st : receiver_inv st → run_inv (get_run ref st).
Proof. intros [Hd _ Hr _]. destruct ref; [done|by apply scoped_run_inv]. Qed.

Lemma pop_keys r runs : NoDup runs.*1 → NoDup (pop r runs).*1 ∧ r ∉ (pop r runs).*1.
Proof.
  intros Hnd. split.
  - eapply sublist_NoDup; [exact Hnd|]. apply fmap_sublist, sublist_filter.
  - intros ([k run] & -> & [Hne _]%list_elem_of_filter)%list_elem_of_fmap. by apply Hne.
Qed.

Lemma append_keys r run runs : NoDup runs.*1 → NoDup (pop r runs ++ [(r, run)]).*1.
Proof.
  intros [Hnd Hni]%(pop_keys r). rewrite fmap_app. apply NoDup_app. split_and!; [done| |apply NoDup_singleton].
  intros k Hk [= ->]%list_elem_of_singleton. done.
Qed.

Lemma append_runs r run runs :
  Forall (λ item, run_inv item.2) runs → run_inv run → Forall (λ item, run_inv item.2) (pop r runs ++ [(r, run)]).
Proof.
  intros Hr Hrun. apply Forall_app. split; [|by apply Forall_singleton]. unfold pop.
  rewrite Forall_forall in Hr |- *. intros item [_ Hin]%list_elem_of_filter. by apply Hr.
Qed.

Lemma configured_inv run_id st : receiver_inv st → receiver_inv (configured_state run_id st).2.
Proof.
  intros Hst. destruct run_id as [r|]; [|done]. destruct Hst as [Hd Hk Hr Hl]. unfold configured_state.
  set (run := default _ _). assert (Hrun : run_inv run) by (by apply scoped_run_inv). split; cbn [snd scoped default_run].
  - done.
  - rewrite evict_drop, fmap_drop. eapply sublist_NoDup; [by apply (append_keys r run)|apply sublist_drop].
  - rewrite evict_drop. by apply Forall_drop, append_runs.
  - apply evict_length.
Qed.

Lemma webhook_state_inv run_id st : receiver_inv st → receiver_inv (webhook_state run_id st).2.
Proof.
  intros Hst. destruct run_id as [r|]; [|done]. unfold webhook_state. destruct (dict_get (scoped st) r) as [run|] eqn:E; [|done].
  apply dict_get_elem in E as Hin. destruct Hst as [Hd Hk Hr Hl]. split; cbn [snd scoped default_run].
  - done.
  - by apply append_keys.
  - apply append_runs; [done|]. by apply (proj1 (Forall_forall _ _) Hr) in Hin.
  - rewrite length_app. cbn [length]. assert (Hlt : length (pop r (scoped st)) < length (scoped st)); [|lia].
    apply length_filter_lt with (x := (r, run)); [done|]. intros Hn. by apply Hn.
Qed.

Lemma webhook_state_get run_id st r :
  dict_get (scoped (webhook_state run_id st).2) r = dict_get (scoped st) r.
Proof.
  destruct run_id as [r'|]; [|done]. simpl. destruct (dict_get (scoped st) r') as [run|] eqn:E; [|done].
  cbn [snd scoped]. rewrite dict_get_pop_append. case_bool_decide; congruence.
Qed.

(** ** References *)

Definition ref_valid (ref : run_ref) (st : ReceiverState) : Prop :=
  match ref with
  | DefaultRun => True
  | ScopedRun run_id => is_Some (dict_get (scoped st) run_id)
  end.

Lemma webhook_state_valid run_id st : ref_valid (webhook_state run_id st).1 (webhook_state run_id st).2.
Proof.
  destruct run_id as [r|]; [|done]. simpl. destruct (dict_get (scoped st) r) as [run|] eqn:E; [|done].
  simpl. rewrite dict_get_pop_append, bool_decide_eq_true_2 by done. eauto.
Qed.

(** A run just configured is the last to be evicted. *)
Lemma configured_valid run_id st :
  NoDup (scoped st).*1 → ref_valid (configured_state run_id st).1 (configured_state run_id st).2.
Proof.
  intros Hnd. destruct run_id as [r|]; [|done]. cbn [configured_state fst snd ref_valid scoped].
  rewrite evict_append, dict_get_app. cbn [dict_get]. rewrite (bool_decide_eq_true_2 (r = r)) by done.
  destruct (dict_get _ r); eauto.
Qed.

Lemma update_valid ref f st : ref_valid ref st → ref_valid ref (update_run ref f st).
Proof.
  destruct ref as [|r]; [done|]. intros [run Hr]. simpl. fold (update_item r f).
  rewrite dict_get_update, bool_decide_eq_true_2, Hr by done. simpl. eauto.
Qed.

Lemma get_update ref f st : ref_valid ref st → get_run ref (update_run ref f st) = f (get_run ref st).
Proof.
  destruct ref as [|r]; [done|]. intros [run Hr]. simpl. fold (update_item r f).
  by rewrite dict_get_update, bool_decide_eq_true_2, Hr by done.
Qed.

Lemma update_keys r f runs : (map (update_item r f) runs).*1 = runs.*1.
Proof.
  induction runs as [|[j run] runs IH]; [done|]. rewrite map_cons, !fmap_cons. f_equal; [|done].
  unfold update_item. by case_bool_decide.
Qed.

Lemma update_run_inv ref f st : receiver_inv st → run_inv (f (get_run ref st)) → receiver_inv (update_run ref f st).
Proof.
  intros [Hd Hk Hr Hl] Hf. destruct ref as [|r]; [by split|]. simpl in Hf. split; simpl; fold (update_item r f).
  - done.
  - by rewrite update_keys.
  - apply List.Forall_map, Forall_forall. intros old Hin.
    unfold update_item. case_bool_decide as E; simpl; [|by apply (proj1 (Forall_forall _ _) Hr)].
    destruct old as [k run]. simpl in E. subst k. by rewrite (elem_dict_get _ _ _ Hk Hin) in Hf.
  - by rewrite length_map.
Qed.

Lemma counted_inv run :
  run_inv run → run_inv (mkReceiverRunState (configuration run) (scenario_attempts run + 1) (sequence run + 1) (requests run)).
Proof.
  intros [Ha Hl Hs Hq]. split; simpl; [lia|done|done|]. eapply Forall_impl; [exact Hq|]. simpl. lia.
Qed.

Lemma sorted_append {A} (R : A → A → Prop) l x :
  StronglySorted R l → Forall (λ y, R y x) l → StronglySorted R (l ++ [x]).
Proof.
  induction 1 as [|y l Hl IH Hy]; simpl; intros Hx; [by repeat constructor|].
  apply Forall_cons in Hx as [Hyx Hx]. constructor; [by apply IH|]. apply Forall_app. by repeat constructor.
Qed.

Lemma sorted_drop {A} (R : A → A → Prop) n l : StronglySorted R l → StronglySorted R (drop n l).
Proof. intros H. revert n. induction H; intros [|n]; simpl; try constructor; auto. Qed.

Lemma appended_inv run entry :
  run_inv run → rq_sequence entry = sequence run → Forall (λ rq, (rq_sequence rq < sequence run)%Z) (requests run) →
  run_inv (mkReceiverRunState (configuration run) (scenario_attempts run) (sequence run)
             (last_entries MAX_REQUESTS_PER_RUN (requests run ++ [entry]))).
Proof.
  intros [Ha Hl Hs Hq] He Hlt. split; cbn [scenario_attempts sequence requests].
  - done.
  - apply last_entries_length.
  - apply sorted_drop, sorted_append; [done|]. by rewrite He.
  - apply Forall_drop, Forall_app. split; [done|]. apply Forall_singleton. lia.
Qed.

(** ** The operations keep the invariant *)

Lemma configure_inv c run_id st : receiver_inv st → receiver_inv (configure c run_id st).
Proof.
  intros Hst. unfold configure. pose proof (configured_inv run_id st Hst) as Hst'.
  destruct (configured_state run_id st) as [ref st']. simpl in Hst'. apply update_run_inv; [done|].
  destruct (get_run_inv ref st' Hst'). split; simpl; try done. lia.
Qed.

Lemma webhook_inv channel h body received_at st : receiver_inv st → receiver_inv (receive_webhook channel h body received_at st).2.
Proof.
  intros Hst. unfold receive_webhook. pose proof (webhook_state_inv (wh_demo_run_id h) st Hst) as Hst1.
  pose proof (webhook_state_valid (wh_demo_run_id h) st) as Hv.
  destruct (webhook_state (wh_demo_run_id h) st) as [ref st1]. simpl in Hst1, Hv.
  set (count := λ run, mkReceiverRunState (configuration run) (scenario_attempts run + 1) (sequence run + 1) (requests run)).
  pose proof (get_run_inv ref st1 Hst1) as Hrun.
  assert (Hst2 : receiver_inv (update_run ref count st1)) by (apply update_run_inv; [done|by apply counted_inv]).
  destruct (_payload_validation_error _ _ _) as [error|e]; [|done].
  destruct (_response_evidence _ _) as [code detail]. simpl. apply update_run_inv; [done|].
  rewrite get_update by done. apply (appended_inv (count (get_run ref st1))); [by apply counted_inv|done|].
  destruct Hrun as [_ _ _ Hs]. eapply Forall_impl; [exact Hs|]. simpl. lia.
Qed.

(** ** Traffic *)

Record WebhookCall := mkWebhookCall {
  wc_channel : option pystr;
  wc_headers : WebhookHeaders;
  wc_body : bytes;
  wc_at : datetime
}.

Definition call_error (c : ReceiverConfiguration) (call : WebhookCall) : outcome (option (pystr * pystr)) :=
  _payload_validation_error (wc_body call) (wc_channel call)
    (match wc_channel call with Some _ => true | None => bool_decide (mode c = MODE_PERMANENT_FAILURE) end).

(** What a run configured with [c] answers to its [k]-th webhook. *)
Definition scripted (c : ReceiverConfiguration) (k : Z) (call : WebhookCall) : outcome Z :=
  response_status c k <$> call_error c call.

Fixpoint script (c : ReceiverConfiguration) (k : Z) (calls : list WebhookCall) : list (outcome Z) :=
  match calls with
  | [] => []
  | call :: calls => scripted c k call :: script c (k + 1) calls
  end.

(** The handler on a sequence of calls: each with its response status. *)
Fixpoint handle (calls : list WebhookCall) (st : ReceiverState) : list (WebhookCall * outcome Z) * ReceiverState :=
  match calls with
  | [] => ([], st)
  | call :: calls =>
      let '(r, st) := receive_webhook (wc_channel call) (wc_headers call) (wc_body call) (wc_at call) st in
      let '(rs, st) := handle calls st in
      ((call, rs_status_code <$> r) :: rs, st)
  end.

Definition own (run_id : pystr) (call : WebhookCall) : Prop := wh_demo_run_id (wc_headers call) = Some run_id.

#[export] Instance own_dec run_id call : Decision (own run_id call).
Proof. unfold own. apply _. Defined.

(** The statuses the calls of one run got. *)
Definition answers (run_id : pystr) (rs : list (WebhookCall * outcome Z)) : list (outcome Z) :=
  (filter (λ r, own run_id r.1) rs).*2.

Lemma update_other r run_id f st :
  run_id ≠ r → dict_get (scoped (update_run (ScopedRun run_id) f st)) r = dict_get (scoped st) r.
Proof. intros Hne. simpl. fold (update_item run_id f). by rewrite dict_get_update, bool_decide_eq_false_2 by done. Qed.

Lemma update_default r f st : dict_get (scoped (update_run DefaultRun f st)) r = dict_get (scoped st) r.
Proof. done. Qed.

(** Traffic of other runs, and unscoped traffic, leaves a run alone. *)
Lemma webhook_other r channel h body received_at st :
  wh_demo_run_id h ≠ Some r →
  dict_get (scoped (receive_webhook channel h body received_at st).2) r = dict_get (scoped st) r.
Proof.
  intros Hne. unfold receive_webhook.
  rewrite <- (webhook_state_get (wh_demo_run_id h) st r).
  assert (Hupd : ∀ f st1, dict_get (scoped (update_run (webhook_state (wh_demo_run_id h) st).1 f st1)) r = dict_get (scoped st1) r).
  { intros f st1. destruct (wh_demo_run_id h) as [r'|]; [|done]. simpl.
    destruct (dict_get (scoped st) r'); [|done]. apply update_other. congruence. }
  destruct (webhook_state (wh_demo_run_id h) st) as [ref st1]. simpl in *.
  destruct (_payload_validation_error _ _ _); [|apply Hupd].
  destruct (_response_evidence _ _). simpl. by rewrite !Hupd.
Qed.

(** A webhook of a run is answered from the run's own counter, which it advances. *)
Lemma webhook_own r run call st :
  dict_get (scoped st) r = Some run → own r call →
  let '(resp, st') := receive_webhook (wc_channel call) (wc_headers call) (wc_body call) (wc_at call) st in
  rs_status_code <$> resp = scripted (configuration run) (scenario_attempts run + 1) call ∧
  ∃ run', dict_get (scoped st') r = Some run' ∧ configuration run' = configuration run ∧
    scenario_attempts run' = (scenario_attempts run + 1)%Z.
Proof.
  unfold own, receive_webhook, scripted, call_error. intros Hr ->. cbn [webhook_state]. rewrite Hr.
  set (st1 := mkReceiverState _ _).
  assert (H1 : dict_get (scoped st1) r = Some run)
    by (simpl; by rewrite dict_get_pop_append, bool_decide_eq_true_2).
  set (count := λ run, mkReceiverRunState _ _ _ _).
  assert (Hv : ref_valid (ScopedRun r) st1) by (simpl in *; rewrite H1; eauto).
  assert (Hg : get_run (ScopedRun r) st1 = run) by (simpl in *; by rewrite H1).
  rewrite !(get_update _ _ _ Hv), Hg. pose proof (update_valid _ count _ Hv) as Hv2.
  assert (Hrun : ∀ st', ref_valid (ScopedRun r) st' → dict_get (scoped st') r = Some (get_run (ScopedRun r) st'))
    by (intros st' [x Hx]; simpl in *; by rewrite Hx).
  cbn [configuration count]. destruct (_payload_validation_error _ _ _) as [error|e]; simpl fmap.
  - destruct (_response_evidence _ _). simpl fst. split; [done|]. eexists. split; [by apply Hrun, update_valid|].
    rewrite get_update, get_update, Hg by done. done.
  - split; [done|]. eexists. split; [by apply Hrun|]. rewrite get_update, Hg by done. done.
Qed.

Lemma answers_cons r call a rs :
  answers r ((call, a) :: rs) = if decide (own r call) then a :: answers r rs else answers r rs.
Proof. unfold answers. rewrite filter_cons. simpl. by destruct (decide (own r call)). Qed.

Lemma handle_own r c calls st run :
  dict_get (scoped st) r = Some run → configuration run = c →
  answers r (handle calls st).1 = script c (scenario_attempts run + 1) (filter (own r) calls) ∧
  ∃ run', dict_get (scoped (handle calls st).2) r = Some run' ∧ configuration run' = c ∧
    scenario_attempts run' = (scenario_attempts run + Z.of_nat (length (filter (own r) calls)))%Z.
Proof.
  revert st run. induction calls as [|call calls IH]; intros st run Hr Hc.
  - split; [done|]. exists run. split_and!; [done|done|simpl; lia].
  - cbn [handle]. rewrite filter_cons. destruct (decide (own r call)) as [Ho|Hn].
    + pose proof (webhook_own r run call st Hr Ho) as H.
      destruct (receive_webhook _ _ _ _ st) as [resp st1]. destruct H as (Hs & run1 & Hr1 & Hc1 & Ha1).
      destruct (IH st1 run1 Hr1 ltac:(congruence)) as (IH1 & run2 & Hr2 & Hc2 & Ha2).
      destruct (handle calls st1) as [rs st2]. cbn [fst snd script length] in *. split.
      * rewrite answers_cons, decide_True by done. by rewrite Hs, IH1, Hc, Ha1.
      * exists run2. split_and!; [done|done|lia].
    + pose proof (webhook_other r (wc_channel call) (wc_headers call) (wc_body call) (wc_at call) st Hn) as H.
      destruct (receive_webhook _ _ _ _ st) as [resp st1]. simpl in H. rewrite <- H in Hr.
      destruct (IH st1 run Hr Hc) as (IH1 & run2 & Hr2 & Hc2 & Ha2).
      destruct (handle calls st1) as [rs st2]. cbn [fst snd] in *. split.
      * by rewrite answers_cons, decide_False by done.
      * exists run2. done.
Qed.

Lemma script_valid c k calls :
  Forall (λ call, call_error c call = Ok None) calls →
  script c k calls = (λ i, Ok (response_status c i None)) <$> seqZ k (Z.of_nat (length calls)).
Proof.
  intros Hv. revert k. induction Hv as [|call calls Hc _ IH]; intros k; [done|].
  cbn [script length]. rewrite Nat2Z.inj_succ, seqZ_cons by lia. simpl. unfold scripted at 1. rewrite Hc. simpl. f_equal.
  rewrite IH. f_equal. f_equal; lia.
Qed.

(** Configuring a run gives it the configuration and a fresh counter. *)
Lemma configure_get c r st :
  receiver_inv st →
  ∃ run, dict_get (scoped (configure c (Some r) st)) r = Some run ∧ configuration run = c ∧ scenario_attempts run = 0%Z.
Proof.
  intros Hst. unfold configure. pose proof (configured_valid (Some r) st (rv_keys st Hst)) as Hv.
  destruct (configured_state (Some r) st) as [ref st'] eqn:E. simpl in E. injection E as <- E. simpl in Hv.
  pose proof (get_update (ScopedRun r) (λ run, mkReceiverRunState c 0 (sequence run) (requests run)) st' Hv) as Hg.
  pose proof (update_valid (ScopedRun r) (λ run, mkReceiverRunState c 0 (sequence run) (requests run)) st' Hv) as [run Hr].
  exists run. split; [done|]. cbn [get_run] in Hg. rewrite Hr in Hg. simpl in Hg. by subst run.
Qed.

(** The status of a valid payload by its position. *)
Lemma response_position c i :
  response_status c (0 + 1 + Z.of_nat i) None =
    (match mode c with
     | MODE_FAIL_THEN_SUCCEED => if (i <? Z.to_nat (failures_before_success c))%nat then 503 else 200
     | MODE_RATE_LIMITED =>
         if (failures_before_success c =? 0)%Z || (i <? Z.to_nat (failures_before_success c))%nat then 429 else 200
     | MODE_SUCCESS | MODE_TIMEOUT | MODE_PERMANENT_FAILURE => 200
     end)%Z.
Proof.
  assert (E : (0 + 1 + Z.of_nat i <=? failures_before_success c)%Z = (i <? Z.to_nat (failures_before_success c))%nat).
  { apply Bool.eq_iff_eq_true. rewrite Z.leb_le, Nat.ltb_lt. lia. }
  unfold response_status. rewrite E. by destruct (mode c).
Qed.

Lemma replicate_positions {A} (x y : A) n m :
  (λ i, if (i <? n)%nat then x else y) <$> seq 0 m = replicate (n `min` m) x ++ replicate (m - n) y.
Proof.
  apply list_eq. intros i. rewrite list_lookup_fmap. destruct (decide (i < m)) as [Hi|Hi].
  - rewrite lookup_seq_lt by done. simpl. destruct (Nat.ltb_spec i n).
    + rewrite lookup_app_l by (rewrite length_replicate; lia). rewrite lookup_replicate_2; [done|lia].
    + rewrite lookup_app_r, length_replicate by (rewrite length_replicate; lia). rewrite lookup_replicate_2; [done|lia].
  - rewrite lookup_seq_ge by lia. simpl. symmetry. apply lookup_ge_None. rewrite length_app, !length_replicate. lia.
Qed.

Lemma fmap_seqZ_seq {A} (f : Z → A) k m : f <$> seqZ k (Z.of_nat m) = (λ i, f (k + Z.of_nat i)%Z) <$> seq 0 m.
Proof. unfold seqZ. rewrite Nat2Z.id, <- list_fmap_compose. apply list_fmap_ext. intros i j _. simpl. f_equal. lia. Qed.

Lemma fmap_constant {A} (x : A) m : (λ _, x) <$> seq 0 m = replicate m x.
Proof. pose proof (replicate_positions x x m m) as H. rewrite Nat.min_id, Nat.sub_diag, app_nil_r in H. rewrite <- H. apply list_fmap_ext. intros i j _. by destruct (_ <? _). Qed.

Lemma response_positions c m :
  let n := Z.to_nat (failures_before_success c) in
  (λ k, Ok (response_status c k None)) <$> seqZ (0 + 1) (Z.of_nat m) =
    Ok <$> (match mode c with
      | MODE_FAIL_THEN_SUCCEED => replicate (n `min` m) 503 ++ replicate (m - n) 200
      | MODE_RATE_LIMITED =>
          if (failures_before_success c =? 0)%Z then replicate m 429
          else replicate (n `min` m) 429 ++ replicate (m - n) 200
      | MODE_SUCCESS | MODE_TIMEOUT | MODE_PERMANENT_FAILURE => replicate m 200
      end)%Z.
Proof.
  cbv zeta. rewrite fmap_seqZ_seq, (list_fmap_compose (λ i : nat, response_status c (0 + 1 + Z.of_nat i) None) Ok).
  f_equal. rewrite (list_fmap_ext _ _ _ (λ i j _, response_position c j)).
  destruct (mode c); rewrite ?replicate_positions, ?fmap_constant; try done.
  destruct (failures_before_success c =? 0)%Z; cbn [orb]; [apply fmap_constant|apply replicate_positions].
Qed.

(** The status of each webhook of a run, position by position. *)
Lemma script_lookup c k calls i call :
  calls !! i = Some call → script c k calls !! i = Some (scripted c (k + Z.of_nat i) call).
Proof.
  revert k i. induction calls as [|call' calls IH]; intros k [|i]; [done|done|..]; cbn [script].
  - intros [= ->]. simpl. by rewrite Z.add_0_r.
  - intros Hi. rewrite !lookup_cons_ne_0 by done. cbn [Nat.pred]. rewrite (IH (k + 1)%Z i Hi). do 2 f_equal. lia.
Qed.

Lemma script_length c k calls : length (script c k calls) = length calls.
Proof. revert k. induction calls as [|call calls IH]; intros k; simpl; [done|]. by rewrite IH. Qed.

(** ** What a run records *)

(** The run a webhook is counted for. *)
Definition addressed (st : ReceiverState) (ref : run_ref) (call : WebhookCall) : Prop :=
  (webhook_state (wh_demo_run_id (wc_headers call)) st).1 = ref.

#[export] Instance run_ref_eq_dec : EqDecision run_ref.
Proof. solve_decision. Defined.

#[export] Instance addressed_dec st ref call : Decision (addressed st ref call).
Proof. unfold addressed. apply _. Defined.

(** The entry that answers a webhook. *)
Definition recorded (run : ReceiverRunState) (call : WebhookCall) (status : Z) : ReceivedRequest :=
  received (wc_headers call) (wc_channel call) (wc_body call) (wc_at call) (configuration run) (sequence run + 1)
    (scenario_attempts run + 1) status.

(** A run after a webhook. *)
Definition after_webhook (run : ReceiverRunState) (call : WebhookCall) (r : outcome Z) : ReceiverRunState :=
  mkReceiverRunState (configuration run) (scenario_attempts run + 1) (sequence run + 1)
    match r with
    | Ok status => last_entries MAX_REQUESTS_PER_RUN (requests run ++ [recorded run call status])
    | Raise _ => requests run
    end.

Lemma webhook_state_run run_id st ref : get_run ref (webhook_state run_id st).2 = get_run ref st.
Proof.
  destruct ref as [|r]; [|simpl; by rewrite webhook_state_get].
  destruct run_id as [r|]; [|done]. simpl. by destruct (dict_get _ _).
Qed.

Lemma update_run_other ref ref' f st : ref ≠ ref' → get_run ref' (update_run ref f st) = get_run ref' st.
Proof.
  destruct ref as [|r], ref' as [|r']; try done. intros Hne. cbn [get_run]. rewrite update_other; [done|congruence].
Qed.

(** A webhook changes the run it is addressed to, and no other. *)
Lemma webhook_run ref call st :
  let '(resp, st') := receive_webhook (wc_channel call) (wc_headers call) (wc_body call) (wc_at call) st in
  (addressed st ref call → get_run ref st' = after_webhook (get_run ref st) call (rs_status_code <$> resp)) ∧
  (¬ addressed st ref call → get_run ref st' = get_run ref st).
Proof.
  unfold receive_webhook, addressed. pose proof (webhook_state_valid (wh_demo_run_id (wc_headers call)) st) as Hv.
  pose proof (webhook_state_run (wh_demo_run_id (wc_headers call)) st) as Hrun.
  destruct (webhook_state _ st) as [ref' st1]. cbn [fst snd] in *.
  set (count := λ run, mkReceiverRunState _ _ _ _). pose proof (update_valid _ count _ Hv) as Hv2.
  destruct (_payload_validation_error _ _ _) as [error|e]; [destruct (_response_evidence _ _)|]; cbn [fmap outcome_fmap];
    (split; [intros ->|intros Hne; by rewrite !update_run_other, Hrun by done]).
  - rewrite get_update, !get_update, Hrun by done. done.
  - rewrite get_update, Hrun by done. done.
Qed.

Lemma webhook_addressed ref call st call' :
  addressed (receive_webhook (wc_channel call) (wc_headers call) (wc_body call) (wc_at call) st).2 ref call' ↔
  addressed st ref call'.
Proof.
  unfold addressed. set (st' := (receive_webhook _ _ _ _ _).2).
  destruct (wh_demo_run_id (wc_headers call')) as [r|]; [|done]. cbn [webhook_state].
  assert (Hs : is_Some (dict_get (scoped st') r) ↔ is_Some (dict_get (scoped st) r)).
  { destruct (decide (own r call)) as [Ho|Hn].
    - destruct (dict_get (scoped st) r) as [run|] eqn:Er.
      + pose proof (webhook_own r run call st Er Ho) as H. unfold st'.
        destruct (receive_webhook _ _ _ _ _) as [resp st2]. destruct H as (_ & run' & Hr' & _). cbn [snd]. rewrite Hr'. split; eauto.
      + unfold st', receive_webhook. rewrite Ho. cbn [webhook_state]. rewrite Er.
        destruct (_payload_validation_error _ _ _); [destruct (_response_evidence _ _)|]; cbn [snd scoped update_run];
          by rewrite Er.
    - unfold st'. by rewrite webhook_other. }
  destruct (dict_get (scoped st') r), (dict_get (scoped st) r); try done; unfold is_Some in Hs; naive_solver.
Qed.

Lemma last_entries_app {A} n (l m : list A) : last_entries n (last_entries n l ++ m) = last_entries n (l ++ m).
Proof.
  unfold last_entries. rewrite !length_app, length_drop.
  destruct (decide (length l ≤ n)) as [Hle|Hgt].
  - replace (length l - n) with 0 by lia. rewrite drop_0. f_equal. lia.
  - assert (E : l ++ m = take (length l - n) l ++ (drop (length l - n) l ++ m))
      by (by rewrite (assoc_L (++)), take_drop).
    rewrite E, (drop_app_ge (take _ l)) by (rewrite length_take; lia). f_equal. rewrite length_take. lia.
Qed.

(** The entries of the answered webhooks of one run. *)
Definition answered (st : ReceiverState) (ref : run_ref) (rs : list (WebhookCall * outcome Z)) : list (WebhookCall * outcome Z) :=
  filter (λ r, addressed st ref r.1 ∧ is_ok r.2 = true) rs.

(** An entry records a webhook and its answer. *)
Definition entry_for (r : WebhookCall * outcome Z) (rq : ReceivedRequest) : Prop :=
  r.2 = Ok (rq_response_status_code rq) ∧
  rq_event_id rq = wh_event_id (wc_headers r.1) ∧ rq_delivery_id rq = wh_delivery_id (wc_headers r.1) ∧
  rq_event_type rq = wh_event_type (wc_headers r.1) ∧ rq_delivery_attempt rq = wh_delivery_attempt (wc_headers r.1) ∧
  rq_request_timestamp rq = wh_request_timestamp (wc_headers r.1) ∧ rq_received_at rq = wc_at r.1 ∧
  rq_body_sha256 rq = sha256_hex (wc_body r.1).

Lemma handle_records calls st ref :
  let '(rs, st') := handle calls st in
  ∃ new, Forall2 entry_for (answered st ref rs) new ∧
    requests (get_run ref st') = last_entries MAX_REQUESTS_PER_RUN (requests (get_run ref st) ++ new) ∨
    (answered st ref rs = [] ∧ requests (get_run ref st') = requests (get_run ref st)).
Proof.
  revert st. induction calls as [|call calls IH]; intros st; cbn [handle]; [exists []; by right|].
  pose proof (webhook_run ref call st) as Hrun. pose proof (webhook_addressed ref call st) as Haddr.
  destruct (receive_webhook _ _ _ _ st) as [resp st1]. cbn [snd] in Haddr. destruct Hrun as [Hrun Hother]. specialize (IH st1).
  destruct (handle calls st1) as [rs st2]. destruct IH as (new & IH).
  assert (E : answered st1 ref rs = answered st ref rs).
  { unfold answered. apply list_filter_iff. intros [call' a]. simpl. by rewrite Haddr. }
  rewrite E in IH. unfold answered. rewrite filter_cons. fold (answered st ref rs). cbn [fst snd].
  destruct (decide (addressed st ref call)) as [Ha|Hn].
  2: { rewrite decide_False by tauto. rewrite Hother in IH by done. eauto. }
  destruct resp as [resp|e]; cbn [fmap outcome_fmap is_ok] in *.
  2: { rewrite decide_False by (by intros [_ ?]). rewrite Hrun in IH by done. eauto. }
  rewrite decide_True by done. rewrite Hrun in IH by done. cbn [after_webhook requests] in IH.
  set (entry := recorded _ _ _) in IH.
  assert (He : entry_for (call, Ok (rs_status_code resp)) entry) by (by split_and!).
  destruct IH as [[IH1 IH2]|[IH1 IH2]].
  - exists (entry :: new). left. split; [by constructor|]. rewrite IH2, last_entries_app. by rewrite <- (assoc_L (++)).
  - exists [entry]. left. rewrite IH1. split; [by repeat constructor|done].
Qed.

(** ** Properties *)


(** C30: Runs are deterministic and independent: after a run was configured, however the webhooks of other
    runs and unscoped webhooks are interleaved, its own webhooks are answered by their position: an
    invalid payload with 400; with a failure count of [n], a valid one that is among the first [n]
    with 503 in the mode that recovers and with 429 in the rate-limited mode (with 429 always when
    [n] is 0), and every other valid one with 200.  So [n] valid webhooks fail, and the rest succeed.
    (Requests of the control plane in between are not considered: one for this run starts it afresh,
    and those for a hundred others evict it.) *)
Theorem receiver_scripted c r st calls :
  receiver_inv st →
  let '(rs, st') := handle calls (configure c (Some r) st) in
  let mine := filter (own r) calls in
  let n := Z.to_nat (failures_before_success c) in
  length (answers r rs) = length mine ∧
  (∀ i call, mine !! i = Some call →
     answers r rs !! i = Some (match call_error c call with
       | Raise e => Raise e
       | Ok (Some _) => Ok 400%Z
       | Ok None => Ok (match mode c with
           | MODE_FAIL_THEN_SUCCEED => if (i <? n)%nat then 503 else 200
           | MODE_RATE_LIMITED => if (failures_before_success c =? 0)%Z || (i <? n)%nat then 429 else 200
           | MODE_SUCCESS | MODE_TIMEOUT | MODE_PERMANENT_FAILURE => 200
           end)%Z
       end)) ∧
  (∃ run, dict_get (scoped st') r = Some run ∧ configuration run = c ∧
     scenario_attempts run = Z.of_nat (length mine)) ∧
  (Forall (λ call, call_error c call = Ok None) mine →
     answers r rs = Ok <$> (match mode c with
       | MODE_FAIL_THEN_SUCCEED => replicate (n `min` length mine) 503 ++ replicate (length mine - n) 200
       | MODE_RATE_LIMITED =>
           if (failures_before_success c =? 0)%Z then replicate (length mine) 429
           else replicate (n `min` length mine) 429 ++ replicate (length mine - n) 200
       | MODE_SUCCESS | MODE_TIMEOUT | MODE_PERMANENT_FAILURE => replicate (length mine) 200
       end)%Z).
Proof.
  intros Hst. destruct (configure_get c r st Hst) as (run & Hr & Hc & Ha).
  destruct (handle_own r c calls _ run Hr Hc) as (H1 & run' & Hr' & Hc' & Ha'). rewrite Ha in H1, Ha'.
  destruct (handle calls _) as [rs st']. cbn [fst snd] in *. cbv zeta. split_and!; [by rewrite H1, script_length| |by exists run'|].
  - intros i call Hi. rewrite H1, (script_lookup _ _ _ i call Hi). f_equal. unfold scripted.
    destruct (call_error c call) as [[error|]|e]; [done| |done]. cbn [fmap outcome_fmap]. f_equal. apply response_position.
  - intros Hv. rewrite H1, script_valid by done. by apply response_positions.
Qed.

(** ** The evidence a dead letter keeps *)

(** The codes the validation can answer with. *)
Definition error_codes : list pystr :=
  [lit "invalid_json"; lit "invalid_payload"; lit "unsupported_event_type"; lit "wrong_receiver_route";
   lit "invalid_data"; lit "invalid_currency"] ++
  (RECEIVER_CONTRACTS ≫= λ item, map (app (lit "missing_")) (required_text item.2) ++
                                 map (app (lit "invalid_")) (required_positive_integer item.2)).

(** The validation errors [replay_block_code] does not count as errors of the payload. *)
Definition unblocked_codes : list pystr := [lit "wrong_receiver_route"; lit "invalid_amount_cents"].

Lemma missing_text_code data fields error :
  missing_text data fields = Some error → error.1 ∈ map (app (lit "missing_")) fields.
Proof.
  induction fields as [|f fields IH]; [done|]. cbn [missing_text map]. rewrite elem_of_cons.
  intros H. repeat case_match; simplify_eq; auto.
Qed.

Lemma invalid_integer_code data fields error :
  invalid_integer data fields = Some error → error.1 ∈ map (app (lit "invalid_")) fields.
Proof.
  induction fields as [|f fields IH]; [done|]. cbn [invalid_integer map]. rewrite elem_of_cons.
  intros H. repeat case_match; simplify_eq; auto.
Qed.

Lemma contract_error_code t contract channel payload error :
  dict_get RECEIVER_CONTRACTS t = Some contract → contract_error t contract channel payload = Some error →
  error.1 ∈ error_codes.
Proof.
  intros Hc%dict_get_elem. unfold contract_error, currency_error, error_codes. rewrite elem_of_app, list_elem_of_bind.
  destruct (match channel with Some _ => _ | None => _ end); [intros [= <-]; left; simpl; set_solver|].
  assert (Hbad : ∀ detail, Some (lit "invalid_data", detail) = Some error →
    error.1 ∈ [lit "invalid_json"; lit "invalid_payload"; lit "unsupported_event_type"; lit "wrong_receiver_route";
               lit "invalid_data"; lit "invalid_currency"]) by (intros detail [= <-]; simpl; set_solver).
  destruct (dict_get payload _) as [[]|]; eauto.
  destruct (missing_text _ _) eqn:Em; [intros [= <-]; apply missing_text_code in Em; right; exists (t, contract); set_solver|].
  destruct (invalid_integer _ _) eqn:Ei; [intros [= <-]; apply invalid_integer_code in Ei; right; exists (t, contract); set_solver|].
  intros H. left. repeat case_match; simplify_eq; simpl; set_solver.
Qed.

Lemma validation_code body channel b error :
  _payload_validation_error body channel b = Ok (Some error) → error.1 ∈ error_codes.
Proof.
  unfold _payload_validation_error. intros H.
  destruct (json_loads_bytes body) as [[]|[]]; simplify_eq; try (simpl; set_solver).
  destruct (_ ≫= _) as [[t contract]|] eqn:E.
  - injection H as H. eapply contract_error_code; [|done]. apply bind_Some in E as (t' & _ & E).
    apply fmap_Some in E as (c' & E & [= -> ->]). done.
  - destruct b; simplify_eq. simpl. set_solver.
Qed.

Lemma blocked_codes code detail :
  code ∈ error_codes →
  payload_block (JDict [(lit "code", JStr code); (lit "detail", JStr detail)]) =
    if bool_decide (code ∈ unblocked_codes) then None else Some PAYLOAD_CORRECTION_REQUIRED.
Proof.
  intros Hin. unfold payload_block. cbn [dict_get]. rewrite bool_decide_eq_true_2 by done.
  revert code Hin. apply Forall_forall.
  assert (Hd : forallb (λ code, Bool.eqb (startswith code (lit "missing_") || str_in code RECEIVER_PAYLOAD_ERROR_CODES)
                         (negb (bool_decide (code ∈ unblocked_codes)))) error_codes = true) by (vm_compute; done).
  rewrite forallb_forall in Hd. apply Forall_forall. intros code Hin%list_elem_of_In.
  specialize (Hd _ Hin). apply Bool.eqb_prop in Hd. rewrite Hd. by destruct (bool_decide _).
Qed.

(** C29: The receiver's answers are evidence the worker and the replay gate act on: a 200 ends the
    delivery, a 429 (exactly these carry Retry-After, 5 seconds) or 503 is retried, and a 400 is
    terminal; a dead letter whose excerpt is the answer's body is blocked from replay exactly for the
    400 answers other than [wrong_receiver_route] and [invalid_amount_cents]. *)
Theorem receiver_evidence channel h body received_at st r st' :
  receive_webhook channel h body received_at st = (Ok r, st') →
  ((rs_status_code r = 200 ∧ classify_status_code (rs_status_code r) = Ok SUCCEEDED) ∨
   (rs_status_code r ∈ [429; 503] ∧ classify_status_code (rs_status_code r) = Ok RETRY) ∨
   (rs_status_code r = 400 ∧ classify_status_code (rs_status_code r) = Ok TERMINAL_FAILURE))%Z ∧
  rs_retry_after r = (if (rs_status_code r =? 429)%Z then Some (lit "5") else None) ∧
  ∃ code detail, rs_content r = JDict [(lit "code", JStr code); (lit "detail", JStr detail)] ∧
    ∀ text, json_loads text = Ok (rs_content r) →
      replay_block_code (Some (rs_status_code r)) (Some text) =
        Ok (if (rs_status_code r =? 400)%Z && negb (bool_decide (code ∈ unblocked_codes))
            then Some PAYLOAD_CORRECTION_REQUIRED else None).
Proof.
  unfold receive_webhook. destruct (webhook_state _ st) as [ref st1].
  set (run := get_run ref _).
  destruct (_payload_validation_error _ _ _) as [error|e] eqn:Ev; [|done].
  assert (Hs : (error = None ∧ response_status (configuration run) (scenario_attempts run) error ∈ [200; 429; 503]%Z) ∨
               (∃ code detail, error = Some (code, detail) ∧ code ∈ error_codes ∧
                  response_status (configuration run) (scenario_attempts run) error = 400%Z)).
  { destruct error as [[code detail]|].
    - right. exists code, detail. split_and!; [done|by apply validation_code in Ev|done].
    - left. split; [done|]. unfold response_status. repeat case_match; set_solver. }
  remember (response_status (configuration run) (scenario_attempts run) error) as status eqn:Est in *. clear Est.
  destruct (_response_evidence status error) as [code detail] eqn:Er.
  intros [= <- <-]. cbn [rs_status_code rs_retry_after rs_content].
  destruct Hs as [[-> Hs]|(code' & detail' & -> & Hc & Hs)].
  - assert (Hn : ∀ text, status ≠ 400%Z → replay_block_code (Some status) (Some text) = Ok None).
    { intros text Hne. unfold replay_block_code. repeat case_match; simplify_eq; done. }
    rewrite !elem_of_cons, elem_of_nil in Hs. assert (Hne : status ≠ 400%Z) by (intros ->; naive_solver). split_and!.
    + destruct Hs as [->|[->|[->|[]]]].
      * left. by split.
      * right. left. split; [set_solver|done].
      * right. left. split; [set_solver|done].
    + by case_match.
    + exists code, detail. split; [done|]. intros text _. rewrite Hn by done.
      by rewrite (proj2 (Z.eqb_neq status 400) Hne).
  - rewrite Hs. simpl in Er. injection Er as <- <-. split_and!; [by right; right|done|].
    exists code', detail'. split; [done|]. intros text Ht. unfold replay_block_code. rewrite Ht, blocked_codes by done.
    by destruct (bool_decide (code' ∈ unblocked_codes)).
Qed.

(** ** Witnesses *)

Definition lab_headers : WebhookHeaders := mkWebhookHeaders None None None None None None (Some (lit "run-1")).

Definition lab_data (amount : Z) : json :=
  JDict [(lit "type", JStr (lit "order.paid"));
         (lit "data", JDict [(lit "order_id", JStr (lit "o")); (lit "customer_id", JStr (lit "c"));
                             (lit "currency", JStr (lit "EUR")); (lit "amount_cents", JInt amount)])].

Definition lab_body (amount : Z) : bytes :=
  match canonical_json_bytes (lab_data amount) with Ok b => b | Raise _ => [] end.

Definition lab_call (amount : Z) : WebhookCall := mkWebhookCall (Some (lit "orders")) lab_headers (lab_body amount) 0.

Definition lab_recovering : ReceiverConfiguration := mkReceiverConfiguration MODE_FAIL_THEN_SUCCEED 2 0.

(** Of 101 webhooks of a run the first is forgotten. *)
Definition lab_many : list WebhookCall := replicate 101 (lab_call 5).


Lemma receiver_scripted_witness :
  answers (lit "run-1") (handle [lab_call 5; lab_call 6; lab_call 7]
                           (configure lab_recovering (Some (lit "run-1")) initial_receiver)).1 = [Ok 503; Ok 503; Ok 200]%Z.
Proof.
  pose proof (receiver_scripted lab_recovering (lit "run-1") initial_receiver [lab_call 5; lab_call 6; lab_call 7]
                initial_receiver_inv) as H.
  destruct (handle _ _) as [rs st']. destruct H as (_ & _ & _ & H). cbn [fst]. rewrite H; [by vm_compute|].
  repeat constructor; by vm_compute.
Defined.

(** An order with no positive amount is refused, yet may be replayed unchanged. *)
Lemma receiver_evidence_witness :
  match receive_webhook (Some (lit "orders")) lab_headers (lab_body 0) 0 initial_receiver with
  | (Ok r, _) =>
      rs_status_code r = 400%Z ∧
      match canonical_json_bytes (rs_content r) with
      | Ok body => replay_block_code (Some 400%Z) (Some (excerpt_of body)) = Ok None
      | Raise _ => False
      end
  | _ => False
  end.
Proof.
  destruct (receive_webhook _ _ _ _ _) as [[r|e] st'] eqn:E; [|by vm_compute in E].
  pose proof (receiver_evidence _ _ _ _ _ r st' E) as (_ & _ & code & detail & Hcd & H).
  assert (Hr : (rs_status_code r, rs_content r) =
    (400%Z, JDict [(lit "code", JStr (lit "invalid_amount_cents"));
                   (lit "detail", JStr (lit "data.amount_cents must be a positive integer."))])).
  { vm_compute in E. injection E as <- _. by vm_compute. }
  injection Hr as Hs Hc. rewrite Hs, Hc. split; [done|].
  destruct (canonical_json_bytes _) as [body|] eqn:Eb; [|by vm_compute in Eb].
  assert (Hp : json_loads (excerpt_of body) = Ok (rs_content r)).
  { vm_compute in Eb. injection Eb as <-. rewrite Hc. by vm_compute. }
  rewrite <- Hs, (H _ Hp), Hs. f_equal.
  assert (Hcode : code = lit "invalid_amount_cents") by congruence. by rewrite Hcode.
Defined.
