(* ===== verification/Codecs.v ===== *)
(** The text forms of the standard library that a pagination cursor is made of: URL-safe base64,
    [int(s, 16)] and [UUID(s)], each with the round trip from the rendered form. *)
From S2P Require Import Prelude PyStr Errors Floats Json Sha256 Signing.
From Stdlib Require Import ZArith NArith.
From Stdlib Require Strings.Byte.

#[local] Open Scope N_scope.

(** ** base64 *)

(** The URL-safe alphabet. *)
Definition b64_char (v : N) : N :=
  if v <? 26 then 65 + v else if v <? 52 then 71 + v else if v <? 62 then v - 4
  else if v =? 62 then 45 else 95.

(** [base64.urlsafe_b64encode] *)
Fixpoint b64_encode (bs : bytes) : pystr :=
  match bs with
  | [] => []
  | [a] =>
      let a := Byte.to_N a in [b64_char (a / 4); b64_char (a mod 4 * 16); 61; 61]
  | [a; b] =>
      let a := Byte.to_N a in let b := Byte.to_N b in
      [b64_char (a / 4); b64_char (a mod 4 * 16 + b / 16); b64_char (b mod 16 * 4); 61]
  | a :: b :: c :: bs =>
      let a := Byte.to_N a in let b := Byte.to_N b in let c := Byte.to_N c in
      [b64_char (a / 4); b64_char (a mod 4 * 16 + b / 16); b64_char (b mod 16 * 4 + c / 64); b64_char (c mod 64)]
      ++ b64_encode bs
  end.

(** The value of a character; [+] and [/] still count after [-] and [_] were translated to them. *)
Definition b64_value (c : N) : option N :=
  if is_upper c then Some (c - 65) else if is_lower c then Some (c - 71)
  else if is_digit c then Some (c + 4)
  else if (c =? 45) || (c =? 43) then Some 62
  else if (c =? 95) || (c =? 47) then Some 63
  else None.

(** [binascii.a2b_base64] without [strict_mode]: [pos] characters of a quad were read, [left] are
    the bits of them not yet written, [pads] counts padding characters.  Characters outside the
    alphabet are skipped; enough padding ends the input; [None] is [binascii.Error]. *)
Fixpoint a2b_base64 (pos : nat) (left : N) (pads : nat) (s : pystr) : option bytes :=
  match s with
  | [] => match pos with O => Some [] | _ => None end
  | c :: s =>
      if c =? 61 then
        if (2 <=? pos)%nat then
          if (4 <=? pos + S pads)%nat then Some [] else a2b_base64 pos left (S pads) s
        else a2b_base64 pos left pads s
      else
        match b64_value c with
        | None => a2b_base64 pos left pads s
        | Some v =>
            match pos with
            | 0%nat => a2b_base64 1 v 0 s
            | 1%nat => cons (byte_of_N (left * 4 + v / 16)) <$> a2b_base64 2 (v mod 16) 0 s
            | 2%nat => cons (byte_of_N (left * 16 + v / 4)) <$> a2b_base64 3 (v mod 4) 0 s
            | _ => cons (byte_of_N (left * 64 + v)) <$> a2b_base64 0 0 0 s
            end
        end
  end.

(** [base64.urlsafe_b64decode] on a [str]: it has to be ASCII. *)
Definition urlsafe_b64decode (s : pystr) : option bytes :=
  if is_ascii s then a2b_base64 0 0 0 s else None.

Example b64_ex :
  b64_encode (blit "ab~?") = lit "YWJ-Pw==" ∧ urlsafe_b64decode (lit "YWJ+ Pw==x") = Some (blit "ab~?") ∧
  urlsafe_b64decode (lit "YWJ-P") = None ∧ urlsafe_b64decode (lit "YWJ-Pw=") = None.
Proof. by vm_compute. Qed.

(** Induction over a list three elements at a time. *)
Lemma list_ind3 {A} (P : list A → Prop) :
  P [] → (∀ a, P [a]) → (∀ a b, P [a; b]) → (∀ a b c l, P l → P (a :: b :: c :: l)) → ∀ l, P l.
Proof.
  intros H0 H1 H2 H3. fix IH 1. intros [|a [|b [|c l]]]; [done|done|done|]. apply H3, IH.
Qed.

Lemma b64_table :
  Forall (λ v, b64_value (b64_char v) = Some v ∧ b64_char v ≠ 61 ∧ b64_char v < 128) (map N.of_nat (seq 0 64)).
Proof. repeat (constructor; [by vm_compute|]). constructor. Qed.

Lemma b64_char_spec v : v < 64 → b64_value (b64_char v) = Some v ∧ b64_char v ≠ 61 ∧ b64_char v < 128.
Proof.
  intros Hv. pose proof b64_table as Ht. rewrite Forall_forall in Ht. apply Ht.
  apply list_elem_of_In, in_map_iff. exists (N.to_nat v). split; [lia|]. apply in_seq. lia.
Qed.

Lemma byte_range b : Byte.to_N b < 256.
Proof. pose proof (Byte.to_N_bounded b). lia. Qed.

Lemma byte_of_to b n : n = Byte.to_N b → byte_of_N n = b.
Proof.
  intros ->. unfold byte_of_N. rewrite N.mod_small by apply byte_range. by rewrite Byte.of_to_N.
Qed.

(** One step of the decoder on a character of the encoder, at each position of a quad. *)
Lemma a2b_skip pos left pads v s (r : option bytes) :
  v < 64 →
  match pos with
  | 0%nat => a2b_base64 1 v 0 s
  | 1%nat => cons (byte_of_N (left * 4 + v / 16)) <$> a2b_base64 2 (v mod 16) 0 s
  | 2%nat => cons (byte_of_N (left * 16 + v / 4)) <$> a2b_base64 3 (v mod 4) 0 s
  | _ => cons (byte_of_N (left * 64 + v)) <$> a2b_base64 0 0 0 s
  end = r → a2b_base64 pos left pads (b64_char v :: s) = r.
Proof.
  intros (Hv & Hne & _)%b64_char_spec <-. cbn [a2b_base64].
  rewrite (proj2 (N.eqb_neq _ _)) by done. by rewrite Hv.
Qed.

Lemma cons_fmap (b b' : Byte.byte) (m : option bytes) bs : b = b' → m = Some bs → cons b <$> m = Some (b' :: bs).
Proof. by intros -> ->. Qed.

Lemma a2b_encode bs : a2b_base64 0 0 0 (b64_encode bs) = Some bs.
Proof.
  induction bs as [|a|a b|a b c bs IH] using list_ind3; [done| | |]; cbn [b64_encode app];
    pose proof (byte_range a); try pose proof (byte_range b); try pose proof (byte_range c);
    repeat (apply a2b_skip; [ndiv_lia|]; cbv beta iota; try (apply cons_fmap; [apply byte_of_to; ndiv_lia|])); done.
Qed.

(** *** Padding *)

(** The encoding without its padding. *)
Lemma b64_padding bs :
  ∃ s n, b64_encode bs = s ++ replicate n 61 ∧ ((length s + n) mod 4 = 0)%nat ∧ (n < 4)%nat ∧
    Forall (λ c, c ≠ 61 ∧ c < 128) s.
Proof.
  assert (Hc : ∀ v, v < 64 → b64_char v ≠ 61 ∧ b64_char v < 128) by (intros v Hv; by apply b64_char_spec).
  induction bs as [|a|a b|a b c bs IH] using list_ind3; cbn [b64_encode];
    try pose proof (byte_range a); try pose proof (byte_range b); try pose proof (byte_range c).
  - exists [], 0%nat. split_and!; [done|done|lia|constructor].
  - eexists [_; _], 2%nat. split_and!; [done|done|lia|]. repeat constructor; apply Hc; ndiv_lia.
  - eexists [_; _; _], 1%nat. split_and!; [done|done|lia|]. repeat constructor; apply Hc; ndiv_lia.
  - destruct IH as (s & n & -> & Hm & Hn & Hs). eexists (_ :: _ :: _ :: _ :: s), n. split_and!; [done| |done|].
    + cbn [length]. replace (S (S (S (S (length s)))) + n)%nat with ((length s + n) + 1 * 4)%nat by lia.
      by rewrite Nat.Div0.mod_add.
    + repeat constructor; try done; apply Hc; ndiv_lia.
Qed.

Lemma drop_while_replicate p c n s : p c = true → drop_while p (replicate n c ++ s) = drop_while p s.
Proof. intros Hc. induction n as [|n IH]; simpl; [done|]. by rewrite Hc. Qed.

Lemma drop_while_none p s : Forall (λ c, p c = false) s → drop_while p s = s.
Proof. destruct 1 as [|c s Hc _]; simpl; [done|]. by rewrite Hc. Qed.

Lemma rstrip_none p s : Forall (λ c, p c = false) s → rstrip_p p s = s.
Proof. intros Hs. unfold rstrip_p. rewrite drop_while_none by by apply Forall_rev. apply rev_involutive. Qed.

Lemma rstrip_padding p c n s : p c = true → Forall (λ c, p c = false) s → rstrip_p p (s ++ replicate n c) = s.
Proof.
  intros Hc Hs. unfold rstrip_p. rewrite rev_app_distr, (rev_alt (replicate _ _)).
  fold (reverse (replicate n c)). rewrite reverse_replicate.
  rewrite drop_while_replicate by done. rewrite drop_while_none by by apply Forall_rev. apply rev_involutive.
Qed.

(** ["=" * (-len(value) % 4)] *)
Definition b64_pad (s : pystr) : pystr := replicate ((4 - length s mod 4) mod 4)%nat 61.

(** Stripping the padding and computing it back is harmless. *)
Lemma b64_repad bs :
  let value := rstrip_p (λ c, c =? 61) (b64_encode bs) in
  urlsafe_b64decode (value ++ b64_pad value) = Some bs.
Proof.
  destruct (b64_padding bs) as (s & n & E & Hm & Hn & Hs). cbn zeta. rewrite E, rstrip_padding; [|done|].
  - assert (Hp : b64_pad s = replicate n 61).
    { unfold b64_pad. f_equal. pose proof (Nat.mod_upper_bound (length s) 4 ltac:(done)) as Hu.
      rewrite <- Nat.Div0.add_mod_idemp_l in Hm. revert Hm Hu. generalize (length s mod 4)%nat. intros k Hm Hu.
      destruct k as [|[|[|[|k]]]]; [..|lia]; destruct n as [|[|[|[|n]]]]; done || lia. }
    rewrite Hp, <- E. unfold urlsafe_b64decode. rewrite a2b_encode.
    assert (Ha : is_ascii (b64_encode bs) = true); [|by rewrite Ha]. unfold is_ascii.
    rewrite E, forallb_app, andb_true_iff. split; apply forallb_forall; intros c Hc%list_elem_of_In; apply N.ltb_lt.
    + rewrite Forall_forall in Hs. by apply Hs.
    + by apply elem_of_replicate in Hc as [-> _].
  - eapply Forall_impl; [exact Hs|]. intros c [Hc _]. by apply N.eqb_neq.
Qed.

(** ** [int(s)] and [int(s, 16)] *)

(** The code points of the digit zero outside ASCII (general category Nd of Unicode 15.0). *)
Definition decimal_zeros : list N :=
  [1632; 1776; 1984; 2406; 2534; 2662; 2790; 2918; 3046; 3174; 3302; 3430; 3558; 3664; 3792; 3872; 4160;
   4240; 6112; 6160; 6470; 6608; 6784; 6800; 6992; 7088; 7232; 7248; 42528; 43216; 43264; 43472; 43504;
   43600; 44016; 65296; 66720; 68912; 69734; 69872; 69942; 70096; 70384; 70736; 70864; 71248; 71360;
   71472; 71904; 72016; 72784; 73040; 73120; 73552; 92768; 92864; 93008; 120782; 120792; 120802; 120812;
   120822; 123200; 123632; 124144; 125264; 130032].

Definition decimal_value (c : N) : option N :=
  (λ zero, c - zero) <$> List.find (λ zero, in_range zero (zero + 9) c) decimal_zeros.

(** Text handed to [int]: other decimal digits and spaces become ASCII, the rest is no number. *)
Definition ascii_digits (s : pystr) : pystr :=
  if is_ascii s then s
  else map (λ c, if c <? 127 then c else if is_space c then 32
                 else match decimal_value c with Some d => 48 + d | None => 63 end) s.

Definition is_c_space (c : N) : bool := in_range 9 13 c || (c =? 32).

(** Digits, with single underscores between them; the value, the number of digits and the rest. *)
Fixpoint read_base (base acc : N) (n : nat) (underscore : bool) (s : pystr) : option (N * nat * pystr) :=
  match s with
  | [] => if underscore then None else Some (acc, n, [])
  | c :: s' =>
      if c =? 95 then if underscore then None else read_base base acc n true s'
      else match hex_val c ≫= (λ d, if d <? base then Some d else None) with
           | Some d => read_base base (acc * base + d) (S n) false s'
           | None => if underscore then None else Some (acc, n, s)
           end
  end.

(** The prefix [0x], which one underscore may follow. *)
Definition skip_0x (s : pystr) : pystr :=
  match s with
  | zero :: x :: s' =>
      if (zero =? 48) && (lower_ascii x =? 120) then default s' (expect 95 s') else s
  | _ => s
  end.

(** The digits after sign and prefix, and nothing but spaces after them. *)
Definition read_int (base : N) (negative : bool) (s : pystr) : option (Z * nat) :=
  if bool_decide (head s = Some 95) then None
  else
    match read_base base 0 0 false s with
    | Some (v, S n, r) =>
        if bool_decide (drop_while is_c_space r = [])
        then Some ((if negative then - Z.of_N v else Z.of_N v)%Z, S n)
        else None
    | _ => None
    end.

(** [int(s, 16)]; [None] is the [ValueError]. *)
Definition int_base16 (s : pystr) : option Z :=
  let '(negative, s) := read_sign (drop_while is_c_space (ascii_digits s)) in
  fst <$> read_int 16 negative (skip_0x s).

(** [int(s)]: the number of digits is limited. *)
Definition int_base10 (s : pystr) : option Z :=
  let '(negative, s) := read_sign (drop_while is_c_space (ascii_digits s)) in
  '(v, n) ← read_int 10 negative s;
  if bool_decide (n ≤ int_max_str_digits)%nat then Some v else None.

Example int_base10_ex :
  map (λ s, int_base10 (lit s)) [" -1_2 "; "0012"; "1a"; "+"; "1_"] = [Some (-12); Some 12; None; None; None]%Z.
Proof. by vm_compute. Qed.

Example int_base16_ex :
  map (λ s, int_base16 (lit s)) [" -0X_fF "; "1_0"; "1__0"; "_1"; "0x"; "0_x1"; "g"; ""; "+0"]
  = [Some (-255); Some 16; None; None; None; None; None; None; Some 0]%Z.
Proof. by vm_compute. Qed.

(** ** [uuid.UUID] *)

(** [s.replace(old, "")]: every occurrence from the left; [skip] characters of one are left. *)
Fixpoint remove_from (old : pystr) (skip : nat) (s : pystr) : pystr :=
  match s with
  | [] => []
  | c :: s' =>
      match skip with
      | S skip => remove_from old skip s'
      | O => if startswith s old then remove_from old (length old - 1) s' else c :: remove_from old 0 s'
      end
  end.

Definition remove_all (old s : pystr) : pystr := remove_from old 0 s.

Definition is_brace (c : N) : bool := (c =? 123) || (c =? 125).

(** [UUID(s)]; [None] is the [ValueError]. *)
Definition uuid_of_str (s : pystr) : option N :=
  let s := remove_all (lit "uuid:") (remove_all (lit "urn:") s) in
  let hex := remove_all (lit "-") (rstrip_p is_brace (lstrip_p is_brace s)) in
  if bool_decide (length hex = 32%nat) then
    match int_base16 hex with
    | Some z => if (0 <=? z)%Z && (z <? 2 ^ 128)%Z then Some (Z.to_N z) else None
    | None => None
    end
  else None.

Example uuid_of_str_ex :
  uuid_of_str (lit "urn:uuid:{123E4567-e89b-12d3-a456426614174000}") = Some 0x123e4567e89b12d3a456426614174000 ∧
  uuid_of_str (lit "123e4567-e89b-12d3-a456-42661417400") = None.
Proof. by vm_compute. Qed.

(** ** The rendered form reads back *)

(** A lowercase hexadecimal digit. *)
Definition hexc (c : N) : Prop := 48 <= c <= 57 \/ 97 <= c <= 102.

Lemma hex_digits_hexc w n : Forall hexc (hex_digits w n).
Proof.
  revert n. induction w as [|w IH]; intros n; simpl; [constructor|]. apply Forall_app. split; [done|].
  apply Forall_singleton. pose proof (hex_digit_class n) as Hd. unfold hexc.
  unfold is_digit in Hd. apply orb_true_iff in Hd as [Hd|Hd]; unfold in_range in Hd;
    apply andb_true_iff in Hd as [H1%N.leb_le H2%N.leb_le]; lia.
Qed.

Lemma hex_val_digit d : d < 16 → hex_val (digit_char d) = Some d.
Proof.
  intros Hd. unfold digit_char, hex_val, is_digit, in_range. destruct (N.ltb_spec d 10).
  - rewrite !(proj2 (N.leb_le _ _)) by lia. cbn [andb]. f_equal. lia.
  - rewrite (proj2 (N.leb_gt (87 + d) 57)), andb_false_r by lia.
    rewrite !(proj2 (N.leb_le _ _)) by lia. cbn [andb]. f_equal. lia.
Qed.

Lemma read_base16_digits w u acc n r :
  read_base 16 acc n false (hex_digits w u ++ r) =
    read_base 16 (acc * 16 ^ N.of_nat w + u mod 16 ^ N.of_nat w) (n + w) false r.
Proof.
  revert u acc n r. induction w as [|w IH]; intros u acc n r; cbn [hex_digits app].
  - f_equal; [|lia]. simpl. rewrite N.mod_1_r. lia.
  - rewrite <- (assoc_L (++)). rewrite IH. cbn [app read_base].
    assert (Hm : u mod 16 < 16) by (by apply N.mod_lt).
    rewrite hex_val_digit by done. cbn [mbind option_bind]. rewrite (proj2 (N.ltb_lt _ _) Hm).
    rewrite (proj2 (N.eqb_neq (digit_char _) 95)) by (unfold digit_char; destruct (N.ltb_spec (u mod 16) 10); lia).
    f_equal; [|lia]. rewrite Nat2N.inj_succ, N.pow_succ_r'.
    rewrite (N.Div0.mod_mul_r u 16). lia.
Qed.

Lemma remove_from_absent old s :
  Forall (λ c, Some c ≠ head old) s → old ≠ [] → remove_all old s = s.
Proof.
  unfold remove_all. intros Hs Ho. induction Hs as [|c s Hc _ IH]; [done|]. simpl.
  destruct old as [|o old]; [done|]. simpl in Hc |- *.
  rewrite (proj2 (N.eqb_neq o c)) by congruence. simpl. by f_equal.
Qed.

Lemma remove_char_app c s t : remove_all [c] (s ++ t) = remove_all [c] s ++ remove_all [c] t.
Proof.
  unfold remove_all. induction s as [|d s IH]; simpl; [done|]. destruct (c =? d); simpl; by rewrite IH.
Qed.

Lemma int_base16_hex w u : (0 < w)%nat → u < 16 ^ N.of_nat w → int_base16 (hex_digits w u) = Some (Z.of_N u).
Proof.
  intros Hw Hu. unfold int_base16, ascii_digits.
  assert (Ha : is_ascii (hex_digits w u) = true) by apply hex_digits_ascii. rewrite Ha.
  pose proof (hex_digits_hexc w u) as Hx.
  assert (Hread : read_base 16 0 0 false (hex_digits w u) = Some (u, w, [])).
  { rewrite <- (app_nil_r (hex_digits w u)), read_base16_digits. cbn [read_base app].
    rewrite N.mod_small by done. do 2 f_equal. }
  pose proof (hex_digits_length w u) as Hl.
  destruct (hex_digits w u) as [|c s]; [simpl in Hl; lia|]. apply Forall_cons in Hx as [Hc Hx].
  assert (Hsp : is_c_space c = false).
  { unfold is_c_space, in_range, hexc in *. apply orb_false_iff. split; [apply andb_false_iff; rewrite !N.leb_gt|apply N.eqb_neq]; lia. }
  cbn [drop_while]. rewrite Hsp. cbn [read_sign]. unfold hexc in Hc.
  rewrite !(proj2 (N.eqb_neq _ _)) by lia.
  assert (H0x : skip_0x (c :: s) = c :: s).
  { unfold skip_0x. destruct s as [|x s']; [done|]. apply Forall_cons in Hx as [Hx _]. unfold hexc in Hx.
    assert (Hlow : (lower_ascii x =? 120) = false); [|by rewrite Hlow, andb_false_r].
    apply N.eqb_neq. unfold lower_ascii, is_upper, in_range. case_match eqn:E; [|lia].
    apply andb_true_iff in E as [E1%N.leb_le E2%N.leb_le]. lia. }
  rewrite H0x. unfold read_int. cbn [head]. rewrite bool_decide_eq_false_2 by (intros [= ->]; lia).
  rewrite Hread. destruct w; [lia|]. done.
Qed.

Lemma str_of_uuid_Forall (P : N → Prop) u : Forall P (hex_digits 32 u) → P 45 → Forall P (str_of_uuid u).
Proof.
  intros Hh Hp. unfold str_of_uuid.
  repeat (apply Forall_app; split);
    first [by repeat constructor | repeat first [apply Forall_take | apply Forall_drop]; done].
Qed.

Lemma uuid_of_str_of_uuid u : u < 2 ^ 128 → uuid_of_str (str_of_uuid u) = Some u.
Proof.
  intros Hu. unfold uuid_of_str. pose proof (hex_digits_hexc 32 u) as Hx.
  assert (Hs : Forall (λ c, hexc c \/ c = 45) (str_of_uuid u)).
  { apply str_of_uuid_Forall; [|by right]. eapply Forall_impl; [exact Hx|]. by left. }
  assert (Hne : ∀ d, (~ hexc d) → d ≠ 45 → Forall (λ c, c ≠ d) (str_of_uuid u)).
  { intros d Hd Hd'. eapply Forall_impl; [exact Hs|]. intros c [Hc|Hc] ->; done. }
  rewrite (remove_from_absent (lit "urn:")); [|eapply Forall_impl; [apply (Hne 117)|intros c Hc [= E]; done]|done];
    [|by unfold hexc; lia|done].
  rewrite (remove_from_absent (lit "uuid:")); [|eapply Forall_impl; [apply (Hne 117)|intros c Hc [= E]; done]|done];
    [|by unfold hexc; lia|done].
  assert (Hb : Forall (λ c, is_brace c = false) (str_of_uuid u)).
  { eapply Forall_impl; [exact Hs|]. unfold is_brace, hexc. intros c Hc. apply orb_false_iff. rewrite !N.eqb_neq. lia. }
  unfold lstrip_p. rewrite drop_while_none, rstrip_none by done.
  assert (Hh : remove_all (lit "-") (str_of_uuid u) = hex_digits 32 u).
  { assert (Hr : ∀ s, Forall hexc s → remove_all [45] s = s).
    { intros s H. apply remove_from_absent; [|done]. eapply Forall_impl; [exact H|].
      unfold hexc. simpl. intros c Hc [= E]. lia. }
    unfold str_of_uuid. change (lit "-") with [45]. rewrite !remove_char_app.
    change (remove_all [45] [45]) with (@nil N). cbn [app].
    rewrite !Hr by (by repeat (apply Forall_take || apply Forall_drop)).
    pose proof (hex_digits_length 32 u) as Hl. revert Hl. generalize (hex_digits 32 u). intros h Hl.
    do 32 (destruct h as [|? h]; [done|]). by destruct h. }
  rewrite Hh, hex_digits_length, bool_decide_eq_true_2 by done.
  rewrite int_base16_hex; [|lia|exact Hu].
  rewrite (proj2 (Z.leb_le _ _)), (proj2 (Z.ltb_lt _ _)) by lia. simpl. by rewrite N2Z.id.
Qed.
