(* ===== verification/Cursor.v ===== *)
(** [control_room.py], cursors: the opaque text of a pagination cursor and its validation.

    [datetime.fromisoformat] is an argument: it returns the instant and whether the text had an
    offset, [None] is its [ValueError].  Its documented law, that it reads back what [isoformat]
    renders, is a hypothesis of the round trip, for the timestamp at hand. *)
From S2P Require Import Prelude PyStr Errors Floats Json Decoding Serialization Signing Models Datetime.
From S2P Require Import Services Publishing Codecs.
From Stdlib Require Import ZArith.

(** [datetime.fromisoformat]: a naive value, or an aware one with its instant, which an offset can move
    outside the calendar. *)
Inductive iso_datetime := IsoNaive | IsoAware (instant : datetime).
Definition iso_parser : Type := pystr → option iso_datetime.

(** [json.dumps] with the default [ensure_ascii]: printable ASCII stands for itself. *)
Definition ascii_char (c : N) : pystr :=
  if (c =? 34)%N then [92%N; 34%N] else if (c =? 92)%N then [92%N; 92%N]
  else if (c =? 10)%N then lit "\n" else if (c =? 13)%N then lit "\r"
  else if (c =? 9)%N then lit "\t" else if (c =? 12)%N then lit "\f"
  else if (c =? 8)%N then lit "\b" else if in_range 32 126 c then [c]
  else if (c <? 65536)%N then hex_u c
  else hex_u (55296 + (c - 65536) / 1024)%N ++ hex_u (56320 + (c - 65536) mod 1024)%N.

Definition ascii_string (s : pystr) : pystr := [34%N] ++ concat (map ascii_char s) ++ [34%N].

(** An object with its items in insertion order, their values already rendered. *)
Definition ascii_object (items : list (pystr * pystr)) : pystr :=
  [123%N] ++ join_comma (map (λ kv, ascii_string kv.1 ++ [58%N] ++ kv.2) items) ++ [125%N].

(** ** The cursor *)

Record PageCursor := mkPageCursor {
  timestamp : datetime;
  row_id_ : UUID
}.

(** The text of a cursor, before base64. *)
Definition cursor_json (cursor : PageCursor) : pystr :=
  ascii_object
    [(lit "v", str_of_Z 1);
     (lit "timestamp", ascii_string (isoformat_naive (timestamp cursor) ++ lit "+00:00"));
     (lit "id", ascii_string (str_of_uuid (row_id_ cursor)))].

(** [encode_cursor]; the text is ASCII, so its UTF-8 form has one byte per character. *)
Definition encode_cursor (cursor : PageCursor) : pystr :=
  rstrip_p (λ c, (c =? 61)%N) (b64_encode (ascii_encode (cursor_json cursor))).

Definition invalid_cursor : exn :=
  domain_error 422 (lit "invalid_cursor") (lit "Cursor is invalid")
    (lit "The pagination cursor is malformed or uses an unsupported version.").

(** [payload.get("v") == 1]: the booleans and the floats compare with the integers. *)
Definition equals_one (v : option json) : bool :=
  match v with
  | Some (JInt z) => (z =? 1)%Z
  | Some (JBool b) => b
  | Some (JFloat x) => eqb_float x (float_of_Z 1)
  | _ => false
  end.

(** The [try] block: [None] when one of the caught exceptions was raised. *)
Definition read_cursor (fromisoformat : iso_parser) (value : pystr) : option PageCursor :=
  decoded ← urlsafe_b64decode (value ++ b64_pad value);
  text ← utf8_plain decoded;
  match json_loads text with
  | Ok (JDict payload) =>
      if negb (equals_one (dict_get payload (lit "v"))) then None
      else
        match dict_get payload (lit "timestamp"), dict_get payload (lit "id") with
        | Some (JStr timestamp_value), Some (JStr row_id_value) =>
            match fromisoformat timestamp_value with
            | Some (IsoAware timestamp) => mkPageCursor timestamp <$> uuid_of_str row_id_value
            | _ => None
            end
        | _, _ => None
        end
  | _ => None
  end.

(** [decode_cursor] *)
Definition decode_cursor (fromisoformat : iso_parser) (value : option pystr) : outcome (option PageCursor) :=
  match value with
  | None => Ok None
  | Some value =>
      match read_cursor fromisoformat value with
      | Some cursor => Ok (Some cursor)
      | None => Raise invalid_cursor
      end
  end.

(** ** The text of a cursor is read back *)

(** A character that stands for itself in a JSON string. *)
Definition plain (c : N) : Prop := (32 ≤ c ≤ 126)%N ∧ c ≠ 34%N ∧ c ≠ 92%N.

#[export] Instance plain_dec c : Decision (plain c).
Proof. unfold plain. apply _. Defined.

Lemma ascii_char_plain c : plain c → ascii_char c = [c].
Proof.
  intros (Hr & H1 & H2). unfold ascii_char, in_range.
  rewrite !(proj2 (N.eqb_neq _ _)) by lia. by rewrite !(proj2 (N.leb_le _ _)) by lia.
Qed.

Lemma ascii_string_plain s : Forall plain s → ascii_string s = [34%N] ++ s ++ [34%N].
Proof.
  intros Hs. unfold ascii_string. do 2 f_equal. induction Hs as [|c s Hc _ IH]; [done|].
  cbn [map concat]. by rewrite IH, ascii_char_plain.
Qed.

Lemma parse_string_plain fuel acc s r :
  Forall plain s → length s < fuel → parse_string fuel acc (s ++ 34%N :: r) = POk (rev acc ++ s) r.
Proof.
  intros Hs. revert fuel acc. induction Hs as [|c s (Hr & H1 & H2) _ IH]; intros [|fuel] acc Hf; try (simpl in Hf; lia).
  - simpl. by rewrite app_nil_r.
  - cbn [app parse_string]. rewrite !(proj2 (N.eqb_neq _ _)) by lia.
    rewrite (proj2 (N.ltb_ge _ _)) by lia. rewrite IH by (simpl in Hf; lia). simpl. by rewrite <- (assoc_L (++)).
Qed.

Lemma parse_value_plain fuel s r :
  Forall plain s → length s < fuel → parse_value (S fuel) (ascii_string s ++ r) = POk (JStr s) r.
Proof.
  intros Hs Hf. rewrite ascii_string_plain by done. cbn [app parse_value expect N.eqb Pos.eqb].
  rewrite <- (assoc_L (++)). cbn [app]. by rewrite parse_string_plain.
Qed.

(** One member of an object whose key is plain, up to its value. *)
Lemma parse_members_plain fuel acc k v s r last :
  Forall plain k → length k < fuel → parse_value fuel (skip_ws (s ++ [if last : bool then 125%N else 44%N] ++ r)) =
    POk v ([if last then 125%N else 44%N] ++ r) →
  parse_members (S fuel) acc (ascii_string k ++ [58%N] ++ s ++ [if last then 125%N else 44%N] ++ r) =
    if last then POk (JDict (dict_set acc k v)) r else parse_members fuel (dict_set acc k v) (skip_ws r).
Proof.
  intros Hk Hf Hv. rewrite ascii_string_plain by done. cbn [app parse_members expect N.eqb Pos.eqb].
  rewrite <- (assoc_L (++)). cbn [app]. rewrite parse_string_plain by done. cbn [rev app].
  change (skip_ws (58%N :: ?x)) with (58%N :: x). cbn [expect N.eqb Pos.eqb]. cbn [app] in Hv. rewrite Hv.
  destruct last; reflexivity.
Qed.

Lemma json_loads_cursor t i :
  Forall plain t → Forall plain i →
  json_loads (ascii_object [(lit "v", str_of_Z 1); (lit "timestamp", ascii_string t); (lit "id", ascii_string i)]) =
    Ok (JDict [(lit "v", JInt 1); (lit "timestamp", JStr t); (lit "id", JStr i)]).
Proof.
  intros Ht Hi.
  assert (Hkv : Forall plain (lit "v")) by (apply (bool_decide_unpack _); by vm_compute).
  assert (Hkt : Forall plain (lit "timestamp")) by (apply (bool_decide_unpack _); by vm_compute).
  assert (Hki : Forall plain (lit "id")) by (apply (bool_decide_unpack _); by vm_compute).
  set (m3 := ascii_string (lit "id") ++ [58%N] ++ ascii_string i).
  set (m2 := ascii_string (lit "timestamp") ++ [58%N] ++ ascii_string t).
  set (m1 := ascii_string (lit "v") ++ [58%N] ++ str_of_Z 1).
  assert (E : ascii_object [(lit "v", str_of_Z 1); (lit "timestamp", ascii_string t); (lit "id", ascii_string i)] =
    123%N :: m1 ++ [44%N] ++ m2 ++ [44%N] ++ m3 ++ [125%N] ++ []).
  { unfold ascii_object. cbn [map join_comma fst snd]. fold m1 m2 m3. by rewrite <- !(assoc_L (++)). }
  rewrite E. unfold json_loads. cbn [expect N.eqb].
  set (text := 123%N :: _). change (skip_ws text) with text.
  assert (Hlen : ∃ g, 2 * length text = S (S (S (S (S g)))) ∧ length t < g ∧ length i < g ∧ 10 < g).
  { exists (2 * length text - 5). unfold text, m1, m2, m3. cbn [length]. rewrite !length_app.
    rewrite !(ascii_string_plain t), !(ascii_string_plain i), !length_app by done.
    change (length (ascii_string (lit "v"))) with 3. change (length (ascii_string (lit "timestamp"))) with 11.
    change (length (ascii_string (lit "id"))) with 4. simpl. lia. }
  destruct Hlen as (g & -> & Hg1 & Hg2 & Hg3). unfold text at 1.
  change (parse_value (S (S (S (S (S (S g)))))) (123%N :: ?x)) with (parse_members (S (S (S (S (S g))))) [] x).
  unfold m1. rewrite <- !(assoc_L (++)).
  rewrite (parse_members_plain _ [] (lit "v") (JInt 1) (str_of_Z 1) _ false); [|done|simpl; lia|].
  2: reflexivity.
  cbn [dict_set]. change (skip_ws (m2 ++ ?x)) with (m2 ++ x). unfold m2. rewrite <- !(assoc_L (++)).
  rewrite (parse_members_plain _ _ (lit "timestamp") (JStr t) (ascii_string t) _ false); [|done|simpl; lia|].
  2: { change (skip_ws (ascii_string t ++ ?x)) with (ascii_string t ++ x). apply parse_value_plain; [done|lia]. }
  change (skip_ws (m3 ++ ?x)) with (m3 ++ x). unfold m3. rewrite <- !(assoc_L (++)).
  rewrite (parse_members_plain _ _ (lit "id") (JStr i) (ascii_string i) _ true); [|done|simpl; lia|].
  2: { change (skip_ws (ascii_string i ++ ?x)) with (ascii_string i ++ x). apply parse_value_plain; [done|lia]. }
  reflexivity.
Qed.

(** ** Round trip *)

Lemma pad_digits_plain w n : Forall plain (pad_digits w n).
Proof.
  revert n. induction w as [|w IH]; intros n; simpl; [constructor|]. apply Forall_app. split; [done|].
  apply Forall_singleton. pose proof (Z.mod_pos_bound n 10). unfold plain. lia.
Qed.

Lemma lit_plain s : bool_decide (Forall plain (lit s)) = true → Forall plain (lit s).
Proof. apply bool_decide_eq_true. Qed.

Lemma isoformat_plain t : Forall plain (isoformat_naive t ++ lit "+00:00").
Proof.
  unfold isoformat_naive. destruct (civil_from_days _) as [[y m] d].
  destruct (_ =? 0)%Z;
    repeat first [apply pad_digits_plain | apply lit_plain; by vm_compute | by constructor | apply Forall_app; split].
Qed.

Lemma uuid_plain u : Forall plain (str_of_uuid u).
Proof.
  apply str_of_uuid_Forall; [|unfold plain; lia]. eapply Forall_impl; [apply hex_digits_hexc|].
  unfold hexc, plain. lia.
Qed.

Lemma ascii_app s t : is_ascii (s ++ t) = is_ascii s && is_ascii t.
Proof. apply forallb_app. Qed.

Lemma plain_ascii s : Forall plain s → is_ascii (ascii_string s) = true.
Proof.
  intros Hs. rewrite ascii_string_plain, !ascii_app by done. rewrite andb_true_r. cbn [andb is_ascii forallb].
  apply forallb_forall. intros c Hc%list_elem_of_In. rewrite Forall_forall in Hs. specialize (Hs c Hc).
  apply N.ltb_lt. unfold plain in Hs. lia.
Qed.

Lemma cursor_json_ascii c : is_ascii (cursor_json c) = true.
Proof.
  unfold cursor_json, ascii_object. cbn [map join_comma fst snd].
  rewrite !ascii_app, !plain_ascii by (apply isoformat_plain || apply uuid_plain || (apply lit_plain; by vm_compute)). done.
Qed.

(** ... and fits into the query parameter, which the routes bound by 512 characters. *)
Lemma b64_length bs : length (b64_encode bs) ≤ 2 * length bs + 4.
Proof. induction bs as [| | |a b c bs IH] using list_ind3; cbn [b64_encode length app]; lia. Qed.

Lemma pad_digits_length w n : length (pad_digits w n) = w.
Proof. revert n. induction w as [|w IH]; intros n; simpl; [done|]. rewrite length_app, IH. simpl. lia. Qed.

Lemma isoformat_length t : length (isoformat_naive t ++ lit "+00:00") ≤ 32.
Proof.
  unfold isoformat_naive. destruct (civil_from_days _) as [[y m] d].
  destruct (_ =? 0)%Z; repeat rewrite ?length_app, ?pad_digits_length; simpl; lia.
Qed.

Lemma uuid_length u : length (str_of_uuid u) = 36.
Proof.
  unfold str_of_uuid. pose proof (hex_digits_length 32 u) as Hl.
  repeat rewrite ?length_app, ?length_take, ?length_drop, Hl. done.
Qed.

Lemma encode_cursor_length c : length (encode_cursor c) ≤ 512.
Proof.
  unfold encode_cursor, rstrip_p. rewrite length_rev. etrans; [apply drop_while_length|]. rewrite length_rev.
  etrans; [apply b64_length|]. unfold ascii_encode, cursor_json, ascii_object. rewrite length_map.
  cbn [map join_comma fst snd]. rewrite !ascii_string_plain by (apply isoformat_plain || apply uuid_plain || (apply lit_plain; by vm_compute)).
  pose proof (isoformat_length (timestamp c)). rewrite length_app in *. pose proof (uuid_length (row_id_ c)).
  repeat rewrite ?length_app. simpl. simpl in *. lia.
Qed.

Lemma cursor_roundtrip_lemma fromisoformat c :
  fromisoformat (isoformat_naive (timestamp c) ++ lit "+00:00") = Some (IsoAware (timestamp c)) →
  (row_id_ c < 2 ^ 128)%N →
  decode_cursor fromisoformat (Some (encode_cursor c)) = Ok (Some c).
Proof.
  intros Hiso Hid. unfold decode_cursor, read_cursor, encode_cursor.
  rewrite b64_repad. cbn [mbind option_bind]. unfold utf8_plain.
  rewrite utf8_decode_ascii by apply cursor_json_ascii. cbn [mbind option_bind].
  unfold cursor_json. rewrite json_loads_cursor by (apply isoformat_plain || apply uuid_plain).
  change (equals_one (dict_get _ (lit "v"))) with true. cbn [negb].
  change (dict_get _ (lit "timestamp")) with (Some (JStr (isoformat_naive (timestamp c) ++ lit "+00:00"))).
  change (dict_get _ (lit "id")) with (Some (JStr (str_of_uuid (row_id_ c)))). cbv beta iota.
  rewrite Hiso, uuid_of_str_of_uuid by done. by destruct c.
Qed.

(** C28: A cursor survives its trip through the client: what [encode_cursor] renders (URL-safe base64 of a
    JSON object, without padding) is decoded by [decode_cursor] to the same timestamp and row id, given
    that [datetime.fromisoformat] reads the rendered timestamp back; and it fits into the 512
    characters the routes accept. *)
Theorem cursor_roundtrip fromisoformat c :
  fromisoformat (isoformat_naive (timestamp c) ++ lit "+00:00") = Some (IsoAware (timestamp c)) →
  (row_id_ c < 2 ^ 128)%N →
  decode_cursor fromisoformat (Some (encode_cursor c)) = Ok (Some c) ∧ length (encode_cursor c) ≤ 512.
Proof. intros Hiso Hid. split; [by apply cursor_roundtrip_lemma|apply encode_cursor_length]. Qed.

(** The law of [datetime.fromisoformat] on the timestamps a page can end with, which are datetimes in UTC. *)
Definition reads_back (fromisoformat : iso_parser) (t : datetime) : Prop :=
  in_calendar t = true ∧ fromisoformat (isoformat_naive t ++ lit "+00:00") = Some (IsoAware t).

(** A parser that knows the texts of some timestamps, an instance of the argument. *)
Definition known_timestamps (ts : list datetime) : iso_parser := λ s,
  IsoAware <$> List.find (λ t, eqb_str (isoformat_naive t ++ lit "+00:00") s) ts.

Definition lab_cursor : PageCursor := mkPageCursor 1709210096000789 0x123e4567e89b12d3a456426614174000.

Lemma cursor_roundtrip_witness :
  decode_cursor (known_timestamps [1709210096000789%Z]) (Some (encode_cursor lab_cursor)) = Ok (Some lab_cursor).
Proof. apply (cursor_roundtrip (known_timestamps [1709210096000789%Z]) lab_cursor); by vm_compute. Defined.
