(* ===== verification/Paging.v ===== *)
(** Keyset pagination: the queries of the Control Room order their rows by a descending key,
    skip those not below the cursor, and fetch one row more than the page shows to know
    whether another page follows.

    The section is generic in the rows and the key.  Its result is that the pages, chained by
    their last keys, are the ordered rows cut into pieces. *)
From S2P Require Import Prelude.
From Stdlib Require Import ZArith.

Lemma NoDup_fmap_inj_on {A B} (f : A → B) (l : list A) x y : NoDup (f <$> l) → x ∈ l → y ∈ l → f x = f y → x = y.
Proof.
  induction l as [|z l IH]; [by intros _ ?%elem_of_nil|]. rewrite fmap_cons, NoDup_cons, !elem_of_cons.
  intros [Hz Hl] [->|Hx] [->|Hy] E; [done| | |by apply IH];
    exfalso; apply Hz; [rewrite E|rewrite <- E]; by apply list_elem_of_fmap_2.
Qed.

Lemma StronglySorted_filter {B} (R : relation B) (P : B → Prop) `{!∀ x, Decision (P x)} l :
  StronglySorted R l → StronglySorted R (filter P l).
Proof.
  induction 1 as [|x l Hl IH Hx]; [constructor|]. rewrite filter_cons. destruct (decide (P x)); [|done].
  constructor; [done|]. apply Forall_forall. intros y [_ Hy]%list_elem_of_filter.
  by apply (proj1 (Forall_forall _ _) Hx).
Qed.

Section keyset.
Context {A : Type} (key : A → sort_key).

(** [order_by(column.desc(), id.desc())] *)
Definition key_ge (a b : sort_key) : Prop := key_le b a.

#[export] Instance key_ge_dec : RelDecision key_ge.
Proof. intros a b. unfold key_ge. apply _. Defined.

(** [or_(column < timestamp, and_(column == timestamp, id < row_id))], when there is a cursor *)
Definition below (cursor : option sort_key) (row : A) : Prop :=
  match cursor with None => True | Some k => key_lt (key row) k end.

#[export] Instance below_dec cursor row : Decision (below cursor row).
Proof. unfold below. destruct cursor; apply _. Defined.

(** The statement: [where(...).order_by(...).limit(limit + 1)] *)
Definition fetch (limit : nat) (cursor : option sort_key) (rows : list A) : list A :=
  take (limit + 1) (order_by key_ge key (filter (below cursor) rows)).

(** The page: [rows[:limit]], and the key of its last row when there are more rows. *)
Definition page (limit : nat) (cursor : option sort_key) (rows : list A) : list A * option sort_key :=
  let rows := fetch limit cursor rows in
  let visible := take limit rows in
  (visible,
   if (limit <? length rows)%nat then key <$> last visible else None).

(** Following the cursors, for at most [fuel] pages. *)
Fixpoint pages (fuel : nat) (limit : nat) (cursor : option sort_key) (rows : list A)
  : list (list A * option sort_key) :=
  match fuel with
  | O => []
  | S fuel =>
      let p := page limit cursor rows in
      p :: match p.2 with None => [] | Some k => pages fuel limit (Some k) rows end
  end.

(** ** Order *)

#[local] Instance key_ge_trans : Transitive key_ge.
Proof. intros a b c Hab Hbc. unfold key_ge in *. by transitivity b. Qed.

#[local] Instance key_ge_total : Total key_ge.
Proof. intros a b. unfold key_ge. destruct (total key_le a b); auto. Qed.

Definition sorted (rows : list A) : list A := order_by key_ge key rows.

Lemma sorted_perm rows : sorted rows ≡ₚ rows.
Proof. apply order_by_perm. Qed.

Lemma sorted_strongly rows : StronglySorted (key_rel key_ge key) (sorted rows).
Proof. apply order_by_sorted; apply _. Qed.

(** With distinct keys the order is strict. *)
Lemma sorted_strict rows : NoDup (key <$> rows) → StronglySorted (λ a b, key_lt (key b) (key a)) (sorted rows).
Proof.
  intros Hnd. pose proof (sorted_strongly rows) as Hs. rewrite <- (sorted_perm rows) in Hnd.
  induction Hs as [|x l Hl IH Hx]; [constructor|]. rewrite fmap_cons in Hnd. apply NoDup_cons in Hnd as [Hni Hnd].
  constructor; [by apply IH|]. rewrite Forall_forall in Hx |- *. intros y Hy. apply key_lt_le.
  split; [by apply Hx|]. intros E. apply Hni. rewrite <- E. by apply list_elem_of_fmap_2.
Qed.

(** Ordering commutes with filtering, when the keys are distinct. *)
Lemma sorted_filter (P : A → Prop) `{!∀ x, Decision (P x)} rows :
  NoDup (key <$> rows) → sorted (filter P rows) = filter P (sorted rows).
Proof.
  intros Hnd. apply (StronglySorted_unique_strong (key_rel key_ge key)).
  - intros x y Hx Hy Hxy Hyx. assert (Hk : key x = key y).
    { unfold key_rel, key_ge in *. by apply (anti_symm key_le). }
    rewrite sorted_perm in Hx. apply list_elem_of_filter in Hx as [_ Hx].
    apply list_elem_of_filter in Hy as [_ Hy]. rewrite sorted_perm in Hy.
    by apply (NoDup_fmap_inj_on key rows).
  - apply sorted_strongly.
  - apply StronglySorted_filter, sorted_strongly.
  - by rewrite !sorted_perm.
Qed.

(** What is below the last row of a prefix is the rest. *)
Lemma below_suffix pre x rest :
  NoDup (key <$> pre ++ x :: rest) → StronglySorted (key_rel key_ge key) (pre ++ x :: rest) →
  filter (below (Some (key x))) (pre ++ x :: rest) = rest.
Proof.
  intros Hnd Hs.
  assert (Hpre : ∀ y, y ∈ pre → ¬ key_lt (key y) (key x)).
  { intros y Hy. apply key_le_not_lt.
    apply (StronglySorted_app_1_elem_of (key_rel key_ge key) pre (x :: rest) y x Hs); [done|left]. }
  assert (Hrest : ∀ y, y ∈ rest → key_lt (key y) (key x)).
  { intros y Hy. apply key_lt_le. rewrite fmap_app, fmap_cons in Hnd. apply NoDup_app in Hnd as (_ & _ & Hnd).
    apply NoDup_cons in Hnd as [Hni _]. split.
    - apply StronglySorted_app_1_r in Hs. inversion Hs as [|? ? _ Hall]; subst.
      by apply (proj1 (Forall_forall _ _) Hall) in Hy.
    - intros E. apply Hni. rewrite <- E. by apply list_elem_of_fmap_2. }
  rewrite filter_app, filter_cons_False by apply key_lt_irrefl.
  rewrite filter_none by done. by apply filter_all.
Qed.

Lemma page_rest limit cursor rows rest :
  NoDup (key <$> rows) → filter (below cursor) (sorted rows) = rest →
  page limit cursor rows =
    (take limit rest, if (limit <? length rest)%nat then key <$> last (take limit rest) else None).
Proof.
  intros Hnd Hrest. unfold page, fetch. fold (sorted (filter (below cursor) rows)).
  rewrite sorted_filter, Hrest by done. rewrite take_take, length_take.
  replace (limit `min` (limit + 1)) with limit by lia. f_equal.
  destruct (Nat.ltb_spec limit (length rest)), (Nat.ltb_spec limit ((limit + 1) `min` length rest)); done || lia.
Qed.

(** The pages from a cursor on. *)
Lemma pages_rest fuel limit cursor rows pre rest :
  NoDup (key <$> rows) → 0 < limit → length rest < fuel →
  sorted rows = pre ++ rest → filter (below cursor) (sorted rows) = rest →
  let ps := pages fuel limit cursor rows in
  concat ps.*1 = rest ∧ Forall (λ p, length p.1 ≤ limit) ps ∧
  Forall (λ p, p.2 = None ∨ length p.1 = limit) ps ∧ snd <$> last ps = Some None.
Proof.
  intros Hnd Hlimit. cbn zeta. revert cursor pre rest.
  induction fuel as [|fuel IH]; intros cursor pre rest Hf Hs Hrest; [lia|]. cbn [pages].
  rewrite (page_rest limit cursor rows rest) by done. cbn [fst snd].
  destruct (Nat.ltb_spec limit (length rest)) as [Hmore|Hend].
  - destruct (last (take limit rest)) as [x|] eqn:Hl.
    2: { apply last_None in Hl. apply (f_equal length) in Hl. rewrite length_take in Hl. simpl in Hl. lia. }
    cbn [fmap option_fmap option_map]. apply last_Some in Hl as [init Hinit].
    assert (Hsplit : rest = init ++ x :: drop limit rest).
    { rewrite <- (take_drop limit rest) at 1. rewrite Hinit. by rewrite <- (assoc_L (++)). }
    assert (Hs' : sorted rows = (pre ++ init) ++ x :: drop limit rest)
      by (rewrite Hs, Hsplit at 1; by rewrite (assoc_L (++))).
    destruct (IH (Some (key x)) ((pre ++ init) ++ [x]) (drop limit rest)) as (H1 & H2 & H3 & H4).
    + rewrite length_drop. lia.
    + rewrite Hs' at 1. by rewrite <- (assoc_L (++) (pre ++ init)).
    + rewrite Hs' at 1. apply below_suffix; rewrite <- Hs'; [|apply sorted_strongly].
      by rewrite sorted_perm.
    + split_and!.
      * rewrite fmap_cons. cbn [concat fst]. rewrite H1. apply take_drop.
      * constructor; [|done]. cbn [fst]. rewrite length_take. lia.
      * constructor; [|done]. right. cbn [fst]. rewrite length_take. lia.
      * rewrite last_cons. destruct (last (pages _ _ _ _)); done.
  - rewrite (take_ge rest) by lia. split_and!; [by rewrite fmap_cons; simpl; rewrite app_nil_r| | |done];
      repeat constructor; cbn [fst snd]; auto.
Qed.

(** Following the cursors from the first page on shows every row once, in order; only the last
    page may be short, and it has no cursor. *)
Lemma pages_all fuel limit rows :
  NoDup (key <$> rows) → 0 < limit → length rows < fuel →
  let ps := pages fuel limit None rows in
  concat ps.*1 = sorted rows ∧ Forall (λ p, length p.1 ≤ limit) ps ∧
  Forall (λ p, p.2 = None ∨ length p.1 = limit) ps ∧ snd <$> last ps = Some None.
Proof.
  intros Hnd Hlimit Hf. apply (pages_rest fuel limit None rows []); [done..| |done|].
  - by rewrite sorted_perm.
  - by apply filter_all.
Qed.
End keyset.
