(* ===== verification/Listings.v ===== *)
(** What the Control Room shows: the rows of its lists on a database that satisfies the
    invariant, the lists its pages put together, and the arithmetic of the overview. *)
From S2P Require Import Prelude PyStr Errors Json StateMachine Models Datetime Database Repositories Invariant.
From S2P Require Import Generations Services Replaying Fixtures Publishing Codecs Cursor Paging ControlRoom.
From Stdlib Require Import ZArith.

Import ControlRoomRepository.

Lemma NoDup_omap {A B} (f : A → option B) (l : list A) :
  NoDup l → (∀ x y z, x ∈ l → y ∈ l → f x = Some z → f y = Some z → x = y) → NoDup (omap f l).
Proof.
  induction 1 as [|x l Hx Hl IH]; intros Hf; [constructor|]. simpl.
  assert (IH' : NoDup (omap f l)) by (apply IH; intros y z w Hy Hz; apply Hf; by right).
  destruct (f x) as [z|] eqn:E; [|done]. constructor; [|done].
  intros (y & Hy & Ey)%list_elem_of_omap. apply Hx. by rewrite (Hf x y z ltac:(left) ltac:(by right) E Ey).
Qed.

(** ** Rows *)

Section rows.
Context (db : Db) (Hinv : inv db).
Let Hok : db_ok db := inv_ok db Hinv.

Lemma latest_condition d : _latest_generation_condition db d ↔ latest db d.
Proof.
  unfold _latest_generation_condition, latest, DeliveryRepository.in_chain. split.
  - intros H k d' Hd' [E1 E2]. specialize (H k d' Hd'). simpl in H.
    destruct (Z.le_gt_cases (Delivery.replay_generation d') (Delivery.replay_generation d)); [done|].
    exfalso. apply H. done.
  - intros H k d' Hd' (E1 & E2 & Hlt). specialize (H k d' Hd' ltac:(by split)). lia.
Qed.

Lemma elem_of_latest d : d ∈ latest_deliveries db ↔ deliveries db !! Delivery.id d = Some d ∧ latest db d.
Proof.
  unfold latest_deliveries. rewrite elem_of_select, latest_condition. split.
  - intros [Hl [k Hk]]. by rewrite (delivery_id_of db Hok k d Hk).
  - intros [Hd Hl]. eauto.
Qed.

Lemma latest_NoDup : NoDup (latest_deliveries db).
Proof. apply select_NoDup, Hok. Qed.

(** Exactly one delivery of an event is a latest one. *)
Lemma one_latest k e :
  events db !! k = Some e → ∃ d, d ∈ latest_deliveries db ∧ Delivery.event_id d = Event.id e.
Proof.
  intros He. destruct (inv_event db Hinv k e He) as [(d & Hd & Ee & _) _ _].
  destruct (latest_reads db Hinv _ d Hd) as (o & _ & l & -> & Hl & Hlat & [E1 _] & _).
  exists l. split; [by apply elem_of_latest|congruence].
Qed.

Lemma latest_event_unique d d' :
  d ∈ latest_deliveries db → d' ∈ latest_deliveries db → Delivery.event_id d = Delivery.event_id d' → d = d'.
Proof.
  rewrite !elem_of_latest. intros [Hd Hl] [Hd' Hl'] E.
  destruct (ok_delivery_event db Hok _ d Hd) as [e He]. pose proof (event_id_of db Hok _ e He) as Ee.
  destruct (inv_event db Hinv _ e He) as [_ Hep _].
  apply (latest_unique db); try done. split; [done|]. eapply Hep; [exact Hd'|exact Hd|congruence..].
Qed.

(** Every latest delivery has its row. *)
Lemma event_row_Some d :
  d ∈ latest_deliveries db → ∃ event endpoint, events db !! Delivery.event_id d = Some event ∧
    endpoints db !! Delivery.endpoint_id d = Some endpoint.
Proof.
  intros [Hd _]%elem_of_latest. destruct (ok_delivery_event db Hok _ d Hd) as [e He].
  destruct (ok_delivery_endpoint db Hok _ d Hd) as [ep Hep]. eauto.
Qed.

(** *** Events *)

Lemma elem_of_event_rows et ep st r :
  r ∈ event_rows et ep st db ↔
    el_latest_delivery r ∈ latest_deliveries db ∧
    events db !! Delivery.event_id (el_latest_delivery r) = Some (el_event r) ∧
    endpoints db !! Delivery.endpoint_id (el_latest_delivery r) = Some (el_endpoint r) ∧
    given et (Event.event_type (el_event r)) ∧ given ep (Delivery.endpoint_id (el_latest_delivery r)) ∧
    given st (Delivery.status (el_latest_delivery r)).
Proof.
  unfold event_rows. rewrite list_elem_of_filter, list_elem_of_omap. split.
  - intros [Hf (d & Hd & E)]. unfold event_row in E.
    destruct (events db !! _) as [e|] eqn:Ee; [|done]. destruct (endpoints db !! _) as [p|] eqn:Ep; [|done].
    injection E as <-. cbn [el_event el_latest_delivery el_endpoint] in *. tauto.
  - intros (Hd & Ee & Ep & Hf). split; [done|]. exists (el_latest_delivery r). split; [done|].
    unfold event_row. rewrite Ee. cbn. rewrite Ep. cbn. by destruct r.
Qed.

Lemma event_rows_events et ep st : NoDup ((λ r, Event.id (el_event r)) <$> event_rows et ep st db).
Proof.
  assert (Hrow : ∀ d r, event_row db d = Some r → el_latest_delivery r = d).
  { intros d r. unfold event_row. destruct (events db !! _); [|done]. destruct (endpoints db !! _); [|done].
    by intros [= <-]. }
  apply NoDup_fmap_2_strong.
  - intros r r' (Hd & Ee & Ep & _)%elem_of_event_rows (Hd' & Ee' & Ep' & _)%elem_of_event_rows E.
    apply (event_id_of db Hok) in Ee as Hi, Ee' as Hi'.
    assert (El : el_latest_delivery r = el_latest_delivery r') by (apply latest_event_unique; congruence).
    destruct r, r'. cbn in *. subst. congruence.
  - apply NoDup_filter, NoDup_omap; [apply latest_NoDup|]. intros d d' r _ _ <-%Hrow <-%Hrow. done.
Qed.

Lemma NoDup_key {A} (f : A → UUID) (t : A → datetime) (l : list A) :
  NoDup (f <$> l) → NoDup ((λ x, (t x, f x)) <$> l).
Proof.
  intros Hnd. apply NoDup_fmap_2_strong; [|by eapply NoDup_fmap_1].
  intros x y Hx Hy [= _ E]. by apply (NoDup_fmap_inj_on f l).
Qed.

Lemma event_rows_keys et ep st : NoDup (event_key <$> event_rows et ep st db).
Proof. apply (NoDup_key (λ r, Event.id (el_event r))), event_rows_events. Qed.

(** *** Endpoints *)

Lemma elem_of_endpoint_rows e : e ∈ endpoint_rows db ↔ endpoints db !! Endpoint.id e = Some e.
Proof.
  unfold endpoint_rows. rewrite list_elem_of_fmap. split.
  - intros ([k e'] & -> & Hin%elem_of_map_to_list). simpl in *. by rewrite (endpoint_id_of db Hok k e' Hin).
  - intros He. exists (Endpoint.id e, e). split; [done|]. by apply elem_of_map_to_list.
Qed.

Lemma endpoint_rows_keys : NoDup (endpoint_key <$> endpoint_rows db).
Proof.
  apply (NoDup_key Endpoint.id). unfold endpoint_rows.
  assert (E : Endpoint.id <$> (map_to_list (endpoints db)).*2 = (map_to_list (endpoints db)).*1).
  { rewrite <- list_fmap_compose. apply list_fmap_ext. intros i [k e] Hi%list_elem_of_lookup_2%elem_of_map_to_list.
    by apply (endpoint_id_of db Hok). }
  rewrite E. apply NoDup_fst_map_to_list.
Qed.

(** *** Dead letters *)

(** The evidence of a row is that of the last attempt, the one replay looks at. *)
Lemma last_attempt_rows k : last_attempt db k = last (DeliveryRepository.attempt_rows db k).
Proof.
  unfold last_attempt. set (sel := select _ _).
  assert (Hsel : ∀ a, a ∈ DeliveryRepository.attempt_rows db k ↔ a ∈ sel).
  { intros a. unfold DeliveryRepository.attempt_rows. by rewrite elem_of_order_by. }
  destruct (last _) as [a|] eqn:El.
  - apply last_attempt_row in El as (Hd & Ha & Hmax); [|done..].
    destruct (order_by key_le _ sel) as [|b l] eqn:Eb.
    + exfalso. assert (Hin : a ∈ sel) by (apply elem_of_select; eauto).
      rewrite <- (elem_of_order_by key_le (λ a, (- DeliveryAttempt.attempt_number a, 0%N)%Z)), Eb in Hin.
      by apply elem_of_nil in Hin.
    + apply order_by_head_min in Eb as [Hb Hmin]; [|apply _..]. simpl. f_equal.
      assert (Hbn : (DeliveryAttempt.attempt_number b ≤ DeliveryAttempt.attempt_number a)%Z) by by apply Hmax, Hsel.
      destruct (Hmin a) as [->|Hle]; [apply elem_of_select; eauto|done|].
      apply elem_of_select in Hb as [Hbd [kb Hb]]. rewrite <- (attempt_id_of db Hok kb b Hb) in Hb.
      apply (attempt_of_unique db Hok k (DeliveryAttempt.attempt_number b)); [by split|].
      split_and!; [done|done|]. unfold key_le in Hle. simpl in Hle. lia.
  - apply last_None in El. destruct (order_by key_le _ sel) as [|b l] eqn:Eb; [done|].
    exfalso. assert (Hin : b ∈ sel).
    { apply (elem_of_order_by key_le (λ a, (- DeliveryAttempt.attempt_number a, 0%N)%Z)). rewrite Eb. left. }
    apply Hsel in Hin. rewrite El in Hin. by apply elem_of_nil in Hin.
Qed.

Lemma elem_of_with_status s rows d : d ∈ with_status s rows ↔ Delivery.status d = s ∧ d ∈ rows.
Proof. unfold with_status. by rewrite list_elem_of_filter. Qed.

Lemma elem_of_dead_letter_rows ep r :
  r ∈ dead_letter_rows ep db ↔
    dl_delivery r ∈ latest_deliveries db ∧ Delivery.status (dl_delivery r) = DEAD_LETTERED ∧
    events db !! Delivery.event_id (dl_delivery r) = Some (dl_event r) ∧
    endpoints db !! Delivery.endpoint_id (dl_delivery r) = Some (dl_endpoint r) ∧
    (let a := last (DeliveryRepository.attempt_rows db (Delivery.id (dl_delivery r))) in
     dl_last_http_status_code r = a ≫= DeliveryAttempt.http_status_code ∧
     dl_last_response_body_excerpt r = a ≫= DeliveryAttempt.response_body_excerpt) ∧
    given ep (Delivery.endpoint_id (dl_delivery r)).
Proof.
  unfold dead_letter_rows. rewrite list_elem_of_filter, list_elem_of_omap. setoid_rewrite elem_of_with_status.
  setoid_rewrite <- last_attempt_rows. split.
  - intros [Hf (d & [Hs Hd] & E)]. unfold dead_letter_row in E.
    destruct (events db !! _) as [e|] eqn:Ee; [|done]. destruct (endpoints db !! _) as [p|] eqn:Ep; [|done].
    injection E as <-. cbn [dl_event dl_delivery dl_endpoint dl_last_http_status_code dl_last_response_body_excerpt] in *.
    tauto.
  - intros (Hd & Hs & Ee & Ep & [E1 E2] & Hf). split; [done|]. exists (dl_delivery r). split; [done|].
    unfold dead_letter_row. rewrite Ee. cbn. rewrite Ep. cbn. rewrite <- E1, <- E2. by destruct r.
Qed.

Lemma dead_letter_rows_keys ep : NoDup (dead_letter_key <$> dead_letter_rows ep db).
Proof.
  assert (Hrow : ∀ d r, dead_letter_row db d = Some r → dl_delivery r = d).
  { intros d r. unfold dead_letter_row. destruct (events db !! _); [|done]. destruct (endpoints db !! _); [|done].
    by intros [= <-]. }
  apply (NoDup_key (λ r, Delivery.id (dl_delivery r))), NoDup_fmap_2_strong.
  - intros r r' (Hd & _ & Ee & Ep & [E1 E2] & _)%elem_of_dead_letter_rows
      (Hd' & _ & Ee' & Ep' & [E1' E2'] & _)%elem_of_dead_letter_rows E.
    apply elem_of_latest in Hd as [Hd _], Hd' as [Hd' _]. rewrite E in Hd.
    destruct r, r'. cbn in *. simplify_eq. done.
  - apply NoDup_filter, NoDup_omap; [apply NoDup_filter, latest_NoDup|].
    intros d d' r _ _ <-%Hrow <-%Hrow. done.
Qed.
End rows.

(** ** The overview *)

Definition total (counts : list (DeliveryStatus * nat)) : nat := sum_list counts.*2.

Lemma status_rows_elem rows s n :
  (s, n) ∈ status_rows rows ↔ n = length (with_status s rows) ∧ n ≠ 0.
Proof.
  unfold status_rows. rewrite list_elem_of_omap. split.
  - intros (s' & _ & E). destruct (length (with_status s' rows)) as [|m] eqn:Em; [done|]. simplify_eq. lia.
  - intros [-> Hn]. exists s. split; [destruct s; set_solver|]. by destruct (length _).
Qed.

Lemma status_rows_keys rows : NoDup (status_rows rows).*1.
Proof.
  assert (Hs : (status_rows rows).*1 `sublist_of` all_statuses).
  { unfold status_rows. induction all_statuses as [|s l IH]; [done|]. simpl.
    destruct (length _); [by apply sublist_cons|]. rewrite fmap_cons. by apply sublist_skip. }
  eapply sublist_NoDup; [|exact Hs]. by apply (bool_decide_unpack _).
Qed.

Lemma status_rows_total rows : total (status_rows rows) = length rows.
Proof.
  assert (E : total (status_rows rows) = sum_list ((λ s, length (with_status s rows)) <$> all_statuses)).
  { unfold total, status_rows. induction all_statuses as [|s l IH]; [done|]. simpl.
    destruct (length (with_status s rows)) eqn:El; [exact IH|]. simpl. do 2 f_equal. exact IH. }
  rewrite E. clear E. unfold with_status. induction rows as [|d rows IH]; [done|].
  cbn [length]. rewrite <- IH. clear IH. simpl. rewrite !filter_cons.
  destruct (Delivery.status d); simpl; lia.
Qed.

(** The latest deliveries are as many as the events. *)
Lemma latest_count db : inv db → length (latest_deliveries db) = size (events db).
Proof.
  intros Hinv. rewrite <- (length_fmap Delivery.event_id), <- length_map_to_list, <- (length_fmap fst).
  apply Permutation_length, NoDup_Permutation.
  - apply NoDup_fmap_2_strong; [|by apply latest_NoDup]. intros d d'. by apply latest_event_unique.
  - apply NoDup_fst_map_to_list.
  - intros k. rewrite !list_elem_of_fmap. split.
    + intros (d & -> & Hd). destruct (event_row_Some db Hinv d Hd) as (e & _ & He & _).
      exists (Delivery.event_id d, e). split; [done|]. by apply elem_of_map_to_list.
    + intros ([k' e] & -> & He%elem_of_map_to_list). simpl in *.
      destruct (one_latest db Hinv k' e He) as (d & Hd & E). exists d. split; [|done].
      by rewrite E, (event_id_of db (inv_ok db Hinv) k' e He).
Qed.

(** ** Properties *)

(** C27: The overview is consistent: it changes nothing, counts every event and endpoint, its counts by
    status are those of the latest generations (a status is listed once, and exactly when it occurs),
    they add up to the number of events, and the actionable dead letters are the latest generations
    that are dead-lettered. *)
Theorem overview_consistent now db :
  inv db →
  ∃ o, overview now db = Ok (o, db) ∧
    events_total o = size (events db) ∧ endpoints_total o = size (endpoints db) ∧
    endpoints_enabled o ≤ endpoints_total o ∧
    NoDup (deliveries_by_status o).*1 ∧
    (∀ s n, (s, n) ∈ deliveries_by_status o ↔
       n ≠ 0 ∧ n = length (filter (λ d, Delivery.status d = s ∧ latest db d) (map_to_list (deliveries db)).*2)) ∧
    total (deliveries_by_status o) = events_total o ∧
    (∀ n, (DEAD_LETTERED, n) ∈ deliveries_by_status o ↔ n ≠ 0 ∧ n = actionable_dead_letters o).
Proof.
  intros Hinv. eexists. split; [done|].
  cbn [events_total endpoints_total endpoints_enabled deliveries_by_status actionable_dead_letters].
  split_and!; [done|done| |apply status_rows_keys| |by rewrite status_rows_total, latest_count|].
  - unfold select. rewrite <- length_map_to_list, <- (length_fmap snd). apply length_filter.
  - intros s n. rewrite status_rows_elem.
    assert (E : with_status s (latest_deliveries db) =
      filter (λ d, Delivery.status d = s ∧ latest db d) (map_to_list (deliveries db)).*2); [|rewrite E; tauto].
    unfold with_status, latest_deliveries, select. rewrite list_filter_filter. apply list_filter_iff.
    intros d. by rewrite latest_condition.
  - intros n. rewrite status_rows_elem. tauto.
Qed.

(** A filter the driver can bind does not change what a page shows. *)
Lemma events_page_run fromisoformat limit et ep st cursor db :
  nullable text et = true →
  ControlRoomQueryService.events_page fromisoformat limit et ep st cursor db =
    (c ← lift (decode_cursor fromisoformat cursor); _ ← bind_cursor c;
     query (λ db, paged event_key limit c (event_rows et ep st db))) db.
Proof.
  intros Het. unfold ControlRoomQueryService.events_page, list_events, bind_text. by rewrite Het.
Qed.

(** C26: The event list is complete and duplicate-free: following the cursors of [events] from the first page
    ends, and the pages together show, newest first, exactly the events that match the filters, each
    once, with its latest delivery and that delivery's endpoint; only the last page can be short.
    The one exception is an event type with a NUL character, for which the driver raises. *)
Theorem events_listed fromisoformat limit et ep st db :
  inv db → 0 < limit → readable fromisoformat event_key (event_rows et ep st db) →
  if nullable text et then
    ∃ ps, follow (S (length (event_rows et ep st db)))
            (ControlRoomQueryService.events_page fromisoformat limit et ep st) None db = Ok (ps, db) ∧
      listing event_key limit (event_rows et ep st db) ps ∧
      NoDup ((λ r, Event.id (el_event r)) <$> mjoin (items <$> ps)) ∧
      (∀ k e d p, events db !! k = Some e → deliveries db !! Delivery.id d = Some d → Delivery.event_id d = k →
         latest db d → endpoints db !! Delivery.endpoint_id d = Some p →
         given et (Event.event_type e) ∧ given ep (Delivery.endpoint_id d) ∧ given st (Delivery.status d) ↔
         mkEventListRecord e d p ∈ mjoin (items <$> ps))
  else
    ∃ msg, ControlRoomQueryService.events_page fromisoformat limit et ep st None db = Raise (DataErr msg).
Proof.
  intros Hinv Hlimit Hr. destruct (nullable text et) eqn:Het.
  2: { eexists. unfold ControlRoomQueryService.events_page, list_events, bind_text. by rewrite Het. }
  destruct (follow_listing event_key fromisoformat limit (event_rows et ep st)
              (ControlRoomQueryService.events_page fromisoformat limit et ep st)
              (λ cursor db, events_page_run fromisoformat limit et ep st cursor db Het) db Hlimit
              (event_rows_keys db Hinv et ep st) Hr) as (ps & Hps & Hl).
  exists ps. split_and!; [done|done| |].
  - rewrite (ls_rows _ _ _ _ Hl). by apply event_rows_events.
  - intros k e d p He Hd <- Hlat Hp. rewrite (ls_rows _ _ _ _ Hl), elem_of_event_rows by done.
    rewrite elem_of_latest by done. cbn. tauto.
Qed.

(** The endpoint list is complete and duplicate-free: the pages together are all endpoints, newest first. *)
Theorem endpoints_listed fromisoformat limit db :
  inv db → 0 < limit → readable fromisoformat endpoint_key (endpoint_rows db) →
  ∃ ps, follow (S (length (endpoint_rows db)))
          (ControlRoomQueryService.endpoints_page fromisoformat limit) None db = Ok (ps, db) ∧
    listing endpoint_key limit (endpoint_rows db) ps ∧
    (∀ e, e ∈ mjoin (items <$> ps) ↔ endpoints db !! Endpoint.id e = Some e).
Proof.
  intros Hinv Hlimit Hr.
  destruct (follow_listing endpoint_key fromisoformat limit endpoint_rows
              (ControlRoomQueryService.endpoints_page fromisoformat limit) (λ _ _, eq_refl) db Hlimit
              (endpoint_rows_keys db Hinv) Hr) as (ps & Hps & Hl).
  exists ps. split_and!; [done|done|]. intros e. rewrite (ls_rows _ _ _ _ Hl). by apply elem_of_endpoint_rows.
Qed.

(** C25: The dead-letter list is complete and duplicate-free: the pages together show exactly the latest
    generations that are dead-lettered (of the endpoint asked for), each once and the last changed
    first, with the evidence of the attempt [replay] decides by. *)
Theorem dead_letters_listed fromisoformat limit ep db :
  inv db → 0 < limit → readable fromisoformat dead_letter_key (dead_letter_rows ep db) →
  ∃ ps, follow (S (length (dead_letter_rows ep db)))
          (ControlRoomQueryService.dead_letters fromisoformat limit ep) None db = Ok (ps, db) ∧
    listing dead_letter_key limit (dead_letter_rows ep db) ps ∧
    (∀ d, (∃ r, r ∈ mjoin (items <$> ps) ∧ dl_delivery r = d) ↔
       deliveries db !! Delivery.id d = Some d ∧ latest db d ∧ Delivery.status d = DEAD_LETTERED ∧
       given ep (Delivery.endpoint_id d)) ∧
    (∀ r, r ∈ mjoin (items <$> ps) →
       let a := last (DeliveryRepository.attempt_rows db (Delivery.id (dl_delivery r))) in
       dl_last_http_status_code r = a ≫= DeliveryAttempt.http_status_code ∧
       dl_last_response_body_excerpt r = a ≫= DeliveryAttempt.response_body_excerpt).
Proof.
  intros Hinv Hlimit Hr.
  destruct (follow_listing dead_letter_key fromisoformat limit (dead_letter_rows ep)
              (ControlRoomQueryService.dead_letters fromisoformat limit ep) (λ _ _, eq_refl) db Hlimit
              (dead_letter_rows_keys db Hinv ep) Hr) as (ps & Hps & Hl).
  exists ps. split_and!; [done|done| |].
  - intros d. setoid_rewrite (ls_rows _ _ _ _ Hl). setoid_rewrite elem_of_dead_letter_rows; [|done]. split.
    + intros (r & (Hd & Hs & _ & _ & _ & Hg) & <-). apply elem_of_latest in Hd as [Hd Hlat]; [|done]. done.
    + intros (Hd & Hlat & Hs & Hg). assert (Hin : d ∈ latest_deliveries db) by by apply elem_of_latest.
      destruct (event_row_Some db Hinv d Hin) as (e & p & He & Hp).
      eexists (mkDeadLetterRecord e d p _ _). cbn. split_and!; done.
  - intros r. rewrite (ls_rows _ _ _ _ Hl), elem_of_dead_letter_rows by done. tauto.
Qed.
