(* ===== verification/Schemas.v ===== *)
(** [schemas.py]: the request contracts with their validators, and the response bodies.

    A request body arrives as the JSON value the framework parsed.  [model_validate] returns
    [None] where pydantic answers 422: a key that is not a field ([extra="forbid"]), a missing
    field, a value of another type, a bound or a pattern that does not hold.  Pydantic's parser of
    UUID text is an argument. *)
From S2P Require Import Prelude PyStr Errors Json Retry StateMachine Models Services.
From Stdlib Require Import ZArith.

(** [extra="forbid"] *)
Definition only_fields (fields : list pystr) (body : list (pystr * json)) : bool :=
  forallb (λ item, str_in item.1 fields) body.

(** A [str] field with [min_length] and [max_length]. *)
Definition str_field (min_length max_length : nat) (value : json) : option pystr :=
  match value with
  | JStr s => if bool_decide (min_length ≤ length s ≤ max_length) then Some s else None
  | _ => None
  end.

(** A [mode="before"] validator that strips the text and refuses a blank one. *)
Definition not_blank (value : json) : option json :=
  match value with
  | JStr s => match strip s with [] => None | normalized => Some (JStr normalized) end
  | _ => Some value
  end.

Module EndpointCreateRequest.
Definition model_validate (body : list (pystr * json)) : option EndpointCreateRequest :=
  if only_fields [lit "name"; lit "url"] body then
    name ← dict_get body (lit "name");
    name ← not_blank name;
    name ← str_field 1 120 name;
    url ← dict_get body (lit "url");
    url ← str_field 1 2048 url;
    Some (mkEndpointCreateRequest name url)
  else None.
End EndpointCreateRequest.

Module EventPublishRequest.
(** [^[a-z][a-z0-9_.-]*$] *)
Definition type_pattern (s : pystr) : bool :=
  match s with
  | [] => false
  | c :: s =>
      is_lower c &&
      forallb (λ c, is_lower c || is_digit c || (c =? 95)%N || (c =? 46)%N || (c =? 45)%N) s
  end.

Definition model_validate (parse_uuid : pystr → option UUID) (body : list (pystr * json))
  : option EventPublishRequest :=
  if only_fields [lit "endpoint_id"; lit "type"; lit "data"] body then
    endpoint_id ← dict_get body (lit "endpoint_id");
    endpoint_id ← match endpoint_id with JStr s => parse_uuid s | _ => None end;
    type ← dict_get body (lit "type");
    type ← not_blank type;
    type ← str_field 1 120 type;
    data ← dict_get body (lit "data");
    match data with
    | JDict data => if type_pattern type then Some (mkEventPublishRequest endpoint_id type data) else None
    | _ => None
    end
  else None.
End EventPublishRequest.

(** ** Responses *)

Module EndpointCreatedResponse.
Record t := mk {
  id : UUID; name : pystr; url : pystr; enabled : bool; signing_secret : pystr; secret_version : Z;
  created_at : datetime
}.
End EndpointCreatedResponse.

Module EndpointPublicResponse.
Record t := mk {
  id : UUID; name : pystr; url : pystr; enabled : bool; secret_version : Z;
  created_at : datetime; updated_at : datetime
}.
End EndpointPublicResponse.

Module EventAcceptedResponse.
Record t := mk {
  event_id : UUID; delivery_id : UUID; endpoint_id : UUID; type : pystr; status : DeliveryStatus;
  created_at : datetime
}.
End EventAcceptedResponse.

Module ReplayAcceptedResponse.
Record t := mk {
  source_delivery_id : UUID; delivery_id : UUID; event_id : UUID; endpoint_id : UUID; replay_generation : Z;
  status : DeliveryStatus; created_at : datetime
}.
End ReplayAcceptedResponse.

Module DeliverySummaryResponse.
Record t := mk {
  id : UUID; endpoint_id : UUID; replay_generation : Z; replayed_from_delivery_id : option UUID;
  status : DeliveryStatus; attempt_count : Z; next_attempt_at : option datetime; lease_owner : option pystr;
  lease_expires_at : option datetime; delivered_at : option datetime; last_error : option pystr;
  created_at : datetime; updated_at : datetime
}.

(** [model_validate] from the attributes of a row: the lease token, the replay key and the event
    are not among the fields. *)
Definition model_validate (d : Delivery) : t :=
  mk (Delivery.id d) (Delivery.endpoint_id d) (Delivery.replay_generation d) (Delivery.replayed_from_delivery_id d)
    (Delivery.status d) (Delivery.attempt_count d) (Delivery.next_attempt_at d) (Delivery.lease_owner d)
    (Delivery.lease_expires_at d) (Delivery.delivered_at d) (Delivery.last_error d) (Delivery.created_at d)
    (Delivery.updated_at d).
End DeliverySummaryResponse.

Module DeliveryStatusCounts.
Record t := mk { pending : nat; in_progress : nat; retry_wait : nat; delivered : nat; dead_lettered : nat }.
End DeliveryStatusCounts.

Module ControlRoomOverviewResponse.
Record t := mk {
  generated_at : datetime; events_total : nat; endpoints_total : nat; endpoints_enabled : nat;
  deliveries : DeliveryStatusCounts.t; actionable_dead_letters : nat
}.
End ControlRoomOverviewResponse.

Module EventListItemResponse.
Record t := mk {
  id : UUID; source : pystr; type : pystr; created_at : datetime; endpoint : EndpointPublicResponse.t;
  latest_delivery : DeliverySummaryResponse.t; generation_count : Z
}.
End EventListItemResponse.

(** [EventListResponse], [EndpointListResponse] and [DeadLetterListResponse]: the items of a page and
    its cursor. *)
Record ListResponse (A : Type) := mkListResponse { lr_items : list A; lr_next_cursor : option pystr }.
Arguments mkListResponse {A} lr_items lr_next_cursor.
Arguments lr_items {A} l.
Arguments lr_next_cursor {A} l.

Module DeadLetterItemResponse.
Record t := mk {
  event_id : UUID; event_type : pystr; event_created_at : datetime; endpoint : EndpointPublicResponse.t;
  delivery : DeliverySummaryResponse.t; replayable : bool; blocked_code : option ReplayBlockCode;
  blocked_reason : option pystr
}.
End DeadLetterItemResponse.

Module EventDetailResponse.
Record t := mk {
  id : UUID; source : pystr; type : pystr; data : json; payload_sha256 : pystr; request_fingerprint_sha256 : pystr;
  idempotency_key : pystr; created_at : datetime; deliveries : list DeliverySummaryResponse.t
}.
End EventDetailResponse.

Module DeliveryAttemptResponse.
Record t := mk {
  id : UUID; attempt_number : Z; status : DeliveryAttemptStatus; disposition : option DeliveryDisposition;
  http_status_code : option Z; error_type : option pystr; error_message : option pystr;
  response_body_excerpt : option pystr; duration_ms : option Z; request_timestamp : option Z;
  retry_scheduled_for : option datetime; started_at : option datetime; finished_at : option datetime;
  resolved_at : option datetime; created_at : datetime
}.

Definition model_validate (a : DeliveryAttempt) : t :=
  mk (DeliveryAttempt.id a) (DeliveryAttempt.attempt_number a) (DeliveryAttempt.status a)
    (DeliveryAttempt.disposition a) (DeliveryAttempt.http_status_code a) (DeliveryAttempt.error_type a)
    (DeliveryAttempt.error_message a) (DeliveryAttempt.response_body_excerpt a) (DeliveryAttempt.duration_ms a)
    (DeliveryAttempt.request_timestamp a) (DeliveryAttempt.retry_scheduled_for a) (DeliveryAttempt.started_at a)
    (DeliveryAttempt.finished_at a) (DeliveryAttempt.resolved_at a) (DeliveryAttempt.created_at a).
End DeliveryAttemptResponse.

Module DeliveryAttemptsResponse.
Record t := mk { delivery : DeliverySummaryResponse.t; attempts : list DeliveryAttemptResponse.t }.
End DeliveryAttemptsResponse.

(** ** What validation guarantees *)

Lemma str_field_Some lo hi v s : str_field lo hi v = Some s ↔ v = JStr s ∧ lo ≤ length s ≤ hi.
Proof.
  unfold str_field. destruct v; try (split; [done|by intros [[=] _]]).
  case_bool_decide; naive_solver.
Qed.
