(* ===== verification/Routers.v ===== *)
(** [routers/v1.py]: the HTTP handlers of the API: each runs one service call in one transaction and
    maps its result to the public contract ([Schemas]).

    A handler returns the status, the headers it sets and the body, or the exception the framework
    gets, with the database afterwards.  Parsing of path, query and header values is the
    framework's; the two routes to Receiver Lab are in [Demo]. *)
From S2P Require Import Prelude PyStr Errors Json Retry StateMachine Models Datetime Database Repositories.
From S2P Require Import Services Cursor ControlRoom Schemas.
From Stdlib Require Import ZArith.

Record Reply (A : Type) := mkReply {
  rp_status : Z;
  rp_headers : list (pystr * pystr);
  rp_body : A
}.
Arguments mkReply {A} rp_status rp_headers rp_body.
Arguments rp_status {A} r.
Arguments rp_headers {A} r.
Arguments rp_body {A} r.

(** [async with session.begin()] around the service call, then the response. *)
Definition handler {A B : Type} (m : tx A) (respond : A → outcome (Reply B)) : Db → outcome (Reply B) * Db := λ db,
  match run_tx m db with
  | (Ok a, db') => (respond a, db')
  | (Raise e, db') => (Raise e, db')
  end.

(** The declared bounds of the key: [Header(min_length=1, max_length=255)]. *)
Definition idempotency_key_bounds (key : pystr) : bool := bool_decide (1 ≤ length key ≤ 255).

(** ** Mapping *)

Definition _delivery_response (d : Delivery) : DeliverySummaryResponse.t := DeliverySummaryResponse.model_validate d.

Definition _endpoint_response (e : Endpoint) : EndpointPublicResponse.t :=
  EndpointPublicResponse.mk (Endpoint.id e) (Endpoint.name e) (Endpoint.target_url e) (Endpoint.enabled e)
    (Endpoint.secret_version e) (Endpoint.created_at e) (Endpoint.updated_at e).

Definition blocked_reason (c : ReplayBlockCode) : pystr :=
  match c with
  | PAYLOAD_CORRECTION_REQUIRED =>
      lit "Payload correction required. Publish a corrected event instead of replaying the unchanged body."
  | ENDPOINT_DISABLED => lit "Endpoint is disabled."
  end.

Definition _dead_letter_response (item : DeadLetterRecord) : outcome DeadLetterItemResponse.t :=
  block_code ← replay_block_code (dl_last_http_status_code item) (dl_last_response_body_excerpt item);
  let block_code :=
    match block_code with
    | None => if negb (Endpoint.enabled (dl_endpoint item)) then Some ENDPOINT_DISABLED else None
    | Some c => Some c
    end in
  mret (DeadLetterItemResponse.mk (Event.id (dl_event item)) (Event.event_type (dl_event item))
          (Event.created_at (dl_event item)) (_endpoint_response (dl_endpoint item))
          (_delivery_response (dl_delivery item)) (is_null block_code) block_code (blocked_reason <$> block_code)).

(** [_disable_cache] *)
Definition no_store : list (pystr * pystr) := [(lit "Cache-Control", lit "no-store")].

(** [str(flag).lower()] *)
Definition lower_bool (b : bool) : pystr := if b then lit "true" else lit "false".

(** The results of a list, the first error of one of them. *)
Fixpoint collect {A B : Type} (f : A → outcome B) (l : list A) : outcome (list B) :=
  match l with
  | [] => mret []
  | a :: l => b ← f a; bs ← collect f l; mret (b :: bs)
  end.

(** ** Writes *)

Definition create_endpoint (receiver_lab_url secret : pystr) (env : Env) (second_now : datetime) (request : EndpointCreateRequest)
  : Db → outcome (Reply EndpointCreatedResponse.t) * Db :=
  handler (EndpointService.create receiver_lab_url secret env second_now request) (λ result,
    let endpoint := ce_endpoint result in
    mret (mkReply 201 []
      (EndpointCreatedResponse.mk (Endpoint.id endpoint) (Endpoint.name endpoint) (Endpoint.target_url endpoint)
         (Endpoint.enabled endpoint) (plaintext_signing_secret result) (Endpoint.secret_version endpoint)
         (Endpoint.created_at endpoint)))).

Definition invalid_idempotency_key : exn :=
  domain_error 422 (lit "invalid_idempotency_key") (lit "Idempotency key is invalid")
    (lit "Idempotency-Key must contain at least one non-whitespace character.").

Definition publish_event (env : Env) (request : EventPublishRequest) (idempotency_key : pystr)
  : Db → outcome (Reply EventAcceptedResponse.t) * Db := λ db,
  match strip idempotency_key with
  | [] => (Raise invalid_idempotency_key, db)
  | _ =>
      handler (EventService.publish env request idempotency_key) (λ result,
        let event := pe_event result in
        let delivery := pe_delivery result in
        mret (mkReply 202
          [(lit "X-EventHarbor-Idempotent-Replay", lower_bool (pe_idempotent_replay result));
           (lit "Location", lit "/v1/events/" ++ str_of_uuid (Event.id event))]
          (EventAcceptedResponse.mk (Event.id event) (Delivery.id delivery) (Delivery.endpoint_id delivery)
             (Event.event_type event) (Delivery.status delivery) (Event.created_at event)))) db
  end.

(** The body reports [PENDING] whatever the delivery has become since. *)
Definition replay_delivery (env : Env) (delivery_id : UUID) (idempotency_key : pystr)
  : Db → outcome (Reply ReplayAcceptedResponse.t) * Db := λ db,
  match strip idempotency_key with
  | [] => (Raise invalid_idempotency_key, db)
  | _ =>
      handler (ReplayService.replay env delivery_id idempotency_key) (λ result,
        let replay := rd_delivery result in
        mret (mkReply 202
          [(lit "X-EventHarbor-Idempotent-Replay", lower_bool (rd_idempotent_replay result));
           (lit "Location", lit "/v1/deliveries/" ++ str_of_uuid (Delivery.id replay) ++ lit "/attempts")]
          (ReplayAcceptedResponse.mk (Delivery.id (rd_source_delivery result)) (Delivery.id replay)
             (Delivery.event_id replay) (Delivery.endpoint_id replay) (Delivery.replay_generation replay) PENDING
             (Delivery.created_at replay)))) db
  end.

(** ** Reads *)

Definition get_event (event_id : UUID) : Db → outcome (Reply EventDetailResponse.t) * Db :=
  handler (QueryService.event_details event_id) (λ result,
    let e := ed_event result in
    mret (mkReply 200 []
      (EventDetailResponse.mk (Event.id e) (Event.source e) (Event.event_type e) (Event.payload e)
         (Event.payload_sha256 e) (Event.request_fingerprint_sha256 e) (Event.idempotency_key e) (Event.created_at e)
         (map _delivery_response (ed_deliveries result))))).

Definition get_delivery_attempts (delivery_id : UUID) : Db → outcome (Reply DeliveryAttemptsResponse.t) * Db :=
  handler (QueryService.delivery_attempts delivery_id) (λ result,
    mret (mkReply 200 []
      (DeliveryAttemptsResponse.mk (_delivery_response (da_delivery result))
         (map DeliveryAttemptResponse.model_validate (da_attempts result))))).

(** [counts.get(status, 0)] *)
Definition count_of (counts : list (DeliveryStatus * nat)) (s : DeliveryStatus) : nat :=
  match List.find (λ c, bool_decide (c.1 = s)) counts with Some c => c.2 | None => 0 end.

Definition get_control_room_overview (clock_timestamp : datetime)
  : Db → outcome (Reply ControlRoomOverviewResponse.t) * Db :=
  handler (ControlRoomQueryService.overview clock_timestamp) (λ snapshot,
    let counts := deliveries_by_status snapshot in
    mret (mkReply 200 no_store
      (ControlRoomOverviewResponse.mk (generated_at snapshot) (events_total snapshot) (endpoints_total snapshot)
         (endpoints_enabled snapshot)
         (DeliveryStatusCounts.mk (count_of counts PENDING) (count_of counts IN_PROGRESS) (count_of counts RETRY_WAIT)
            (count_of counts DELIVERED) (count_of counts DEAD_LETTERED))
         (actionable_dead_letters snapshot)))).

Definition event_item (item : EventListRecord) : EventListItemResponse.t :=
  EventListItemResponse.mk (Event.id (el_event item)) (Event.source (el_event item)) (Event.event_type (el_event item))
    (Event.created_at (el_event item)) (_endpoint_response (el_endpoint item))
    (_delivery_response (el_latest_delivery item)) (Delivery.replay_generation (el_latest_delivery item) + 1).

Section lists.
Context (fromisoformat : iso_parser).

Definition list_events (limit : nat) (cursor event_type : option pystr) (endpoint_id : option UUID)
  (delivery_status : option DeliveryStatus) : Db → outcome (Reply (ListResponse EventListItemResponse.t)) * Db :=
  handler (ControlRoomQueryService.events_page fromisoformat limit event_type endpoint_id delivery_status cursor)
    (λ p, mret (mkReply 200 no_store (mkListResponse (map event_item (items p)) (next_cursor p)))).

Definition list_endpoints (limit : nat) (cursor : option pystr)
  : Db → outcome (Reply (ListResponse EndpointPublicResponse.t)) * Db :=
  handler (ControlRoomQueryService.endpoints_page fromisoformat limit cursor)
    (λ p, mret (mkReply 200 no_store (mkListResponse (map _endpoint_response (items p)) (next_cursor p)))).

Definition list_dead_letters (limit : nat) (cursor : option pystr) (endpoint_id : option UUID)
  : Db → outcome (Reply (ListResponse DeadLetterItemResponse.t)) * Db :=
  handler (ControlRoomQueryService.dead_letters fromisoformat limit endpoint_id cursor)
    (λ p, responses ← collect _dead_letter_response (items p);
          mret (mkReply 200 no_store (mkListResponse responses (next_cursor p)))).
End lists.

Definition get_endpoint (endpoint_id : UUID) : Db → outcome (Reply EndpointPublicResponse.t) * Db :=
  handler (ControlRoomQueryService.endpoint endpoint_id)
    (λ e, mret (mkReply 200 no_store (_endpoint_response e))).
