(* ===== verification/Responses.v ===== *)
(** What the API's answers guarantee to a client: the Control Room's replay flags are the decisions
    the replay endpoint takes, a repeated replay request reproduces its answer, and the endpoints
    an operator uses do not fail with internal errors. *)
From S2P Require Import Prelude PyStr Errors Json Retry StateMachine Models Datetime Database Repositories Invariant.
From S2P Require Import Transport Config Worker Claiming Generations Services Fixtures Publishing Replaying System.
From S2P Require Import Codecs Cursor Paging ControlRoom Listings Schemas Routers.
From Stdlib Require Import ZArith.

Import ReplayService.

(** ** Header values *)

(** A header value the server hands over: Latin-1 text without NUL, here within its bounds and not
    blank. *)
Definition header_key (key : pystr) : bool :=
  idempotency_key_bounds key && forallb (λ c, (1 <=? c)%N && (c <=? 255)%N) key && bool_decide (strip key ≠ []).

Lemma header_key_spec key : header_key key = true → key ≠ [] ∧ strip key ≠ [] ∧ varchar 255 key = true.
Proof.
  unfold header_key, idempotency_key_bounds, varchar, text.
  intros [[Hb%bool_decide_eq_true Hc]%andb_true_iff Hs%bool_decide_eq_true]%andb_true_iff.
  split_and!; [intros ->; simpl in Hb; lia|done|].
  apply andb_true_iff. split; [|apply bool_decide_eq_true; lia].
  rewrite forallb_forall in Hc |- *. intros c Hin. apply Hc in Hin as [H1%N.leb_le H2%N.leb_le]%andb_true_iff.
  unfold is_surrogate, in_range. rewrite andb_true_iff, !negb_true_iff, andb_false_iff, N.eqb_neq, !N.leb_gt. lia.
Qed.

Lemma replay_delivery_run env k key db :
  strip key ≠ [] →
  replay_delivery env k key db =
    handler (replay env k key) (λ result,
        let replay := rd_delivery result in
        mret (mkReply 202
          [(lit "X-EventHarbor-Idempotent-Replay", lower_bool (rd_idempotent_replay result));
           (lit "Location", lit "/v1/deliveries/" ++ str_of_uuid (Delivery.id replay) ++ lit "/attempts")]
          (ReplayAcceptedResponse.mk (Delivery.id (rd_source_delivery result)) (Delivery.id replay)
             (Delivery.event_id replay) (Delivery.endpoint_id replay) (Delivery.replay_generation replay) PENDING
             (Delivery.created_at replay)))) db.
Proof. unfold replay_delivery. by destruct (strip key). Qed.

(** ** The evidence of a dead letter *)

(** The row of the list carries the decision [replay] takes. *)
Lemma row_block_code db ep r :
  inv db → r ∈ ControlRoomRepository.dead_letter_rows ep db →
  block_code_of (DeliveryRepository.attempt_rows db (Delivery.id (dl_delivery r))) =
    replay_block_code (dl_last_http_status_code r) (dl_last_response_body_excerpt r).
Proof.
  intros Hinv (_ & _ & _ & _ & [-> ->] & _)%elem_of_dead_letter_rows; [|done].
  unfold block_code_of. by destruct (last _).
Qed.

Lemma replay_block_code_short status excerpt :
  nullable (λ s, bool_decide (length s ≤ RESPONSE_BODY_EXCERPT_BYTES)) excerpt = true →
  is_Ok (replay_block_code status excerpt).
Proof.
  intros Hx. destruct (replay_block_code status excerpt) as [c|e] eqn:E; [by eexists|exfalso].
  unfold replay_block_code in E. repeat case_match; simplify_eq;
    simpl in Hx; apply bool_decide_eq_true in Hx;
    match goal with H : json_loads _ = Raise _ |- _ => apply json_loads_short in H; [done|] end;
    unfold RESPONSE_BODY_EXCERPT_BYTES, int_max_str_digits in *; lia.
Qed.

Lemma reachable_block_code base config s k :
  settings_fields config = true → reachable base config s →
  is_Ok (block_code_of (DeliveryRepository.attempt_rows (st_db s) k)).
Proof.
  intros Hc Hr. pose proof (reachable_inv base config Hc s Hr) as Hs. unfold block_code_of.
  destruct (last _) as [a|] eqn:El; [|by eexists]. apply replay_block_code_short.
  apply (si_excerpts _ _ _ Hs (DeliveryAttempt.id a)).
  apply (last_attempt_row (st_db s) (inv_ok _ (si_db _ _ _ Hs)) k a El).
Qed.

Lemma reachable_items base config s ep l :
  settings_fields config = true → reachable base config s →
  (∀ r, r ∈ l → r ∈ ControlRoomRepository.dead_letter_rows ep (st_db s)) →
  ∃ rs, collect _dead_letter_response l = Ok rs.
Proof.
  intros Hc Hr. pose proof (si_db _ _ _ (reachable_inv base config Hc s Hr)) as Hinv.
  induction l as [|r l IH]; intros Hin; [by eexists|].
  destruct IH as [rs Hrs]; [intros x Hx; apply Hin; by right|].
  destruct (reachable_block_code base config s (Delivery.id (dl_delivery r)) Hc Hr) as [bc Hbc].
  rewrite (row_block_code _ ep r Hinv) in Hbc by (apply Hin; left).
  assert (Hx : ∃ x, _dead_letter_response r = Ok x) by (unfold _dead_letter_response; rewrite Hbc; by eexists).
  destruct Hx as [x Hx]. cbn [collect]. rewrite Hx, Hrs. by eexists.
Qed.

(** ** Stability of a replay's answer *)

Lemma moved_trans max a b c : moved max a b → moved max b c → moved max a c.
Proof.
  intros (L1 & T1 & E1 & E2 & E3 & E4 & E5 & E6 & C1 & R1) (L2 & T2 & F1 & F2 & F3 & F4 & F5 & F6 & C2 & R2).
  unfold moved. split_and!; try congruence; try lia.
  - by etrans.
  - intros Ht. specialize (T1 Ht). subst b. by apply T2.
  - intros Hm. destruct (R1 Hm) as [->|H1]; [by apply R2|]. right.
    destruct R2 as [->|H2]; [lia|done|lia].
Qed.

Section stable.
Context (base : pystr) (config : Settings).
Context (Hconfig : settings_fields config = true).

(** Steps of the system during which two deliveries are not purged. *)
Definition keeps (k k' : UUID) (s s' : State) : Prop :=
  step base config s s' ∧ is_Some (deliveries (st_db s') !! k) ∧ is_Some (deliveries (st_db s') !! k').

Lemma keeps_moved k k' s s' d :
  sys_inv base config s → rtc (keeps k k') s s' → deliveries (st_db s) !! k' = Some d →
  sys_inv base config s' ∧ ∃ d', deliveries (st_db s') !! k' = Some d' ∧ moved (worker_max_attempts config) d d'.
Proof.
  intros Hs Hr. revert d. induction Hr as [s|s s1 s2 (Hstep & _ & [d1 Hd1]) _ IH]; intros d Hd.
  - split; [done|]. exists d. split; [done|apply moved_refl].
  - pose proof (step_inv base config Hconfig s s1 Hs Hstep) as Hs1.
    destruct (step_frame base config Hconfig s s1 Hs Hstep) as (new & born & gone & Hf & _).
    destruct (fr_deliveries _ _ _ _ _ _ _ Hf k' d1 Hd1) as [(d0 & Hd0 & Hm)|(Hn & _)]; [|congruence].
    simplify_eq. destruct (IH Hs1 d1 Hd1) as (Hs2 & d2 & Hd2 & Hm2). split; [done|].
    exists d2. split; [done|by eapply moved_trans].
Qed.

(** The event of a delivery that is kept never changes. *)
Lemma keeps_event k k' s s' d e :
  sys_inv base config s → rtc (keeps k k') s s' → deliveries (st_db s) !! k' = Some d →
  events (st_db s) !! Delivery.event_id d = Some e → events (st_db s') !! Delivery.event_id d = Some e.
Proof.
  intros Hs Hr. revert d. induction Hr as [s|s s1 s2 Hk _ IH]; intros d Hd He; [done|].
  destruct (keeps_moved k k' s s1 d) as (Hs1 & d1 & Hd1 & (_ & _ & Ee & _)); [done|by apply rtc_once|done|].
  destruct Hk as (Hstep & _). destruct (step_frame base config Hconfig s s1 Hs Hstep) as (new & born & gone & Hf & _).
  destruct (ok_delivery_event _ (inv_ok _ (si_db _ _ _ Hs1)) k' d1 Hd1) as [e1 He1]. rewrite Ee in He1.
  rewrite <- Ee. apply IH; [done|done|]. rewrite Ee, He1. f_equal. by apply (fr_events _ _ _ _ _ _ _ Hf _ _ _ He He1).
Qed.

Lemma keeps_present k k' s s' :
  rtc (keeps k k') s s' → is_Some (deliveries (st_db s) !! k) → is_Some (deliveries (st_db s') !! k).
Proof. induction 1 as [|s s1 s2 (_ & H & _) _ IH]; auto. Qed.
End stable.

(** ** Properties *)

(** C23: The Control Room never misleads an operator: for a listed dead letter, [replayable] means that the
    replay endpoint accepts a new request (a valid, unused key) and answers with the next generation,
    and a [blocked_code] means that it refuses every such request with a 409 problem of that very code,
    changing nothing. *)
Theorem dead_letter_flags env key db ep r item :
  inv db → r ∈ ControlRoomRepository.dead_letter_rows ep db → _dead_letter_response r = Ok item →
  deliveries db !! uuid1 env = None → header_key key = true →
  int4 (Delivery.replay_generation (dl_delivery r) + 1) = true →
  (∀ k' d, deliveries db !! k' = Some d → ¬ DeliveryRepository.by_replay_request (Delivery.id (dl_delivery r)) key d) →
  let '(answer, db') := replay_delivery env (Delivery.id (dl_delivery r)) key db in
  match DeadLetterItemResponse.blocked_code item with
  | None =>
      DeadLetterItemResponse.replayable item = true ∧
      ∃ reply, answer = Ok reply ∧ rp_status reply = 202%Z ∧
        ReplayAcceptedResponse.source_delivery_id (rp_body reply) = Delivery.id (dl_delivery r) ∧
        ReplayAcceptedResponse.replay_generation (rp_body reply) = (Delivery.replay_generation (dl_delivery r) + 1)%Z ∧
        deliveries db' !! ReplayAcceptedResponse.delivery_id (rp_body reply) = Some (next_generation env (dl_delivery r) key)
  | Some c =>
      DeadLetterItemResponse.replayable item = false ∧ db' = db ∧
      ∃ e, answer = Raise (DomainExn e) ∧ status_code e = 409%Z ∧ code e = ReplayBlockCode_value c
  end.
Proof.
  intros Hinv Hr Hitem Hf (Hne & Hs & Hv)%header_key_spec Hgen Hunused.
  pose proof (row_block_code db ep r Hinv Hr) as Hb.
  apply elem_of_dead_letter_rows in Hr as (Hl & Hst & He & Hep & _ & _); [|done].
  apply elem_of_latest in Hl as [Hd Hlat]; [|done].
  assert (Hrep : replayable db (Delivery.id (dl_delivery r)) key (dl_delivery r)) by done.
  pose proof (replay_refines env key db Hinv Hf Hne (Delivery.id (dl_delivery r))) as Hspec.
  assert (Hdet : ∀ x, replay_spec env (Delivery.id (dl_delivery r)) key db x →
    run_tx (replay env (Delivery.id (dl_delivery r)) key) db = x) by (intros x; by apply replay_spec_det).
  unfold _dead_letter_response in Hitem. rewrite <- Hb in Hitem. rewrite replay_delivery_run by done. unfold handler.
  apply outcome_bind_Ok in Hitem as (bc & Hbc & [= <-]).
  cbn [DeadLetterItemResponse.blocked_code DeadLetterItemResponse.replayable].
  destruct bc as [c|].
  - rewrite (Hdet (Raise (blocked c), db)) by by eapply rs_blocked.
    split_and!; [done|done|]. eexists. split; [done|]. by destruct c.
  - assert (Hp : permitted db (Delivery.id (dl_delivery r)) key (dl_delivery r) (dl_endpoint r)) by done.
    destruct (Endpoint.enabled (dl_endpoint r)) eqn:Een; cbn [negb is_null].
    + rewrite (Hdet (Ok (mkReplayedDelivery (dl_delivery r) (next_generation env (dl_delivery r) key) false),
        set_deliveries (<[Delivery.id (next_generation env (dl_delivery r) key) := next_generation env (dl_delivery r) key]>
          (deliveries db)) db)).
      * split; [done|]. eexists. split_and!; [done..|]. simpl. by rewrite lookup_insert_eq.
      * eapply (rs_accept _ _ _ _ (dl_delivery r) (dl_endpoint r)); [done|done|].
        unfold Delivery.types. cbn [next_generation Delivery.replay_generation Delivery.replay_idempotency_key
          Delivery.attempt_count Delivery.lease_owner Delivery.last_error nullable]. by rewrite Hgen, Hv.
    + rewrite (Hdet (Raise (endpoint_disabled (Endpoint.id (dl_endpoint r))), db)) by by eapply rs_disabled.
      split_and!; [done|done|]. by eexists.
Qed.

(** C19: publishing is idempotent: after a publication in a reachable state was answered, the same request
    under the same key, from whatever process, with other fresh identifiers and however workers,
    publishers, replays, operators and retention of other events have moved the system on, is
    answered with the same event, the same delivery, in the state it has by then, and the mark of a
    repetition, and changes nothing, as long as retention has not removed the event. *)
Theorem publish_answer_stable base config s s2 env env' request key reply db1 :
  settings_fields config = true → reachable base config s →
  events (st_db s) !! uuid1 env = None → deliveries (st_db s) !! uuid2 env = None →
  (∀ ids, ids ∈ st_selected s → uuid1 env ∉ ids) →
  publish_event env request key (st_db s) = (Ok reply, db1) →
  rtc (keeps base config (EventAcceptedResponse.delivery_id (rp_body reply))
         (EventAcceptedResponse.delivery_id (rp_body reply)))
    (mkState db1 (st_flights s) (st_selected s)) s2 →
  events (st_db s2) !! uuid1 env' = None →
  ∃ d2, deliveries (st_db s2) !! EventAcceptedResponse.delivery_id (rp_body reply) = Some d2 ∧
    publish_event env' request key (st_db s2) =
      (Ok (mkReply 202 [(lit "X-EventHarbor-Idempotent-Replay", lit "true");
             (lit "Location", lit "/v1/events/" ++ str_of_uuid (EventAcceptedResponse.event_id (rp_body reply)))]
           (EventAcceptedResponse.mk (EventAcceptedResponse.event_id (rp_body reply))
              (EventAcceptedResponse.delivery_id (rp_body reply)) (EventAcceptedResponse.endpoint_id (rp_body reply))
              (EventAcceptedResponse.type (rp_body reply)) (Delivery.status d2)
              (EventAcceptedResponse.created_at (rp_body reply)))), st_db s2).
Proof.
  intros Hc Hr Hf1 Hf2 Hsel Hrun Hpath Hf'. pose proof (reachable_inv base config Hc s Hr) as Hs.
  destruct s as [db fl sel]. simpl in *. pose proof (si_db _ _ _ Hs) as Hinv. simpl in Hinv.
  unfold publish_event in Hrun |- *. destruct (strip key) as [|c x]; [done|]. unfold handler in Hrun |- *.
  pose proof (step_inv base config Hc _ _ Hs (step_publish base config env request key db fl sel Hf1 Hf2 Hsel)) as Hs1.
  destruct (run_tx (EventService.publish env request key) db) as [[p|e] db0] eqn:Hp; [|done]. simpl in Hs1.
  injection Hrun as <- <-.
  cbn [rp_body EventAcceptedResponse.delivery_id EventAcceptedResponse.event_id EventAcceptedResponse.endpoint_id
    EventAcceptedResponse.type EventAcceptedResponse.created_at] in *.
  destruct (published_rows env request key db p db0 Hinv Hp) as (fp & Hfp & Hr0 & He & Hk & Hfpe & Hd & Hchain & Hg).
  pose proof Hchain as [Hev Hep].
  destruct (keeps_moved base config Hc _ _ _ _ _ Hs1 Hpath Hd) as (Hs2 & d2 & Hd2 & Hm).
  pose proof (keeps_event base config Hc _ _ _ _ (pe_delivery p) (pe_event p) Hs1 Hpath Hd) as He2.
  rewrite Hev in He2. specialize (He2 He). pose proof (si_db _ _ _ Hs2) as Hinv2.
  destruct Hm as (_ & _ & M1 & M2 & M3 & _). pose proof (delivery_id_of _ (inv_ok _ Hinv2) _ d2 Hd2) as Eid2.
  destruct (ok_delivery_endpoint _ (inv_ok _ Hinv2) _ d2 Hd2) as [ep Hep2]. rewrite M2, Hep in Hep2.
  exists d2. split; [done|]. subst fp.
  rewrite (publish_again env' request key (st_db s2) ep (pe_event p) d2);
    [|by apply inv_ok|done|done|done|done|done|done|by rewrite Eid2|split; congruence|congruence].
  cbn [pe_event pe_delivery pe_idempotent_replay lower_bool]. by rewrite Eid2, M2.
Qed.

(** C17: A repeated replay request reproduces its answer: after a replay was accepted in a reachable state of
    the system, the same request is answered, however workers, publishers and operators have moved the
    system on and whatever has become of the new delivery, with the same body and location, marked as
    a repetition, and changes nothing, as long as retention has removed neither delivery. *)
Theorem replay_answer_stable base config s s2 env env' k key reply db1 :
  settings_fields config = true → reachable base config s → deliveries (st_db s) !! uuid1 env = None → key ≠ [] →
  replay_delivery env k key (st_db s) = (Ok reply, db1) →
  rtc (keeps base config k (ReplayAcceptedResponse.delivery_id (rp_body reply))) (mkState db1 (st_flights s) (st_selected s)) s2 →
  deliveries (st_db s2) !! uuid1 env' = None →
  replay_delivery env' k key (st_db s2) =
    (Ok (mkReply 202 [(lit "X-EventHarbor-Idempotent-Replay", lit "true");
           (lit "Location", lit "/v1/deliveries/" ++ str_of_uuid (ReplayAcceptedResponse.delivery_id (rp_body reply)) ++
              lit "/attempts")] (rp_body reply)), st_db s2).
Proof.
  intros Hc Hr Hf Hne Hrun Hpath Hf'. pose proof (reachable_inv base config Hc s Hr) as Hs.
  destruct s as [db fl sel]. simpl in *. pose proof (si_db _ _ _ Hs) as Hinv. simpl in Hinv.
  assert (Hst : strip key ≠ []) by (intros E; unfold replay_delivery in Hrun; by rewrite E in Hrun).
  rewrite replay_delivery_run in Hrun |- * by done. unfold handler in Hrun.
  pose proof (replay_refines env key db Hinv Hf Hne k) as Hspec.
  pose proof (step_inv base config Hc _ _ Hs (step_replay base config env k key db fl sel Hf Hne)) as Hs1.
  destruct (run_tx (replay env k key) db) as [[p|e] db0] eqn:Hp; [|done]. simpl in Hs1.
  injection Hrun as <- <-. cbn [rp_body ReplayAcceptedResponse.delivery_id] in *.
  assert (Hans : ∃ source, deliveries db0 !! k = Some source ∧ Delivery.id (rd_source_delivery p) = k ∧
    deliveries db0 !! Delivery.id (rd_delivery p) = Some (rd_delivery p) ∧
    DeliveryRepository.by_replay_request k key (rd_delivery p)).
  { pose proof (delivery_id_of db (inv_ok db Hinv) k) as Hid.
    inversion Hspec as [|source d Hs0 Hd Hb| | | | | | |source endpoint Hpm Hen d Ht]; subst; simpl.
    - exists source. split_and!; [done|by apply Hid|done|done].
    - pose proof Hpm as (((Hs0 & _) & _) & _). exists source.
      rewrite lookup_insert_ne by (intros E; simpl in E; congruence). rewrite lookup_insert_eq.
      split_and!; [done|by apply Hid|done|]. split; simpl; [by rewrite (Hid source Hs0)|done]. }
  destruct Hans as (source & Hsrc & Eid & Hd & [Hb1 Hb2]).
  destruct (keeps_moved base config Hc _ _ _ _ _ Hs1 Hpath Hd) as (Hs2 & d2 & Hd2 & Hm).
  destruct (keeps_present base config _ _ _ _ Hpath) as [source2 Hsrc2]; [by eexists|].
  pose proof (si_db _ _ _ Hs2) as Hinv2. destruct Hm as (_ & _ & M1 & M2 & M3 & M4 & M5 & M6 & _).
  pose proof (delivery_id_of _ (inv_ok _ Hinv2) _ d2 Hd2) as Eid2.
  assert (Hrun2 : run_tx (replay env' k key) (st_db s2) = (Ok (mkReplayedDelivery source2 d2 true), st_db s2)).
  { eapply replay_spec_det; [exact Hinv2|by apply replay_refines|]. apply rs_again; [done|by rewrite Eid2|].
    split; congruence. }
  unfold handler. rewrite Hrun2. cbn [rd_delivery rd_source_delivery rd_idempotent_replay lower_bool].
  by rewrite Eid, Eid2, M1, M2, M3, M6, (delivery_id_of _ (inv_ok _ Hinv2) _ source2 Hsrc2).
Qed.

(** C24: the endpoints of the operator fail internally in one case only: in a reachable state the
    dead-letter list is answered, or refused as 422 for a malformed cursor, whatever receivers have sent
    back, unless the cursor is well formed but its timestamp has no instant in the calendar (a year 1
    with a positive offset, say), when the conversion of the driver fails; and a replay request with a
    valid key fails only with a documented domain error, as long as the next generation number fits
    its column. *)
Theorem operator_answers base config s fromisoformat limit cursor ep env k key :
  settings_fields config = true → reachable base config s →
  deliveries (st_db s) !! uuid1 env = None → header_key key = true →
  (∀ d, deliveries (st_db s) !! k = Some d → int4 (Delivery.replay_generation d + 1) = true) →
  (let '(answer, db') := list_dead_letters fromisoformat limit cursor ep (st_db s) in
   db' = st_db s ∧
   match decode_cursor fromisoformat cursor with
   | Raise _ => answer = Raise invalid_cursor
   | Ok None => ∃ reply, answer = Ok reply
   | Ok (Some c) =>
       if in_calendar (timestamp c) then ∃ reply, answer = Ok reply else ∃ msg, answer = Raise (DataErr msg)
   end) ∧
  (let '(answer, _) := replay_delivery env k key (st_db s) in
   ∀ e, answer = Raise e → is_domain e = true).
Proof.
  intros Hc Hr Hf (Hne & Hs & Hv)%header_key_spec Hgen. pose proof (reachable_inv base config Hc s Hr) as Hsys.
  pose proof (si_db _ _ _ Hsys) as Hinv. split.
  - unfold list_dead_letters, handler. destruct (decode_cursor fromisoformat cursor) as [c|e] eqn:Ec.
    2: { assert (E : run_tx (ControlRoomQueryService.dead_letters fromisoformat limit ep cursor) (st_db s) =
           (Raise invalid_cursor, st_db s)).
         { unfold run_tx, ControlRoomQueryService.dead_letters, lift, mbind, tx_bind. rewrite Ec.
           unfold decode_cursor in Ec. repeat case_match; by simplify_eq. }
         rewrite E. by split. }
    set (p := paged dead_letter_key limit c (ControlRoomRepository.dead_letter_rows ep (st_db s))).
    assert (Hbound : match c with Some c => in_calendar (timestamp c) = true | None => True end →
      ∃ reply, (let '(r, db') := run_tx (ControlRoomQueryService.dead_letters fromisoformat limit ep cursor) (st_db s) in
        match r with Ok a => (responses ← collect _dead_letter_response (items a);
                              mret (mkReply 200 no_store (mkListResponse responses (next_cursor a))), db')
                   | Raise e => (Raise e, db') end) = (Ok reply, st_db s)).
    { intros Hcal. destruct (reachable_items base config s ep (items p) Hc Hr) as [rs Hrs].
      { intros r. apply paged_items. }
      assert (E : run_tx (ControlRoomQueryService.dead_letters fromisoformat limit ep cursor) (st_db s) = (Ok p, st_db s)).
      { unfold run_tx, ControlRoomQueryService.dead_letters, ControlRoomRepository.list_dead_letters, lift, mbind, tx_bind.
        rewrite Ec. destruct c as [c|]; simpl; [|done]. by rewrite Hcal. }
      rewrite E. simpl in Hrs |- *. rewrite Hrs. by eexists. }
    destruct c as [c|]; [destruct (in_calendar (timestamp c)) eqn:Hcal|].
    + destruct (Hbound eq_refl) as [reply E]. rewrite E. split; [done|by eexists].
    + assert (E : run_tx (ControlRoomQueryService.dead_letters fromisoformat limit ep cursor) (st_db s) =
        (Raise (DataErr (lit "date value out of range")), st_db s)).
      { unfold run_tx, ControlRoomQueryService.dead_letters, ControlRoomRepository.list_dead_letters, lift, mbind, tx_bind.
        rewrite Ec. simpl. by rewrite Hcal. }
      rewrite E. split; [done|by eexists].
    + destruct (Hbound I) as [reply E]. rewrite E. split; [done|by eexists].
  - rewrite replay_delivery_run by done. unfold handler.
    pose proof (replay_refines env key (st_db s) Hinv Hf Hne k) as Hspec.
    destruct Hspec as [| | | |source e Hrep Hb| | |source endpoint Hp Hen Ht|]; try (intros e' [= <-]; done).
    + destruct (reachable_block_code base config s k Hc Hr) as [bc Hbc]. congruence.
    + pose proof Hp as (((Hsrc & _) & _) & _). exfalso. unfold Delivery.types in Ht.
      cbn [next_generation Delivery.replay_generation Delivery.replay_idempotency_key
        Delivery.attempt_count Delivery.lease_owner Delivery.last_error nullable] in Ht.
      by rewrite (Hgen source Hsrc), Hv in Ht.
Qed.
