(* ===== verification/Validated.v ===== *)
(** Requests that passed validation: what [schemas.py] accepts is fit for the services, so the
    publish and registration routes can fail internally only on text that no column can hold. *)
From S2P Require Import Prelude PyStr Errors Floats Json Sha256 Serialization Retry StateMachine Models Datetime Database.
From S2P Require Import Repositories Invariant Services Fixtures Publishing Codecs Schemas Routers Responses.
From Stdlib Require Import ZArith SpecFloat.

(** ** Storable values can be encoded *)

(** Induction over nested values. *)
Section json_nested.
Context (P : json → Prop).
Context (Hnull : P JNull) (Hbool : ∀ b, P (JBool b)) (Hint : ∀ z, P (JInt z)) (Hfloat : ∀ x, P (JFloat x))
  (Hstr : ∀ s, P (JStr s)) (Hlist : ∀ l, Forall P l → P (JList l)) (Hdict : ∀ d, Forall (λ kx, P kx.2) d → P (JDict d)).

Fixpoint json_nested (v : json) : P v :=
  match v with
  | JNull => Hnull
  | JBool b => Hbool b
  | JInt z => Hint z
  | JFloat x => Hfloat x
  | JStr s => Hstr s
  | JList l => Hlist l ((fix go (l : list json) : Forall P l :=
      match l with [] => Forall_nil_2 P | v :: l => Forall_cons_2 P v l (json_nested v) (go l) end) l)
  | JDict d => Hdict d ((fix go (d : list (pystr * json)) : Forall (λ kx, P kx.2) d :=
      match d with
      | [] => Forall_nil_2 _
      | (k, v) :: d => Forall_cons_2 (λ kx : pystr * json, P kx.2) (k, v) d (json_nested v) (go d)
      end) d)
  end.
End json_nested.

Notation ascii := (Forall (λ c, (c <? 128)%N = true)).

Lemma ascii_is_encodable s : ascii s → encodable s.
Proof. intros Hs. apply ascii_encodable. unfold is_ascii. apply forallb_forall. intros c Hc. by apply (proj1 (Forall_forall _ _) Hs), list_elem_of_In. Qed.

Lemma str_of_Z_ascii z : ascii (str_of_Z z).
Proof.
  assert (Hp : ∀ z, (0 ≤ z)%Z → ascii (str_of_Z z)).
  { intros y Hy. eapply Forall_impl; [by apply str_of_Z_digits|]. intros c. unfold is_digit, in_range.
    rewrite andb_true_iff, !N.leb_le, N.ltb_lt. lia. }
  destruct z as [|p|p]; [by apply Hp|by apply Hp|]. constructor; [done|]. by apply (Hp (Zpos p)).
Qed.

Lemma rstrip_p_ascii p s : ascii s → ascii (rstrip_p p s).
Proof.
  intros Hs%Forall_rev. unfold rstrip_p. apply Forall_rev. revert Hs. generalize (rev s). intros l.
  induction 1 as [|c l Hc Hl IH]; [constructor|]. simpl. destruct (p c); [done|by constructor].
Qed.

Lemma format_digits_ascii ds p : ascii ds → ascii (format_digits ds p).
Proof.
  intros Hd. unfold format_digits.
  repeat case_match; repeat apply Forall_app_2; try apply Forall_take; try apply Forall_drop; try apply Forall_replicate;
    try apply str_of_Z_ascii; try done; repeat constructor; try done; try (by apply Forall_drop).
Qed.

Lemma float_repr_ascii x : ascii (float_repr x).
Proof.
  destruct x as [s|s| |s m e]; try (destruct s; by repeat constructor); [by repeat constructor|].
  unfold float_repr. destruct (shortest m e) as [q ex]. apply Forall_app_2; [destruct s; by repeat constructor|].
  apply format_digits_ascii, rstrip_p_ascii, str_of_Z_ascii.
Qed.

Lemma text_encodable s : text s = true → encodable s.
Proof.
  unfold text, encodable. rewrite forallb_forall, Forall_forall. intros Hs c Hc%list_elem_of_In%Hs.
  apply andb_true_iff in Hc as [_ Hc%negb_true_iff]. unfold utf8_char. rewrite Hc. repeat case_match; eauto.
Qed.

Lemma jsonb_encodable v s : jsonb v = true → json_dumps v = Some s → encodable s.
Proof.
  revert s. induction v as [| [] | z | x | t | l IH | d IH] using json_nested; intros s Hv Hs;
    cbn [jsonb json_dumps] in Hv, Hs.
  - injection Hs as <-. by apply ascii_is_encodable; repeat constructor.
  - injection Hs as <-. by apply ascii_is_encodable; repeat constructor.
  - injection Hs as <-. by apply ascii_is_encodable; repeat constructor.
  - case_bool_decide; [done|]. injection Hs as <-. apply ascii_is_encodable, str_of_Z_ascii.
  - destruct (isfinite x); [|done]. injection Hs as <-. apply ascii_is_encodable, float_repr_ascii.
  - injection Hs as <-. by apply dump_string_encodable, text_encodable.
  - apply fmap_Some in Hs as (ss & Hss%all_some_Some & ->).
    rewrite !encodable_app, join_comma_encodable. split_and!; [by apply ascii_encodable| |by apply ascii_encodable].
    revert ss Hss Hv. induction IH as [|v l Hvl _ IHl]; intros [|s ss] Hss Hv; try done.
    injection Hss as Hs Hss. apply andb_true_iff in Hv as [Hv Hl]. constructor; [by apply Hvl|by apply IHl].
  - apply fmap_Some in Hs as (items & Hss%all_some_Some & ->). apply dump_items_encodable.
    revert items Hss Hv. induction IH as [|[k v] d Hvd _ IHd]; intros [|i items] Hss Hv; try done.
    injection Hss as Hs Hss. apply andb_true_iff in Hv as [[Hk Hv]%andb_true_iff Hd].
    apply fmap_Some in Hs as (t & Ht & ->). constructor; [|by apply IHd].
    split; [by apply dump_string_encodable, text_encodable|by apply Hvd].
Qed.

Lemma storable_encodes v : jsonb v = true → canonical_json_bytes v ≠ Raise UnicodeEncodeErr.
Proof.
  intros Hv. unfold canonical_json_bytes. destruct (json_dumps v) as [s|] eqn:Es; [|done].
  by destruct (proj2 (utf8_encode_is_Some s) (jsonb_encodable v s Hv Es)) as [b ->].
Qed.

(** ** Validated requests *)

Lemma type_pattern_text s : EventPublishRequest.type_pattern s = true → text s = true ∧ s ≠ [].
Proof.
  assert (Hc : ∀ c, is_lower c || is_digit c || (c =? 95)%N || (c =? 46)%N || (c =? 45)%N = true →
    negb (c =? 0)%N && negb (is_surrogate c) = true).
  { intros c. unfold is_lower, is_digit, is_surrogate, in_range.
    rewrite !orb_true_iff, !andb_true_iff, !negb_true_iff, andb_false_iff, !N.leb_le, !N.leb_gt, !N.eqb_eq, N.eqb_neq. lia. }
  unfold EventPublishRequest.type_pattern, text. destruct s as [|c s]; [done|].
  intros [Hl Hs]%andb_true_iff. split; [|done]. cbn [forallb]. rewrite Hc by (by rewrite Hl). cbn [andb].
  rewrite forallb_forall in Hs |- *. intros d Hd. by apply Hc, Hs.
Qed.

Lemma validated_publish parse_uuid body r :
  EventPublishRequest.model_validate parse_uuid body = Some r →
  varchar 255 (epr_type r) = true ∧ epr_type r ≠ [] ∧ length (epr_type r) ≤ 120.
Proof.
  unfold EventPublishRequest.model_validate. destruct (only_fields _ _); [|done].
  intros (v1 & _ & H)%bind_Some. apply bind_Some in H as (u & _ & H). apply bind_Some in H as (v2 & _ & H).
  apply bind_Some in H as (v3 & _ & H). apply bind_Some in H as (t & Ht & H). apply bind_Some in H as (v4 & _ & H).
  apply str_field_Some in Ht as [_ Hl]. destruct v4 as [| | | | | |data]; try done.
  destruct (EventPublishRequest.type_pattern t) eqn:Et; [|done]. injection H as <-. cbn [epr_type].
  apply type_pattern_text in Et as [Ht Hne]. split; [|split; [done|lia]].
  unfold varchar. rewrite Ht. apply bool_decide_eq_true_2. lia.
Qed.

Lemma validated_fits parse_uuid body r key :
  EventPublishRequest.model_validate parse_uuid body = Some r → header_key key = true →
  request_fits r key = jsonb (JDict (epr_data r)).
Proof.
  intros (Hv & Hne & _)%validated_publish (Hk & _ & Hkv)%header_key_spec. unfold request_fits. rewrite Hv, Hkv.
  cbn [andb]. destruct (epr_type r), key; try done. by rewrite !andb_true_r.
Qed.

Lemma str_of_uuid_text u : text (str_of_uuid u) = true.
Proof.
  apply forallb_forall. intros c Hc%list_elem_of_In. revert c Hc. apply Forall_forall, str_of_uuid_Forall; [|done].
  apply Forall_forall. intros c Hc%list_elem_of_In. revert c Hc. apply forallb_forall, hex_digits_text.
Qed.

Lemma validated_fingerprint parse_uuid body r :
  EventPublishRequest.model_validate parse_uuid body = Some r → jsonb (JDict (epr_data r)) = true →
  EventService.request_fingerprint r ≠ Raise UnicodeEncodeErr.
Proof.
  intros (Hv & _)%validated_publish Hd. unfold EventService.request_fingerprint, canonical_sha256.
  assert (Hj : jsonb (fingerprint_value (epr_endpoint_id r) (epr_type r) (JDict (epr_data r))) = true).
  { unfold varchar in Hv. apply andb_true_iff in Hv as [Ht _]. unfold fingerprint_value. cbn [jsonb forallb andb].
    fold (jsonb (JDict (epr_data r))).
    assert (Hu : text (str_of_uuid (epr_endpoint_id r)) = true) by apply str_of_uuid_text.
    rewrite Hu, Ht. cbn [jsonb] in Hd. by rewrite Hd. }
  apply storable_encodes in Hj. destruct (canonical_json_bytes _) as [b|[]]; done.
Qed.

(** ** Properties *)

(** C21: a validated publication is answered: the route accepts it with 202 and the identifiers of stored
    rows, or refuses it with a documented problem and changes nothing; an internal error needs data
    with text no column can hold (a NUL or a lone surrogate), or a digest collision between the
    fingerprints of two requests. *)
Theorem publish_answers parse_uuid body request env key db :
  inv db → EventPublishRequest.model_validate parse_uuid body = Some request → header_key key = true →
  events db !! uuid1 env = None → deliveries db !! uuid2 env = None →
  let '(answer, db') := publish_event env request key db in
  inv db' ∧
  match answer with
  | Ok reply =>
      rp_status reply = 202%Z ∧
      ∃ e d, events db' !! EventAcceptedResponse.event_id (rp_body reply) = Some e ∧
        deliveries db' !! EventAcceptedResponse.delivery_id (rp_body reply) = Some d ∧
        Delivery.event_id d = Event.id e ∧ Delivery.endpoint_id d = epr_endpoint_id request ∧
        Delivery.replay_generation d = 0%Z
  | Raise e =>
      db' = db ∧
      (is_domain e = true ∨
       (jsonb (JDict (epr_data request)) = false ∧ (e = UnicodeEncodeErr ∨ ∃ msg, e = DataErr msg)) ∨
       (e = RuntimeErr (lit "accepted event is missing its initial delivery") ∧
        ∃ ev d, events db !! Event.id ev = Some ev ∧ deliveries db !! Delivery.id d = Some d ∧
          Delivery.event_id d = Event.id ev ∧ Delivery.endpoint_id d ≠ epr_endpoint_id request ∧
          EventService.request_fingerprint request =
            canonical_sha256 (fingerprint_value (Delivery.endpoint_id d) (Event.event_type ev) (Event.payload ev))))
  end.
Proof.
  intros Hinv Hval Hkey Hf1 Hf2. pose proof Hkey as (Hk & Hne & _)%header_key_spec.
  pose proof Hval as (_ & Hty & _)%validated_publish.
  unfold publish_event. destruct (strip key) as [|c s]; [done|]. unfold handler.
  pose proof (publish_preserves env request key db Hinv Hf1 Hf2 Hty Hk) as H.
  destruct (run_tx (EventService.publish env request key) db) as [[p|e] db'] eqn:Hrun; destruct H as [Hinv' H];
    split; [done| |done|].
  - split; [done|]. cbn [rp_body EventAcceptedResponse.event_id EventAcceptedResponse.delivery_id].
    pose proof (inv_ok db Hinv) as Hok. apply run_tx_Ok in Hrun.
    apply publish_Ok in Hrun as (ep & fp & b & Hep & _ & _ & _ & _ & Hcase); [|done].
    destruct Hcase as [(_ & _ & _ & _ & -> & -> & _)|(e & d & He & _ & _ & Hd & [Hc1 Hc2] & Hg & -> & ->)].
    + eexists _, _. cbn. rewrite !lookup_insert_eq. split_and!; try done.
      by apply (endpoint_row_id request db Hok ep).
    + by exists e, d.
  - destruct H as [-> H]. split; [done|]. destruct H as [H|[[-> H]|[[H [msg ->]]|H]]]; [by left| | |by right; right].
    + right. left. split; [|by left]. apply not_true_is_false. intros Hj. by eapply validated_fingerprint.
    + right. left. split; [|by eauto]. by rewrite <- (validated_fits parse_uuid body request key).
Qed.

(** ** Witness *)

Definition lab_publish_body : list (pystr * json) :=
  [(lit "endpoint_id", JStr (str_of_uuid 7)); (lit "type", JStr (lit " order.created "));
   (lit "data", JDict (epr_data lab_request))].

Lemma publish_answers_witness :
  EventPublishRequest.model_validate uuid_of_str lab_publish_body = Some lab_request ∧
  rp_status <$> (publish_event lab_env lab_request lab_key lab_db).1 = Ok 202%Z.
Proof.
  split; [vm_compute; reflexivity|].
  pose proof (publish_answers uuid_of_str lab_publish_body lab_request lab_env lab_key lab_db lab_inv
    ltac:(vm_compute; reflexivity) ltac:(vm_compute; reflexivity) eq_refl eq_refl) as H.
  destruct (publish_event _ _ _ _) as [[reply|e] db'] eqn:E; [|by vm_compute in E].
  destruct H as (_ & H & _). cbn. by rewrite H.
Defined.
