(* ===== verification/ApiExamples.v ===== *)
(** The Control Room and the API on a concrete history: a delivery is dead-lettered because an
    operator had disabled its endpoint, listed, and replayed. *)
From S2P Require Import Prelude PyStr Errors Floats Json Retry StateMachine Models Datetime Database Repositories.
From S2P Require Import Invariant Transport Config Worker Claiming Generations Services Fixtures Publishing Replaying Maintenance.
From S2P Require Import System Examples Codecs Cursor Paging ControlRoom Listings Schemas Routers Responses.
From Stdlib Require Import ZArith.

(** ** The history *)

Definition off_db : Db := switch_endpoint 7 false lab_accepted.
Definition dropped_db : Db := Eval vm_compute in (run_tx (claim_one lab_worker lab_claim_env) off_db).2.
Definition on_db : Db := Eval vm_compute in switch_endpoint 7 true dropped_db.

Lemma off_fresh : claim_fresh lab_claim_env off_db.
Proof. split; [reflexivity|]. intros k a Ha. vm_compute in Ha. done. Qed.

Lemma dropped_reachable : reachable lab_base default_settings (mkState dropped_db [] []).
Proof.
  eapply rtc_r.
  - eapply rtc_r; [apply lab_accepted_reachable|]. apply (step_operator lab_base default_settings 7 false lab_accepted [] []).
  - pose proof (step_claim lab_base default_settings lab_worker lab_claim_env off_db [] [] lab_worker_ok eq_refl
      lab_near off_fresh (not_elem_of_nil _)) as H.
    assert (E : mkState (run_tx (claim_one lab_worker lab_claim_env) off_db).2
      (claimed lab_worker (run_tx (claim_one lab_worker lab_claim_env) off_db).1 []) [] = mkState dropped_db [] [])
      by (vm_compute; reflexivity).
    rewrite E in H. exact H.
Qed.

Lemma on_reachable : reachable lab_base default_settings (mkState on_db [] []).
Proof.
  eapply rtc_r; [apply dropped_reachable|].
  pose proof (step_operator lab_base default_settings 7 true dropped_db [] []) as H.
  assert (E : switch_endpoint 7 true dropped_db = on_db) by (vm_compute; reflexivity).
  rewrite E in H. exact H.
Qed.

Lemma on_inv : inv on_db.
Proof. apply (si_db _ _ _ (reachable_inv lab_base default_settings lab_fields _ on_reachable)). Qed.

Lemma dropped_db_inv : inv dropped_db.
Proof. apply (si_db _ _ _ (reachable_inv lab_base default_settings lab_fields _ dropped_reachable)). Qed.

(** ** The lists *)

Definition lab_iso : iso_parser := known_timestamps [0; 1700000000000000; lab_now]%Z.

Definition lab_event_row : EventListRecord :=
  Eval vm_compute in
  match ControlRoomRepository.event_rows None None None on_db with
  | [r] => r
  | _ => mkEventListRecord (Event.mk 0 [] [] [] JNull [] [] [] 0) lab_dead_delivery lab_endpoint
  end.

(** The history has one delivery, [101]. *)
Lemma on_only k d : deliveries on_db !! k = Some d → d = el_latest_delivery lab_event_row.
Proof.
  intros Hd. assert (Hk : k ∈ dom (deliveries on_db)) by (apply elem_of_dom; eauto).
  assert (Edom : dom (deliveries on_db) = {[101%N]}) by (vm_compute; reflexivity).
  rewrite Edom in Hk. apply elem_of_singleton in Hk as ->. vm_compute in Hd. by injection Hd as <-.
Qed.

Lemma on_latest : latest on_db (el_latest_delivery lab_event_row).
Proof. intros k d ->%on_only _. lia. Qed.

Lemma lab_events_readable : readable lab_iso event_key (ControlRoomRepository.event_rows None None None on_db).
Proof.
  assert (E : ControlRoomRepository.event_rows None None None on_db = [lab_event_row]) by (vm_compute; reflexivity).
  rewrite E. apply Forall_singleton. split; [split|]; vm_compute; reflexivity.
Qed.

Lemma overview_consistent_witness :
  ∃ o, ControlRoomRepository.overview lab_now on_db = Ok (o, on_db) ∧ total (deliveries_by_status o) = 1 ∧
    (DEAD_LETTERED, 1) ∈ deliveries_by_status o.
Proof.
  destruct (overview_consistent lab_now on_db on_inv) as (o & Ho & He & _ & _ & _ & _ & Ht & Hd).
  exists o. split; [exact Ho|]. injection Ho as <-. split; [rewrite Ht; vm_compute; reflexivity|].
  apply Hd. split; [discriminate|vm_compute; reflexivity].
Defined.

Lemma events_listed_witness :
  ∃ ps, follow 2 (ControlRoomQueryService.events_page lab_iso 1 None None None) None on_db = Ok (ps, on_db) ∧
    lab_event_row ∈ mjoin (items <$> ps).
Proof.
  destruct (events_listed lab_iso 1 None None None on_db on_inv ltac:(lia) lab_events_readable) as (ps & Hps & _ & _ & H).
  exists ps. split; [exact Hps|].
  apply (H 100%N (el_event lab_event_row) (el_latest_delivery lab_event_row) (el_endpoint lab_event_row));
    try (vm_compute; reflexivity); [|by split_and!].
  exact on_latest.
Defined.

Lemma endpoints_listed_witness :
  ∃ ps, follow 2 (ControlRoomQueryService.endpoints_page lab_iso 1) None lab_db = Ok (ps, lab_db) ∧
    lab_endpoint ∈ mjoin (items <$> ps).
Proof.
  assert (E : ControlRoomRepository.endpoint_rows lab_db = [lab_endpoint]) by (vm_compute; reflexivity).
  assert (Hr : readable lab_iso endpoint_key (ControlRoomRepository.endpoint_rows lab_db)).
  { rewrite E. apply Forall_singleton. split; [split|]; vm_compute; reflexivity. }
  destruct (endpoints_listed lab_iso 1 lab_db lab_inv ltac:(lia) Hr) as (ps & Hps & _ & H).
  exists ps. split; [exact Hps|]. apply H. reflexivity.
Defined.

(** ** The dead letter *)

Definition lab_row : DeadLetterRecord :=
  Eval vm_compute in
  match ControlRoomRepository.dead_letter_rows None on_db with
  | [r] => r
  | _ => mkDeadLetterRecord (el_event lab_event_row) lab_dead_delivery lab_endpoint None None
  end.

Lemma lab_rows : ControlRoomRepository.dead_letter_rows None on_db = [lab_row].
Proof. vm_compute. reflexivity. Qed.

Lemma dead_letters_listed_witness :
  ∃ ps, follow 2 (ControlRoomQueryService.dead_letters lab_iso 1 None) None on_db = Ok (ps, on_db) ∧
    ∃ r, r ∈ mjoin (items <$> ps) ∧ dl_delivery r = dl_delivery lab_row.
Proof.
  assert (Hr : readable lab_iso dead_letter_key (ControlRoomRepository.dead_letter_rows None on_db)).
  { rewrite lab_rows. apply Forall_singleton. split; [split|]; vm_compute; reflexivity. }
  destruct (dead_letters_listed lab_iso 1 None on_db on_inv ltac:(lia) Hr) as (ps & Hps & _ & H & _).
  exists ps. split; [exact Hps|]. apply H. split; [vm_compute; reflexivity|].
  split; [exact on_latest|split; vm_compute; reflexivity].
Defined.

(** The same delivery is blocked while the endpoint is off, and replayable once it is on. *)
Definition lab_off_row : DeadLetterRecord :=
  Eval vm_compute in
  match ControlRoomRepository.dead_letter_rows None dropped_db with
  | [r] => r
  | _ => lab_row
  end.

Lemma lab_unused db k' d : deliveries db = deliveries on_db → deliveries db !! k' = Some d →
  ¬ DeliveryRepository.by_replay_request 101 lab_replay_key d.
Proof. intros -> Hd [Hb _]. apply on_only in Hd as ->. vm_compute in Hb. done. Qed.

Lemma dead_letter_flags_witness :
  (∃ reply, (replay_delivery lab_replay_env 101 lab_replay_key on_db).1 = Ok reply ∧
     ReplayAcceptedResponse.replay_generation (rp_body reply) = 1%Z) ∧
  (∃ e, (replay_delivery lab_replay_env 101 lab_replay_key dropped_db).1 = Raise (DomainExn e) ∧
     code e = lit "endpoint_disabled").
Proof.
  split.
  - destruct (_dead_letter_response lab_row) as [item|] eqn:Ei; [|by vm_compute in Ei].
    pose proof (dead_letter_flags lab_replay_env lab_replay_key on_db None lab_row item on_inv
      ltac:(rewrite lab_rows; left) Ei eq_refl eq_refl eq_refl (λ k' d, lab_unused on_db k' d eq_refl)) as H.
    change (Delivery.id (dl_delivery lab_row)) with 101%N in H.
    destruct (replay_delivery _ _ _ _) as [answer db'].
    assert (Hb : DeadLetterItemResponse.blocked_code item = None) by (vm_compute in Ei; by injection Ei as <-).
    rewrite Hb in H. destruct H as (_ & reply & -> & _ & _ & Hg & _). by exists reply.
  - destruct (_dead_letter_response lab_off_row) as [item|] eqn:Ei; [|by vm_compute in Ei].
    assert (E : ControlRoomRepository.dead_letter_rows None dropped_db = [lab_off_row]) by (vm_compute; reflexivity).
    pose proof (dead_letter_flags lab_replay_env lab_replay_key dropped_db None lab_off_row item dropped_db_inv
      ltac:(rewrite E; left) Ei eq_refl eq_refl eq_refl (λ k' d, lab_unused dropped_db k' d eq_refl)) as H.
    change (Delivery.id (dl_delivery lab_off_row)) with 101%N in H.
    destruct (replay_delivery _ _ _ _) as [answer db'].
    assert (Hb : DeadLetterItemResponse.blocked_code item = Some ENDPOINT_DISABLED)
      by (vm_compute in Ei; by injection Ei as <-).
    rewrite Hb in H. destruct H as (_ & _ & e & -> & _ & Hc). by exists e.
Defined.

(** ** The repeated request *)

Definition replayed_db : Db := Eval vm_compute in (replay_delivery lab_replay_env 101 lab_replay_key on_db).2.

Definition lab_reply : Reply ReplayAcceptedResponse.t :=
  Eval vm_compute in
  match (replay_delivery lab_replay_env 101 lab_replay_key on_db).1 with
  | Ok reply => reply
  | Raise _ => mkReply 0 [] (ReplayAcceptedResponse.mk 0 0 0 0 0 PENDING 0)
  end.

Definition lab_later : datetime := 1700000200000000.
Definition lab_claim_env2 : ClaimEnv := mkClaimEnv lab_later (λ _, lab_later) lab_later 500 501 [] [].

(** A worker has claimed the new generation, so it is in progress when the request is repeated. *)
Lemma replay_answer_stable_witness :
  ∃ s2, Delivery.status <$> deliveries (st_db s2) !! 300%N = Some IN_PROGRESS ∧
    rp_body <$> (replay_delivery (mkEnv 400 401 0 0) 101 lab_replay_key (st_db s2)).1 = Ok (rp_body lab_reply).
Proof.
  assert (Hrun : replay_delivery lab_replay_env 101 lab_replay_key on_db = (Ok lab_reply, replayed_db))
    by (vm_compute; reflexivity).
  assert (Hfresh : claim_fresh lab_claim_env2 replayed_db)
    by (split; [reflexivity|]; intros k a Ha; vm_compute in Ha; done).
  assert (Hnear : near lab_later) by (split; vm_compute; discriminate).
  pose proof (step_claim lab_base default_settings lab_worker lab_claim_env2 replayed_db [] [] lab_worker_ok eq_refl
    Hnear Hfresh (not_elem_of_nil _)) as Hstep.
  exists (mkState (run_tx (claim_one lab_worker lab_claim_env2) replayed_db).2
      (claimed lab_worker (run_tx (claim_one lab_worker lab_claim_env2) replayed_db).1 []) []).
  split; [vm_compute; reflexivity|].
  rewrite (replay_answer_stable lab_base default_settings (mkState on_db [] []) _ lab_replay_env (mkEnv 400 401 0 0) 101
    lab_replay_key lab_reply replayed_db lab_fields on_reachable eq_refl ltac:(discriminate) Hrun); [reflexivity| |reflexivity].
  apply rtc_once. split; [exact Hstep|]. split; vm_compute; eexists; reflexivity.
Defined.

(** A retention run during which an operator replays the dead letter it has already selected: the run is
    a sequence of steps, and the new generation is gone with its event. *)
Definition lab_others (_ : nat) (db : Db) : Db := (run_tx (ReplayService.replay lab_replay_env 101 lab_replay_key) db).2.

Lemma lab_others_ok : others_ok lab_base default_settings [] [] (Z.to_nat 1) lab_others lab_cutoff 500 1 0 on_db.
Proof.
  split; [|by destruct (_delete_terminal_event_batch _ _ _ _) as [[n db']|e]].
  apply rtc_once, (step_replay lab_base default_settings lab_replay_env 101 lab_replay_key on_db []);
    [vm_compute; reflexivity|discriminate].
Qed.

Lemma purge_refines_witness :
  ∃ db', run_tx (purge_expired_demo_events true lab_others (Some lab_cutoff) 500 1) on_db =
      (Ok (mkCleanupResult true 1 1), db') ∧
    retention_run lab_base default_settings [] [] lab_cutoff 500 1 0 0 on_db 1 1 db' ∧
    rtc (step lab_base default_settings) (mkState on_db [] []) (mkState db' [] []) ∧ deliveries db' !! 300%N = None.
Proof.
  destruct (purge_refines lab_base default_settings lab_others lab_cutoff 500 1 on_db [] [] lab_fields on_reachable
    ltac:(lia) ltac:(lia) lab_others_ok) as (n & b & db' & Hrun & Hround & Hsteps).
  assert (E : (run_tx (purge_expired_demo_events true lab_others (Some lab_cutoff) 500 1) on_db).1 =
    Ok (mkCleanupResult true 1 1)) by (vm_compute; reflexivity).
  rewrite Hrun in E. injection E as -> ->.
  exists db'. split; [exact Hrun|]. split; [exact Hround|]. split; [exact Hsteps|].
  change db' with (Ok (mkCleanupResult true 1 1), db').2. rewrite <- Hrun. vm_compute. reflexivity.
Defined.

(** A worker has claimed the published delivery when the publication is repeated. *)
Lemma publish_answer_stable_witness :
  rp_headers <$> (publish_event (mkEnv 400 401 0 0) lab_request lab_key (st_db lab_state)).1 =
    Ok [(lit "X-EventHarbor-Idempotent-Replay", lit "true"); (lit "Location", lit "/v1/events/" ++ str_of_uuid 100)] ∧
  EventAcceptedResponse.status <$> (rp_body <$> (publish_event (mkEnv 400 401 0 0) lab_request lab_key (st_db lab_state)).1) =
    Ok IN_PROGRESS.
Proof.
  assert (Hreach : reachable lab_base default_settings (mkState lab_db [] [])).
  { apply rtc_once. pose proof (step_create lab_base default_settings (lit "ehsec_demo") (mkEnv 7 0 0 0) 0
      (mkEndpointCreateRequest (lit "orders") (lit "http://receiver-lab:8100/webhooks/orders")) empty_db [] []) as H.
    assert (E : (run_tx (EndpointService.create lab_base (lit "ehsec_demo") (mkEnv 7 0 0 0) 0
      (mkEndpointCreateRequest (lit "orders") (lit "http://receiver-lab:8100/webhooks/orders"))) empty_db).2 = lab_db)
      by (vm_compute; reflexivity).
    rewrite E in H. exact H. }
  assert (Hsel : ∀ ids, ids ∈ st_selected (mkState lab_db [] []) → uuid1 lab_env ∉ ids)
    by (intros ids Hin; by apply elem_of_nil in Hin).
  destruct (publish_event lab_env lab_request lab_key lab_db) as [answer db1] eqn:E.
  assert (Edb : db1 = lab_accepted)
    by (change db1 with (answer, db1).2; rewrite <- E; vm_compute; reflexivity).
  assert (Eok : is_ok answer = true) by (change answer with (answer, db1).1; rewrite <- E; vm_compute; reflexivity).
  destruct answer as [reply|]; [|discriminate].
  assert (Ed : EventAcceptedResponse.delivery_id (rp_body reply) = 101%N ∧ EventAcceptedResponse.event_id (rp_body reply) = 100%N).
  { assert (Er : Ok reply = (publish_event lab_env lab_request lab_key lab_db).1) by (rewrite E; reflexivity).
    vm_compute in Er. injection Er as ->. split; reflexivity. }
  destruct Ed as [Ed Ee]. subst db1.
  pose proof (publish_answer_stable lab_base default_settings (mkState lab_db [] []) lab_state lab_env (mkEnv 400 401 0 0)
    lab_request lab_key reply lab_accepted lab_fields Hreach) as H.
  cbn [st_db st_flights st_selected] in H. specialize (H ltac:(vm_compute; reflexivity) ltac:(vm_compute; reflexivity) Hsel E).
  destruct H as (d2 & Hd2 & Hrun).
  - rewrite Ed. apply rtc_once. split; [exact lab_claim_step|]. split; vm_compute; eexists; reflexivity.
  - vm_compute. reflexivity.
  - rewrite Hrun, Ee. split; [reflexivity|]. rewrite Ed in Hd2.
    change (deliveries lab_claimed !! OutboundWebhook.delivery_id lab_webhook = Some d2) in Hd2.
    rewrite lab_held_row in Hd2. injection Hd2 as <-. reflexivity.
Defined.

(** A cursor whose timestamp is aware, but has no instant in the calendar: [0001-01-01T00:00:00+14:00]. *)
Definition far_text : pystr := lit "0001-01-01T00:00:00+14:00".
Definition far_iso : iso_parser := λ s,
  if eqb_str s far_text then Some (IsoAware (datetime_min - 50400000000)) else lab_iso s.
Definition far_cursor : pystr :=
  rstrip_p (λ c, (c =? 61)%N) (b64_encode (ascii_encode (ascii_object
    [(lit "v", str_of_Z 1); (lit "timestamp", ascii_string far_text); (lit "id", ascii_string (str_of_uuid 0))]))).

Lemma operator_answers_witness :
  (∃ reply, (list_dead_letters far_iso 1 None None on_db).1 = Ok reply) ∧
  (list_dead_letters far_iso 1 (Some (lit "x")) None on_db).1 = Raise invalid_cursor ∧
  (∃ msg, (list_dead_letters far_iso 1 (Some far_cursor) None on_db).1 = Raise (DataErr msg)).
Proof.
  assert (Hgen : ∀ d, deliveries on_db !! 101%N = Some d → int4 (Delivery.replay_generation d + 1) = true)
    by (intros d Hd; vm_compute in Hd; injection Hd as <-; reflexivity).
  pose proof (λ cursor, operator_answers lab_base default_settings (mkState on_db [] []) far_iso 1 cursor None lab_replay_env
    101 lab_replay_key lab_fields on_reachable eq_refl eq_refl Hgen) as H. cbn [st_db] in H.
  assert (Hno : decode_cursor far_iso (Some (lit "x")) = Raise invalid_cursor) by (vm_compute; reflexivity).
  assert (Hfar : decode_cursor far_iso (Some far_cursor) = Ok (Some (mkPageCursor (datetime_min - 50400000000) 0)))
    by (vm_compute; reflexivity).
  split; [|split].
  - destruct (H None) as [Ha _]. destruct (list_dead_letters far_iso 1 None None on_db) as [answer db'].
    destruct Ha as [_ Ha]. exact Ha.
  - destruct (H (Some (lit "x"))) as [Ha _]. destruct (list_dead_letters far_iso 1 (Some (lit "x")) None on_db) as [answer db'].
    destruct Ha as [_ Ha]. rewrite Hno in Ha. exact Ha.
  - destruct (H (Some far_cursor)) as [Ha _]. destruct (list_dead_letters far_iso 1 (Some far_cursor) None on_db) as [answer db'].
    destruct Ha as [_ Ha]. rewrite Hfar in Ha. exact Ha.
Defined.
