(* ===== verification/Demo.v ===== *)
(** [demo.py]: the named scenarios of Receiver Lab, and the service that applies and reads them over
    HTTP.

    The client is an argument with a state of its own, and so are the pydantic validators of the two
    response models.  The composition at the end runs the service against the receiver itself
    ([ReceiverLab]), with the rendering of its records as an argument and the field constraints of
    the models as the law of the validators. *)
From S2P Require Import Prelude PyStr Errors Floats FloatConv Json DemoRuns Models Datetime Services Codecs Sha256 Config ReceiverLab.
From S2P Require Import Schemas Routers.
From Stdlib Require Import ZArith.

(** ** Scenarios *)

Record ReceiverScenario := mkReceiverScenario {
  sc_mode : pystr;
  sc_failures_before_success : Z;
  sc_delay_ms : Z
}.

Definition as_payload (s : ReceiverScenario) : list (pystr * json) :=
  [(lit "mode", JStr (sc_mode s)); (lit "failures_before_success", JInt (sc_failures_before_success s));
   (lit "delay_ms", JInt (sc_delay_ms s))].

(** [schemas.ReceiverLabPreset] *)
Inductive ReceiverLabPreset :=
| PRESET_SUCCESS
| PRESET_RETRY_THEN_RECOVER
| PRESET_RATE_LIMITED
| PRESET_RATE_LIMIT_THEN_RECOVER
| PRESET_TIMEOUT
| PRESET_PERMANENT_FAILURE
| PRESET_DEAD_LETTER.

#[export] Instance ReceiverLabPreset_eq_dec : EqDecision ReceiverLabPreset.
Proof. solve_decision. Defined.

Definition ReceiverLabPreset_value (p : ReceiverLabPreset) : pystr :=
  match p with
  | PRESET_SUCCESS => lit "success"
  | PRESET_RETRY_THEN_RECOVER => lit "retry_then_recover"
  | PRESET_RATE_LIMITED => lit "rate_limited"
  | PRESET_RATE_LIMIT_THEN_RECOVER => lit "rate_limit_then_recover"
  | PRESET_TIMEOUT => lit "timeout"
  | PRESET_PERMANENT_FAILURE => lit "permanent_failure"
  | PRESET_DEAD_LETTER => lit "dead_letter"
  end.

Definition SCENARIOS : list (ReceiverLabPreset * ReceiverScenario) :=
  [(PRESET_SUCCESS, mkReceiverScenario (lit "success") 0 0);
   (PRESET_RETRY_THEN_RECOVER, mkReceiverScenario (lit "fail_then_succeed") 2 0);
   (PRESET_RATE_LIMITED, mkReceiverScenario (lit "rate_limited") 0 0);
   (PRESET_RATE_LIMIT_THEN_RECOVER, mkReceiverScenario (lit "rate_limited") 2 0);
   (PRESET_TIMEOUT, mkReceiverScenario (lit "timeout") 0 7000);
   (PRESET_PERMANENT_FAILURE, mkReceiverScenario (lit "permanent_failure") 0 0);
   (PRESET_DEAD_LETTER, mkReceiverScenario (lit "fail_then_succeed") 20 0)].

(** [SCENARIOS[preset]]; every preset has its entry. *)
Definition scenario (p : ReceiverLabPreset) : ReceiverScenario :=
  match List.find (λ item, bool_decide (item.1 = p)) SCENARIOS with
  | Some item => item.2
  | None => mkReceiverScenario [] 0 0
  end.

(** [schemas.ReceiverLabConfigurationResponse] *)
Record ReceiverLabConfigurationResponse := mkConfigurationResponse {
  cr_mode : pystr;
  cr_failures_before_success : Z;
  cr_delay_ms : Z
}.

(** [_identify_preset] *)
Definition _identify_preset (c : ReceiverLabConfigurationResponse) : option ReceiverLabPreset :=
  fst <$> List.find (λ item,
    eqb_str (cr_mode c) (sc_mode item.2) &&
    (cr_failures_before_success c =? sc_failures_before_success item.2)%Z &&
    (cr_delay_ms c =? sc_delay_ms item.2)%Z) SCENARIOS.

Definition _unavailable : exn :=
  domain_error 503 (lit "receiver_lab_unavailable") (lit "Receiver Lab is unavailable")
    (lit "The local Receiver Lab did not return a valid response. Check its service health.").

(** [_run_params] *)
Definition _run_params (run_id : option pystr) : outcome (option pystr) :=
  match run_id with
  | None => Ok None
  | Some run_id =>
      if bool_decide (normalized_demo_run_id (Some (JStr run_id)) = Some run_id) then Ok (Some run_id)
      else Raise (ValueErr (lit "run_id must be a bounded, header-safe identifier"))
  end.

(** [int(value)] of a JSON value; a container or a null is a [TypeError]. *)
Definition py_int (value : json) : outcome Z :=
  match value with
  | JInt z => Ok z
  | JBool b => Ok (if b then 1 else 0)%Z
  | JFloat x => float_trunc x
  | JStr s => match int_base10 s with Some z => Ok z | None => Raise (ValueErr (lit "invalid literal for int()")) end
  | _ => Raise (TypeErr (lit "int() argument must be a string or a real number"))
  end.

(** ** The service *)

Inductive demo_method := GET | PUT.

Record DemoRequest := mkDemoRequest {
  dr_method : demo_method;
  dr_path : pystr;
  dr_json : option (list (pystr * json));
  dr_run_id : option pystr
}.

(** What the client returns: an [httpx.HTTPError], or a status with a body that is JSON or not. *)
Inductive demo_answer :=
| HttpError
| Answered (status : Z) (body : option json).

Section service.
Context {S : Type} (client : DemoRequest → S → demo_answer * S).
Context {R : Type} (validate_configuration : json → option ReceiverLabConfigurationResponse)
  (validate_request : json → option R).

Record ReceiverLabStateResponse := mkStateResponse {
  sr_preset : option ReceiverLabPreset;
  sr_configuration : ReceiverLabConfigurationResponse;
  sr_attempts : Z;
  sr_requests : list R
}.

(** [_request] *)
Definition _request (r : DemoRequest) (s : S) : outcome (list (pystr * json)) * S :=
  let '(answer, s) := client r s in
  (match answer with
   | Answered status (Some (JDict payload)) =>
       if (200 <=? status)%Z && (status <=? 299)%Z then Ok payload else Raise _unavailable
   | _ => Raise _unavailable
   end, s).

(** The exceptions [state] maps to [_unavailable]. *)
Definition caught {A : Type} (m : outcome A) : outcome A :=
  match m with
  | Raise (ValueErr _) | Raise (TypeErr _) => Raise _unavailable
  | m => m
  end.

Fixpoint validate_all (l : list json) : option (list R) :=
  match l with
  | [] => Some []
  | v :: l => r ← validate_request v; rs ← validate_all l; Some (r :: rs)
  end.

(** The validation of a payload in [state]; a missing key is a [KeyError], which is caught too. *)
Definition read_state (payload : list (pystr * json)) : outcome ReceiverLabStateResponse :=
  match dict_get payload (lit "configuration") ≫= validate_configuration, dict_get payload (lit "attempts") with
  | Some configuration, Some attempts =>
      attempts ← caught (py_int attempts);
      match default (JList []) (dict_get payload (lit "requests")) with
      | JList raw_requests =>
          match validate_all (last_entries 20 raw_requests) with
          | Some requests => Ok (mkStateResponse (_identify_preset configuration) configuration attempts requests)
          | None => Raise _unavailable
          end
      | _ => Raise _unavailable
      end
  | _, _ => Raise _unavailable
  end.

(** [state] *)
Definition state (run_id : option pystr) (s : S) : outcome ReceiverLabStateResponse * S :=
  match _run_params run_id with
  | Raise e => (Raise e, s)
  | Ok params =>
      let '(payload, s) := _request (mkDemoRequest GET (lit "/control") None params) s in
      (payload ← payload; read_state payload, s)
  end.

(** [configure] *)
Definition configure_preset (preset : ReceiverLabPreset) (run_id : option pystr) (s : S)
  : outcome ReceiverLabStateResponse * S :=
  match _run_params run_id with
  | Raise e => (Raise e, s)
  | Ok params =>
      match _request (mkDemoRequest PUT (lit "/control") (Some (as_payload (scenario preset))) params) s with
      | (Raise e, s) => (Raise e, s)
      | (Ok _, s) => state run_id s
      end
  end.

(** ** The routes of [routers/v1.py]

    [schemas.ReceiverLabPresetRequest] *)
Definition preset_request (body : list (pystr * json)) : option ReceiverLabPreset :=
  if only_fields [lit "preset"] body then
    match dict_get body (lit "preset") with
    | Some (JStr value) => List.find (λ p, eqb_str (ReceiverLabPreset_value p) value) SCENARIOS.*1
    | _ => None
    end
  else None.

Definition get_receiver_lab_state (run_id : option pystr) (s : S) : outcome (Reply ReceiverLabStateResponse) * S :=
  let '(result, s) := state run_id s in
  (result ← result; mret (mkReply 200 no_store result), s).

Definition configure_receiver_lab (preset : ReceiverLabPreset) (run_id : option pystr) (s : S)
  : outcome (Reply ReceiverLabStateResponse) * S :=
  let '(result, s) := configure_preset preset run_id s in
  (result ← result; mret (mkReply 200 no_store result), s).
End service.
Arguments mkStateResponse {R} sr_preset sr_configuration sr_attempts sr_requests.
Arguments sr_preset {R} r.
Arguments sr_configuration {R} r.
Arguments sr_attempts {R} r.
Arguments sr_requests {R} r.

(** ** The receiver behind the client *)

(** [ReceiverConfiguration.model_validate] on a body with its three fields. *)
Definition mode_of (value : pystr) : option ReceiverMode :=
  List.find (λ m, eqb_str (ReceiverMode_value m) value)
    [MODE_SUCCESS; MODE_FAIL_THEN_SUCCEED; MODE_RATE_LIMITED; MODE_TIMEOUT; MODE_PERMANENT_FAILURE].

Definition configuration_of (body : list (pystr * json)) : option ReceiverConfiguration :=
  match dict_get body (lit "mode"), dict_get body (lit "failures_before_success"), dict_get body (lit "delay_ms") with
  | Some (JStr m), Some (JInt failures), Some (JInt delay) =>
      m ← mode_of m;
      let c := mkReceiverConfiguration m failures delay in
      if configuration_fields c then Some c else None
  | _, _, _ => None
  end.

(** [configuration.model_dump()] *)
Definition configuration_json (c : ReceiverConfiguration) : json :=
  JDict [(lit "mode", JStr (ReceiverMode_value (mode c)));
         (lit "failures_before_success", JInt (failures_before_success c)); (lit "delay_ms", JInt (delay_ms c))].

(** The constraints of [schemas.ReceiverLabRequestResponse] on the values of its fields; in the engine that
    pydantic uses, [$] is the end of the text. *)
Definition request_fields (rq : ReceivedRequest) : bool :=
  (1 <=? rq_sequence rq)%Z && (1 <=? rq_attempt rq)%Z && nullable (λ n, 1 <=? n)%Z (rq_delivery_attempt rq) &&
  nullable (λ t, 0 <=? t)%Z (rq_request_timestamp rq) &&
  (100 <=? rq_response_status_code rq)%Z && (rq_response_status_code rq <=? 599)%Z &&
  (bool_decide (length (rq_body_sha256 rq) = 64) && forallb (λ c, is_digit c || in_range 97 102 c) (rq_body_sha256 rq)).

(** What the framework hands to the webhook handler: texts that have an encoding, and a time of the
    calendar. *)
Definition encodable (s : pystr) : bool := forallb (λ c, negb (is_surrogate c)) s.

Definition recordable (rq : ReceivedRequest) : bool :=
  nullable encodable (rq_event_id rq) && nullable encodable (rq_delivery_id rq) && nullable encodable (rq_event_type rq) &&
  encodable (rq_receiver_route rq) && encodable (rq_receiver_mode rq) && encodable (rq_body_preview rq) &&
  in_calendar (rq_received_at rq).

(** The entry of a request as JSON; [render_time] is the framework's text of a datetime. *)
Definition nullable_json {A : Type} (f : A → json) (value : option A) : json :=
  match value with Some v => f v | None => JNull end.

Definition request_json (render_time : datetime → pystr) (rq : ReceivedRequest) : json :=
  JDict [(lit "sequence", JInt (rq_sequence rq)); (lit "attempt", JInt (rq_attempt rq));
         (lit "event_id", nullable_json JStr (rq_event_id rq)); (lit "delivery_id", nullable_json JStr (rq_delivery_id rq));
         (lit "event_type", nullable_json JStr (rq_event_type rq)); (lit "receiver_route", JStr (rq_receiver_route rq));
         (lit "delivery_attempt", nullable_json JInt (rq_delivery_attempt rq));
         (lit "request_timestamp", nullable_json JInt (rq_request_timestamp rq));
         (lit "received_at", JStr (render_time (rq_received_at rq)));
         (lit "response_status_code", JInt (rq_response_status_code rq)); (lit "receiver_mode", JStr (rq_receiver_mode rq));
         (lit "signature_present", JBool (rq_signature_present rq)); (lit "body_preview", JStr (rq_body_preview rq));
         (lit "body_sha256", JStr (rq_body_sha256 rq))].

Section receiver.
Context (render_time : datetime → pystr).

(** The control routes of the receiver. *)
Definition receiver_app (r : DemoRequest) (st : ReceiverState) : demo_answer * ReceiverState :=
  match dr_method r with
  | GET =>
      let '((c, attempts, requests), st) := control_state (dr_run_id r) st in
      (Answered 200 (Some (JDict [(lit "configuration", configuration_json c); (lit "attempts", JInt attempts);
                                  (lit "requests", JList (map (request_json render_time) requests))])), st)
  | PUT =>
      match dr_json r ≫= configuration_of with
      | Some c =>
          (Answered 200 (Some (JDict [(lit "configuration", configuration_json c); (lit "attempts", JInt 0)])),
           configure c (dr_run_id r) st)
      | None => (Answered 422 None, st)
      end
  end.
End receiver.

(** ** Properties *)

Definition response_of (s : ReceiverScenario) : ReceiverLabConfigurationResponse :=
  mkConfigurationResponse (sc_mode s) (sc_failures_before_success s) (sc_delay_ms s).

(** The configuration the receiver reads from a scenario's payload. *)
Definition preset_configuration (p : ReceiverLabPreset) : ReceiverConfiguration :=
  default default_configuration (configuration_of (as_payload (scenario p))).

Lemma preset_configuration_of p : configuration_of (as_payload (scenario p)) = Some (preset_configuration p).
Proof. by destruct p. Qed.

Lemma preset_response p :
  mkConfigurationResponse (ReceiverMode_value (mode (preset_configuration p)))
    (failures_before_success (preset_configuration p)) (delay_ms (preset_configuration p)) = response_of (scenario p).
Proof. by destruct p. Qed.

Lemma identify_scenario p : _identify_preset (response_of (scenario p)) = Some p.
Proof. by destruct p. Qed.

(** Presets are names for behaviours: a request selects every preset by its value, every preset is a configuration the receiver accepts and is
    recognised from it, and from no other; and on valid payloads its [k]-th webhook is answered as the
    name says: recovering after exactly two failures, limited for ever, failing more often than the
    default attempt budget, and otherwise accepted. *)
Theorem presets_meaning :
  (∀ p, preset_request [(lit "preset", JStr (ReceiverLabPreset_value p))] = Some p) ∧
  (∀ p, configuration_of (as_payload (scenario p)) = Some (preset_configuration p)) ∧
  (∀ c p, _identify_preset c = Some p ↔ c = response_of (scenario p)) ∧
  (∀ p k, response_status (preset_configuration p) k None =
     match p with
     | PRESET_RETRY_THEN_RECOVER => if (k <=? 2)%Z then 503 else 200
     | PRESET_RATE_LIMITED => 429
     | PRESET_RATE_LIMIT_THEN_RECOVER => if (k <=? 2)%Z then 429 else 200
     | PRESET_DEAD_LETTER => if (k <=? 20)%Z then 503 else 200
     | _ => 200
     end)%Z ∧
  (worker_max_attempts default_settings < failures_before_success (preset_configuration PRESET_DEAD_LETTER))%Z.
Proof.
  split_and!; [by intros []|apply preset_configuration_of| |by intros [] k|done].
  intros c p. split; [|intros ->; apply identify_scenario]. unfold _identify_preset.
  destruct c as [cm cn cd]. destruct (List.find _ _) as [[q s]|] eqn:Hf; [|done].
  apply List.find_some in Hf as [Hin Hc]. intros [= <-].
  apply andb_true_iff in Hc as [[Hm Hn]%andb_true_iff Hd]. unfold eqb_str in Hm.
  apply bool_decide_eq_true in Hm. apply Z.eqb_eq in Hn, Hd. simpl in *. subst.
  repeat (destruct Hin as [[= <- <-]|Hin]; [done|]). done.
Qed.

(** *** The service against the receiver *)

Definition run_of (run_id : option pystr) (st : ReceiverState) : ReceiverRunState :=
  match run_id with
  | None => default_run st
  | Some r => default new_run (dict_get (scoped st) r)
  end.

Lemma configured_run run_id st :
  NoDup (scoped st).*1 →
  get_run (configured_state run_id st).1 (configured_state run_id st).2 = run_of run_id st.
Proof.
  intros Hnd. destruct run_id as [r|]; [|done]. cbn [configured_state fst snd get_run scoped run_of].
  rewrite evict_append, dict_get_app. rewrite dict_get_absent.
  - cbn [dict_get]. by rewrite bool_decide_eq_true_2.
  - destruct (pop_keys r (scoped st) Hnd) as [_ Hni]. rewrite fmap_drop. intros Hin. apply Hni. by eapply subseteq_drop.
Qed.

Lemma configure_run c run_id st :
  receiver_inv st → configuration (run_of run_id (configure c run_id st)) = c ∧
    scenario_attempts (run_of run_id (configure c run_id st)) = 0%Z.
Proof.
  intros Hst. destruct run_id as [r|]; [|done].
  destruct (configure_get c r st Hst) as (run & Hr & Hc & Ha). cbn [run_of]. by rewrite Hr.
Qed.

Section composed.
Context (render_time : datetime → pystr).
Context {R : Type} (view : ReceivedRequest → R).
Context (validate_configuration : json → option ReceiverLabConfigurationResponse) (validate_request : json → option R).

(** The validators of the two models accept what the receiver renders exactly within the constraints of
    the models. *)
Definition validators_agree : Prop :=
  (∀ c, validate_configuration (configuration_json c) =
     Some (mkConfigurationResponse (ReceiverMode_value (mode c)) (failures_before_success c) (delay_ms c))) ∧
  (∀ rq, recordable rq = true →
     validate_request (request_json render_time rq) = if request_fields rq then Some (view rq) else None).

Lemma last_entries_map {A B} (f : A → B) n (l : list A) : last_entries n (map f l) = map f (last_entries n l).
Proof. unfold last_entries. by rewrite length_map, List.skipn_map. Qed.

Lemma last_entries_short {A} n (l : list A) : length l ≤ n → last_entries n l = l.
Proof. intros Hl. unfold last_entries. by replace (length l - n) with 0 by lia. Qed.

Lemma validate_all_rendered rqs :
  validators_agree → Forall (λ rq, recordable rq = true) rqs →
  validate_all validate_request (map (request_json render_time) rqs) =
    if forallb request_fields rqs then Some (map view rqs) else None.
Proof.
  intros [_ Hr]. induction 1 as [|rq rqs Hrq _ IH]; [done|]. cbn [map validate_all forallb]. rewrite Hr, IH by done.
  destruct (request_fields rq); [|done]. by destruct (forallb request_fields rqs).
Qed.
End composed.

(** Configuring keeps the requests of the run. *)
Lemma configure_requests c run_id st :
  receiver_inv st → requests (run_of run_id (configure c run_id st)) = requests (run_of run_id st).
Proof.
  intros Hst. pose proof (configured_run run_id st (rv_keys _ Hst)) as Hg.
  pose proof (configured_valid run_id st (rv_keys _ Hst)) as Hv. unfold configure.
  assert (Href : ∀ st', run_of run_id st' = get_run (configured_state run_id st).1 st') by (by destruct run_id).
  rewrite (Href (let '(_, _) := _ in _)). destruct (configured_state run_id st) as [ref st']. cbn [fst snd] in *.
  by rewrite get_update, Hg.
Qed.

(** What the handler records meets the constraints but for the two headers that hold integers. *)
Lemma sha256_hex_digits body : forallb (λ c, is_digit c || in_range 97 102 c) (sha256_hex body) = true.
Proof.
  unfold sha256_hex. induction (state_words _) as [|w ws IH]; [done|]. cbn [map concat]. rewrite forallb_app, IH, andb_true_r.
  generalize 8. intros n. revert w. induction n as [|n IHn]; intros w; [done|]. cbn [hex_digits].
  rewrite forallb_app, IHn. cbn [forallb]. by rewrite hex_digit_class.
Qed.

Lemma recorded_fields run call status :
  run_inv run → (100 ≤ status ≤ 599)%Z →
  request_fields (recorded run call status) =
    nullable (λ n, 1 <=? n)%Z (wh_delivery_attempt (wc_headers call)) &&
    nullable (λ t, 0 <=? t)%Z (wh_request_timestamp (wc_headers call)).
Proof.
  intros [Ha _ _ _] Hs. unfold request_fields, recorded, received.
  cbn [rq_sequence rq_attempt rq_delivery_attempt rq_request_timestamp rq_response_status_code rq_body_sha256].
  rewrite sha256_hex_digits, (bool_decide_eq_true_2 _ (sha256_hex_length _)).
  rewrite !(proj2 (Z.leb_le _ _)) by lia. cbn [andb]. by rewrite !andb_true_r.
Qed.

(** C32: Applying a preset works end to end: run against the receiver, the route gives the run the preset's
    configuration and a fresh counter, keeps the receiver's bounds and the run's requests, and answers
    with the preset, its configuration, no attempts and the last 20 requests of the run; unless one of
    these carries a value the response model refuses (of those the receiver records, an attempt header
    below 1 or a negative timestamp header), then the answer is 503. *)
Theorem preset_applied {R : Type} (render_time : datetime → pystr) (view : ReceivedRequest → R)
    validate_configuration validate_request p run_id st :
  validators_agree render_time view validate_configuration validate_request →
  receiver_inv st → Forall (λ rq, recordable rq = true) (requests (run_of run_id st)) → _run_params run_id = Ok run_id →
  let '(answer, st') :=
    configure_receiver_lab (receiver_app render_time) validate_configuration validate_request p run_id st in
  requests (run_of run_id st') = requests (run_of run_id st) ∧
  receiver_inv st' ∧ configuration (run_of run_id st') = preset_configuration p ∧
  scenario_attempts (run_of run_id st') = 0%Z ∧
  answer =
    if forallb request_fields (last_entries 20 (requests (run_of run_id st')))
    then Ok (mkReply 200 no_store
      (mkStateResponse (Some p) (response_of (scenario p)) 0 (map view (last_entries 20 (requests (run_of run_id st'))))))
    else Raise _unavailable.
Proof.
  intros Hv Hst Hrec Hrun. unfold configure_receiver_lab, configure_preset. rewrite Hrun. unfold _request at 1. cbn [receiver_app dr_method dr_json dr_run_id].
  cbn [mbind option_bind]. rewrite preset_configuration_of. cbn [Z.leb Z.compare Pos.compare Pos.compare_cont andb].
  set (st1 := configure (preset_configuration p) run_id st).
  assert (Hst1 : receiver_inv st1) by (by apply configure_inv).
  destruct (configure_run (preset_configuration p) run_id st Hst) as [Hc Ha]. fold st1 in Hc, Ha.
  pose proof (configure_requests (preset_configuration p) run_id st Hst) as Hq. fold st1 in Hq.
  unfold state. rewrite Hrun. unfold _request, receiver_app, control_state. cbn [dr_method dr_run_id].
  pose proof (configured_run run_id st1 (rv_keys _ Hst1)) as Hg. pose proof (configured_inv run_id st1 Hst1) as Hst2.
  pose proof (configured_run run_id (configured_state run_id st1).2 (rv_keys _ Hst2)) as Hg2.
  assert (Hsame : run_of run_id (configured_state run_id st1).2 = run_of run_id st1).
  { rewrite <- Hg. by destruct run_id. }
  destruct (configured_state run_id st1) as [ref st2]. cbn [fst snd] in *. rewrite Hg, Hsame, Hc, Ha.
  split; [done|]. split; [done|]. split; [done|]. split; [done|].
  cbn [Z.leb Z.compare Pos.compare Pos.compare_cont andb]. cbn [mbind outcome_bind]. unfold read_state.
  change (dict_get _ (lit "configuration")) with (Some (configuration_json (preset_configuration p))).
  change (dict_get _ (lit "attempts")) with (Some (JInt 0)).
  match goal with |- context [dict_get ?d (lit "requests")] =>
    change (dict_get d (lit "requests")) with (Some (JList (map (request_json render_time) (last_entries CONTROL_REQUEST_LIMIT (requests (run_of run_id st1))))))
  end.
  cbn [mbind option_bind default caught py_int]. rewrite (proj1 Hv). cbn -[_identify_preset last_entries].
  rewrite last_entries_map, (last_entries_short 20) by apply last_entries_length.
  rewrite (validate_all_rendered render_time view validate_configuration);
    [|done|apply Forall_drop; rewrite Hq; done].
  rewrite preset_response, identify_scenario. by destruct (forallb request_fields _).
Qed.

(** ** Witness: a validator of all fourteen fields, for a run that has recorded two webhooks *)

Definition lab_text (value : json) : option (option pystr) :=
  match value with JStr s => Some (Some s) | JNull => Some None | _ => None end.

Definition lab_integer (low : Z) (value : json) : option (option Z) :=
  match value with
  | JInt z => if (low <=? z)%Z then Some (Some z) else None
  | JNull => Some None
  | _ => None
  end.

(** The response model, with the time as its text. *)
Record lab_response := mkLabResponse {
  lr_numbers : Z * Z * option Z * option Z * Z;
  lr_texts : option pystr * option pystr * option pystr;
  lr_rest : pystr * pystr * pystr * bool * pystr * pystr
}.

Definition lab_view (rq : ReceivedRequest) : lab_response :=
  mkLabResponse (rq_sequence rq, rq_attempt rq, rq_delivery_attempt rq, rq_request_timestamp rq, rq_response_status_code rq)
    (rq_event_id rq, rq_delivery_id rq, rq_event_type rq)
    (rq_receiver_route rq, isoformat_naive (rq_received_at rq), rq_receiver_mode rq, rq_signature_present rq,
     rq_body_preview rq, rq_body_sha256 rq).

Definition lab_keys : list pystr :=
  [lit "sequence"; lit "attempt"; lit "event_id"; lit "delivery_id"; lit "event_type"; lit "receiver_route";
   lit "delivery_attempt"; lit "request_timestamp"; lit "received_at"; lit "response_status_code"; lit "receiver_mode";
   lit "signature_present"; lit "body_preview"; lit "body_sha256"].

Definition lab_validate_request (value : json) : option lab_response :=
  match value with
  | JDict items =>
      if negb (bool_decide (map fst items = lab_keys)) then None
      else
        match map snd items with
        | [JInt sequence; JInt attempt; event_id; delivery_id; event_type; JStr receiver_route; delivery_attempt;
           request_timestamp; JStr received_at; JInt status; JStr receiver_mode; JBool signature_present;
           JStr body_preview; JStr body_sha256] =>
            event_id ← lab_text event_id;
            delivery_id ← lab_text delivery_id;
            event_type ← lab_text event_type;
            delivery_attempt ← lab_integer 1 delivery_attempt;
            request_timestamp ← lab_integer 0 request_timestamp;
            if (1 <=? sequence)%Z && (1 <=? attempt)%Z && (100 <=? status)%Z && (status <=? 599)%Z &&
               bool_decide (length body_sha256 = 64) && forallb (λ c, is_digit c || in_range 97 102 c) body_sha256
            then Some (mkLabResponse (sequence, attempt, delivery_attempt, request_timestamp, status)
                         (event_id, delivery_id, event_type)
                         (receiver_route, received_at, receiver_mode, signature_present, body_preview, body_sha256))
            else None
        | _ => None
        end
  | _ => None
  end.

Definition lab_validate_configuration (value : json) : option ReceiverLabConfigurationResponse :=
  match value with
  | JDict [(_, JStr m); (_, JInt failures); (_, JInt delay)] => Some (mkConfigurationResponse m failures delay)
  | _ => None
  end.

Lemma lab_text_json value : lab_text (nullable_json JStr value) = Some value.
Proof. by destruct value. Qed.

Lemma lab_integer_json low value :
  lab_integer low (nullable_json JInt value) = if nullable (λ z, low <=? z)%Z value then Some value else None.
Proof. destruct value as [z|]; [|done]. simpl. by destruct (low <=? z)%Z. Qed.

Lemma lab_validators : validators_agree isoformat_naive lab_view lab_validate_configuration lab_validate_request.
Proof.
  split; [done|]. intros rq _. unfold lab_validate_request, request_json, request_fields.
  rewrite (bool_decide_eq_true_2 (map fst _ = lab_keys)) by done. cbn [negb map snd].
  rewrite !lab_text_json, !lab_integer_json. cbn [mbind option_bind].
  destruct (nullable _ (rq_delivery_attempt rq)); cbn [mbind option_bind].
  2: { by rewrite !andb_false_r. }
  destruct (nullable _ (rq_request_timestamp rq)); cbn [mbind option_bind].
  2: { by rewrite !andb_false_r. }
  rewrite !andb_true_r, !andb_assoc. by destruct (_ && _ && _ && _ && _ && _).
Qed.

Definition lab_seen : ReceiverState := (handle [lab_call 5; lab_call 0] (configure lab_recovering (Some (lit "run-1")) initial_receiver)).2.

Lemma lab_seen_inv : receiver_inv lab_seen.
Proof.
  unfold lab_seen. pose proof (configure_inv lab_recovering (Some (lit "run-1")) _ initial_receiver_inv) as H.
  cbn [handle]. pose proof (webhook_inv (wc_channel (lab_call 5)) (wc_headers (lab_call 5)) (wc_body (lab_call 5)) (wc_at (lab_call 5)) _ H) as H1.
  destruct (receive_webhook _ _ _ _ _) as [r1 st1]. cbn [snd] in H1.
  pose proof (webhook_inv (wc_channel (lab_call 0)) (wc_headers (lab_call 0)) (wc_body (lab_call 0)) (wc_at (lab_call 0)) _ H1) as H2.
  destruct (receive_webhook _ _ _ _ st1) as [r2 st2]. cbn [snd] in H2. exact H2.
Qed.

Lemma preset_applied_witness :
  match (configure_receiver_lab (receiver_app isoformat_naive) lab_validate_configuration lab_validate_request
     PRESET_RETRY_THEN_RECOVER (Some (lit "run-1")) lab_seen).1 with
  | Ok reply =>
      sr_preset (rp_body reply) = Some PRESET_RETRY_THEN_RECOVER ∧ sr_attempts (rp_body reply) = 0%Z ∧
      map (λ r, (lr_numbers r).2) (sr_requests (rp_body reply)) = [503; 400]%Z
  | Raise _ => False
  end.
Proof.
  assert (Hrec : Forall (λ rq, recordable rq = true) (requests (run_of (Some (lit "run-1")) lab_seen)))
    by (apply (bool_decide_unpack _); vm_compute; exact I).
  assert (Hf : forallb request_fields (last_entries 20 (requests (run_of (Some (lit "run-1")) lab_seen))) = true)
    by (vm_compute; reflexivity).
  assert (Hm : map (λ rq, (lr_numbers (lab_view rq)).2) (last_entries 20 (requests (run_of (Some (lit "run-1")) lab_seen))) =
      [503; 400]%Z) by (vm_compute; reflexivity).
  pose proof (preset_applied isoformat_naive _ _ _ PRESET_RETRY_THEN_RECOVER (Some (lit "run-1")) lab_seen
                lab_validators lab_seen_inv Hrec eq_refl) as H.
  destruct (configure_receiver_lab _ _ _ _ _ _) as [answer st']. destruct H as (Hq & _ & _ & _ & ->). cbn [fst].
  rewrite Hq. rewrite Hf. cbn [rp_body sr_preset sr_attempts sr_requests].
  rewrite List.map_map. split_and!; [reflexivity|reflexivity|exact Hm].
Defined.

(** A webhook whose attempt header is zero is recorded, and no state can be read while it is kept. *)
Definition lab_unreadable : ReceiverState :=
  (receive_webhook (Some (lit "orders")) (mkWebhookHeaders None None None (Some 0%Z) None None None) [] 0
     initial_receiver).2.

Example unreadable_state :
  (state (receiver_app isoformat_naive) lab_validate_configuration lab_validate_request None lab_unreadable).1 =
    Raise _unavailable.
Proof. by vm_compute. Qed.
