(* ===== verification/Secrets.v ===== *)
(** Signing secrets and the API: replacing every stored secret by another changes no answer of a route.

    The transactions run on a database and on its copy with other secrets.  [same h m m'] says that
    [m'] on the copy does what [m] does on the database, its result changed by [h]: a relation
    with one rule per construct of the transaction monad, so that a service is related to itself
    by following its definition. *)
From S2P Require Import Prelude PyStr Errors Json StateMachine Models Datetime Database Repositories Invariant.
From S2P Require Import Services Codecs Cursor Paging ControlRoom Schemas Routers.
From Stdlib Require Import ZArith.

(** ** Sorting commutes with maps that keep the key *)

Section sort_map.
Context {A B : Type} (f : A → B) (R : relation A) (R' : relation B) `{!RelDecision R, !RelDecision R'}.
Context (HR : ∀ x y, R' (f x) (f y) ↔ R x y).

Lemma list_merge_map l1 l2 : list_merge R' (map f l1) (map f l2) = map f (list_merge R l1 l2).
Proof.
  revert l2. induction l1 as [|x l1 IH1]; [by intros []|].
  intros l2. induction l2 as [|y l2 IH2]; [done|]. cbn [map list_merge].
  destruct (decide (R x y)) as [Hd|Hd], (decide (R' (f x) (f y))) as [Hd'|Hd']; try (by rewrite HR in Hd').
  - cbn [map]. f_equal. apply (IH1 (y :: l2)).
  - cbn [map]. f_equal. apply IH2.
Qed.

Definition stack_map (st : list (option (list A))) : list (option (list B)) := map (fmap (map f)) st.

Lemma merge_list_to_stack_map st l :
  merge_list_to_stack R' (stack_map st) (map f l) = stack_map (merge_list_to_stack R st l).
Proof.
  revert l. induction st as [|[l'|] st IH]; intros l; [done| |done].
  cbn. rewrite list_merge_map. f_equal. apply IH.
Qed.

Lemma merge_stack_map st : merge_stack R' (stack_map st) = map f (merge_stack R st).
Proof.
  induction st as [|[l|] st IH]; [done| |done]. cbn. rewrite <- list_merge_map. by f_equal.
Qed.

Lemma merge_sort_map l : merge_sort R' (map f l) = map f (merge_sort R l).
Proof.
  unfold merge_sort. change (@nil (option (list B))) with (stack_map []). generalize (@nil (option (list A))).
  induction l as [|x l IH]; intros st; [apply merge_stack_map|]. cbn.
  change [f x] with (map f [x]). rewrite merge_list_to_stack_map. apply IH.
Qed.
End sort_map.

Lemma filter_map_iff {A B} (f : A → B) (P : A → Prop) (Q : B → Prop) `{!∀ a, Decision (P a), !∀ b, Decision (Q b)} l :
  (∀ a, Q (f a) ↔ P a) → filter Q (map f l) = map f (filter P l).
Proof.
  intros Hiff. induction l as [|a l IH]; [done|]. cbn [map]. rewrite !filter_cons.
  destruct (decide (P a)) as [Hp|Hp], (decide (Q (f a))) as [Hq|Hq];
    try (by rewrite Hiff in Hq); cbn [map]; by rewrite IH.
Qed.

(** Pages of changed rows are the changed pages, with the same cursors. *)
Lemma paged_map {A B} (f : A → B) (key : A → sort_key) (key' : B → sort_key) limit cursor rows :
  (∀ a, key' (f a) = key a) →
  paged key' limit cursor (map f rows) =
    mkPage (map f (items (paged key limit cursor rows))) (next_cursor (paged key limit cursor rows)).
Proof.
  intros Hk. unfold paged, page.
  assert (Hf : ∀ c, fetch key' limit c (map f rows) = map f (fetch key limit c rows)).
  { intros c. unfold fetch, order_by.
    rewrite (filter_map_iff f (below key c) (below key' c)) by (intros a; unfold below; destruct c; by rewrite ?Hk).
    rewrite (merge_sort_map f (key_rel key_ge key) (key_rel key_ge key')) by (intros x y; unfold key_rel; by rewrite !Hk).
    by rewrite List.firstn_map. }
  rewrite Hf, length_map, List.firstn_map. cbn [items next_cursor]. f_equal.
  destruct (limit <? _)%nat; [|done]. change (map f) with (fmap (M := list) f).
  rewrite fmap_last. destruct (last _); [|done]. cbn. by rewrite Hk.
Qed.

(** ** Other secrets *)

Section secrets.
Context (k : UUID → bytes).

Definition with_secret (e : Endpoint) : Endpoint :=
  Endpoint.mk (Endpoint.id e) (Endpoint.name e) (Endpoint.target_url e) (k (Endpoint.id e))
    (Endpoint.secret_version e) (Endpoint.enabled e) (Endpoint.created_at e) (Endpoint.updated_at e).

(** The database with other secrets. *)
Definition reissue (db : Db) : Db := set_endpoints (with_secret <$> endpoints db) db.

(** [m'] does with other secrets what [m] does, its result changed by [h]. *)
Definition same {A B : Type} (h : A → B) (m : tx A) (m' : tx B) : Prop :=
  ∀ db, m' (reissue db) = match m db with Ok (a, db') => Ok (h a, reissue db') | Raise e => Raise e end.

Lemma same_ret {A B} (h : A → B) a b : b = h a → same h (mret a) (mret b).
Proof. by intros -> db. Qed.

Lemma same_raise {A B} (h : A → B) e : same h (raise e) (raise e).
Proof. by intros db. Qed.

Lemma same_bind {A B C D} (h : A → B) (g : C → D) m m' f f' :
  same h m m' → (∀ a, same g (f a) (f' (h a))) → same g (m ≫= f) (m' ≫= f').
Proof.
  intros Hm Hf db. unfold mbind, tx_bind. rewrite (Hm db). destruct (m db) as [[a db']|e]; [apply Hf|done].
Qed.

Lemma same_lift {A} (m : outcome A) : same id (lift m) (lift m).
Proof. intros db. by destruct m. Qed.

Lemma same_query {A B} (h : A → B) f f' : (∀ db, f' (reissue db) = h (f db)) → same h (query f) (query f').
Proof. intros H db. unfold query. by rewrite H. Qed.

Lemma same_one_or_none {A} (f : Db → list A) :
  (∀ db, f (reissue db) = f db) → same id (one_or_none f) (one_or_none f).
Proof. intros H db. unfold one_or_none. rewrite H. by destruct (view_rows _). Qed.

Lemma lookup_reissued db id : endpoints (reissue db) !! id = with_secret <$> endpoints db !! id.
Proof. apply lookup_fmap. Qed.

Lemma same_insert_event e : same id (insert_event_if_absent e) (insert_event_if_absent e).
Proof.
  intros db. unfold insert_event_if_absent, mbind, outcome_bind. cbn [reissue set_endpoints events].
  destruct (check_row _ _); [|done]. by repeat case_bool_decide.
Qed.

Lemma same_insert_delivery d : same id (insert_delivery d) (insert_delivery d).
Proof.
  intros db. unfold insert_delivery. cbn [reissue set_endpoints deliveries].
  assert (delivery_constraints (reissue db) d = delivery_constraints db d) as ->.
  { unfold delivery_constraints. rewrite lookup_reissued. cbn [reissue set_endpoints deliveries events].
    do 2 f_equal. f_equal. f_equal. apply bool_decide_ext. by rewrite fmap_is_Some. }
  case_bool_decide; [done|]. unfold mbind, outcome_bind. by destruct (check_row _ _).
Qed.

(** A route whose reply does not depend on what [h] changes. *)
Lemma same_handler {A B C} (h : A → B) (m : tx A) (m' : tx B) respond (respond' : B → outcome (Reply C)) db :
  same h m m' → (∀ a, respond' (h a) = respond a) →
  handler m' respond' (reissue db) = prod_map id reissue (handler m respond db).
Proof.
  intros Hm Hr. unfold handler, run_tx. rewrite (Hm db).
  destruct (m db) as [[a db']|e]; cbn; by rewrite ?Hr.
Qed.

(** The reads of the tables other than the endpoints. *)
Ltac same_read :=
  first [apply (same_query id); intros db; reflexivity | apply same_one_or_none; intros db; reflexivity].

Lemma same_get_endpoint id : same (fmap with_secret) (EndpointRepository.get id) (EndpointRepository.get id).
Proof. apply same_query. intros db. apply lookup_reissued. Qed.

Lemma same_create_delivery d : same id (DeliveryRepository.create d) (DeliveryRepository.create d).
Proof. eapply same_bind; [apply same_insert_delivery|]. intros []. by apply same_ret. Qed.

Lemma same_resolve endpoint_id key fingerprint :
  same id (EventService._resolve_idempotent_replay endpoint_id key fingerprint)
    (EventService._resolve_idempotent_replay endpoint_id key fingerprint).
Proof.
  eapply same_bind; [same_read|]. intros [e|]; [|apply same_raise]. cbn [id].
  destruct (negb _); [apply same_raise|]. eapply same_bind; [same_read|].
  intros [d|]; [by apply same_ret|apply same_raise].
Qed.

Lemma same_publish env request key :
  same id (EventService.publish env request key) (EventService.publish env request key).
Proof.
  eapply same_bind; [apply same_get_endpoint|]. intros [endpoint|]; [|apply same_raise]. cbn [fmap option_fmap option_map].
  eapply same_bind; [apply same_lift|]. intros fingerprint. eapply same_bind; [apply same_lift|]. intros body.
  eapply same_bind; [apply same_insert_event|]. intros inserted. cbn [id].
  destruct (negb inserted); [apply same_resolve|]. cbn [with_secret Endpoint.enabled].
  destruct (negb _); [apply same_raise|]. eapply same_bind; [apply same_create_delivery|]. intros delivery.
  eapply same_bind; [same_read|]. intros [e|]; [by apply same_ret|apply same_raise].
Qed.

Lemma same_replay_source env delivery_id source key :
  same id (ReplayService.replay_source env delivery_id source key) (ReplayService.replay_source env delivery_id source key).
Proof.
  eapply same_bind; [same_read|]. intros [latest|]; [|apply same_raise]. cbn [id].
  destruct (negb _); [apply same_raise|]. destruct (negb _); [apply same_raise|].
  eapply same_bind; [same_read|]. intros rows. eapply same_bind; [apply same_lift|].
  intros [c|]; [apply same_raise|]. cbn [id]. eapply same_bind; [same_read|]. intros [a|]; [apply same_raise|]. cbn [id].
  eapply same_bind; [apply same_get_endpoint|]. intros [endpoint|]; [|apply same_raise].
  cbn [fmap option_fmap option_map with_secret Endpoint.enabled Endpoint.id].
  destruct (negb _); [apply same_raise|]. eapply same_bind; [apply same_create_delivery|]. intros d. by apply same_ret.
Qed.

Lemma same_replay env delivery_id key :
  same id (ReplayService.replay env delivery_id key) (ReplayService.replay env delivery_id key).
Proof.
  eapply same_bind; [same_read|]. intros [candidate|]; [|apply same_raise]. cbn [id].
  eapply same_bind; [same_read|]. intros [e|]; [|apply same_raise]. cbn [id].
  eapply same_bind; [same_read|]. intros [source|]; [|apply same_raise]. cbn [id].
  eapply same_bind; [same_read|]. intros [d|]; [by apply same_ret|apply same_replay_source].
Qed.

Lemma same_event_details event_id : same id (QueryService.event_details event_id) (QueryService.event_details event_id).
Proof.
  eapply same_bind; [same_read|]. intros [e|]; [|apply same_raise].
  eapply same_bind; [same_read|]. intros ds. by apply same_ret.
Qed.

Lemma same_delivery_attempts delivery_id :
  same id (QueryService.delivery_attempts delivery_id) (QueryService.delivery_attempts delivery_id).
Proof. eapply same_bind; [same_read|]. intros [[d rows]|]; [by apply same_ret|apply same_raise]. Qed.
End secrets.

(** ** The rows of the Control Room *)

Section rows.
Context (k : UUID → bytes).

Definition event_reissued (r : EventListRecord) : EventListRecord :=
  mkEventListRecord (el_event r) (el_latest_delivery r) (with_secret k (el_endpoint r)).

Definition dead_letter_reissued (r : DeadLetterRecord) : DeadLetterRecord :=
  mkDeadLetterRecord (dl_event r) (dl_delivery r) (with_secret k (dl_endpoint r)) (dl_last_http_status_code r)
    (dl_last_response_body_excerpt r).

Definition page_reissued {A : Type} (f : A → A) (p : Page A) : Page A := mkPage (map f (items p)) (next_cursor p).

Lemma omap_fmap {A B C} (f : A → option B) (g : A → option C) (h : B → C) l :
  (∀ a, g a = h <$> f a) → omap g l = map h (omap f l).
Proof. intros Hg. induction l as [|a l IH]; [done|]. cbn. rewrite Hg. destruct (f a); cbn; by rewrite IH. Qed.

Lemma event_rows_reissued event_type endpoint_id status db :
  ControlRoomRepository.event_rows event_type endpoint_id status (reissue k db) =
    map event_reissued (ControlRoomRepository.event_rows event_type endpoint_id status db).
Proof.
  unfold ControlRoomRepository.event_rows. change (latest_deliveries (reissue k db)) with (latest_deliveries db).
  rewrite (omap_fmap (ControlRoomRepository.event_row db) _ event_reissued).
  - by apply filter_map_iff.
  - intros d. unfold ControlRoomRepository.event_row. rewrite lookup_reissued. cbn [reissue set_endpoints events].
    destruct (events db !! _), (endpoints db !! _); reflexivity.
Qed.

Lemma dead_letter_rows_reissued endpoint_id db :
  ControlRoomRepository.dead_letter_rows endpoint_id (reissue k db) =
    map dead_letter_reissued (ControlRoomRepository.dead_letter_rows endpoint_id db).
Proof.
  unfold ControlRoomRepository.dead_letter_rows. change (latest_deliveries (reissue k db)) with (latest_deliveries db).
  rewrite (omap_fmap (ControlRoomRepository.dead_letter_row db) _ dead_letter_reissued).
  - by apply filter_map_iff.
  - intros d. unfold ControlRoomRepository.dead_letter_row. rewrite lookup_reissued. cbn [reissue set_endpoints events].
    destruct (events db !! _), (endpoints db !! _); reflexivity.
Qed.

Lemma endpoint_rows_reissued db :
  ControlRoomRepository.endpoint_rows (reissue k db) = map (with_secret k) (ControlRoomRepository.endpoint_rows db).
Proof.
  unfold ControlRoomRepository.endpoint_rows. cbn [reissue set_endpoints endpoints].
  rewrite map_to_list_fmap. induction (map_to_list _) as [|[i e] l IH]; [done|]. cbn. f_equal. apply IH.
Qed.

Lemma collect_map {A B} (f : A → A) (g g' : A → outcome B) (l : list A) :
  (∀ a, g' (f a) = g a) → collect g' (map f l) = collect g l.
Proof. intros Hg. induction l as [|a l IH]; [done|]. cbn [map collect]. by rewrite Hg, IH. Qed.

Lemma endpoints_enabled_reissued db :
  length (select (λ e, Endpoint.enabled e = true) (endpoints (reissue k db))) =
    length (select (λ e, Endpoint.enabled e = true) (endpoints db)).
Proof.
  pose proof (endpoint_rows_reissued db) as H. unfold ControlRoomRepository.endpoint_rows in H.
  unfold select. rewrite H, (filter_map_iff (with_secret k) (λ e, Endpoint.enabled e = true) (λ e, Endpoint.enabled e = true)) by done.
  apply length_map.
Qed.

Lemma same_overview now :
  same k id (ControlRoomRepository.overview now) (ControlRoomRepository.overview now).
Proof.
  apply same_query. intros db. unfold id.
  rewrite endpoints_enabled_reissued. f_equal. cbn [reissue set_endpoints endpoints]. apply map_size_fmap.
Qed.

Lemma same_bind_cursor cursor :
  same k id (ControlRoomRepository.bind_cursor cursor) (ControlRoomRepository.bind_cursor cursor).
Proof.
  destruct cursor as [c|]; [|by apply same_ret]. simpl. destruct (in_calendar _); [by apply same_ret|apply same_raise].
Qed.

Lemma same_page {A} (f : A → A) (key : A → sort_key) (rows : Db → list A) limit cursor :
  (∀ a, key (f a) = key a) → (∀ db, rows (reissue k db) = map f (rows db)) →
  same k (page_reissued f) (_ ← ControlRoomRepository.bind_cursor cursor; query (λ db, paged key limit cursor (rows db)))
    (_ ← ControlRoomRepository.bind_cursor cursor; query (λ db, paged key limit cursor (rows db))).
Proof.
  intros Hk Hr. apply (same_bind k id); [apply same_bind_cursor|].
  intros []. apply same_query. intros db. rewrite Hr. by apply paged_map.
Qed.

Lemma same_list {A} (f : A → A) (m : option PageCursor → tx (Page A)) iso cursor :
  (∀ c, same k (page_reissued f) (m c) (m c)) →
  same k (page_reissued f) (c ← lift (decode_cursor iso cursor); m c) (c ← lift (decode_cursor iso cursor); m c).
Proof. intros Hm. eapply same_bind; [apply same_lift|]. intros c. apply Hm. Qed.
End rows.

(** ** Main result *)

(** What a route does with other secrets: the same answer, and the same changes. *)
Definition blind {A : Type} (k : UUID → bytes) (route : Db → A * Db) : Prop :=
  ∀ db, route (reissue k db) = prod_map id (reissue k) (route db).

(** C22: no route but the creation of an endpoint depends on a signing secret: with any other secrets in the
    database, every request is answered alike, errors included, and leaves the same rows behind. *)
Theorem secrets_hidden (k : UUID → bytes) (iso : iso_parser) :
  (∀ env request key, blind k (publish_event env request key)) ∧
  (∀ env delivery_id key, blind k (replay_delivery env delivery_id key)) ∧
  (∀ event_id, blind k (get_event event_id)) ∧
  (∀ delivery_id, blind k (get_delivery_attempts delivery_id)) ∧
  (∀ now, blind k (get_control_room_overview now)) ∧
  (∀ limit cursor event_type endpoint_id status, blind k (list_events iso limit cursor event_type endpoint_id status)) ∧
  (∀ limit cursor, blind k (list_endpoints iso limit cursor)) ∧
  (∀ endpoint_id, blind k (get_endpoint endpoint_id)) ∧
  (∀ limit cursor endpoint_id, blind k (list_dead_letters iso limit cursor endpoint_id)).
Proof.
  split_and!; unfold blind; intros *.
  - unfold publish_event. destruct (strip key); [done|]. by eapply same_handler; [apply same_publish|].
  - unfold replay_delivery. destruct (strip key); [done|]. by eapply same_handler; [apply same_replay|].
  - by eapply same_handler; [apply same_event_details|].
  - by eapply same_handler; [apply same_delivery_attempts|].
  - eapply (same_handler k id); [|done]. apply same_overview.
  - eapply same_handler.
    + apply same_list. intros c. unfold ControlRoomRepository.list_events, ControlRoomRepository.bind_text.
      destruct (nullable text _); [by apply same_page; [|apply event_rows_reissued]|].
      eapply (same_bind k id); [|by intros []; apply same_raise]. apply same_bind_cursor.
    + intros p. cbn. by rewrite List.map_map.
  - eapply same_handler.
    + apply same_list. intros c. by apply same_page; [|apply endpoint_rows_reissued].
    + intros p. cbn. by rewrite List.map_map.
  - eapply (same_handler k (with_secret k)); [|done]. eapply same_bind; [apply same_get_endpoint|].
    intros [e|]; [by apply same_ret|apply same_raise].
  - eapply same_handler.
    + apply same_list. intros c. by apply same_page; [|apply dead_letter_rows_reissued].
    + intros p. cbn [page_reissued items next_cursor]. by erewrite collect_map.
Qed.
