(* ===== verification/Sql.v ===== *)
(** The fragment of PostgreSQL's SQL that the schema and the migrations are written in: values and
    column types, the expressions of CHECK constraints, partial indexes and UPDATE statements with
    three-valued logic, and their typing.

    A row maps the columns that are not NULL to their values.  [eval] returns [None] where the
    expression has no meaning (an unknown column, an operator at the wrong types), [Some None] for
    NULL; [infer] is the check PostgreSQL makes when a constraint is created, and [eval_typed]
    shows that what passes it always has a meaning. *)
From S2P Require Import Prelude PyStr Json Sha256 Models.
From Stdlib Require Import ZArith.
From Stdlib Require Floats.SpecFloat.

(** ** Values and column types *)

Inductive sqltype :=
| TUuid                      (* sa.Uuid() *)
| TString (n : nat)          (* sa.String(length=n) *)
| TText                      (* sa.Text() *)
| TLargeBinary               (* sa.LargeBinary() *)
| TInteger                   (* sa.Integer() *)
| TBigInteger                (* sa.BigInteger() *)
| TBoolean                   (* sa.Boolean() *)
| TDateTime                  (* sa.DateTime(timezone=True) *)
| TJSONB                     (* postgresql.JSONB() *)
| TEnum (name : string).     (* an enum type of the database *)

Inductive value :=
| VUuid (u : N)
| VText (s : pystr)
| VBytes (b : bytes)
| VInt (z : Z)
| VBool (b : bool)
| VTime (t : Z)
| VJson (v : json)
| VEnum (ty : string) (label : pystr).

#[export] Instance sqltype_eq_dec : EqDecision sqltype.
Proof. solve_decision. Defined.

#[export] Instance spec_float_eq_dec : EqDecision SpecFloat.spec_float.
Proof. solve_decision. Defined.

#[export] Instance json_eq_dec : EqDecision json.
Proof.
  unfold EqDecision, Decision. fix IH 1.
  assert (Hl : ∀ l m : list json, {l = m} + {l ≠ m}) by (fix IHl 1; intros [|x l] [|y m];
    [by left|by right|by right|destruct (IH x y), (IHl l m); [by left; f_equal|by right; intros [= -> ->]..]]).
  assert (Hd : ∀ d e : list (pystr * json), {d = e} + {d ≠ e}).
  { fix IHd 1. intros [|[j x] d] [|[k y] e]; [by left|by right|by right|].
    destruct (decide (j = k)), (IH x y), (IHd d e); [left; by subst|right; by intros [= -> -> ->]..]. }
  intros [|a|a|a|a|a|a] [|b|b|b|b|b|b]; try (by right); try (by left).
  - destruct (decide (a = b)); [left; by subst|right; by intros [= ->]].
  - destruct (decide (a = b)); [left; by subst|right; by intros [= ->]].
  - destruct (spec_float_eq_dec a b); [left; by subst|right; by intros [= ->]].
  - destruct (decide (a = b)); [left; by subst|right; by intros [= ->]].
  - destruct (Hl a b); [left; by subst|right; by intros [= ->]].
  - destruct (Hd a b); [left; by subst|right; by intros [= ->]].
Defined.

#[export] Instance value_eq_dec : EqDecision value.
Proof. solve_decision. Defined.

Abbreviation row := (gmap string value).
Abbreviation enums := (gmap string (list pystr)).

(** What a column of a type can hold. *)
Definition has_type (E : enums) (t : sqltype) (v : value) : bool :=
  match t, v with
  | TUuid, VUuid _ => true
  | TString n, VText s => varchar n s
  | TText, VText s => text s
  | TLargeBinary, VBytes _ => true
  | TInteger, VInt z => int4 z
  | TBigInteger, VInt z => int8 z
  | TBoolean, VBool _ => true
  | TDateTime, VTime _ => true
  | TJSONB, VJson j => jsonb j
  | TEnum n, VEnum m l => bool_decide (n = m) && bool_decide (l ∈ default [] (E !! n))
  | _, _ => false
  end.

(** The type an operator sees: the width of an integer and the length of a string do not matter. *)
Inductive base := BUuid | BText | BBytes | BInt | BBool | BTime | BJson | BEnum (name : string).

#[export] Instance base_eq_dec : EqDecision base.
Proof. solve_decision. Defined.

Definition base_of (t : sqltype) : base :=
  match t with
  | TUuid => BUuid
  | TString _ | TText => BText
  | TLargeBinary => BBytes
  | TInteger | TBigInteger => BInt
  | TBoolean => BBool
  | TDateTime => BTime
  | TJSONB => BJson
  | TEnum n => BEnum n
  end.

Definition has_base (b : base) (v : value) : bool :=
  match b, v with
  | BUuid, VUuid _ | BText, VText _ | BBytes, VBytes _ | BInt, VInt _ | BBool, VBool _
  | BTime, VTime _ | BJson, VJson _ => true
  | BEnum n, VEnum m _ => bool_decide (n = m)
  | _, _ => false
  end.

Lemma has_type_base E t v : has_type E t v = true → has_base (base_of t) v = true.
Proof. by destruct t, v; simpl; try done; intros [? ?]%andb_true_iff. Qed.

(** ** Expressions *)

Inductive cmp := Eq | Ne | Lt | Le | Gt | Ge.

#[export] Instance cmp_eq_dec : EqDecision cmp.
Proof. solve_decision. Defined.

Inductive expr :=
| Col (c : string)
| Int (z : Z)
| Str (s : pystr)
| Length (e : expr)                       (* length(e) *)
| OctetLength (e : expr)                  (* octet_length(e) *)
| HexSha256 (e : expr)                    (* encode(sha256(e), 'hex') *)
| IsNull (e : expr)
| IsNotNull (e : expr)
| Cmp (op : cmp) (e1 e2 : expr)
| Between (e lo hi : expr)
| In (e : expr) (labels : list pystr)
| And (e1 e2 : expr)
| Or (e1 e2 : expr).

#[export] Instance expr_eq_dec : EqDecision expr.
Proof. solve_decision. Defined.

(** Three-valued logic on possibly unknown truth values. *)
Definition and3 (a b : option bool) : option bool :=
  match a, b with
  | Some false, _ | _, Some false => Some false
  | Some true, Some true => Some true
  | _, _ => None
  end.

Definition or3 (a b : option bool) : option bool :=
  match a, b with
  | Some true, _ | _, Some true => Some true
  | Some false, Some false => Some false
  | _, _ => None
  end.

Definition cmp_Z (op : cmp) (x y : Z) : bool :=
  match op with
  | Eq => (x =? y)%Z | Ne => negb (x =? y)%Z
  | Lt => (x <? y)%Z | Le => (x <=? y)%Z | Gt => (y <? x)%Z | Ge => (y <=? x)%Z
  end.

(** Equality of the types that are compared for nothing else here. *)
Definition cmp_eq (op : cmp) (eq : bool) : option bool :=
  match op with
  | Eq => Some eq
  | Ne => Some (negb eq)
  | _ => None
  end.

(** A string literal next to an enum is read as one of its labels. *)
Definition cmp_value (op : cmp) (v w : value) : option bool :=
  match v, w with
  | VInt x, VInt y | VTime x, VTime y => Some (cmp_Z op x y)
  | VUuid x, VUuid y => cmp_eq op (x =? y)%N
  | VText x, VText y => cmp_eq op (bool_decide (x = y))
  | VBool x, VBool y => cmp_eq op (Bool.eqb x y)
  | VEnum t x, VText y => cmp_eq op (bool_decide (x = y))
  | VEnum t x, VEnum t' y => if bool_decide (t = t') then cmp_eq op (bool_decide (x = y)) else None
  | _, _ => None
  end.

(** A truth value read from the result of an expression, and back. *)
Definition as_bool (v : option value) : option (option bool) :=
  match v with
  | None => Some None
  | Some (VBool b) => Some (Some b)
  | Some _ => None
  end.

Definition of_bool (b : option bool) : option value := VBool <$> b.

(** A strict function of one argument: NULL gives NULL. *)
Definition strict (f : value → option value) (v : option value) : option (option value) :=
  match v with
  | None => Some None
  | Some x => Some <$> f x
  end.

Definition cmp_null (op : cmp) (v w : option value) : option (option bool) :=
  match v, w with
  | Some x, Some y => Some <$> cmp_value op x y
  | _, _ => Some None
  end.

Fixpoint eval (r : row) (e : expr) : option (option value) :=
  match e with
  | Col c => Some (r !! c)
  | Int z => Some (Some (VInt z))
  | Str s => Some (Some (VText s))
  | Length e =>
      v ← eval r e; strict (λ x, match x with VText s => Some (VInt (Z.of_nat (length s))) | _ => None end) v
  | OctetLength e =>
      v ← eval r e; strict (λ x, match x with VBytes s => Some (VInt (Z.of_nat (length s))) | _ => None end) v
  | HexSha256 e =>
      v ← eval r e; strict (λ x, match x with VBytes s => Some (VText (sha256_hex s)) | _ => None end) v
  | IsNull e => v ← eval r e; Some (Some (VBool (is_null v)))
  | IsNotNull e => v ← eval r e; Some (Some (VBool (negb (is_null v))))
  | Cmp op e1 e2 => v ← eval r e1; w ← eval r e2; of_bool <$> cmp_null op v w
  | Between e lo hi =>
      v ← eval r e; w ← eval r lo; x ← eval r hi;
      a ← cmp_null Ge v w; b ← cmp_null Le v x; Some (of_bool (and3 a b))
  | In e labels =>
      v ← eval r e;
      strict (λ x, match x with
                   | VEnum _ l | VText l => Some (VBool (bool_decide (l ∈ labels)))
                   | _ => None
                   end) v
  | And e1 e2 =>
      v ← eval r e1; w ← eval r e2; a ← as_bool v; b ← as_bool w; Some (of_bool (and3 a b))
  | Or e1 e2 =>
      v ← eval r e1; w ← eval r e2; a ← as_bool v; b ← as_bool w; Some (of_bool (or3 a b))
  end.

(** A CHECK constraint holds unless it is false; a WHERE clause holds only if it is true. *)
Definition passes (r : row) (e : expr) : bool :=
  match eval r e with
  | Some None | Some (Some (VBool true)) => true
  | _ => false
  end.

Definition holds (r : row) (e : expr) : bool :=
  match eval r e with
  | Some (Some (VBool true)) => true
  | _ => false
  end.

(** ** Typing *)

Section typing.
Context (E : enums) (G : string → option base).

Definition ordered (b : base) : bool := match b with BInt | BTime => true | _ => false end.

Definition comparable (op : cmp) (b : base) : bool :=
  match op with
  | Eq | Ne => match b with BBytes | BJson => false | _ => true end
  | _ => ordered b
  end.

(** Whether a string literal can be read at a type. *)
Definition literal_of (b : base) (s : pystr) : bool :=
  match b with
  | BText => true
  | BEnum n => bool_decide (s ∈ default [] (E !! n))
  | _ => false
  end.

Fixpoint infer (e : expr) : option base :=
  match e with
  | Col c => G c
  | Int _ => Some BInt
  | Str _ => None
  | Length e => if bool_decide (infer e = Some BText) then Some BInt else None
  | OctetLength e => if bool_decide (infer e = Some BBytes) then Some BInt else None
  | HexSha256 e => if bool_decide (infer e = Some BBytes) then Some BText else None
  | IsNull e | IsNotNull e => _ ← infer e; Some BBool
  | Cmp op e1 e2 =>
      b ← infer e1;
      if comparable op b &&
         match e2 with Str s => literal_of b s | _ => bool_decide (infer e2 = Some b) end
      then Some BBool else None
  | Between e lo hi =>
      b ← infer e;
      if ordered b && bool_decide (infer lo = Some b) && bool_decide (infer hi = Some b)
      then Some BBool else None
  | In e labels => b ← infer e; if forallb (literal_of b) labels then
      (if match b with BText | BEnum _ => true | _ => false end then Some BBool else None) else None
  | And e1 e2 | Or e1 e2 =>
      if bool_decide (infer e1 = Some BBool) && bool_decide (infer e2 = Some BBool)
      then Some BBool else None
  end.

(** The cells of a row have the types of their columns. *)
Definition row_based (r : row) : Prop :=
  ∀ c v, r !! c = Some v → ∀ b, G c = Some b → has_base b v = true.

Definition result_ok (b : base) (o : option value) : bool :=
  match o with Some v => has_base b v | None => true end.

Lemma result_bool o : result_ok BBool o = true → ∃ x, as_bool o = Some x.
Proof. destruct o as [[]|]; simpl; try done; eauto. Qed.

Lemma of_bool_ok x : result_ok BBool (of_bool x) = true.
Proof. by destruct x. Qed.

Lemma cmp_null_typed op b v w :
  comparable op b = true → result_ok b v = true →
  (result_ok b w = true ∨ ∃ s, w = Some (VText s) ∧ literal_of b s = true) →
  ∃ x, cmp_null op v w = Some x.
Proof.
  intros Hop Hv Hw. destruct v as [v|]; [|by eexists]. destruct w as [w|]; [|by eexists].
  simpl in *. enough (∃ x, cmp_value op v w = Some x) as [x ->] by eauto.
  destruct Hw as [Hw|(s & [= ->] & Hl)].
  - destruct b, v; try done; destruct w; try done; destruct op; try done; simpl in *; bool_simpl; eauto;
      subst; rewrite bool_decide_eq_true_2 by done; eauto.
  - destruct b, v; try done; destruct op; try done; simpl in *; eauto.
Qed.

(** Type soundness: an expression that PostgreSQL accepts evaluates, to NULL or to a value of its
    type, on every row whose cells have their columns' types. *)
Lemma eval_typed r e b :
  row_based r → infer e = Some b → ∃ o, eval r e = Some o ∧ result_ok b o = true.
Proof.
  intros Hr. revert b. induction e; intros b Hb; simpl in *.
  - eexists; split; [done|]. destruct (r !! c) as [v|] eqn:E1; [|done]. by apply (Hr c v).
  - simplify_eq. eauto.
  - done.
  - case_bool_decide as Hi; [|done]. simplify_eq. destruct (IHe _ Hi) as (o & -> & Ho).
    destruct o as [[]|]; try done; simpl; eauto.
  - case_bool_decide as Hi; [|done]. simplify_eq. destruct (IHe _ Hi) as (o & -> & Ho).
    destruct o as [[]|]; try done; simpl; eauto.
  - case_bool_decide as Hi; [|done]. simplify_eq. destruct (IHe _ Hi) as (o & -> & Ho).
    destruct o as [[]|]; try done; simpl; eauto.
  - apply bind_Some in Hb as (b' & Hi & [= <-]). destruct (IHe _ Hi) as (o & -> & Ho). simpl. eauto.
  - apply bind_Some in Hb as (b' & Hi & [= <-]). destruct (IHe _ Hi) as (o & -> & Ho). simpl. eauto.
  - apply bind_Some in Hb as (b' & Hi & Hb). case_match eqn:Hc; [|done]. simplify_eq. bool_simpl.
    destruct (IHe1 _ Hi) as (o & -> & Ho). simpl.
    assert (∃ w, eval r e2 = Some w ∧
      (result_ok b' w = true ∨ ∃ s, w = Some (VText s) ∧ literal_of b' s = true)) as (w & -> & Hw).
    { destruct e2; bool_simpl; try (destruct (IHe2 _ ltac:(eassumption)) as (w & -> & ?); eauto).
      simpl. eauto 7. }
    simpl. destruct (cmp_null_typed op b' o w) as [x ->]; [done..|]. simpl.
    eexists; split; [done|apply of_bool_ok].
  - apply bind_Some in Hb as (b' & Hi & Hb). case_match eqn:Hc; [|done]. simplify_eq. bool_simpl.
    destruct (IHe1 _ Hi) as (o & Eo & Ho), (IHe2 b') as (w & Ew & Hw), (IHe3 b') as (x & Ex & Hx);
      [done..|]. rewrite Eo; simpl. rewrite Ew; simpl. rewrite Ex; simpl.
    destruct (cmp_null_typed Ge b' o w) as [y ->]; [done|done|by left|].
    destruct (cmp_null_typed Le b' o x) as [z ->]; [done|done|by left|].
    simpl. eexists; split; [done|apply of_bool_ok].
  - apply bind_Some in Hb as (b' & Hi & Hb). destruct (IHe _ Hi) as (o & -> & Ho). simpl.
    do 2 (case_match; [|done]). simplify_eq.
    destruct o as [v|]; [|by eexists]. destruct b'; try done; destruct v; try done; simpl; eauto.
  - case_match eqn:Hc; [|done]. simplify_eq. bool_simpl.
    destruct (IHe1 BBool) as (o & Eo & Ho), (IHe2 BBool) as (w & Ew & Hw); [done..|].
    destruct (result_bool _ Ho) as [x Ex], (result_bool _ Hw) as [y Ey].
    rewrite Eo; simpl. rewrite Ew; simpl. rewrite Ex; simpl. rewrite Ey; simpl.
    eexists; split; [done|apply of_bool_ok].
  - case_match eqn:Hc; [|done]. simplify_eq. bool_simpl.
    destruct (IHe1 BBool) as (o & Eo & Ho), (IHe2 BBool) as (w & Ew & Hw); [done..|].
    destruct (result_bool _ Ho) as [x Ex], (result_bool _ Hw) as [y Ey].
    rewrite Eo; simpl. rewrite Ew; simpl. rewrite Ex; simpl. rewrite Ey; simpl.
    eexists; split; [done|apply of_bool_ok].
Qed.
End typing.

(** ** Columns of an expression *)

Fixpoint columns_of (e : expr) : list string :=
  match e with
  | Col c => [c]
  | Int _ | Str _ => []
  | Length e | OctetLength e | HexSha256 e | IsNull e | IsNotNull e | In e _ => columns_of e
  | Cmp _ e1 e2 | And e1 e2 | Or e1 e2 => columns_of e1 ++ columns_of e2
  | Between e lo hi => columns_of e ++ columns_of lo ++ columns_of hi
  end.

Definition mentions (c : string) (e : expr) : bool := bool_decide (c ∈ columns_of e).

(** The effect of renaming column [a] to [b]. *)
Definition ren (a b c : string) : string := if bool_decide (c = a) then b else c.

Fixpoint rename_expr (a b : string) (e : expr) : expr :=
  match e with
  | Col c => Col (ren a b c)
  | Int z => Int z
  | Str s => Str s
  | Length e => Length (rename_expr a b e)
  | OctetLength e => OctetLength (rename_expr a b e)
  | HexSha256 e => HexSha256 (rename_expr a b e)
  | IsNull e => IsNull (rename_expr a b e)
  | IsNotNull e => IsNotNull (rename_expr a b e)
  | Cmp op e1 e2 => Cmp op (rename_expr a b e1) (rename_expr a b e2)
  | Between e lo hi => Between (rename_expr a b e) (rename_expr a b lo) (rename_expr a b hi)
  | In e l => In (rename_expr a b e) l
  | And e1 e2 => And (rename_expr a b e1) (rename_expr a b e2)
  | Or e1 e2 => Or (rename_expr a b e1) (rename_expr a b e2)
  end.

(** The effect on a row. *)
Definition rename_columns {A : Type} (a b : string) (m : gmap string A) : gmap string A :=
  match m !! a with
  | Some x => <[b := x]> (delete a m)
  | None => m
  end.

Lemma lookup_rename {A} a b (m : gmap string A) c :
  m !! b = None → c ≠ b → rename_columns a b m !! ren a b c = m !! c.
Proof.
  intros Hb Hc. unfold rename_columns, ren. case_bool_decide as E.
  - subst. destruct (m !! a) as [x|] eqn:Ea; [by rewrite lookup_insert_eq|done].
  - destruct (m !! a) as [x|] eqn:Ea; [|done]. by rewrite lookup_insert_ne, lookup_delete_ne by done.
Qed.

(** Only the columns of an expression matter to it. *)
Lemma eval_ext r r' e : (∀ c, c ∈ columns_of e → r !! c = r' !! c) → eval r e = eval r' e.
Proof.
  induction e; simpl; intros Hm; try (rewrite IHe by done; done).
  - by rewrite Hm by (by apply list_elem_of_singleton).
  - done.
  - done.
  - rewrite IHe1, IHe2; [done|intros; apply Hm; set_solver..].
  - rewrite IHe1, IHe2, IHe3; [done|intros; apply Hm; set_solver..].
  - rewrite IHe1, IHe2; [done|intros; apply Hm; set_solver..].
  - rewrite IHe1, IHe2; [done|intros; apply Hm; set_solver..].
Qed.

Lemma eval_rename a b r e :
  r !! b = None → b ∉ columns_of e → eval (rename_columns a b r) (rename_expr a b e) = eval r e.
Proof.
  intros Hr. induction e; simpl; intros Hb; try (rewrite IHe by done; done).
  - rewrite lookup_rename; set_solver.
  - done.
  - done.
  - rewrite IHe1, IHe2; [done|set_solver..].
  - rewrite IHe1, IHe2, IHe3; [done|set_solver..].
  - rewrite IHe1, IHe2; [done|set_solver..].
  - rewrite IHe1, IHe2; [done|set_solver..].
Qed.

(** An expression that has a type mentions columns that exist. *)
Lemma infer_columns E G e b : infer E G e = Some b → ∀ c, c ∈ columns_of e → is_Some (G c).
Proof.
  revert b. induction e; intros b; simpl; intros Hi c0 Hc;
    try (apply bind_Some in Hi as (b' & Hi & Hb)); eauto.
  - apply list_elem_of_singleton in Hc as ->. eauto.
  - set_solver.
  - set_solver.
  - case_bool_decide; eauto; done.
  - case_bool_decide; eauto; done.
  - case_bool_decide; eauto; done.
  - destruct (comparable op b' && _) eqn:Hx; [|done]. bool_simpl. apply elem_of_app in Hc as [Hc|Hc]; [eauto|].
    destruct e2; bool_simpl; eauto; set_solver.
  - destruct (ordered b' && _ && _) eqn:Hx; [|done]. bool_simpl. rewrite !elem_of_app in Hc. destruct_or! Hc; eauto.
  - destruct (_ && _) eqn:Hx; [|done]. bool_simpl. rewrite !elem_of_app in Hc. destruct_or! Hc; eauto.
  - destruct (_ && _) eqn:Hx; [|done]. bool_simpl. rewrite !elem_of_app in Hc. destruct_or! Hc; eauto.
Qed.
