(* ===== verification/Schema.v ===== *)
(** Databases as PostgreSQL keeps them: a catalog (enum types, tables with their columns, named
    constraints and indexes) and the rows of each table; and the operations of [alembic.op] on them.

    Every operation has a part on the catalog and a part on the rows.  [alter_catalog] makes the
    checks PostgreSQL makes on names and types and never looks at a row, so what a migration does to
    the catalog is one computation for all data; [alter_rows] is what the operation does to stored
    rows and refuses rows that the new definition does not admit.  A statement checks the uniqueness
    of the rows it leaves, not of those it passes through. *)
From S2P Require Import Prelude PyStr Models Sql.
From Stdlib Require Import ZArith.

(** ** Results *)

Inductive db_error :=
| InvalidName (name : string)            (* longer than the 63 bytes of an identifier *)
| DuplicateObject (name : string)        (* a name in use *)
| UndefinedObject (name : string)        (* no such table, column, constraint, index or type *)
| InvalidDefinition (name : string)      (* an ill-typed expression, a default of another type, a reference to no key *)
| DependentObjects (name : string)       (* something else needs the object *)
| NotNullViolation (column : string)
| DataError (column : string)
| CheckViolation (name : string)
| UniqueViolation (name : string)
| ForeignKeyViolation (name : string).

Inductive result (A : Type) :=
| Done (a : A)
| Error (e : db_error).
Arguments Done {A} a.
Arguments Error {A} e.

#[export] Instance result_ret : MRet result := @Done.
#[export] Instance result_bind : MBind result := λ A B f m,
  match m with
  | Done a => f a
  | Error e => Error e
  end.

#[export] Instance result_fmap : FMap result := λ A B f m,
  match m with
  | Done a => Done (f a)
  | Error e => Error e
  end.

Definition ensure (ok : bool) (e : db_error) : result unit := if ok then Done tt else Error e.

Definition find {A : Type} (o : option A) (name : string) : result A :=
  match o with
  | Some a => Done a
  | None => Error (UndefinedObject name)
  end.

Lemma result_bind_Done {A B} (f : A → result B) (m : result A) b :
  (m ≫= f) = Done b ↔ ∃ a, m = Done a ∧ f a = Done b.
Proof. destruct m as [a|e]; simpl; [|by split; [|intros (? & ? & ?)]]. split; [eauto|]. by intros (? & [= ->] & ?). Qed.

Lemma ensure_Done ok e : ensure ok e = Done tt ↔ ok = true.
Proof. by destruct ok. Qed.

Lemma find_Done {A} (o : option A) name a : find o name = Done a ↔ o = Some a.
Proof. destruct o; simpl; naive_solver. Qed.

(** Fold a fallible function over a list. *)
Fixpoint fold_result {A B : Type} (f : A → B → result A) (a : A) (l : list B) : result A :=
  match l with
  | [] => Done a
  | b :: l' => a' ← f a b; fold_result f a' l'
  end.

Lemma fold_result_app {A B} (f : A → B → result A) a l1 l2 :
  fold_result f a (l1 ++ l2) = a' ← fold_result f a l1; fold_result f a' l2.
Proof. revert a. induction l1 as [|b l1 IH]; intros a; simpl; [done|]. destruct (f a b); simpl; auto. Qed.

(** ** The catalog *)

(** What a column holds in a row that does not mention it. *)
Inductive default_value :=
| DNow
| DInt (z : Z)
| DBool (b : bool)
| DText (s : pystr)
| DLabel (ty : string) (label : pystr).

Record column := mkColumn {
  col_type : sqltype;
  col_nullable : bool;
  col_default : option default_value
}.

Inductive on_delete := RESTRICT | CASCADE.

Record foreign_key := mkForeignKey {
  fk_columns : list string;
  fk_table : string;
  fk_referred : list string;
  fk_ondelete : on_delete
}.

Record index := mkIndex {
  ix_columns : list string;
  ix_unique : bool;
  ix_where : option expr
}.

Record table := mkTable {
  t_columns : gmap string column;
  t_primary : option (string * list string);
  t_checks : gmap string expr;
  t_uniques : gmap string (list string);
  t_foreign : gmap string foreign_key;
  t_indexes : gmap string index
}.

Record catalog := mkCatalog {
  c_enums : enums;
  c_tables : gmap string table
}.

#[export] Instance default_value_eq_dec : EqDecision default_value.
Proof. solve_decision. Defined.
#[export] Instance column_eq_dec : EqDecision column.
Proof. solve_decision. Defined.
#[export] Instance on_delete_eq_dec : EqDecision on_delete.
Proof. solve_decision. Defined.
#[export] Instance foreign_key_eq_dec : EqDecision foreign_key.
Proof. solve_decision. Defined.
#[export] Instance index_eq_dec : EqDecision index.
Proof. solve_decision. Defined.
#[export] Instance table_eq_dec : EqDecision table.
Proof. solve_decision. Defined.
#[export] Instance catalog_eq_dec : EqDecision catalog.
Proof. solve_decision. Defined.
#[export] Instance db_error_eq_dec : EqDecision db_error.
Proof. solve_decision. Defined.
#[export] Instance result_eq_dec {A} `{!EqDecision A} : EqDecision (result A).
Proof. solve_decision. Defined.

Definition empty_catalog : catalog := mkCatalog ∅ ∅.

Definition set_columns (m : gmap string column) (t : table) : table :=
  mkTable m (t_primary t) (t_checks t) (t_uniques t) (t_foreign t) (t_indexes t).
Definition set_primary (p : option (string * list string)) (t : table) : table :=
  mkTable (t_columns t) p (t_checks t) (t_uniques t) (t_foreign t) (t_indexes t).
Definition set_checks (m : gmap string expr) (t : table) : table :=
  mkTable (t_columns t) (t_primary t) m (t_uniques t) (t_foreign t) (t_indexes t).
Definition set_uniques (m : gmap string (list string)) (t : table) : table :=
  mkTable (t_columns t) (t_primary t) (t_checks t) m (t_foreign t) (t_indexes t).
Definition set_foreign (m : gmap string foreign_key) (t : table) : table :=
  mkTable (t_columns t) (t_primary t) (t_checks t) (t_uniques t) m (t_indexes t).
Definition set_indexes (m : gmap string index) (t : table) : table :=
  mkTable (t_columns t) (t_primary t) (t_checks t) (t_uniques t) (t_foreign t) m.

Definition empty_table : table := mkTable ∅ None ∅ ∅ ∅ ∅.

Definition keys {A : Type} (m : gmap string A) : list string := (map_to_list m).*1.
Definition elems {A : Type} (m : gmap string A) : list A := (map_to_list m).*2.

(** Tables, indexes, primary keys and unique constraints share the names of a schema; the
    constraints of a table share its constraint names. *)
Definition relation_names (C : catalog) : list string :=
  flat_map (λ '(n, t), n :: (from_option (λ p, [p.1]) [] (t_primary t)) ++ keys (t_uniques t) ++ keys (t_indexes t))
    (map_to_list (c_tables C)).

Definition constraint_names (t : table) : list string :=
  from_option (λ p, [p.1]) [] (t_primary t) ++ keys (t_checks t) ++ keys (t_uniques t) ++ keys (t_foreign t).

Definition new_name (used : list string) (n : string) : result unit :=
  _ ← ensure (bool_decide (String.length n ≤ 63)) (InvalidName n);
  ensure (bool_decide (n ∉ used)) (DuplicateObject n).

(** The types the columns of a table give its expressions. *)
Definition column_bases (t : table) (c : string) : option base :=
  base_of ∘ col_type <$> t_columns t !! c.

Definition condition_ok (C : catalog) (t : table) (e : expr) : bool :=
  bool_decide (infer (c_enums C) (column_bases t) e = Some BBool).

Definition columns_exist (t : table) (cols : list string) : bool :=
  forallb (λ c, bool_decide (is_Some (t_columns t !! c))) cols.

(** The lists of columns that identify a row. *)
Definition keys_of_table (t : table) : list (list string) :=
  from_option (λ p, [p.2]) [] (t_primary t) ++ elems (t_uniques t).

Definition put_table (n : string) (t : table) (C : catalog) : catalog :=
  mkCatalog (c_enums C) (<[n := t]> (c_tables C)).

Definition map_tables (f : string → table → table) (C : catalog) : catalog :=
  mkCatalog (c_enums C) (map_imap (λ n t, Some (f n t)) (c_tables C)).

(** ** Operations *)

(** [server_default=] of [sa.Column]: a string is quoted, [sa.text] and [func.now()] are SQL. *)
Inductive server_default :=
| Quoted (s : pystr)
| SqlNow
| SqlTrue
| SqlLabel (s : pystr) (ty : string).       (* 's'::ty *)

Inductive sa_column := Column (name : string) (type : sqltype) (server_default : option server_default) (nullable : bool).

Inductive constraint :=
| CheckConstraint (e : expr) (name : string)
| PrimaryKeyConstraint (cols : list string) (name : string)
| UniqueConstraint (cols : list string) (name : string)
| ForeignKeyConstraint (cols : list string) (referred_table : string) (referred : list string)
    (name : string) (ondelete : on_delete).

Inductive op :=
| create_enum (name : string) (labels : list pystr) (checkfirst : bool)
| drop_enum (name : string) (checkfirst : bool)
| create_table (name : string) (columns : list sa_column) (constraints : list constraint)
| drop_table (name : string)
| create_index (name table : string) (cols : list string) (unique : bool) (postgresql_where : option expr)
| drop_index (name table : string)
| add_column (table : string) (column : sa_column)
| drop_column (table column : string)
| rename_column (table column new_column_name : string)
| alter_nullable (table column : string) (nullable : bool)
| alter_default (table column : string) (default : server_default)
| create_constraint (table : string) (c : constraint)
| drop_constraint (name table : string)
| execute_update (table : string) (set : list (string * expr)) (cond : option expr)
| execute_delete (table : string) (cond : expr)
| execute_insert_select (table : string) (cols : list string) (values : list expr)
    (source : string) (cond : expr) (unless : list (string * string)).
    (* INSERT INTO table (cols) SELECT values FROM source AS d WHERE cond AND NOT EXISTS
       (SELECT 1 FROM table AS a WHERE a.x = d.y AND ...) *)

(** ** The catalog part *)

Fixpoint read_digits (s : pystr) (acc : Z) : option Z :=
  match s with
  | [] => Some acc
  | c :: s' => if is_digit c then read_digits s' (acc * 10 + Z.of_N (c - 48))%Z else None
  end.

(** A default read at the type of its column. *)
Definition resolve_default (E : enums) (t : sqltype) (d : server_default) : option default_value :=
  match d, t with
  | SqlNow, TDateTime => Some DNow
  | SqlTrue, TBoolean => Some (DBool true)
  | SqlLabel s ty, TEnum n =>
      if bool_decide (ty = n) && bool_decide (s ∈ default [] (E !! n)) then Some (DLabel n s) else None
  | Quoted s, TInteger | Quoted s, TBigInteger =>
      match s with
      | [] => None
      | _ => z ← read_digits s 0; if has_type E t (VInt z) then Some (DInt z) else None
      end
  | Quoted s, TBoolean =>
      if bool_decide (s = lit "true") then Some (DBool true)
      else if bool_decide (s = lit "false") then Some (DBool false) else None
  | Quoted s, TString _ | Quoted s, TText => if has_type E t (VText s) then Some (DText s) else None
  | Quoted s, TEnum n => if bool_decide (s ∈ default [] (E !! n)) then Some (DLabel n s) else None
  | _, _ => None
  end.

Definition type_exists (E : enums) (t : sqltype) : bool :=
  match t with TEnum n => bool_decide (is_Some (E !! n)) | _ => true end.

Definition add_column_to (C : catalog) (t : table) (col : sa_column) : result table :=
  let 'Column n ty sd nullable := col in
  _ ← new_name (keys (t_columns t)) n;
  _ ← ensure (type_exists (c_enums C) ty) (UndefinedObject n);
  match sd with
  | None => Done (set_columns (<[n := mkColumn ty nullable None]> (t_columns t)) t)
  | Some sd =>
      match resolve_default (c_enums C) ty sd with
      | Some d => Done (set_columns (<[n := mkColumn ty nullable (Some d)]> (t_columns t)) t)
      | None => Error (InvalidDefinition n)
      end
  end.

(** Add a constraint to table [tn], whose definition so far is [t]. *)
Definition add_constraint_to (C : catalog) (tn : string) (t : table) (c : constraint) : result table :=
  match c with
  | CheckConstraint e n =>
      _ ← new_name (constraint_names t) n;
      _ ← ensure (condition_ok C t e) (InvalidDefinition n);
      Done (set_checks (<[n := e]> (t_checks t)) t)
  | PrimaryKeyConstraint cols n =>
      _ ← new_name (tn :: relation_names (put_table tn t C) ++ constraint_names t) n;
      _ ← ensure (columns_exist t cols) (UndefinedObject n);
      _ ← ensure (bool_decide (t_primary t = None)) (InvalidDefinition n);
      _ ← ensure (forallb (λ c, from_option (λ col, negb (col_nullable col)) false (t_columns t !! c)) cols)
            (InvalidDefinition n);
      Done (set_primary (Some (n, cols)) t)
  | UniqueConstraint cols n =>
      _ ← new_name (tn :: relation_names (put_table tn t C) ++ constraint_names t) n;
      _ ← ensure (columns_exist t cols) (UndefinedObject n);
      Done (set_uniques (<[n := cols]> (t_uniques t)) t)
  | ForeignKeyConstraint cols rt referred n ondelete =>
      _ ← new_name (constraint_names t) n;
      _ ← ensure (columns_exist t cols) (UndefinedObject n);
      target ← find (if bool_decide (rt = tn) then Some t else c_tables C !! rt) rt;
      _ ← ensure (bool_decide (referred ∈ keys_of_table target)) (InvalidDefinition n);
      _ ← ensure (bool_decide ((column_bases t <$> cols) = (column_bases target <$> referred)))
            (InvalidDefinition n);
      Done (set_foreign (<[n := mkForeignKey cols rt referred ondelete]> (t_foreign t)) t)
  end.

(** Whether a foreign key of some table refers to columns of table [tn] that satisfy [P]. *)
Definition referred_by (C : catalog) (tn : string) (P : string → list string → bool) : bool :=
  existsb (λ '(n, t), existsb (λ fk, bool_decide (fk_table fk = tn) && P n (fk_referred fk)) (elems (t_foreign t)))
    (map_to_list (c_tables C)).

Definition uses (c : string) (cols : list string) : bool := bool_decide (c ∈ cols).

(** Without column [c]: PostgreSQL drops the constraints and indexes that involve it. *)
Definition without_column (c : string) (t : table) : table :=
  mkTable (delete c (t_columns t))
    (p ← t_primary t; if uses c p.2 then None else Some p)
    (filter (λ ne, mentions c ne.2 = false) (t_checks t))
    (filter (λ nc, uses c nc.2 = false) (t_uniques t))
    (filter (λ nf, uses c (fk_columns nf.2) = false) (t_foreign t))
    (filter (λ ni, uses c (ix_columns ni.2) || from_option (mentions c) false (ix_where ni.2) = false) (t_indexes t)).

Definition rename_index (a b : string) (ix : index) : index :=
  mkIndex (ren a b <$> ix_columns ix) (ix_unique ix) (rename_expr a b <$> ix_where ix).

(** The foreign keys of table [n] after column [a] of table [tn] became [b]. *)
Definition rename_foreign (tn a b n : string) (fk : foreign_key) : foreign_key :=
  mkForeignKey (if bool_decide (n = tn) then ren a b <$> fk_columns fk else fk_columns fk) (fk_table fk)
    (if bool_decide (fk_table fk = tn) then ren a b <$> fk_referred fk else fk_referred fk) (fk_ondelete fk).

Definition rename_table (tn a b n : string) (t : table) : table :=
  if bool_decide (n = tn) then
    mkTable (rename_columns a b (t_columns t)) ((λ p, (p.1, map (ren a b) p.2)) <$> t_primary t)
      (rename_expr a b <$> t_checks t) (map (ren a b) <$> t_uniques t)
      (rename_foreign tn a b n <$> t_foreign t) (rename_index a b <$> t_indexes t)
  else set_foreign (rename_foreign tn a b n <$> t_foreign t) t.

(** A value assigned to a column: a string literal is read at the type of the column. *)
Definition assignable (C : catalog) (t : table) (c : string) (target : table) (e : expr) : bool :=
  match t_columns target !! c with
  | None => false
  | Some col =>
      match e with
      | Str s => literal_of (c_enums C) (base_of (col_type col)) s
      | _ => bool_decide (infer (c_enums C) (column_bases t) e = Some (base_of (col_type col)))
      end
  end.

Definition type_used (n : string) (C : catalog) : bool :=
  existsb (λ t, existsb (λ col, bool_decide (col_type col = TEnum n)) (elems (t_columns t))) (elems (c_tables C)).

Definition alter_column (C : catalog) (tn c : string) (f : column → result column) : result catalog :=
  t ← find (c_tables C !! tn) tn;
  col ← find (t_columns t !! c) c;
  col' ← f col;
  Done (put_table tn (set_columns (<[c := col']> (t_columns t)) t) C).

Definition alter_catalog (o : op) (C : catalog) : result catalog :=
  match o with
  | create_enum n labels checkfirst =>
      if checkfirst && bool_decide (is_Some (c_enums C !! n)) then Done C
      else _ ← new_name (keys (c_enums C) ++ keys (c_tables C)) n;
           _ ← ensure (bool_decide (NoDup labels)) (InvalidDefinition n);
           Done (mkCatalog (<[n := labels]> (c_enums C)) (c_tables C))
  | drop_enum n checkfirst =>
      if checkfirst && bool_decide (c_enums C !! n = None) then Done C
      else _ ← find (c_enums C !! n) n;
           _ ← ensure (negb (type_used n C)) (DependentObjects n);
           Done (mkCatalog (delete n (c_enums C)) (c_tables C))
  | create_table n cols constraints =>
      _ ← new_name (relation_names C ++ keys (c_enums C)) n;
      t ← fold_result (add_column_to C) empty_table cols;
      t ← fold_result (add_constraint_to C n) t constraints;
      Done (put_table n t C)
  | drop_table n =>
      _ ← find (c_tables C !! n) n;
      _ ← ensure (negb (referred_by C n (λ m _, negb (bool_decide (m = n))))) (DependentObjects n);
      Done (mkCatalog (c_enums C) (delete n (c_tables C)))
  | create_index n tn cols unique cond =>
      t ← find (c_tables C !! tn) tn;
      _ ← new_name (relation_names C) n;
      _ ← ensure (columns_exist t cols) (UndefinedObject n);
      _ ← ensure (from_option (condition_ok C t) true cond) (InvalidDefinition n);
      Done (put_table tn (set_indexes (<[n := mkIndex cols unique cond]> (t_indexes t)) t) C)
  | drop_index n tn =>
      t ← find (c_tables C !! tn) tn;
      _ ← find (t_indexes t !! n) n;
      Done (put_table tn (set_indexes (delete n (t_indexes t)) t) C)
  | add_column tn col =>
      t ← find (c_tables C !! tn) tn;
      t ← add_column_to C t col;
      Done (put_table tn t C)
  | drop_column tn c =>
      t ← find (c_tables C !! tn) tn;
      _ ← find (t_columns t !! c) c;
      _ ← ensure (negb (referred_by C tn (λ _ cols, uses c cols))) (DependentObjects c);
      Done (put_table tn (without_column c t) C)
  | rename_column tn a b =>
      t ← find (c_tables C !! tn) tn;
      _ ← find (t_columns t !! a) a;
      _ ← new_name (keys (t_columns t)) b;
      Done (map_tables (rename_table tn a b) C)
  | alter_nullable tn c nullable =>
      t ← find (c_tables C !! tn) tn;
      _ ← ensure (negb nullable || negb (from_option (λ p, uses c p.2) false (t_primary t))) (InvalidDefinition c);
      alter_column C tn c (λ col, Done (mkColumn (col_type col) nullable (col_default col)))
  | alter_default tn c sd =>
      alter_column C tn c (λ col,
        match resolve_default (c_enums C) (col_type col) sd with
        | Some d => Done (mkColumn (col_type col) (col_nullable col) (Some d))
        | None => Error (InvalidDefinition c)
        end)
  | create_constraint tn c =>
      t ← find (c_tables C !! tn) tn;
      t ← add_constraint_to C tn t c;
      Done (put_table tn t C)
  | drop_constraint n tn =>
      t ← find (c_tables C !! tn) tn;
      let unused cols := ensure (negb (referred_by C tn (λ _ cs, bool_decide (cs = cols)))) (DependentObjects n) in
      if bool_decide (is_Some (t_checks t !! n)) then Done (put_table tn (set_checks (delete n (t_checks t)) t) C)
      else if bool_decide (is_Some (t_foreign t !! n)) then Done (put_table tn (set_foreign (delete n (t_foreign t)) t) C)
      else if bool_decide (fst <$> t_primary t = Some n) then
        _ ← unused (from_option snd [] (t_primary t));
        Done (put_table tn (set_primary None t) C)
      else cols ← find (t_uniques t !! n) n;
           _ ← unused cols;
           Done (put_table tn (set_uniques (delete n (t_uniques t)) t) C)
  | execute_update tn sets cond =>
      t ← find (c_tables C !! tn) tn;
      _ ← ensure (bool_decide (NoDup sets.*1) && forallb (λ '(c, e), assignable C t c t e) sets) (InvalidDefinition tn);
      _ ← ensure (from_option (condition_ok C t) true cond) (InvalidDefinition tn);
      Done C
  | execute_delete tn cond =>
      t ← find (c_tables C !! tn) tn;
      _ ← ensure (condition_ok C t cond) (InvalidDefinition tn);
      Done C
  | execute_insert_select tn cols values source cond unless =>
      t ← find (c_tables C !! tn) tn;
      s ← find (c_tables C !! source) source;
      _ ← ensure (bool_decide (NoDup cols) && bool_decide (length cols = length values) &&
                  forallb (λ '(c, e), assignable C s c t e) (zip cols values)) (InvalidDefinition tn);
      _ ← ensure (condition_ok C s cond &&
                  forallb (λ '(x, y), bool_decide (column_bases t x = column_bases s y) &&
                                      bool_decide (is_Some (column_bases t x))) unless) (InvalidDefinition tn);
      Done C
  end.

(** ** The rows part *)

Abbreviation data := (gmap string (list row)).

Definition rows (D : data) (tn : string) : list row := default [] (D !! tn).

(** The values of some columns, unless one is NULL. *)
Definition key_of (cols : list string) (r : row) : option (list value) := mapM (λ c, r !! c) cols.

Definition index_key (cols : list string) (cond : option expr) (r : row) : option (list value) :=
  if from_option (holds r) true cond then key_of cols r else None.

Definition unique_on (cols : list string) (cond : option expr) (l : list row) : bool :=
  bool_decide (NoDup (omap (index_key cols cond) l)).

Definition refers (D : data) (fk : foreign_key) (r : row) : bool :=
  match key_of (fk_columns fk) r with
  | None => true
  | Some k => bool_decide (k ∈ omap (key_of (fk_referred fk)) (rows D (fk_table fk)))
  end.

(** What a table demands of the stored rows, under the name a violation is reported with. *)
Inductive demand :=
| Required (c : string)
| Satisfies (name : string) (e : expr)
| Unique (name : string) (cols : list string) (cond : option expr)
| References (name : string) (fk : foreign_key).

Definition violation (d : demand) : db_error :=
  match d with
  | Required c => NotNullViolation c
  | Satisfies n _ => CheckViolation n
  | Unique n _ _ => UniqueViolation n
  | References n _ => ForeignKeyViolation n
  end.

Definition meets (D : data) (tn : string) (d : demand) : bool :=
  match d with
  | Required c => forallb (λ r, bool_decide (is_Some (r !! c))) (rows D tn)
  | Satisfies _ e => forallb (λ r, passes r e) (rows D tn)
  | Unique _ cols cond => unique_on cols cond (rows D tn)
  | References _ fk => forallb (refers D fk) (rows D tn)
  end.

Definition references_of (t : table) : list demand :=
  (λ nf, References nf.1 nf.2) <$> map_to_list (t_foreign t).

Definition demands (t : table) : list demand :=
  (map_to_list (t_columns t) ≫= λ nc, if col_nullable nc.2 then [] else [Required nc.1]) ++
  ((λ ne, Satisfies ne.1 ne.2) <$> map_to_list (t_checks t)) ++
  from_option (λ p, [Unique p.1 p.2 None]) [] (t_primary t) ++
  ((λ nc, Unique nc.1 nc.2 None) <$> map_to_list (t_uniques t)) ++
  (map_to_list (t_indexes t) ≫= λ ni,
     if ix_unique ni.2 then [Unique ni.1 (ix_columns ni.2) (ix_where ni.2)] else []) ++
  references_of t.

Definition check_demands (D : data) (l : list (string * demand)) : result unit :=
  match List.find (λ '(tn, d), negb (meets D tn d)) l with
  | None => Done tt
  | Some (_, d) => Error (violation d)
  end.

Definition cells_ok (E : enums) (t : table) (r : row) : bool :=
  bool_decide (map_Forall (λ c v, from_option (λ col, has_type E (col_type col) v) false (t_columns t !! c) = true) r).

Definition all_references (C : catalog) : list (string * demand) :=
  map_to_list (c_tables C) ≫= λ '(tn, t), pair tn <$> references_of t.

(** What a statement checks that has written rows of table [tn]: the table's own demands and the
    foreign keys of every table. *)
Definition validate (C : catalog) (D : data) (tn : string) (t : table) : result unit :=
  _ ← ensure (forallb (cells_ok (c_enums C) t) (rows D tn)) (DataError tn);
  check_demands D ((pair tn <$> demands t) ++ all_references C).

Definition default_cell (now : datetime) (d : default_value) : value :=
  match d with
  | DNow => VTime now
  | DInt z => VInt z
  | DBool b => VBool b
  | DText s => VText s
  | DLabel ty l => VEnum ty l
  end.

Definition set_cell (c : string) (v : option value) (r : row) : row :=
  match v with
  | Some v => <[c := v]> r
  | None => delete c r
  end.

Definition store (col : option column) (v : option value) : option value :=
  match col, v with
  | Some (mkColumn (TEnum n) _ _), Some (VText l) => Some (VEnum n l)
  | _, _ => v
  end.

(** The new cells are computed from the old row. *)
Definition update_row (t : table) (sets : list (string * expr)) (r : row) : row :=
  foldl (λ r' '(c, e), set_cell c (store (t_columns t !! c) (default None (eval r e))) r') r sets.

Definition insert_row (now : datetime) (t : table) (cells : list (string * expr)) (source : row) : row :=
  foldl (λ r '(c, e), set_cell c (store (t_columns t !! c) (default None (eval source e))) r)
    (omap (λ col, default_cell now <$> col_default col) (t_columns t)) cells.

Definition demand_of (c : constraint) : demand :=
  match c with
  | CheckConstraint e n => Satisfies n e
  | PrimaryKeyConstraint cols n | UniqueConstraint cols n => Unique n cols None
  | ForeignKeyConstraint cols rt referred n od => References n (mkForeignKey cols rt referred od)
  end.

Definition no_match (unless : list (string * string)) (l : list row) (d : row) : bool :=
  forallb (λ a, negb (forallb (λ '(x, y),
    match a !! x, d !! y with Some v, Some w => bool_decide (v = w) | _, _ => false end) unless)) l.

(** [o] takes the catalog [C] to [C'] and the rows from [D].  A DELETE that would leave references
    to a deleted row is refused: the cascade of [ondelete], which no script relies on, is left to
    the deletions of the application. *)
Definition alter_rows (now : datetime) (o : op) (C C' : catalog) (D : data) : result data :=
  match o with
  | create_enum _ _ _ | drop_enum _ _ | drop_index _ _ | alter_default _ _ _ | drop_constraint _ _ => Done D
  | create_table n _ _ => Done (<[n := []]> D)
  | drop_table n => Done (delete n D)
  | create_index n tn cols unique cond =>
      _ ← ensure (negb unique || meets D tn (Unique n cols cond)) (UniqueViolation n);
      Done D
  | add_column tn (Column c _ _ nullable) =>
      match t ← c_tables C' !! tn; col ← t_columns t !! c; col_default col with
      | Some d => Done (<[tn := insert c (default_cell now d) <$> rows D tn]> D)
      | None =>
          _ ← ensure (nullable || bool_decide (rows D tn = [])) (NotNullViolation c);
          Done D
      end
  | drop_column tn c => Done (<[tn := delete c <$> rows D tn]> D)
  | rename_column tn a b => Done (<[tn := rename_columns a b <$> rows D tn]> D)
  | alter_nullable tn c nullable =>
      _ ← ensure (nullable || meets D tn (Required c)) (NotNullViolation c);
      Done D
  | create_constraint tn c =>
      _ ← ensure (meets D tn (demand_of c)) (violation (demand_of c));
      Done D
  | execute_update tn sets cond =>
      t ← find (c_tables C !! tn) tn;
      let l := (λ r, if from_option (holds r) true cond then update_row t sets r else r) <$> rows D tn in
      _ ← validate C (<[tn := l]> D) tn t;
      Done (<[tn := l]> D)
  | execute_delete tn cond =>
      let l := filter (λ r, holds r cond = false) (rows D tn) in
      _ ← check_demands (<[tn := l]> D) (all_references C);
      Done (<[tn := l]> D)
  | execute_insert_select tn cols values source cond unless =>
      t ← find (c_tables C !! tn) tn;
      let chosen := filter (λ d, holds d cond && no_match unless (rows D tn) d = true) (rows D source) in
      let l := rows D tn ++ (insert_row now t (zip cols values) <$> chosen) in
      _ ← validate C (<[tn := l]> D) tn t;
      Done (<[tn := l]> D)
  end.

(** ** Databases *)

(** [db_version] is the row of [alembic_version]. *)
Record database := mkDatabase {
  db_catalog : catalog;
  db_rows : data;
  db_version : option string
}.

Definition empty_database : database := mkDatabase empty_catalog ∅ None.

Definition exec (now : datetime) (db : database) (o : op) : result database :=
  C ← alter_catalog o (db_catalog db);
  D ← alter_rows now o (db_catalog db) C (db_rows db);
  Done (mkDatabase C D (db_version db)).

Definition exec_all (now : datetime) (db : database) (ops : list op) : result database :=
  fold_result (exec now) db ops.

Definition alter_all (ops : list op) (C : catalog) : result catalog :=
  fold_result (λ C o, alter_catalog o C) C ops.

(** What a script does to the catalog does not depend on the rows. *)
Lemma exec_all_catalog now ops db db' :
  exec_all now db ops = Done db' → alter_all ops (db_catalog db) = Done (db_catalog db').
Proof.
  unfold exec_all, alter_all. revert db. induction ops as [|o ops IH]; intros db; simpl; [by intros [= ->]|].
  intros (db1 & E & Hr)%result_bind_Done. unfold exec in E.
  apply result_bind_Done in E as (C & -> & (D & _ & [= <-])%result_bind_Done). simpl. by apply IH in Hr.
Qed.
