(* ===== verification/SqlText.v ===== *)
(** The conditions of the schema are SQL text in the source.  [sql] reads such a text: the lexer
    folds words to lower case as PostgreSQL does, and the parser knows OR, AND, the comparisons,
    IS [NOT] NULL, BETWEEN, IN and the functions the source calls, with their precedence.  A text
    it cannot read becomes a reference to the column with the empty name, which no table has. *)
From S2P Require Import Prelude PyStr Sql.
From Stdlib Require Import ZArith Ascii.
From Stdlib Require Strings.String.

Inductive token :=
| Word (s : string)
| Number (z : Z)
| Quote (s : pystr)
| LPar | RPar | Comma
| LtSign | GtSign | EqSign | Bang
| KwAnd | KwOr | KwIs | KwNot | KwNull | KwBetween | KwIn.

Definition char_code (c : ascii) : N := N_of_ascii c.

Definition word_char (c : ascii) : bool :=
  is_alnum_ascii (char_code c) || (char_code c =? 95)%N.

Definition lower_char (c : ascii) : ascii :=
  if is_upper (char_code c) then ascii_of_N (char_code c + 32) else c.

Definition word_token (s : string) : token :=
  if String.eqb s "and" then KwAnd else if String.eqb s "or" then KwOr
  else if String.eqb s "is" then KwIs else if String.eqb s "not" then KwNot
  else if String.eqb s "null" then KwNull else if String.eqb s "between" then KwBetween
  else if String.eqb s "in" then KwIn else Word s.

(** The token of the characters read so far, last first. *)
Definition flush (w : list ascii) : list token :=
  match w with
  | [] => []
  | _ =>
      if forallb (λ c, is_digit (char_code c)) w
      then [Number (foldr (λ c z, z * 10 + Z.of_N (char_code c - 48))%Z 0%Z w)]
      else [word_token (String.string_of_list_ascii (rev (map lower_char w)))]
  end.

Definition symbol (c : ascii) : option (list token) :=
  match char_code c with
  | 32%N => Some []
  | 40%N => Some [LPar]
  | 41%N => Some [RPar]
  | 44%N => Some [Comma]
  | 60%N => Some [LtSign]
  | 62%N => Some [GtSign]
  | 61%N => Some [EqSign]
  | 33%N => Some [Bang]
  | _ => None
  end.

(** [q] holds the characters of an open string literal, last first. *)
Fixpoint lex (w : list ascii) (q : option pystr) (l : list ascii) : option (list token) :=
  match l, q with
  | [], Some _ => None
  | [], None => Some (flush w)
  | c :: l, Some s =>
      if (char_code c =? 39)%N then cons (Quote (rev s)) <$> lex [] None l
      else lex [] (Some (char_code c :: s)) l
  | c :: l, None =>
      if word_char c then lex (c :: w) None l
      else if (char_code c =? 39)%N then app (flush w) <$> lex [] (Some []) l
      else ts ← symbol c; app (flush w ++ ts) <$> lex [] None l
  end.

Definition comparison (ts : list token) : option (cmp * list token) :=
  match ts with
  | EqSign :: ts => Some (Eq, ts)
  | Bang :: EqSign :: ts => Some (Ne, ts)
  | LtSign :: EqSign :: ts => Some (Le, ts)
  | GtSign :: EqSign :: ts => Some (Ge, ts)
  | LtSign :: ts => Some (Lt, ts)
  | GtSign :: ts => Some (Gt, ts)
  | _ => None
  end.

Fixpoint label_list (ts : list token) : option (list pystr * list token) :=
  match ts with
  | Quote s :: RPar :: ts => Some ([s], ts)
  | Quote s :: Comma :: ts => '(l, ts) ← label_list ts; Some (s :: l, ts)
  | _ => None
  end.

Definition call (f : string) (e : expr) (ts : list token) : option (expr * list token) :=
  match ts with
  | RPar :: ts =>
      if String.eqb f "length" then Some (Length e, ts)
      else if String.eqb f "octet_length" then Some (OctetLength e, ts) else None
  | _ => None
  end.

Inductive level := Disjunction | Conjunction | Test | Operand.

Fixpoint parse (fuel : nat) (lv : level) (ts : list token) : option (expr * list token) :=
  match fuel with
  | 0 => None
  | S n =>
    match lv with
    | Disjunction =>
        '(a, ts) ← parse n Conjunction ts;
        match ts with
        | KwOr :: ts => '(b, ts) ← parse n Disjunction ts; Some (Or a b, ts)
        | _ => Some (a, ts)
        end
    | Conjunction =>
        '(a, ts) ← parse n Test ts;
        match ts with
        | KwAnd :: ts => '(b, ts) ← parse n Conjunction ts; Some (And a b, ts)
        | _ => Some (a, ts)
        end
    | Test =>
        '(a, ts) ← parse n Operand ts;
        match ts with
        | KwIs :: KwNull :: ts => Some (IsNull a, ts)
        | KwIs :: KwNot :: KwNull :: ts => Some (IsNotNull a, ts)
        | KwIn :: LPar :: ts => '(l, ts) ← label_list ts; Some (In a l, ts)
        | KwBetween :: ts =>
            '(lo, ts) ← parse n Operand ts;
            match ts with
            | KwAnd :: ts => '(hi, ts) ← parse n Operand ts; Some (Between a lo hi, ts)
            | _ => None
            end
        | _ =>
            match comparison ts with
            | Some (op, ts) => '(b, ts) ← parse n Operand ts; Some (Cmp op a b, ts)
            | None => Some (a, ts)
            end
        end
    | Operand =>
        match ts with
        | Number z :: ts => Some (Int z, ts)
        | Quote s :: ts => Some (Str s, ts)
        | LPar :: ts =>
            '(e, ts) ← parse n Disjunction ts;
            match ts with RPar :: ts => Some (e, ts) | _ => None end
        | Word f :: LPar :: ts =>
            match ts with
            | Word g :: LPar :: ts =>
                (* encode(sha256(e), 'hex') *)
                '(e, ts) ← parse n Disjunction ts;
                match ts with
                | RPar :: Comma :: Quote s :: RPar :: ts =>
                    if String.eqb f "encode" && String.eqb g "sha256" && bool_decide (s = lit "hex")
                    then Some (HexSha256 e, ts) else None
                | _ => None
                end
            | _ => '(e, ts) ← parse n Disjunction ts; call f e ts
            end
        | Word c :: ts => Some (Col c, ts)
        | _ => None
        end
    end
  end.

(** Every level consumes a token or goes one level down: four calls per token are enough. *)
Definition parse_sql (s : string) : option expr :=
  ts ← lex [] None (String.list_ascii_of_string s);
  '(e, rest) ← parse (4 * length ts + 4) Disjunction ts;
  match rest with [] => Some e | _ => None end.

Definition sql (s : string) : expr := default (Col EmptyString) (parse_sql s).
Arguments sql s%_string_scope.

(** ** Readings *)

Example sql_length : sql "length(name) > 0" = Cmp Gt (Length (Col "name")) (Int 0).
Proof. reflexivity. Qed.

Example sql_digest : sql "encode(sha256(payload_bytes), 'hex')" = HexSha256 (Col "payload_bytes").
Proof. reflexivity. Qed.

(** AND binds tighter than OR, BETWEEN takes its own AND, and a comparison takes parentheses. *)
Example sql_precedence :
  sql "a IS NULL OR a BETWEEN 100 AND 599 AND (b IS NULL) = (c IS NOT NULL)" =
  Or (IsNull (Col "a"))
     (And (Between (Col "a") (Int 100) (Int 599)) (Cmp Eq (IsNull (Col "b")) (IsNotNull (Col "c")))).
Proof. reflexivity. Qed.

Example sql_labels : sql "status IN ('pending', 'retry_wait')" = In (Col "status") [lit "pending"; lit "retry_wait"].
Proof. reflexivity. Qed.

Example sql_unreadable : parse_sql "length(name > 0" = None ∧ parse_sql "status = 'open" = None.
Proof. split; reflexivity. Qed.
