(* ===== verification/Migrations.v ===== *)
(** alembic/versions: the five revisions, operation by operation, and alembic/env.py, which runs the
    revisions a database lacks in one transaction. *)
From S2P Require Import Prelude PyStr Models Sql SqlText Schema.
From Stdlib Require Import ZArith.

(** [op.create_index] without [unique=] and [postgresql_where=]. *)
Definition plain_index (name table : string) (cols : list string) : op := create_index name table cols false None.

(** ** 20260823_0001: the initial schema *)

Module R0001.
Definition delivery_status : string := "delivery_status".
Definition delivery_status_labels : list pystr :=
  [lit "pending"; lit "in_progress"; lit "retry_wait"; lit "delivered"; lit "dead_lettered"].

Definition delivery_disposition : string := "delivery_disposition".
Definition delivery_disposition_labels : list pystr :=
  [lit "succeeded"; lit "retry"; lit "terminal_failure"].

Definition create_enums : list op :=
  [create_enum delivery_status delivery_status_labels true;
   create_enum delivery_disposition delivery_disposition_labels true].

Definition create_endpoints : list op :=
  [create_table "endpoints"
     [Column "id" TUuid None false;
      Column "name" (TString 120) None false;
      Column "target_url" TText None false;
      Column "signing_secret" TLargeBinary None false;
      Column "secret_version" TInteger (Some (Quoted (lit "1"))) false;
      Column "enabled" TBoolean (Some SqlTrue) false;
      Column "created_at" TDateTime (Some SqlNow) false;
      Column "updated_at" TDateTime (Some SqlNow) false]
     [CheckConstraint (sql "length(name) > 0") "ck_endpoints_name_not_empty";
      CheckConstraint (sql "length(target_url) > 0") "ck_endpoints_target_url_not_empty";
      CheckConstraint (sql "octet_length(signing_secret) > 0") "ck_endpoints_signing_secret_not_empty";
      CheckConstraint (sql "secret_version >= 1") "ck_endpoints_secret_version_positive";
      PrimaryKeyConstraint ["id"] "pk_endpoints"];
   plain_index "ix_endpoints_enabled_created_at" "endpoints" ["enabled"; "created_at"]].

Definition create_events : list op :=
  [create_table "events"
     [Column "id" TUuid None false;
      Column "source" (TString 120) None false;
      Column "event_type" (TString 255) None false;
      Column "idempotency_key" (TString 255) None false;
      Column "payload" TJSONB None false;
      Column "payload_bytes" TLargeBinary None false;
      Column "payload_sha256" (TString 64) None false;
      Column "created_at" TDateTime (Some SqlNow) false]
     [CheckConstraint (sql "length(source) > 0") "ck_events_source_not_empty";
      CheckConstraint (sql "length(event_type) > 0") "ck_events_event_type_not_empty";
      CheckConstraint (sql "length(idempotency_key) > 0") "ck_events_idempotency_key_not_empty";
      CheckConstraint (sql "octet_length(payload_bytes) > 0") "ck_events_payload_bytes_not_empty";
      CheckConstraint (sql "length(payload_sha256) = 64") "ck_events_payload_sha256_length";
      PrimaryKeyConstraint ["id"] "pk_events";
      UniqueConstraint ["source"; "idempotency_key"] "uq_events_source_idempotency_key"];
   plain_index "ix_events_event_type_created_at" "events" ["event_type"; "created_at"]].

Definition create_deliveries : list op :=
  [create_table "deliveries"
     [Column "id" TUuid None false;
      Column "event_id" TUuid None false;
      Column "endpoint_id" TUuid None false;
      Column "replay_generation" TInteger (Some (Quoted (lit "0"))) false;
      Column "status" (TEnum delivery_status) (Some (Quoted (lit "pending"))) false;
      Column "attempt_count" TInteger (Some (Quoted (lit "0"))) false;
      Column "next_attempt_at" TDateTime (Some SqlNow) true;
      Column "lease_owner" (TString 160) None true;
      Column "lease_expires_at" TDateTime None true;
      Column "lease_token" TUuid None true;
      Column "delivered_at" TDateTime None true;
      Column "last_error" TText None true;
      Column "created_at" TDateTime (Some SqlNow) false;
      Column "updated_at" TDateTime (Some SqlNow) false]
     [CheckConstraint (sql "replay_generation >= 0") "ck_deliveries_replay_generation_nonnegative";
      CheckConstraint (sql "attempt_count >= 0") "ck_deliveries_attempt_count_nonnegative";
      CheckConstraint (sql
        "(lease_owner IS NULL) = (lease_expires_at IS NULL) AND (lease_owner IS NULL) = (lease_token IS NULL)")
        "ck_deliveries_lease_fields_set_together";
      CheckConstraint (sql "status != 'delivered' OR delivered_at IS NOT NULL") "ck_deliveries_delivered_has_timestamp";
      ForeignKeyConstraint ["endpoint_id"] "endpoints" ["id"] "fk_deliveries_endpoint_id_endpoints" RESTRICT;
      ForeignKeyConstraint ["event_id"] "events" ["id"] "fk_deliveries_event_id_events" RESTRICT;
      PrimaryKeyConstraint ["id"] "pk_deliveries";
      UniqueConstraint ["event_id"; "endpoint_id"; "replay_generation"]
        "uq_deliveries_event_id_endpoint_id_replay_generation"];
   create_index "ix_deliveries_due" "deliveries" ["next_attempt_at"; "id"] false
     (Some (sql "status IN ('pending', 'retry_wait')"));
   plain_index "ix_deliveries_event_id_created_at" "deliveries" ["event_id"; "created_at"];
   plain_index "ix_deliveries_expired_leases" "deliveries" ["lease_expires_at"]].

Definition create_delivery_attempts : list op :=
  [create_table "delivery_attempts"
     [Column "id" TUuid None false;
      Column "delivery_id" TUuid None false;
      Column "attempt_number" TInteger None false;
      Column "disposition" (TEnum delivery_disposition) None false;
      Column "http_status_code" TInteger None true;
      Column "error_type" (TString 120) None true;
      Column "error_message" TText None true;
      Column "response_body_excerpt" TText None true;
      Column "duration_ms" TInteger None false;
      Column "request_timestamp" TBigInteger None false;
      Column "retry_scheduled_for" TDateTime None true;
      Column "started_at" TDateTime None false;
      Column "finished_at" TDateTime None false;
      Column "created_at" TDateTime (Some SqlNow) false]
     [CheckConstraint (sql "attempt_number >= 1") "ck_delivery_attempts_attempt_number_positive";
      CheckConstraint (sql "duration_ms >= 0") "ck_delivery_attempts_duration_ms_nonnegative";
      CheckConstraint (sql "request_timestamp >= 0") "ck_delivery_attempts_request_timestamp_nonnegative";
      CheckConstraint (sql "http_status_code IS NULL OR http_status_code BETWEEN 100 AND 599")
        "ck_delivery_attempts_http_status_code_valid";
      CheckConstraint (sql "finished_at >= started_at") "ck_delivery_attempts_timestamps_ordered";
      ForeignKeyConstraint ["delivery_id"] "deliveries" ["id"] "fk_delivery_attempts_delivery_id_deliveries" CASCADE;
      PrimaryKeyConstraint ["id"] "pk_delivery_attempts";
      UniqueConstraint ["delivery_id"; "attempt_number"] "uq_delivery_attempts_delivery_id_attempt_number"];
   plain_index "ix_delivery_attempts_delivery_id_started_at" "delivery_attempts" ["delivery_id"; "started_at"]].

Definition upgrade : list op :=
  create_enums ++ create_endpoints ++ create_events ++ create_deliveries ++ create_delivery_attempts.

Definition downgrade : list op :=
  [drop_index "ix_delivery_attempts_delivery_id_started_at" "delivery_attempts";
   drop_table "delivery_attempts";
   drop_index "ix_deliveries_expired_leases" "deliveries";
   drop_index "ix_deliveries_event_id_created_at" "deliveries";
   drop_index "ix_deliveries_due" "deliveries";
   drop_table "deliveries";
   drop_index "ix_events_event_type_created_at" "events";
   drop_table "events";
   drop_index "ix_endpoints_enabled_created_at" "endpoints";
   drop_table "endpoints";
   drop_enum delivery_disposition true;
   drop_enum delivery_status true].
End R0001.

(** ** 20260823_0002: separate request fingerprints from payload digests *)

Module R0002.
Definition upgrade : list op :=
  [drop_constraint "ck_events_payload_sha256_length" "events";
   rename_column "events" "payload_sha256" "request_fingerprint_sha256";
   create_constraint "events" (CheckConstraint (sql "length(request_fingerprint_sha256) = 64")
     "ck_events_request_fingerprint_sha256_length");
   add_column "events" (Column "payload_sha256" (TString 64) None true);
   execute_update "events" [("payload_sha256", sql "encode(sha256(payload_bytes), 'hex')")]
     (Some (sql "payload_sha256 IS NULL"));
   alter_nullable "events" "payload_sha256" false;
   create_constraint "events" (CheckConstraint (sql "length(payload_sha256) = 64") "ck_events_payload_sha256_length")].

Definition downgrade : list op :=
  [drop_constraint "ck_events_payload_sha256_length" "events";
   drop_column "events" "payload_sha256";
   drop_constraint "ck_events_request_fingerprint_sha256_length" "events";
   rename_column "events" "request_fingerprint_sha256" "payload_sha256";
   create_constraint "events" (CheckConstraint (sql "length(payload_sha256) = 64") "ck_events_payload_sha256_length")].
End R0002.

(** ** 20260823_0003: evidence reserved before outbound I/O *)

Module R0003.
Definition attempt_status : string := "delivery_attempt_status".
Definition attempt_status_labels : list pystr := [lit "in_progress"; lit "completed"; lit "indeterminate"].

(** The columns that are filled only when an attempt completes. *)
Definition completed_columns : list string :=
  ["disposition"; "duration_ms"; "request_timestamp"; "started_at"; "finished_at"].

Definition complete_existing : op :=
  execute_update "delivery_attempts"
    [("status", sql "'completed'"); ("lease_token", sql "id"); ("resolved_at", sql "created_at")] None.

(** The attempt of every lease that is active during the deployment. *)
Definition preserve_leases : op :=
  execute_insert_select "delivery_attempts"
    ["id"; "delivery_id"; "attempt_number"; "status"; "lease_token"; "created_at"]
    [sql "lease_token"; sql "id"; sql "attempt_count"; sql "'in_progress'"; sql "lease_token"; sql "updated_at"]
    "deliveries" (sql "status = 'in_progress' AND lease_token IS NOT NULL")
    [("delivery_id", "id"); ("attempt_number", "attempt_count")].

Definition lifecycle_fields : string :=
  "(status = 'in_progress' AND disposition IS NULL AND http_status_code IS NULL AND error_type IS NULL AND error_message IS NULL AND response_body_excerpt IS NULL AND duration_ms IS NULL AND request_timestamp IS NULL AND retry_scheduled_for IS NULL AND started_at IS NULL AND finished_at IS NULL AND resolved_at IS NULL) OR (status = 'completed' AND disposition IS NOT NULL AND duration_ms IS NOT NULL AND request_timestamp IS NOT NULL AND started_at IS NOT NULL AND finished_at IS NOT NULL AND resolved_at IS NOT NULL) OR (status = 'indeterminate' AND disposition IS NULL AND http_status_code IS NULL AND error_type IS NOT NULL AND response_body_excerpt IS NULL AND duration_ms IS NULL AND request_timestamp IS NULL AND retry_scheduled_for IS NULL AND started_at IS NULL AND finished_at IS NULL AND resolved_at IS NOT NULL)".

Definition upgrade : list op :=
  [create_enum attempt_status attempt_status_labels false;
   add_column "delivery_attempts" (Column "status" (TEnum attempt_status) None true);
   add_column "delivery_attempts" (Column "lease_token" TUuid None true);
   add_column "delivery_attempts" (Column "resolved_at" TDateTime None true)] ++
  map (λ column_name, alter_nullable "delivery_attempts" column_name true) completed_columns ++
  [complete_existing;
   preserve_leases;
   alter_nullable "delivery_attempts" "status" false;
   alter_nullable "delivery_attempts" "lease_token" false;
   alter_default "delivery_attempts" "status" (SqlLabel (lit "in_progress") attempt_status);
   create_constraint "delivery_attempts" (UniqueConstraint ["delivery_id"; "lease_token"]
     "uq_delivery_attempts_delivery_id_lease_token");
   create_index "uq_delivery_attempts_one_in_progress" "delivery_attempts" ["delivery_id"] true
     (Some (sql "status = 'in_progress'"));
   create_constraint "delivery_attempts" (CheckConstraint (sql lifecycle_fields) "ck_delivery_attempts_lifecycle_fields");
   create_constraint "deliveries" (CheckConstraint (sql "(status = 'in_progress') = (lease_owner IS NOT NULL)")
     "ck_deliveries_lease_matches_status")].

Definition downgrade : list op :=
  [execute_delete "delivery_attempts" (sql "status != 'completed'");
   drop_constraint "ck_deliveries_lease_matches_status" "deliveries";
   drop_constraint "ck_delivery_attempts_lifecycle_fields" "delivery_attempts";
   drop_index "uq_delivery_attempts_one_in_progress" "delivery_attempts";
   drop_constraint "uq_delivery_attempts_delivery_id_lease_token" "delivery_attempts"] ++
  map (λ column_name, alter_nullable "delivery_attempts" column_name false) completed_columns ++
  [drop_column "delivery_attempts" "resolved_at";
   drop_column "delivery_attempts" "lease_token";
   drop_column "delivery_attempts" "status";
   drop_enum attempt_status false].
End R0003.

(** ** 20260823_0004: manual replays *)

Module R0004.
Definition upgrade : list op :=
  [add_column "deliveries" (Column "replayed_from_delivery_id" TUuid None true);
   add_column "deliveries" (Column "replay_idempotency_key" (TString 255) None true);
   create_constraint "deliveries" (ForeignKeyConstraint ["replayed_from_delivery_id"] "deliveries" ["id"]
     "fk_deliveries_replayed_from_delivery_id_deliveries" RESTRICT);
   create_constraint "deliveries" (UniqueConstraint ["replayed_from_delivery_id"; "replay_idempotency_key"]
     "uq_deliveries_replayed_from_delivery_id_replay_idempotency_key");
   create_constraint "deliveries" (CheckConstraint
     (sql "(replayed_from_delivery_id IS NULL) = (replay_idempotency_key IS NULL)")
     "ck_deliveries_replay_metadata_set_together");
   create_constraint "deliveries" (CheckConstraint
     (sql "replay_idempotency_key IS NULL OR length(replay_idempotency_key) > 0")
     "ck_deliveries_replay_idempotency_key_not_empty");
   create_index "uq_deliveries_one_active_per_event_endpoint" "deliveries" ["event_id"; "endpoint_id"] true
     (Some (sql "status IN ('pending', 'in_progress', 'retry_wait')"))].

Definition downgrade : list op :=
  [drop_constraint "ck_deliveries_replay_idempotency_key_not_empty" "deliveries";
   drop_index "uq_deliveries_one_active_per_event_endpoint" "deliveries";
   drop_constraint "ck_deliveries_replay_metadata_set_together" "deliveries";
   drop_constraint "uq_deliveries_replayed_from_delivery_id_replay_idempotency_key" "deliveries";
   drop_constraint "fk_deliveries_replayed_from_delivery_id_deliveries" "deliveries";
   drop_column "deliveries" "replay_idempotency_key";
   drop_column "deliveries" "replayed_from_delivery_id"].
End R0004.

(** ** 20260824_0005: indexes of the Control Room *)

Module R0005.
Definition upgrade : list op :=
  [plain_index "ix_events_created_at_id" "events" ["created_at"; "id"];
   plain_index "ix_endpoints_created_at_id" "endpoints" ["created_at"; "id"];
   plain_index "ix_deliveries_status_updated_at_id" "deliveries" ["status"; "updated_at"; "id"]].

Definition downgrade : list op :=
  [drop_index "ix_deliveries_status_updated_at_id" "deliveries";
   drop_index "ix_endpoints_created_at_id" "endpoints";
   drop_index "ix_events_created_at_id" "events"].
End R0005.

(** ** The chain of revisions *)

Record revision := mkRevision {
  rev_id : string;
  down_revision : option string;
  rev_upgrade : list op;
  rev_downgrade : list op
}.

Definition revisions : list revision :=
  [mkRevision "20260823_0001" None R0001.upgrade R0001.downgrade;
   mkRevision "20260823_0002" (Some "20260823_0001") R0002.upgrade R0002.downgrade;
   mkRevision "20260823_0003" (Some "20260823_0002") R0003.upgrade R0003.downgrade;
   mkRevision "20260823_0004" (Some "20260823_0003") R0004.upgrade R0004.downgrade;
   mkRevision "20260824_0005" (Some "20260823_0004") R0005.upgrade R0005.downgrade].

Definition head : string := "20260824_0005".

Definition set_version (v : option string) (db : database) : database :=
  mkDatabase (db_catalog db) (db_rows db) v.

(** The revision after the one a database has, and the one it has. *)
Definition next_revision (v : option string) : option revision :=
  List.find (λ r, bool_decide (down_revision r = v)) revisions.
Definition current_revision (v : option string) : option revision :=
  List.find (λ r, bool_decide (Some (rev_id r) = v)) revisions.

(** [alembic upgrade +1] and [alembic downgrade -1]. *)
Definition upgrade_one (now : datetime) (db : database) : result database :=
  match next_revision (db_version db) with
  | Some r => set_version (Some (rev_id r)) <$> exec_all now db (rev_upgrade r)
  | None => Done db
  end.

Definition downgrade_one (now : datetime) (db : database) : result database :=
  match current_revision (db_version db) with
  | Some r => set_version (down_revision r) <$> exec_all now db (rev_downgrade r)
  | None => Done db
  end.

(** [context.run_migrations()] of [alembic upgrade head]: the chain has no more steps than
    revisions. *)
Fixpoint upgrades (n : nat) (now : datetime) (db : database) : result database :=
  match n with
  | 0 => Done db
  | S n => db ← upgrade_one now db; upgrades n now db
  end.

(** [env.run_sync_migrations]: all pending revisions in one transaction, which a failure rolls back. *)
Definition upgrade_head (now : datetime) (db : database) : database :=
  match upgrades (length revisions) now db with
  | Done db' => db'
  | Error _ => db
  end.
