(* ===== verification/Metadata.v ===== *)
(** models.py as SQLAlchemy sees it: the mapped columns and table arguments of the four classes, the
    naming convention of database.py, and [create_all], the schema that [Base.metadata] stands for. *)
From S2P Require Import Prelude PyStr Retry StateMachine Models Sql SqlText Schema.
From Stdlib Require Import ZArith.

(** ** [database.NAMING_CONVENTION] *)

Definition column_0_N_name (cols : list string) : string := String.concat "_" cols.

Definition ix_name (table_name : string) (cols : list string) : string :=
  "ix_" +:+ table_name +:+ "_" +:+ column_0_N_name cols.
Definition uq_name (table_name : string) (cols : list string) : string :=
  "uq_" +:+ table_name +:+ "_" +:+ column_0_N_name cols.
Definition ck_name (table_name constraint_name : string) : string :=
  "ck_" +:+ table_name +:+ "_" +:+ constraint_name.
Definition fk_name (table_name : string) (cols : list string) (referred_table_name : string) : string :=
  "fk_" +:+ table_name +:+ "_" +:+ column_0_N_name cols +:+ "_" +:+ referred_table_name.
Definition pk_name (table_name : string) : string := "pk_" +:+ table_name.

(** ** Declarative classes *)

(** [mapped_column]: [Mapped[T | None]] is a nullable column, [primary_key=True] is said of [id] only. *)
Record mapped_column := mapped {
  mc_name : string;
  mc_type : sqltype;
  mc_optional : bool;
  mc_server_default : option server_default;
  mc_foreign_key : option (string * on_delete)      (* ForeignKey("<table>.id", ondelete=...) *)
}.

Definition plain (n : string) (t : sqltype) : mapped_column := mapped n t false None None.
Definition optional (n : string) (t : sqltype) : mapped_column := mapped n t true None None.
Definition defaulted (n : string) (t : sqltype) (d : server_default) : mapped_column := mapped n t false (Some d) None.
Definition references (n : string) (opt : bool) (t : string) (od : on_delete) : mapped_column :=
  mapped n TUuid opt None (Some (t, od)).

Inductive table_arg :=
| UniqueArg (cols : list string)
| CheckArg (text : string) (name : string)
| IndexArg (name : string) (cols : list string) (unique : bool) (postgresql_where : option string).

Record model := mkModel {
  tablename : string;
  table_args : list table_arg;
  mapped_columns : list mapped_column
}.

(** ** The classes *)

Definition Endpoint_model : model := mkModel "endpoints"
  [CheckArg "length(name) > 0" "name_not_empty";
   CheckArg "length(target_url) > 0" "target_url_not_empty";
   CheckArg "octet_length(signing_secret) > 0" "signing_secret_not_empty";
   CheckArg "secret_version >= 1" "secret_version_positive";
   IndexArg "ix_endpoints_enabled_created_at" ["enabled"; "created_at"] false None;
   IndexArg "ix_endpoints_created_at_id" ["created_at"; "id"] false None]
  [plain "id" TUuid;
   plain "name" (TString 120);
   plain "target_url" TText;
   plain "signing_secret" TLargeBinary;
   defaulted "secret_version" TInteger (Quoted (lit "1"));
   defaulted "enabled" TBoolean (Quoted (lit "true"));
   defaulted "created_at" TDateTime SqlNow;
   defaulted "updated_at" TDateTime SqlNow].

Definition Event_model : model := mkModel "events"
  [UniqueArg ["source"; "idempotency_key"];
   CheckArg "length(source) > 0" "source_not_empty";
   CheckArg "length(event_type) > 0" "event_type_not_empty";
   CheckArg "length(idempotency_key) > 0" "idempotency_key_not_empty";
   CheckArg "octet_length(payload_bytes) > 0" "payload_bytes_not_empty";
   CheckArg "length(request_fingerprint_sha256) = 64" "request_fingerprint_sha256_length";
   CheckArg "length(payload_sha256) = 64" "payload_sha256_length";
   IndexArg "ix_events_event_type_created_at" ["event_type"; "created_at"] false None;
   IndexArg "ix_events_created_at_id" ["created_at"; "id"] false None]
  [plain "id" TUuid;
   plain "source" (TString 120);
   plain "event_type" (TString 255);
   plain "idempotency_key" (TString 255);
   plain "payload" TJSONB;
   plain "payload_bytes" TLargeBinary;
   plain "request_fingerprint_sha256" (TString 64);
   plain "payload_sha256" (TString 64);
   defaulted "created_at" TDateTime SqlNow].

Definition Delivery_model : model := mkModel "deliveries"
  [UniqueArg ["event_id"; "endpoint_id"; "replay_generation"];
   UniqueArg ["replayed_from_delivery_id"; "replay_idempotency_key"];
   CheckArg "replay_generation >= 0" "replay_generation_nonnegative";
   CheckArg "(replayed_from_delivery_id IS NULL) = (replay_idempotency_key IS NULL)" "replay_metadata_set_together";
   CheckArg "replay_idempotency_key IS NULL OR length(replay_idempotency_key) > 0" "replay_idempotency_key_not_empty";
   CheckArg "attempt_count >= 0" "attempt_count_nonnegative";
   CheckArg "(lease_owner IS NULL) = (lease_expires_at IS NULL) AND (lease_owner IS NULL) = (lease_token IS NULL)"
     "lease_fields_set_together";
   CheckArg "(status = 'in_progress') = (lease_owner IS NOT NULL)" "lease_matches_status";
   CheckArg "status != 'delivered' OR delivered_at IS NOT NULL" "delivered_has_timestamp";
   IndexArg "ix_deliveries_due" ["next_attempt_at"; "id"] false (Some "status IN ('pending', 'retry_wait')");
   IndexArg "ix_deliveries_expired_leases" ["lease_expires_at"] false None;
   IndexArg "ix_deliveries_event_id_created_at" ["event_id"; "created_at"] false None;
   IndexArg "ix_deliveries_status_updated_at_id" ["status"; "updated_at"; "id"] false None;
   IndexArg "uq_deliveries_one_active_per_event_endpoint" ["event_id"; "endpoint_id"] true
     (Some "status IN ('pending', 'in_progress', 'retry_wait')")]
  [plain "id" TUuid;
   references "event_id" false "events" RESTRICT;
   references "endpoint_id" false "endpoints" RESTRICT;
   defaulted "replay_generation" TInteger (Quoted (lit "0"));
   references "replayed_from_delivery_id" true "deliveries" RESTRICT;
   optional "replay_idempotency_key" (TString 255);
   defaulted "status" (TEnum "delivery_status") (Quoted (DeliveryStatus_value PENDING));
   defaulted "attempt_count" TInteger (Quoted (lit "0"));
   mapped "next_attempt_at" TDateTime true (Some SqlNow) None;
   optional "lease_owner" (TString 160);
   optional "lease_expires_at" TDateTime;
   optional "lease_token" TUuid;
   optional "delivered_at" TDateTime;
   optional "last_error" TText;
   defaulted "created_at" TDateTime SqlNow;
   defaulted "updated_at" TDateTime SqlNow].

Definition DeliveryAttempt_model : model := mkModel "delivery_attempts"
  [UniqueArg ["delivery_id"; "attempt_number"];
   UniqueArg ["delivery_id"; "lease_token"];
   CheckArg "attempt_number >= 1" "attempt_number_positive";
   CheckArg "duration_ms >= 0" "duration_ms_nonnegative";
   CheckArg "request_timestamp >= 0" "request_timestamp_nonnegative";
   CheckArg "http_status_code IS NULL OR http_status_code BETWEEN 100 AND 599" "http_status_code_valid";
   CheckArg "finished_at >= started_at" "timestamps_ordered";
   CheckArg "(status = 'in_progress' AND disposition IS NULL AND http_status_code IS NULL AND error_type IS NULL AND error_message IS NULL AND response_body_excerpt IS NULL AND duration_ms IS NULL AND request_timestamp IS NULL AND retry_scheduled_for IS NULL AND started_at IS NULL AND finished_at IS NULL AND resolved_at IS NULL) OR (status = 'completed' AND disposition IS NOT NULL AND duration_ms IS NOT NULL AND request_timestamp IS NOT NULL AND started_at IS NOT NULL AND finished_at IS NOT NULL AND resolved_at IS NOT NULL) OR (status = 'indeterminate' AND disposition IS NULL AND http_status_code IS NULL AND error_type IS NOT NULL AND response_body_excerpt IS NULL AND duration_ms IS NULL AND request_timestamp IS NULL AND retry_scheduled_for IS NULL AND started_at IS NULL AND finished_at IS NULL AND resolved_at IS NOT NULL)"
     "lifecycle_fields";
   IndexArg "uq_delivery_attempts_one_in_progress" ["delivery_id"] true (Some "status = 'in_progress'");
   IndexArg "ix_delivery_attempts_delivery_id_started_at" ["delivery_id"; "started_at"] false None]
  [plain "id" TUuid;
   references "delivery_id" false "deliveries" CASCADE;
   plain "attempt_number" TInteger;
   defaulted "status" (TEnum "delivery_attempt_status") (Quoted (DeliveryAttemptStatus_value ATTEMPT_IN_PROGRESS));
   plain "lease_token" TUuid;
   optional "disposition" (TEnum "delivery_disposition");
   optional "http_status_code" TInteger;
   optional "error_type" (TString 120);
   optional "error_message" TText;
   optional "response_body_excerpt" TText;
   optional "duration_ms" TInteger;
   optional "request_timestamp" TBigInteger;
   optional "retry_scheduled_for" TDateTime;
   optional "started_at" TDateTime;
   optional "finished_at" TDateTime;
   optional "resolved_at" TDateTime;
   defaulted "created_at" TDateTime SqlNow].

(** ** [Base.metadata.create_all] *)

(** The values of the [StrEnum] [DeliveryDisposition]. *)
Definition DeliveryDisposition_value (d : DeliveryDisposition) : pystr :=
  match d with
  | SUCCEEDED => lit "succeeded"
  | RETRY => lit "retry"
  | TERMINAL_FAILURE => lit "terminal_failure"
  end.

(** [_enum_values] of the three classes. *)
Definition enum_types : list op :=
  [create_enum "delivery_status"
     (map DeliveryStatus_value [PENDING; IN_PROGRESS; RETRY_WAIT; DELIVERED; DEAD_LETTERED]) true;
   create_enum "delivery_attempt_status"
     (map DeliveryAttemptStatus_value [ATTEMPT_IN_PROGRESS; ATTEMPT_COMPLETED; ATTEMPT_INDETERMINATE]) true;
   create_enum "delivery_disposition" (map DeliveryDisposition_value [SUCCEEDED; RETRY; TERMINAL_FAILURE]) true].

Definition sa_column_of (c : mapped_column) : sa_column :=
  Column (mc_name c) (mc_type c) (mc_server_default c) (mc_optional c).

Definition foreign_key_of (t : string) (c : mapped_column) : list constraint :=
  match mc_foreign_key c with
  | Some (referred, od) => [ForeignKeyConstraint [mc_name c] referred ["id"] (fk_name t [mc_name c] referred) od]
  | None => []
  end.

Definition constraint_of (t : string) (a : table_arg) : list constraint :=
  match a with
  | UniqueArg cols => [UniqueConstraint cols (uq_name t cols)]
  | CheckArg text name => [CheckConstraint (sql text) (ck_name t name)]
  | IndexArg _ _ _ _ => []
  end.

Definition index_of (t : string) (a : table_arg) : list op :=
  match a with
  | IndexArg name cols unique cond => [create_index name t cols unique (sql <$> cond)]
  | _ => []
  end.

Definition create_model (m : model) : list op :=
  create_table (tablename m) (map sa_column_of (mapped_columns m))
    (PrimaryKeyConstraint ["id"] (pk_name (tablename m)) ::
     flat_map (foreign_key_of (tablename m)) (mapped_columns m) ++
     flat_map (constraint_of (tablename m)) (table_args m)) ::
  flat_map (index_of (tablename m)) (table_args m).

(** The tables in the order of their foreign keys. *)
Definition create_all : list op :=
  enum_types ++ flat_map create_model [Endpoint_model; Event_model; Delivery_model; DeliveryAttempt_model].
