(* ===== verification/SchemaSound.v ===== *)
(** Soundness of the database operations: a database whose rows meet their catalog still does after
    every operation that succeeds, although an operation only checks what is new.

    [sound] is the promise of PostgreSQL to the program: cells of the columns' types, no NULL where
    none is allowed, CHECK constraints, unique constraints and indexes, and foreign keys.  [closed]
    says that constraints mention existing columns and tables only; the scripts go through closed
    catalogs only, which is a computation ([path_closed]). *)
From S2P Require Import Prelude PyStr Models Sql Schema.
From Stdlib Require Import ZArith.

(** ** Sound databases *)

Definition table_sound (C : catalog) (D : data) (tn : string) (t : table) : Prop :=
  (∀ r, r ∈ rows D tn → cells_ok (c_enums C) t r = true) ∧
  (∀ d, d ∈ demands t → meets D tn d = true).

Definition sound (C : catalog) (D : data) : Prop :=
  ∀ tn t, c_tables C !! tn = Some t → table_sound C D tn t.

Lemma cells_ok_true E t r :
  cells_ok E t r = true ↔
  ∀ c v, r !! c = Some v → ∃ col, t_columns t !! c = Some col ∧ has_type E (col_type col) v = true.
Proof.
  unfold cells_ok. rewrite bool_decide_eq_true. unfold map_Forall. split; intros H c v Hv.
  - specialize (H c v Hv). destruct (t_columns t !! c) as [col|]; [by exists col|done].
  - by destruct (H c v Hv) as (col & -> & ?).
Qed.

Lemma elem_of_demands t d :
  d ∈ demands t ↔
  match d with
  | Required c => ∃ col, t_columns t !! c = Some col ∧ col_nullable col = false
  | Satisfies n e => t_checks t !! n = Some e
  | Unique n cols cond =>
      (t_primary t = Some (n, cols) ∧ cond = None) ∨ (t_uniques t !! n = Some cols ∧ cond = None) ∨
      (∃ ix, t_indexes t !! n = Some ix ∧ ix_unique ix = true ∧ ix_columns ix = cols ∧ ix_where ix = cond)
  | References n fk => t_foreign t !! n = Some fk
  end.
Proof.
  unfold demands, references_of. rewrite !elem_of_app, !list_elem_of_bind, !list_elem_of_fmap.
  setoid_rewrite elem_of_map_to_list'.
  assert (∀ (x : demand) (o : option (string * list string)),
    x ∈ from_option (λ p, [Unique p.1 p.2 None]) [] o ↔ ∃ p, o = Some p ∧ x = Unique p.1 p.2 None) as Ho.
  { intros x [p|]; simpl; [rewrite list_elem_of_singleton|rewrite elem_of_nil]; naive_solver. }
  rewrite Ho. split.
  - intros [([c col] & Hd & Hl)|[([n e] & -> & Hl)|[([n cols] & Hl & ->)|[([n cols] & -> & Hl)|
      [([n ix] & Hd & Hl)|([n fk] & -> & Hl)]]]]]; simpl in *; [|done|by left|by right; left| |done].
    + destruct (col_nullable col) eqn:En; [by apply elem_of_nil in Hd|].
      apply list_elem_of_singleton in Hd as ->. by exists col.
    + destruct (ix_unique ix) eqn:En; [|by apply elem_of_nil in Hd].
      apply list_elem_of_singleton in Hd as ->. right; right. by exists ix.
  - intros Hd. destruct d as [c|n e|n cols cond|n fk].
    + destruct Hd as (col & Hc & Hn). left. exists (c, col). simpl. rewrite Hn.
      by rewrite list_elem_of_singleton.
    + right; left. by exists (n, e).
    + destruct Hd as [[Hp ->]|[[Hu ->]|(ix & Hi & Hu & <- & <-)]].
      * do 2 right; left. by exists (n, cols).
      * do 3 right; left. by exists (n, cols).
      * do 4 right; left. exists (n, ix). simpl. rewrite Hu. by rewrite list_elem_of_singleton.
    + do 5 right. by exists (n, fk).
Qed.

(** ** Rows of a table *)

Lemma rows_insert_eq D tn l : rows (<[tn := l]> D) tn = l.
Proof. unfold rows. by rewrite lookup_insert_eq. Qed.

Lemma rows_insert_ne D tn l n : n ≠ tn → rows (<[tn := l]> D) n = rows D n.
Proof. intros Hn. unfold rows. by rewrite lookup_insert_ne. Qed.

Lemma forallb_elem {A} (f : A → bool) l : forallb f l = true ↔ ∀ x, x ∈ l → f x = true.
Proof. rewrite forallb_forall. by setoid_rewrite <- list_elem_of_In. Qed.

(** The columns of its table that a demand looks at, and those of table [tn] that it refers to. *)
Definition demand_columns (d : demand) : list string :=
  match d with
  | Required c => [c]
  | Satisfies _ e => columns_of e
  | Unique _ cols cond => cols ++ from_option columns_of [] cond
  | References _ fk => fk_columns fk
  end.

Definition referred_columns (tn : string) (d : demand) : list string :=
  match d with
  | References _ fk => if bool_decide (fk_table fk = tn) then fk_referred fk else []
  | _ => []
  end.

Lemma key_of_ext cols r r' : (∀ c, c ∈ cols → r !! c = r' !! c) → key_of cols r = key_of cols r'.
Proof.
  unfold key_of. induction cols as [|c cols IH]; intros H; simpl; [done|].
  rewrite H, IH by set_solver. done.
Qed.

Lemma index_key_ext cols cond r r' :
  (∀ c, c ∈ cols ++ from_option columns_of [] cond → r !! c = r' !! c) →
  index_key cols cond r = index_key cols cond r'.
Proof.
  intros H. unfold index_key. rewrite (key_of_ext cols r r') by set_solver.
  destruct cond as [e|]; simpl; [|done]. unfold holds. rewrite (eval_ext r r') by set_solver. done.
Qed.

Lemma omap_map {A B} (f g : A → option B) (h : A → A) (l : list A) :
  (∀ x, x ∈ l → g (h x) = f x) → omap g (h <$> l) = omap f l.
Proof.
  induction l as [|x l IH]; intros H; [done|]. cbn. rewrite H by set_solver.
  fold (h <$> l). rewrite IH by set_solver. done.
Qed.

Lemma forallb_map {A} (f g : A → bool) (h : A → A) (l : list A) :
  (∀ x, x ∈ l → g (h x) = f x) → forallb g (h <$> l) = forallb f l.
Proof.
  induction l as [|x l IH]; intros H; [done|]. cbn. rewrite H by set_solver.
  fold (h <$> l). rewrite IH by set_solver. done.
Qed.

(** Rows that are rewritten without changing what a demand looks at. *)
Section rewrite_rows.
Context (D : data) (tn : string) (h : row → row).

Definition rewritten : data := <[tn := h <$> rows D tn]> D.

Lemma rows_rewritten n : rows rewritten n = (if bool_decide (n = tn) then h else id) <$> rows D n.
Proof.
  unfold rewritten. case_bool_decide as E; [subst; by rewrite rows_insert_eq|].
  by rewrite rows_insert_ne, list_fmap_id.
Qed.

Lemma meets_rewritten n d :
  (n = tn → ∀ r c, r ∈ rows D tn → c ∈ demand_columns d → h r !! c = r !! c) →
  (∀ r c, r ∈ rows D tn → c ∈ referred_columns tn d → h r !! c = r !! c) →
  meets rewritten n d = meets D n d.
Proof.
  intros H1 H2.
  assert (∀ r c, r ∈ rows D n → c ∈ demand_columns d →
    (if bool_decide (n = tn) then h else id) r !! c = r !! c) as H3.
  { intros r c Hr Hc. case_bool_decide; [subst; by apply H1|done]. }
  clear H1. destruct d as [c|m e|m cols cond|m fk]; simpl in *.
  - rewrite rows_rewritten. apply forallb_map. intros r Hr. by rewrite H3 by set_solver.
  - rewrite rows_rewritten. apply forallb_map. intros r Hr. unfold passes.
    by rewrite (eval_ext _ r) by eauto.
  - unfold unique_on. rewrite rows_rewritten.
    rewrite (omap_map (index_key cols cond)); [done|]. intros r Hr. apply index_key_ext. eauto.
  - rewrite rows_rewritten. apply forallb_map. intros r Hr. unfold refers.
    rewrite (key_of_ext _ _ r) by eauto. destruct (key_of (fk_columns fk) r) as [k|]; [|done].
    rewrite rows_rewritten. destruct (bool_decide_reflect (fk_table fk = tn)) as [E|E]; [|by rewrite list_fmap_id].
    rewrite (omap_map (key_of (fk_referred fk))); [done|].
    intros r' Hr'. apply key_of_ext. intros c Hc. rewrite E in Hr'.
    apply H2; [done|]. first [exact Hc|by rewrite bool_decide_eq_true_2].
Qed.
End rewrite_rows.

(** ** Closed catalogs *)

Definition demand_closed (C : catalog) (t : table) (d : demand) : bool :=
  columns_exist t (demand_columns d) &&
  match d with
  | References _ fk => from_option (λ t', columns_exist t' (fk_referred fk)) false (c_tables C !! fk_table fk)
  | _ => true
  end.

Definition closed (C : catalog) : bool :=
  forallb (λ nt, forallb (demand_closed C nt.2) (demands nt.2)) (map_to_list (c_tables C)).

Lemma columns_exist_true t cols : columns_exist t cols = true ↔ ∀ c, c ∈ cols → is_Some (t_columns t !! c).
Proof. unfold columns_exist. rewrite forallb_elem. by setoid_rewrite bool_decide_eq_true. Qed.

Section closed.
Context (C : catalog) (Hclosed : closed C = true).

Lemma closed_demand tn t d : c_tables C !! tn = Some t → d ∈ demands t → demand_closed C t d = true.
Proof.
  intros Ht Hd. unfold closed in Hclosed. rewrite forallb_elem in Hclosed.
  specialize (Hclosed (tn, t)). rewrite elem_of_map_to_list in Hclosed.
  specialize (Hclosed Ht). rewrite forallb_elem in Hclosed. by apply Hclosed.
Qed.

Lemma closed_columns tn t d c :
  c_tables C !! tn = Some t → d ∈ demands t → c ∈ demand_columns d → is_Some (t_columns t !! c).
Proof.
  intros Ht Hd Hc. pose proof (closed_demand _ _ _ Ht Hd) as Hx. unfold demand_closed in Hx.
  apply andb_true_iff in Hx as [Hx _]. rewrite columns_exist_true in Hx. auto.
Qed.

Lemma closed_target tn t n fk :
  c_tables C !! tn = Some t → References n fk ∈ demands t →
  ∃ t', c_tables C !! fk_table fk = Some t' ∧ ∀ c, c ∈ fk_referred fk → is_Some (t_columns t' !! c).
Proof.
  intros Ht Hd. pose proof (closed_demand _ _ _ Ht Hd) as Hx. unfold demand_closed in Hx.
  apply andb_true_iff in Hx as [_ Hx]. destruct (c_tables C !! fk_table fk) as [t'|]; [|done].
  simpl in Hx. rewrite columns_exist_true in Hx. eauto.
Qed.

Lemma closed_referred tn t d n c :
  c_tables C !! tn = Some t → d ∈ demands t → c ∈ referred_columns n d →
  ∃ t', c_tables C !! n = Some t' ∧ is_Some (t_columns t' !! c).
Proof.
  intros Ht Hd Hc. destruct d as [| | |m fk]; simpl in Hc; [set_solver..|].
  case_bool_decide; [|set_solver]. subst. destruct (closed_target _ _ _ _ Ht Hd) as (t' & ? & ?). eauto.
Qed.
End closed.

(** ** Changes of one table's definition *)

Lemma cells_ok_mono E E' t t' r :
  cells_ok E t r = true →
  (∀ c col v, t_columns t !! c = Some col → r !! c = Some v → has_type E (col_type col) v = true →
     ∃ col', t_columns t' !! c = Some col' ∧ has_type E' (col_type col') v = true) →
  cells_ok E' t' r = true.
Proof. rewrite !cells_ok_true. intros H1 H2 c v Hv. destruct (H1 c v Hv) as (col & ? & ?). eauto. Qed.

Lemma put_table_lookup n t C m t' :
  c_tables (put_table n t C) !! m = Some t' → (m = n ∧ t' = t) ∨ (m ≠ n ∧ c_tables C !! m = Some t').
Proof. simpl. intros [[<- <-]|[? ?]]%lookup_insert_Some; eauto. Qed.

(** The rows stay, the columns keep their types, and what is new in the demands has been checked. *)
Lemma sound_alter C D tn t t' :
  sound C D → c_tables C !! tn = Some t →
  (∀ c col, t_columns t !! c = Some col →
     ∃ col', t_columns t' !! c = Some col' ∧ col_type col' = col_type col) →
  (∀ d, d ∈ demands t' → d ∈ demands t ∨ meets D tn d = true) →
  sound (put_table tn t' C) D.
Proof.
  intros Hs Ht Hc Hd n t1 [[-> ->]|[Hn Hl]]%put_table_lookup; [|by apply Hs].
  destruct (Hs _ _ Ht) as [Hcells Hdem]. split.
  - intros r Hr. apply (cells_ok_mono _ _ _ _ _ (Hcells r Hr)). intros c col v Hl _ Hv.
    destruct (Hc _ _ Hl) as (col' & ? & E). exists col'. by rewrite E.
  - intros d Hdd. destruct (Hd d Hdd); auto.
Qed.

(** The rows of one table are rewritten in a column that the demands before did not mention. *)
Lemma sound_rewrite C D tn t t' h :
  sound C D → c_tables C !! tn = Some t →
  (∀ r, r ∈ rows D tn → cells_ok (c_enums C) t' (h r) = true) →
  (∀ d, d ∈ demands t' → d ∈ demands t ∧
     (∀ r c, r ∈ rows D tn → c ∈ demand_columns d → h r !! c = r !! c) ∨ meets (rewritten D tn h) tn d = true) →
  (∀ n t1 d r c, c_tables C !! n = Some t1 → d ∈ demands t1 → r ∈ rows D tn →
     n ≠ tn ∨ d ∈ demands t' → c ∈ referred_columns tn d → h r !! c = r !! c) →
  sound (put_table tn t' C) (rewritten D tn h).
Proof.
  intros Hs Ht Hcells Hd Href n t1 [[-> ->]|[Hn Hl]]%put_table_lookup.
  - split.
    + intros r'. rewrite rows_rewritten, bool_decide_eq_true_2 by done.
      intros (r & -> & Hr)%list_elem_of_fmap. auto.
    + intros d Hdd. destruct (Hd d Hdd) as [[Hold Hsame]|?]; [|done].
      rewrite meets_rewritten; [by apply (Hs _ _ Ht)|auto|].
      intros r c Hr Hc. eapply Href; eauto.
  - destruct (Hs _ _ Hl) as [Hc1 Hd1]. split.
    + intros r. rewrite rows_rewritten, bool_decide_eq_false_2, list_fmap_id by done. apply Hc1.
    + intros d Hdd. rewrite meets_rewritten; [by apply Hd1|done|].
      intros r c Hr Hc. eapply Href; eauto.
Qed.

(** ** Statements *)

Lemma check_demands_Done D l : check_demands D l = Done tt ↔ ∀ tn d, (tn, d) ∈ l → meets D tn d = true.
Proof.
  unfold check_demands. destruct (List.find _ l) as [[tn d]|] eqn:E.
  - apply find_some in E as [Hin Hm]. apply negb_true_iff in Hm. split; [done|].
    intros H. rewrite (H tn d) in Hm; [done|]. by apply list_elem_of_In.
  - split; [|done]. intros _ tn d Hin. apply list_elem_of_In in Hin.
    apply (find_none _ _ E) in Hin. by apply negb_false_iff in Hin.
Qed.

Lemma elem_of_all_references C tn d :
  (tn, d) ∈ all_references C ↔
  ∃ t n fk, c_tables C !! tn = Some t ∧ d = References n fk ∧ t_foreign t !! n = Some fk.
Proof.
  unfold all_references, references_of. rewrite list_elem_of_bind. split.
  - intros ([n t] & (d' & [= -> ->] & ([m fk] & -> & Hm)%list_elem_of_fmap)%list_elem_of_fmap & Ht).
    apply elem_of_map_to_list in Ht, Hm. eauto 7.
  - intros (t & n & fk & Ht & -> & Hn). exists (tn, t). split; [|by apply elem_of_map_to_list].
    apply list_elem_of_fmap. eexists; split; [done|]. apply list_elem_of_fmap.
    exists (n, fk). split; [done|]. by apply elem_of_map_to_list.
Qed.

(** A statement that writes the rows of one table and ends with the foreign keys intact. *)
Lemma sound_write C D tn t l :
  sound C D → c_tables C !! tn = Some t →
  (∀ r, r ∈ l → cells_ok (c_enums C) t r = true) →
  (∀ d, d ∈ demands t → (∀ n fk, d ≠ References n fk) → meets (<[tn := l]> D) tn d = true) →
  check_demands (<[tn := l]> D) (all_references C) = Done tt →
  sound C (<[tn := l]> D).
Proof.
  intros Hs Ht Hc Hd Hrefs n t1 Hl. rewrite check_demands_Done in Hrefs.
  assert (∀ m fk, References m fk ∈ demands t1 → meets (<[tn := l]> D) n (References m fk) = true) as Href.
  { intros m fk Hm. apply Hrefs, elem_of_all_references. apply elem_of_demands in Hm. eauto 6. }
  destruct (decide (n = tn)) as [->|Hn].
  - rewrite Ht in Hl. injection Hl as <-. split; [by rewrite rows_insert_eq|].
    intros d Hdd. destruct d; [apply Hd; [done|congruence]..|auto].
  - destruct (Hs _ _ Hl) as [Hc1 Hd1]. split; [by rewrite rows_insert_ne|].
    intros d Hdd. specialize (Hd1 d Hdd). destruct d; [simpl in *; by rewrite rows_insert_ne..|auto].
Qed.

Lemma sound_validated C D tn t l :
  sound C D → c_tables C !! tn = Some t →
  validate C (<[tn := l]> D) tn t = Done tt → sound C (<[tn := l]> D).
Proof.
  intros Hs Ht (u & Hcells & Hv)%result_bind_Done. destruct u.
  rewrite ensure_Done, forallb_elem, rows_insert_eq in Hcells. rewrite check_demands_Done in Hv.
  apply (sound_write _ _ _ t); [done..|auto| |].
  - intros d Hd _. apply Hv. apply elem_of_app; left. apply list_elem_of_fmap. eauto.
  - apply check_demands_Done. intros n d Hd. apply Hv. apply elem_of_app; by right.
Qed.

(** ** The operations *)

Lemma new_name_Done used n : new_name used n = Done tt → n ∉ used.
Proof.
  unfold new_name. intros ([] & _ & H)%result_bind_Done. apply ensure_Done in H.
  by apply bool_decide_eq_true in H.
Qed.

Lemma keys_None {A} (m : gmap string A) c l1 l2 : c ∉ l1 ++ keys m ++ l2 → m !! c = None.
Proof.
  intros Hc. apply eq_None_not_Some. intros [x Hx]. apply Hc. unfold keys.
  rewrite !elem_of_app. right; left. apply list_elem_of_fmap. exists (c, x). split; [done|].
  by apply elem_of_map_to_list.
Qed.

(** Break up a catalog operation that succeeded. *)
Ltac done_inv H :=
  repeat match type of H with
  | (_ ≫= _) = Done _ =>
      let x := fresh "x" in let E := fresh "E" in
      apply result_bind_Done in H as (x & E & H);
      try match type of E with
      | ensure _ _ = Done _ => destruct x; apply ensure_Done in E
      | new_name _ _ = Done _ => destruct x; apply new_name_Done in E
      | find _ _ = Done _ => apply find_Done in E
      end
  end.

Lemma sound_enums C D E' :
  sound C D →
  (∀ tn t c col v, c_tables C !! tn = Some t → t_columns t !! c = Some col →
     has_type (c_enums C) (col_type col) v = true → has_type E' (col_type col) v = true) →
  sound (mkCatalog E' (c_tables C)) D.
Proof.
  intros Hs HE tn t Ht. destruct (Hs tn t Ht) as [Hc Hd]. split; [|done].
  intros r Hr. apply (cells_ok_mono _ _ _ _ _ (Hc r Hr)). simpl. eauto.
Qed.

Lemma sound_create_enum C D n labels cf C' :
  sound C D → alter_catalog (create_enum n labels cf) C = Done C' → sound C' D.
Proof.
  intros Hs H. cbn [alter_catalog] in H. case_match; [by simplify_eq|]. done_inv H. simplify_eq.
  apply sound_enums; [done|]. intros tn t c col v Ht Hc.
  apply (keys_None _ _ []) in E. unfold has_type. destruct (col_type col) as [| | | | | | | | |m], v; try done.
  intros [Hm Hl]%andb_true_iff. apply bool_decide_eq_true in Hl.
  rewrite Hm; simpl. apply bool_decide_eq_true. destruct (decide (m = n)) as [->|Hn].
  - by rewrite E, elem_of_nil in Hl.
  - by rewrite lookup_insert_ne.
Qed.

Lemma elem_of_elems {A} (m : gmap string A) x : x ∈ elems m ↔ ∃ k, m !! k = Some x.
Proof.
  unfold elems. rewrite list_elem_of_fmap. split.
  - intros ([k y] & -> & H%elem_of_map_to_list). eauto.
  - intros [k H]. exists (k, x). split; [done|]. by apply elem_of_map_to_list.
Qed.

Lemma existsb_false {A} (f : A → bool) l : existsb f l = false ↔ ∀ x, x ∈ l → f x = false.
Proof.
  induction l as [|y l IH]; simpl; [split; [set_solver|done]|].
  rewrite orb_false_iff, IH. setoid_rewrite elem_of_cons. naive_solver.
Qed.

Lemma sound_drop_enum C D n cf C' :
  sound C D → alter_catalog (drop_enum n cf) C = Done C' → sound C' D.
Proof.
  intros Hs H. cbn [alter_catalog] in H. case_match; [by simplify_eq|]. done_inv H. simplify_eq.
  apply sound_enums; [done|]. intros tn t c col v Ht Hc.
  apply negb_true_iff in E0. unfold type_used in E0. rewrite existsb_false in E0.
  specialize (E0 t ltac:(apply elem_of_elems; eauto)). rewrite existsb_false in E0.
  specialize (E0 col ltac:(apply elem_of_elems; eauto)). apply bool_decide_eq_false in E0.
  unfold has_type. destruct (col_type col) as [| | | | | | | | |m], v; try done.
  by rewrite lookup_delete_ne by congruence.
Qed.

Lemma meets_other D D' n d :
  rows D' n = rows D n → (∀ m fk, d = References m fk → rows D' (fk_table fk) = rows D (fk_table fk)) →
  meets D' n d = meets D n d.
Proof.
  intros H1 H2. destruct d as [| | |m fk]; simpl; rewrite H1; try done.
  specialize (H2 m fk eq_refl). unfold refers. by rewrite H2.
Qed.

Lemma sound_create_table C D n t :
  closed C = true → sound C D → c_tables C !! n = None → sound (put_table n t C) (<[n := []]> D).
Proof.
  intros Hcl Hs Hn m t1 [[-> ->]|[Hne Hl]]%put_table_lookup.
  - split; [rewrite rows_insert_eq; set_solver|]. intros d _.
    destruct d; simpl; unfold unique_on; rewrite rows_insert_eq; done.
  - destruct (Hs _ _ Hl) as [Hc Hd]. split; [by rewrite rows_insert_ne|].
    intros d Hdd. rewrite (meets_other D); [by apply Hd|by apply rows_insert_ne|].
    intros m' fk ->. apply rows_insert_ne. intros E.
    destruct (closed_target C Hcl _ _ _ _ Hl Hdd) as (t' & Ht' & _). congruence.
Qed.

Lemma referred_by_false C tn P m t n fk :
  referred_by C tn P = false → c_tables C !! m = Some t → t_foreign t !! n = Some fk → fk_table fk = tn →
  P m (fk_referred fk) = false.
Proof.
  unfold referred_by. rewrite existsb_false. intros H Hm Hn Hfk.
  specialize (H (m, t)). rewrite elem_of_map_to_list in H. specialize (H Hm). simpl in H.
  rewrite existsb_false in H. specialize (H fk). rewrite elem_of_elems in H. specialize (H ltac:(eauto)).
  by rewrite bool_decide_eq_true_2 in H.
Qed.

Lemma sound_drop_table C D n C' :
  sound C D → alter_catalog (drop_table n) C = Done C' → sound C' (delete n D).
Proof.
  intros Hs H. cbn [alter_catalog] in H. done_inv H. simplify_eq.
  intros m t1 Hm. simpl in Hm. apply lookup_delete_Some in Hm as [Hne Hl].
  assert (∀ k, k ≠ n → rows (delete n D) k = rows D k) as Hrows.
  { intros k Hk. unfold rows. by rewrite lookup_delete_ne. }
  destruct (Hs _ _ Hl) as [Hc Hd]. split; [by rewrite Hrows|].
  intros d Hdd. rewrite (meets_other D); [by apply Hd|by apply Hrows|].
  intros m' fk ->. apply Hrows. intros E1. apply elem_of_demands in Hdd. apply negb_true_iff in E0.
  pose proof (referred_by_false _ _ _ _ _ _ _ E0 Hl Hdd E1) as Hx. simpl in Hx.
  apply negb_false_iff, bool_decide_eq_true in Hx. done.
Qed.

(** The demands after a constraint has been added or removed. *)
Ltac demand_cases :=
  let d := fresh "d" in let Hd := fresh "Hd" in
  intros d Hd; rewrite !elem_of_demands; rewrite elem_of_demands in Hd;
  destruct d; simpl in *; rewrite ?lookup_insert_Some, ?lookup_delete_Some in Hd.

Lemma add_constraint_demands C tn t c t' :
  add_constraint_to C tn t c = Done t' →
  t_columns t' = t_columns t ∧ ∀ d, d ∈ demands t' → d ∈ demands t ∨ d = demand_of c.
Proof.
  intros H. destruct c; cbn [add_constraint_to] in H; done_inv H; simplify_eq; (split; [done|]);
    demand_cases; try (by left); naive_solver.
Qed.

Lemma sound_add_constraint C D tn t c t' :
  sound C D → c_tables C !! tn = Some t → add_constraint_to C tn t c = Done t' →
  meets D tn (demand_of c) = true → sound (put_table tn t' C) D.
Proof.
  intros Hs Ht Ha Hm. apply add_constraint_demands in Ha as [Hcols Hd].
  apply (sound_alter _ _ _ t); [done..| |].
  - rewrite Hcols. eauto.
  - intros d Hdd. destruct (Hd d Hdd) as [?| ->]; auto.
Qed.

(** The column that an operation redefines keeps its type. *)
Lemma sound_alter_column C D tn t c col col' :
  sound C D → c_tables C !! tn = Some t → t_columns t !! c = Some col →
  col_type col' = col_type col →
  (col_nullable col' = false → col_nullable col = false ∨ meets D tn (Required c) = true) →
  sound (put_table tn (set_columns (<[c := col']> (t_columns t)) t) C) D.
Proof.
  intros Hs Ht Hc Hty Hn. apply (sound_alter _ _ _ t); [done..| |].
  - intros c1 col1 H1. simpl. destruct (decide (c1 = c)) as [->|Hne].
    + exists col'. rewrite lookup_insert_eq. split; [done|congruence].
    + exists col1. by rewrite lookup_insert_ne.
  - demand_cases; [|by left..]. destruct Hd as (col1 & [[<- <-]|[? ?]]%lookup_insert_Some & Hnull).
    + destruct (Hn Hnull) as [?|?]; [left; by exists col|by right].
    + left. by exists col1.
Qed.

Lemma sound_drop_constraint C D n tn C' :
  sound C D → alter_catalog (drop_constraint n tn) C = Done C' → sound C' D.
Proof.
  intros Hs H. cbn [alter_catalog] in H. apply result_bind_Done in H as (t & Ht & H). apply find_Done in Ht.
  repeat case_match; done_inv H; simplify_eq; (apply (sound_alter _ _ _ t); [done..|by eauto|]);
    demand_cases; try (by left); left; naive_solver.
Qed.

(** A default has the type of its column. *)
Lemma resolve_default_typed E ty sd d now :
  resolve_default E ty sd = Some d → has_type E ty (default_cell now d) = true.
Proof.
  destruct sd as [s| | |s m], ty; simpl; intros H; simplify_eq/=; try done.
  - by case_match; simplify_eq.
  - by case_match; simplify_eq.
  - destruct s as [|c s]; [done|]. apply bind_Some in H as (z & _ & Hz). by case_match; simplify_eq.
  - destruct s as [|c s]; [done|]. apply bind_Some in H as (z & _ & Hz). by case_match; simplify_eq.
  - repeat case_match; by simplify_eq.
  - case_match eqn:Hl; simplify_eq. simpl. by rewrite bool_decide_eq_true_2, Hl.
  - case_match eqn:Hl; simplify_eq. simpl. bool_simpl. by rewrite !bool_decide_eq_true_2.
Qed.

Lemma add_column_Done C t n ty sd nullable t' :
  add_column_to C t (Column n ty sd nullable) = Done t' →
  t_columns t !! n = None ∧ ∃ dv, t' = set_columns (<[n := mkColumn ty nullable dv]> (t_columns t)) t ∧
    (∀ d now, dv = Some d → has_type (c_enums C) ty (default_cell now d) = true).
Proof.
  intros H. cbn [add_column_to] in H. done_inv H.
  assert (t_columns t !! n = None) as Hn.
  { apply (keys_None _ _ [] []). by rewrite app_nil_r. }
  split; [done|]. destruct sd as [sd|].
  - destruct (resolve_default _ _ _) as [d|] eqn:Ed; [|done]. injection H as <-.
    exists (Some d). split; [done|]. intros ? ? [= <-]. by eapply resolve_default_typed.
  - injection H as <-. by exists None.
Qed.

Lemma sound_add_column C D now tn col C' D' :
  closed C = true → sound C D → alter_catalog (add_column tn col) C = Done C' →
  alter_rows now (add_column tn col) C C' D = Done D' → sound C' D'.
Proof.
  intros Hcl Hs H Hr. destruct col as [c ty sd nullable]. cbn [alter_catalog] in H. done_inv H. simplify_eq.
  apply add_column_Done in E0 as (Hnew & dv & -> & Hdv). cbn [alter_rows] in Hr.
  simpl in Hr. rewrite lookup_insert_eq in Hr. simpl in Hr. rewrite lookup_insert_eq in Hr. simpl in Hr.
  assert (∀ d, d ∈ demands (set_columns (<[c:=mkColumn ty nullable dv]> (t_columns x)) x) →
    d ∈ demands x ∨ d = Required c ∧ nullable = false) as Hdem.
  { demand_cases; [|by left..].
    destruct Hd as (col1 & [[<- <-]|[? ?]]%lookup_insert_Some & Hnull); [by right|left; by exists col1]. }
  destruct dv as [d|].
  - injection Hr as <-. apply (sound_rewrite _ _ _ x); [done..| | |].
    + intros r Hin. apply cells_ok_true. intros c1 v Hv. simpl.
      apply lookup_insert_Some in Hv as [[<- <-]|[Hne Hv]].
      * eexists. rewrite lookup_insert_eq. split; [done|]. by apply Hdv.
      * rewrite lookup_insert_ne by done. by apply (proj1 (cells_ok_true _ _ _) (proj1 (Hs _ _ E) r Hin)).
    + intros d1 Hd1. destruct (Hdem d1 Hd1) as [Hold|[-> _]]; [left|right].
      * split; [done|]. intros r c1 _ Hc1. apply lookup_insert_ne. intros <-.
        destruct (closed_columns C Hcl _ _ _ _ E Hold Hc1) as [? ?]. congruence.
      * simpl. rewrite rows_rewritten, bool_decide_eq_true_2 by done. apply forallb_elem.
        intros r (r0 & -> & _)%list_elem_of_fmap. rewrite lookup_insert_eq. by apply bool_decide_eq_true.
    + intros n t1 d1 r c1 Ht1 Hd1 _ _ Hc1. apply lookup_insert_ne. intros <-.
      destruct (closed_referred C Hcl _ _ _ _ _ Ht1 Hd1 Hc1) as (t2 & Ht2 & [? ?]). congruence.
  - done_inv Hr. injection Hr as <-. apply (sound_alter _ _ _ x); [done..| |].
    + intros c1 col1 H1. exists col1. simpl. rewrite lookup_insert_ne; [done|congruence].
    + intros d1 Hd1. destruct (Hdem d1 Hd1) as [?|[-> ->]]; [by left|right]. simpl in *.
      apply bool_decide_eq_true in E0. by rewrite E0.
Qed.

Lemma without_column_demands c t d :
  d ∈ demands (without_column c t) → d ∈ demands t ∧ c ∉ demand_columns d.
Proof.
  unfold without_column. intros Hd. rewrite !elem_of_demands in *. unfold uses, mentions in *.
  destruct d as [c1|n e|n cols cond|n fk]; simpl in *.
  - destruct Hd as (col & [Hne Hl]%lookup_delete_Some & Hn). split; [by exists col|]. set_solver.
  - apply map_lookup_filter_Some in Hd as [? Hb%bool_decide_eq_false]. done.
  - destruct Hd as [[Hp ->]|[[Hu ->]|(ix & Hi & Hu & <- & <-)]].
    + destruct (t_primary t) as [[n1 cols1]|]; [|done]. simpl in Hp. case_bool_decide; [done|].
      simplify_eq. rewrite app_nil_r. eauto.
    + apply map_lookup_filter_Some in Hu as [? Hb%bool_decide_eq_false]. rewrite app_nil_r. eauto.
    + apply map_lookup_filter_Some in Hi as [? Hb]. simpl in Hb. apply orb_false_iff in Hb as [Hb1%bool_decide_eq_false Hb2].
      split; [eauto 8|]. rewrite not_elem_of_app. split; [done|].
      destruct (ix_where ix); simpl in *; [by apply bool_decide_eq_false in Hb2|set_solver].
  - apply map_lookup_filter_Some in Hd as [? Hb%bool_decide_eq_false]. done.
Qed.

Lemma sound_drop_column C D tn c C' :
  sound C D → alter_catalog (drop_column tn c) C = Done C' → sound C' (rewritten D tn (delete c)).
Proof.
  intros Hs H. cbn [alter_catalog] in H. done_inv H. simplify_eq. apply negb_true_iff in E1.
  apply (sound_rewrite _ _ _ x); [done..| | |].
  - intros r Hin. apply cells_ok_true. intros c1 v [Hne Hv]%lookup_delete_Some.
    destruct (proj1 (cells_ok_true _ _ _) (proj1 (Hs _ _ E) r Hin) c1 v Hv) as (col & ? & ?).
    exists col. simpl. by rewrite lookup_delete_ne.
  - intros d [Hd Hc]%without_column_demands. left. split; [done|]. intros r c1 _ Hc1.
    apply lookup_delete_ne. by intros <-.
  - intros n t1 d r c1 Ht1 Hd _ _ Hc1. apply lookup_delete_ne. intros <-.
    destruct d as [| | |m fk]; simpl in Hc1; [set_solver..|]. case_bool_decide; [|set_solver].
    apply elem_of_demands in Hd. pose proof (referred_by_false _ _ _ _ _ _ _ E1 Ht1 Hd H) as Hx.
    by apply bool_decide_eq_false in Hx.
Qed.

(** ** Renaming a column *)

Definition rename_demand (tn a b n : string) (d : demand) : demand :=
  let cols l := if bool_decide (n = tn) then ren a b <$> l else l in
  let cond e := if bool_decide (n = tn) then rename_expr a b e else e in
  match d with
  | Required c => Required (if bool_decide (n = tn) then ren a b c else c)
  | Satisfies m e => Satisfies m (cond e)
  | Unique m l w => Unique m (cols l) (cond <$> w)
  | References m fk => References m (rename_foreign tn a b n fk)
  end.

Lemma key_of_rename a b cols r :
  r !! b = None → b ∉ cols → key_of (ren a b <$> cols) (rename_columns a b r) = key_of cols r.
Proof.
  unfold key_of. intros Hr. induction cols as [|c cols IH]; intros Hb; simpl; [done|].
  rewrite lookup_rename by set_solver. fold (ren a b <$> cols). rewrite IH by set_solver. done.
Qed.

Lemma index_key_rename a b cols cond r :
  r !! b = None → b ∉ cols ++ from_option columns_of [] cond →
  index_key (ren a b <$> cols) (rename_expr a b <$> cond) (rename_columns a b r) = index_key cols cond r.
Proof.
  intros Hr Hb. unfold index_key. rewrite key_of_rename by set_solver.
  destruct cond as [e|]; simpl in *; [|done]. unfold holds. by rewrite eval_rename by set_solver.
Qed.

Section rename.
Context (D : data) (tn a b : string).
Context (Hfree : ∀ r, r ∈ rows D tn → r !! b = None).

Lemma meets_rename n d :
  (n = tn → b ∉ demand_columns d) → b ∉ referred_columns tn d →
  meets (rewritten D tn (rename_columns a b)) n (rename_demand tn a b n d) = meets D n d.
Proof using Hfree.
  intros Hb Hrb. destruct (decide (n = tn)) as [->|Hn].
  - specialize (Hb eq_refl). destruct d as [c|m e|m cols cond|m fk]; simpl in *;
      rewrite ?rows_rewritten, !bool_decide_eq_true_2 by done.
    + apply forallb_map. intros r Hr. rewrite lookup_rename by (auto; set_solver). done.
    + apply forallb_map. intros r Hr. unfold passes. by rewrite eval_rename by auto.
    + unfold unique_on. rewrite (omap_map (index_key cols cond)); [done|]. intros r Hr. apply index_key_rename; auto.
    + apply forallb_map. intros r Hr. unfold refers. simpl. rewrite bool_decide_eq_true_2 by done.
      rewrite key_of_rename by auto. destruct (key_of (fk_columns fk) r) as [k|]; [|done].
      rewrite rows_rewritten. destruct (bool_decide_reflect (fk_table fk = tn)) as [E|E]; [|by rewrite list_fmap_id].
      rewrite (omap_map (key_of (fk_referred fk))); [done|].
      intros r' Hr'. apply key_of_rename; [apply Hfree; by rewrite <- E|done].
  - destruct d as [c|m e|m cols cond|m fk]; simpl in *; rewrite ?rows_rewritten, !bool_decide_eq_false_2 by done;
      rewrite ?list_fmap_id; [done..| |].
    + by destruct cond.
    + rewrite <- (list_fmap_id (rows D n)) at 1. apply forallb_map. intros r _. unfold id, refers. simpl. rewrite bool_decide_eq_false_2 by done.
      destruct (key_of (fk_columns fk) r) as [k|]; [|done].
      rewrite rows_rewritten. destruct (bool_decide_reflect (fk_table fk = tn)) as [E|E]; [|by rewrite list_fmap_id].
      rewrite (omap_map (key_of (fk_referred fk))); [done|].
      intros r' Hr'. apply key_of_rename; [apply Hfree; by rewrite <- E|done].
Qed.
End rename.

Lemma rename_columns_Some {A} a b (m : gmap string A) c x :
  m !! b = None → rename_columns a b m !! c = Some x → ∃ c0, c0 ≠ b ∧ c = ren a b c0 ∧ m !! c0 = Some x.
Proof.
  intros Hb. unfold rename_columns, ren. destruct (m !! a) as [y|] eqn:Ea.
  - intros [[<- <-]|[Hne [Hne2 Hl]%lookup_delete_Some]]%lookup_insert_Some.
    + exists a. rewrite bool_decide_eq_true_2 by done. split; [congruence|done].
    + exists c. by rewrite bool_decide_eq_false_2.
  - intros Hl. exists c. rewrite bool_decide_eq_false_2 by congruence. split; [congruence|done].
Qed.

Lemma rename_table_demands tn a b n t d' :
  (n = tn → t_columns t !! b = None) →
  d' ∈ demands (rename_table tn a b n t) → ∃ d, d ∈ demands t ∧ d' = rename_demand tn a b n d.
Proof.
  intros Hb. rewrite elem_of_demands. setoid_rewrite elem_of_demands.
  unfold rename_table, rename_demand. destruct (bool_decide (n = tn)) eqn:E.
  - apply bool_decide_eq_true in E as En. specialize (Hb En). destruct d' as [c1|m e|m cols cond|m fk]; simpl; rewrite ?lookup_fmap, ?fmap_Some; intros Hd.
    + destruct Hd as (col & (c0 & _ & -> & Hl)%rename_columns_Some & Hn); [|done]. exists (Required c0). simpl. eauto.
    + destruct Hd as (e0 & Hl & ->). by exists (Satisfies m e0).
    + destruct Hd as [[([m1 cols1] & Hp & [= -> ->]) ->]|[[(cols1 & Hu & ->) ->]|(ix & Hi & Hu & <- & <-)]].
      * exists (Unique m1 cols1 None). simpl. eauto.
      * exists (Unique m cols1 None). simpl. eauto.
      * apply fmap_Some in Hi as (ix0 & Hi & ->).
        exists (Unique m (ix_columns ix0) (ix_where ix0)). simpl in *. eauto 9.
    + destruct Hd as (fk0 & Hl & ->). by exists (References m fk0).
  - destruct d' as [c1|m e|m cols cond|m fk]; simpl; rewrite ?lookup_fmap, ?fmap_Some; intros Hd.
    + by exists (Required c1).
    + by exists (Satisfies m e).
    + exists (Unique m cols cond). split; [done|]. by destruct cond.
    + destruct Hd as (fk0 & Hl & ->). by exists (References m fk0).
Qed.

Lemma sound_rename_column C D tn a b C' :
  closed C = true → sound C D → alter_catalog (rename_column tn a b) C = Done C' →
  sound C' (rewritten D tn (rename_columns a b)).
Proof.
  intros Hcl Hs H. cbn [alter_catalog] in H. done_inv H. simplify_eq.
  assert (t_columns x !! b = None) as Hb by (apply (keys_None _ _ [] []); by rewrite app_nil_r).
  assert (∀ r, r ∈ rows D tn → r !! b = None) as Hfree.
  { intros r Hr. apply eq_None_not_Some. intros [v Hv].
    destruct (proj1 (cells_ok_true _ _ _) (proj1 (Hs _ _ E) r Hr) b v Hv) as (col & ? & _). congruence. }
  intros n t' Hl. simpl in Hl. rewrite map_lookup_imap in Hl. apply bind_Some in Hl as (t & Hl & [= <-]).
  destruct (Hs _ _ Hl) as [Hcells Hdem]. split.
  - intros r'. rewrite rows_rewritten. unfold rename_table. case_bool_decide as En.
    + subst. rewrite E in Hl. injection Hl as <-. intros (r & -> & Hr)%list_elem_of_fmap.
      apply cells_ok_true. simpl. intros c v (c0 & Hne & -> & Hv)%rename_columns_Some; [|auto].
      destruct (proj1 (cells_ok_true _ _ _) (Hcells r Hr) c0 v Hv) as (col & ? & ?).
      exists col. by rewrite lookup_rename.
    + rewrite list_fmap_id. apply Hcells.
  - intros d' Hd'. apply rename_table_demands in Hd' as (d & Hd & ->).
    + rewrite meets_rename; [by apply Hdem|done| |].
      * intros -> Hc. rewrite E in Hl. injection Hl as <-. destruct (closed_columns C Hcl _ _ _ _ E Hd Hc) as [col Hcol]. congruence.
      * intros Hc. destruct (closed_referred C Hcl _ _ _ _ _ Hl Hd Hc) as (t2 & Ht2 & [? ?]). congruence.
    + intros ->. congruence.
Qed.

(** ** Every operation *)

Lemma sound_create_index C D n tn cols unique cond C' :
  sound C D → alter_catalog (create_index n tn cols unique cond) C = Done C' →
  negb unique || meets D tn (Unique n cols cond) = true → sound C' D.
Proof.
  intros Hs H Hu. cbn [alter_catalog] in H. done_inv H. simplify_eq.
  apply (sound_alter _ _ _ x); [done..|by eauto|].
  demand_cases; try (by left). destruct Hd as [?|[?|(ix & [[<- <-]|[? ?]]%lookup_insert_Some & Hq & <- & <-)]];
    [by left; left|by left; right; left| |by left; right; right; exists ix].
  simpl in *. subst. right. exact Hu.
Qed.

Lemma sound_drop_index C D n tn C' : sound C D → alter_catalog (drop_index n tn) C = Done C' → sound C' D.
Proof.
  intros Hs H. cbn [alter_catalog] in H. done_inv H. simplify_eq.
  apply (sound_alter _ _ _ x); [done..|by eauto|].
  demand_cases; left; try done. destruct Hd as [?|[?|(ix & [? ?]%lookup_delete_Some & ?)]]; eauto.
Qed.

Lemma omap_filter_sublist {A B} (f : A → option B) (P : A → Prop) `{!∀ x, Decision (P x)} (l : list A) :
  sublist (omap f (filter P l)) (omap f l).
Proof.
  induction l as [|x l IH]; [constructor|]. rewrite filter_cons. cbn.
  destruct (decide (P x)); cbn; destruct (f x); [by apply sublist_skip|done|by apply sublist_cons|done].
Qed.

Lemma sound_delete C D tn t (P : row → Prop) `{!∀ r, Decision (P r)} :
  sound C D → c_tables C !! tn = Some t →
  check_demands (<[tn := filter P (rows D tn)]> D) (all_references C) = Done tt →
  sound C (<[tn := filter P (rows D tn)]> D).
Proof.
  intros Hs Ht Hr. destruct (Hs _ _ Ht) as [Hc Hd]. apply (sound_write _ _ _ t); [done..| | |done].
  - intros r [_ Hin]%list_elem_of_filter. auto.
  - intros d Hdd Hnr. specialize (Hd d Hdd). destruct d as [c|m e|m cols cond|m fk]; simpl in *;
      rewrite rows_insert_eq.
    + rewrite forallb_elem in *. intros r [_ Hin]%list_elem_of_filter. auto.
    + rewrite forallb_elem in *. intros r [_ Hin]%list_elem_of_filter. auto.
    + unfold unique_on in *. apply bool_decide_eq_true in Hd. apply bool_decide_eq_true.
      eapply sublist_NoDup; [exact Hd|apply omap_filter_sublist].
    + by destruct (Hnr m fk).
Qed.

Lemma exec_sound C D now o C' D' :
  closed C = true → sound C D → alter_catalog o C = Done C' → alter_rows now o C C' D = Done D' → sound C' D'.
Proof.
  intros Hcl Hs H Hr. destruct o; try (cbn [alter_rows] in Hr; injection Hr as <-).
  - by eapply sound_create_enum.
  - by eapply sound_drop_enum.
  - cbn [alter_catalog] in H. done_inv H. simplify_eq. apply sound_create_table; [done..|].
    apply eq_None_not_Some. intros [t Ht]. apply E. rewrite elem_of_app; left.
    unfold relation_names. apply list_elem_of_In, in_flat_map. exists (name, t).
    split; [|by left]. by apply list_elem_of_In, elem_of_map_to_list.
  - by eapply sound_drop_table.
  - cbn [alter_rows] in Hr. done_inv Hr. injection Hr as <-. by eapply sound_create_index.
  - by eapply sound_drop_index.
  - by eapply sound_add_column.
  - by eapply sound_drop_column.
  - by eapply sound_rename_column.
  - cbn [alter_rows] in Hr. done_inv Hr. injection Hr as <-. cbn [alter_catalog] in H. unfold alter_column in H.
    done_inv H. simplify_eq. eapply sound_alter_column; [done..|].
    simpl. intros ->. by right.
  - cbn [alter_catalog] in H. unfold alter_column in H. done_inv H. case_match; [|done]. simplify_eq.
    eapply sound_alter_column; [done..|]. simpl. by left.
  - cbn [alter_rows] in Hr. done_inv Hr. injection Hr as <-. cbn [alter_catalog] in H. done_inv H. simplify_eq.
    by eapply sound_add_constraint.
  - by eapply sound_drop_constraint.
  - cbn [alter_catalog] in H. done_inv H. cbn [alter_rows] in Hr. done_inv Hr. simplify_eq.
    destruct x1. by eapply sound_validated.
  - cbn [alter_catalog] in H. done_inv H. cbn [alter_rows] in Hr. done_inv Hr. simplify_eq.
    destruct x0. by eapply sound_delete.
  - cbn [alter_catalog] in H. done_inv H. cbn [alter_rows] in Hr. done_inv Hr. simplify_eq.
    destruct x2. by eapply sound_validated.
Qed.

(** A script all of whose catalogs are closed. *)
Fixpoint path_closed (ops : list op) (C : catalog) : bool :=
  match ops with
  | [] => true
  | o :: ops =>
      closed C && match alter_catalog o C with Done C' => path_closed ops C' | Error _ => false end
  end.

Lemma exec_all_sound now ops db db' :
  path_closed ops (db_catalog db) = true → sound (db_catalog db) (db_rows db) →
  exec_all now db ops = Done db' → sound (db_catalog db') (db_rows db').
Proof.
  unfold exec_all. revert db. induction ops as [|o ops IH]; intros db; cbn [path_closed fold_result]; [by intros _ ? [= <-]|].
  intros [Hcl Hp]%andb_true_iff Hs (db1 & E & Hr)%result_bind_Done. unfold exec in E.
  apply result_bind_Done in E as (C & EC & (D & ED & [= <-])%result_bind_Done).
  rewrite EC in Hp. apply (IH (mkDatabase C D (db_version db))); [done| |done]. simpl. by eapply exec_sound.
Qed.
