(* ===== verification/Revisions.v ===== *)
(** What the revisions do to the catalog: the version a database records determines its catalog,
    whatever sequence of upgrades, downgrades and writes led to it, and at the head it is the
    catalog of models.py. *)
From S2P Require Import Prelude PyStr Models Sql Schema SchemaSound Migrations Metadata.
From Stdlib Require Import ZArith.

(** The version and the catalog after the first [k] revisions. *)
Definition version_at (k : nat) : option string :=
  match k with
  | 0 => None
  | S k => rev_id <$> revisions !! k
  end.

Definition catalog_at (k : nat) : result catalog :=
  alter_all (flat_map rev_upgrade (take k revisions)) empty_catalog.

(** The catalog of [Base.metadata]. *)
Definition models_catalog : result catalog := alter_all create_all empty_catalog.

(** One action on a deployed database: a migration command that succeeds, or a commit of the
    application, which changes rows only and that PostgreSQL has let pass.  A migration that fails
    is rolled back. *)
Inductive alembic : database → database → Prop :=
| alembic_upgrade now db db' : upgrade_one now db = Done db' → alembic db db'
| alembic_downgrade now db db' : downgrade_one now db = Done db' → alembic db db'
| alembic_write db D : sound (db_catalog db) D → alembic db (mkDatabase (db_catalog db) D (db_version db)).

Definition at_revision (k : nat) (db : database) : Prop :=
  k ≤ length revisions ∧ db_version db = version_at k ∧ catalog_at k = Done (db_catalog db).

Lemma alter_all_app ops1 ops2 C : alter_all (ops1 ++ ops2) C = (alter_all ops1 C ≫= alter_all ops2).
Proof. unfold alter_all. rewrite fold_result_app. by destruct (fold_result _ _ ops1). Qed.

Lemma catalog_at_S k r :
  revisions !! k = Some r → catalog_at (S k) = (catalog_at k ≫= alter_all (rev_upgrade r)).
Proof.
  intros E. unfold catalog_at. rewrite (take_S_r _ _ _ E), flat_map_app, alter_all_app. simpl.
  by rewrite app_nil_r.
Qed.

Lemma length_revisions : length revisions = 5.
Proof. reflexivity. Qed.

Lemma revision_bound k r : revisions !! k = Some r → k < 5.
Proof. intros E. apply lookup_lt_Some in E. by rewrite length_revisions in E. Qed.

(** Each [down_revision] names the revision before. *)
Lemma next_revision_at k : k ≤ length revisions → next_revision (version_at k) = revisions !! k.
Proof. intros Hk. rewrite length_revisions in Hk. do 6 (destruct k as [|k]; [reflexivity|]). lia. Qed.

Lemma current_revision_at k r :
  revisions !! k = Some r → current_revision (version_at (S k)) = Some r ∧ down_revision r = version_at k.
Proof. intros E. pose proof (revision_bound _ _ E). do 5 (destruct k as [|k]; [injection E as <-; split; reflexivity|]). lia. Qed.

(** Every downgrade takes back, on the catalog, what the upgrade of its revision did. *)
Lemma downgrade_catalog k r :
  revisions !! k = Some r → (catalog_at (S k) ≫= alter_all (rev_downgrade r)) = catalog_at k.
Proof.
  intros E. pose proof (revision_bound _ _ E).
  do 5 (destruct k as [|k]; [injection E as <-; refine (bool_decide_unpack _ _); vm_compute; exact I|]). lia.
Qed.

Lemma models_catalog_at_head : catalog_at (length revisions) = models_catalog.
Proof. refine (bool_decide_unpack _ _). vm_compute. exact I. Qed.

Lemma version_at_head k : version_at k = Some head → k = 5.
Proof.
  do 5 (destruct k as [|k]; [intros E; vm_compute in E; discriminate E|]). destruct k as [|k]; [done|].
  intros E. vm_compute in E. discriminate E.
Qed.

Lemma empty_at_revision : at_revision 0 empty_database.
Proof. split; [rewrite length_revisions; lia|done]. Qed.

Lemma exec_all_version now db ops db' : exec_all now db ops = Done db' → db_version db' = db_version db.
Proof.
  unfold exec_all. revert db. induction ops as [|o ops IH]; intros db; simpl; [by intros [= ->]|].
  intros (db1 & E & ->%IH)%result_bind_Done. unfold exec in E.
  by apply result_bind_Done in E as (C & _ & (D & _ & [= <-])%result_bind_Done).
Qed.

Lemma result_fmap_Done {A B} (f : A → B) (m : result A) b : f <$> m = Done b ↔ ∃ a, m = Done a ∧ b = f a.
Proof. destruct m; simpl; naive_solver. Qed.

Lemma upgrade_at_revision now k db db' :
  at_revision k db → upgrade_one now db = Done db' →
  at_revision (S k) db' ∨ k = length revisions ∧ db' = db.
Proof.
  intros (Hk & Hv & HC) E. unfold upgrade_one in E. rewrite Hv, next_revision_at in E by done.
  destruct (revisions !! k) as [r|] eqn:Er.
  - left. apply result_fmap_Done in E as (db1 & E & ->). apply exec_all_catalog in E.
    split; [by apply lookup_lt_Some in Er|]. split; [simpl; by rewrite Er|].
    by rewrite (catalog_at_S _ _ Er), HC.
  - right. apply lookup_ge_None in Er. injection E as ->. split; [lia|done].
Qed.

Lemma downgrade_at_revision now k db db' :
  at_revision k db → downgrade_one now db = Done db' → at_revision (pred k) db'.
Proof.
  intros (Hk & Hv & HC) E. unfold downgrade_one in E. destruct k as [|k].
  - rewrite Hv in E. injection E as <-. by split.
  - destruct (lookup_lt_is_Some_2 revisions k) as [r Er]; [lia|].
    destruct (current_revision_at _ _ Er) as [Hc Hd]. rewrite Hv, Hc in E.
    apply result_fmap_Done in E as (db1 & E & ->). apply exec_all_catalog in E.
    split; [rewrite length_revisions; apply revision_bound in Er; simpl; lia|]. split; [done|]. simpl. rewrite <- (downgrade_catalog _ _ Er), HC. exact E.
Qed.

Lemma alembic_at_revision db db' :
  alembic db db' → (∃ k, at_revision k db) → ∃ k, at_revision k db'.
Proof.
  intros Hstep (k & Hk). destruct Hstep as [now db db' E|now db db' E|db D _].
  - destruct (upgrade_at_revision _ _ _ _ Hk E) as [?|[_ ->]]; eauto.
  - eauto using downgrade_at_revision.
  - exists k. destruct Hk as (? & ? & ?). by split.
Qed.

Lemma upgrades_reach n now db db' : upgrades n now db = Done db' → rtc alembic db db'.
Proof.
  revert db. induction n as [|n IH]; intros db; cbn [upgrades]; [intros [= ->]; apply rtc_refl|].
  intros (db1 & E & Hr%IH)%result_bind_Done. eapply rtc_l; [by eapply alembic_upgrade|done].
Qed.

Lemma upgrade_head_reaches now db : rtc alembic db (upgrade_head now db).
Proof.
  unfold upgrade_head. destruct (upgrades (length revisions) now db) as [db'|e] eqn:E; [|apply rtc_refl].
  by apply upgrades_reach in E.
Qed.

(** C7: the migrations and the models agree: after any sequence of upgrades, downgrades and writes
    that starts with an empty database, the catalog is the one of the recorded revision, and when
    that is the head, it is exactly the catalog that the classes of models.py declare, with every
    column type, default, nullability, constraint, index and name. *)
Theorem catalog_of_version db :
  rtc alembic empty_database db →
  (∃ k, k ≤ length revisions ∧ db_version db = version_at k ∧ catalog_at k = Done (db_catalog db)) ∧
  (db_version db = Some head → models_catalog = Done (db_catalog db)).
Proof.
  intros Hr.
  assert (∃ k, at_revision k db) as (k & Hk & Hv & HC).
  { apply (rtc_ind_l (λ d, (∃ k, at_revision k d) → ∃ k, at_revision k db) db) in Hr; eauto using empty_at_revision.
    intros x y Hxy _ IH Hx. apply IH. by eapply alembic_at_revision. }
  split; [by exists k|]. intros Hh. rewrite <- models_catalog_at_head, length_revisions.
  by rewrite <- (version_at_head k) by congruence.
Qed.

Lemma catalog_of_version_witness :
  ∃ db, rtc alembic empty_database db ∧ db_version db = Some head ∧ models_catalog = Done (db_catalog db).
Proof.
  exists (upgrade_head 0 empty_database).
  assert (db_version (upgrade_head 0 empty_database) = Some head) as Hv by (vm_compute; reflexivity).
  pose proof (upgrade_head_reaches 0 empty_database) as Hr.
  split; [exact Hr|]. split; [exact Hv|]. by apply (catalog_of_version _ Hr).
Defined.

(** ** The rows *)

Lemma upgrade_path_closed k r C :
  revisions !! k = Some r → catalog_at k = Done C → path_closed (rev_upgrade r) C = true.
Proof.
  intros E HC. pose proof (revision_bound _ _ E).
  assert (match catalog_at k with Done C => path_closed (rev_upgrade r) C | Error _ => false end = true) as Hp.
  { clear HC. do 5 (destruct k as [|k]; [injection E as <-; vm_compute; reflexivity|]). lia. }
  by rewrite HC in Hp.
Qed.

Lemma downgrade_path_closed k r C :
  revisions !! k = Some r → catalog_at (S k) = Done C → path_closed (rev_downgrade r) C = true.
Proof.
  intros E HC. pose proof (revision_bound _ _ E).
  assert (match catalog_at (S k) with Done C => path_closed (rev_downgrade r) C | Error _ => false end = true) as Hp.
  { clear HC. do 5 (destruct k as [|k]; [injection E as <-; vm_compute; reflexivity|]). lia. }
  by rewrite HC in Hp.
Qed.

Lemma alembic_sound db db' :
  alembic db db' → (∃ k, at_revision k db) ∧ sound (db_catalog db) (db_rows db) →
  sound (db_catalog db') (db_rows db').
Proof.
  intros Hstep [(k & Hk & Hv & HC) Hs]. destruct Hstep as [now db db' E|now db db' E|db D HD]; [| |exact HD].
  - unfold upgrade_one in E. rewrite Hv, next_revision_at in E by done.
    destruct (revisions !! k) as [r|] eqn:Er; [|by injection E as <-].
    apply result_fmap_Done in E as (db1 & E & ->). simpl.
    eapply exec_all_sound; [|exact Hs|exact E]. by eapply upgrade_path_closed.
  - unfold downgrade_one in E. destruct k as [|k]; [rewrite Hv in E; by injection E as <-|].
    destruct (lookup_lt_is_Some_2 revisions k) as [r Er]; [lia|].
    destruct (current_revision_at _ _ Er) as [Hc _]. rewrite Hv, Hc in E.
    apply result_fmap_Done in E as (db1 & E & ->). simpl.
    eapply exec_all_sound; [|exact Hs|exact E]. by eapply downgrade_path_closed.
Qed.

(** The rows stay well typed: whatever migrations have run, every cell has the type of its
    column, no required column is NULL, and every CHECK, unique constraint, unique index and foreign
    key of the current catalog holds of the stored rows, although an operation of a migration checks
    only what it adds. *)
Theorem migrations_keep_rows_sound db :
  rtc alembic empty_database db → sound (db_catalog db) (db_rows db).
Proof.
  intros Hr. enough ((∃ k, at_revision k db) ∧ sound (db_catalog db) (db_rows db)) as [_ H] by exact H.
  apply (rtc_ind_l (λ d, (∃ k, at_revision k d) ∧ sound (db_catalog d) (db_rows d) →
    (∃ k, at_revision k db) ∧ sound (db_catalog db) (db_rows db)) db) in Hr; [done|done| |].
  - intros x y Hxy _ IH Hx. apply IH. split; [eapply alembic_at_revision; [done|apply Hx]|by eapply alembic_sound].
  - split; [by exists 0; apply empty_at_revision|]. intros tn t Ht. simpl in Ht. by rewrite lookup_empty in Ht.
Qed.

Lemma migrations_keep_rows_sound_witness :
  sound (db_catalog (upgrade_head 0 empty_database)) (db_rows (upgrade_head 0 empty_database)).
Proof. apply migrations_keep_rows_sound. apply upgrade_head_reaches. Defined.

(** [alembic upgrade head] at the head, which every start of the stack runs, changes nothing. *)
Lemma upgrade_head_idle now db : db_version db = Some head → upgrade_head now db = db.
Proof.
  intros E. assert (upgrade_one now db = Done db) as E1 by (unfold upgrade_one; by rewrite E).
  assert (∀ n, upgrades n now db = Done db) as En.
  { intros n. induction n as [|n IH]; cbn [upgrades]; [done|]. by rewrite E1. }
  unfold upgrade_head. by rewrite En.
Qed.
