(* ===== verification/StoredRows.v ===== *)
(** The rows of Models as PostgreSQL stores them, and the schema they live in: the constraints that
    [db_ok] states as predicates on records are those the catalog of models.py enforces on rows. *)
From S2P Require Import Prelude PyStr Retry StateMachine Models Database Sql SqlText Schema SchemaSound Metadata Revisions.
From Stdlib Require Import ZArith.

(** ** Rows of a mapped class *)

Definition cell (cells : list (mapped_column * option value)) (c : string) : option value :=
  foldr (λ p acc, if bool_decide (mc_name p.1 = c) then p.2 else acc) None cells.

(** The row with the given values in the mapped columns, in their order. *)
Definition model_row (m : model) (vals : list (option value)) : row :=
  foldr (λ p r, set_cell (mc_name p.1) p.2 r) ∅ (zip (mapped_columns m) vals).

Lemma lookup_set_cell c v r c' : set_cell c v r !! c' = if bool_decide (c = c') then v else r !! c'.
Proof.
  case_bool_decide as E; destruct v as [v|]; simpl; subst.
  - by rewrite lookup_insert_eq.
  - by rewrite lookup_delete_eq.
  - by rewrite lookup_insert_ne.
  - by rewrite lookup_delete_ne.
Qed.

Lemma lookup_model_row m vals c : model_row m vals !! c = cell (zip (mapped_columns m) vals) c.
Proof.
  unfold model_row, cell. induction (zip _ vals) as [|[mc v] l IH]; [apply lookup_empty|].
  cbn [foldr fst snd]. by rewrite lookup_set_cell, IH.
Qed.

Definition endpoint_cells (e : Endpoint) : list (option value) :=
  [Some (VUuid (Endpoint.id e)); Some (VText (Endpoint.name e)); Some (VText (Endpoint.target_url e));
   Some (VBytes (Endpoint.signing_secret e)); Some (VInt (Endpoint.secret_version e));
   Some (VBool (Endpoint.enabled e)); Some (VTime (Endpoint.created_at e)); Some (VTime (Endpoint.updated_at e))].
Definition endpoint_row (e : Endpoint) : row := model_row Endpoint_model (endpoint_cells e).

Definition event_cells (e : Event) : list (option value) :=
  [Some (VUuid (Event.id e)); Some (VText (Event.source e)); Some (VText (Event.event_type e));
   Some (VText (Event.idempotency_key e)); Some (VJson (Event.payload e)); Some (VBytes (Event.payload_bytes e));
   Some (VText (Event.request_fingerprint_sha256 e)); Some (VText (Event.payload_sha256 e));
   Some (VTime (Event.created_at e))].
Definition event_row (e : Event) : row := model_row Event_model (event_cells e).

Definition delivery_cells (d : Delivery) : list (option value) :=
  [Some (VUuid (Delivery.id d)); Some (VUuid (Delivery.event_id d)); Some (VUuid (Delivery.endpoint_id d));
   Some (VInt (Delivery.replay_generation d)); VUuid <$> Delivery.replayed_from_delivery_id d;
   VText <$> Delivery.replay_idempotency_key d;
   Some (VEnum "delivery_status" (DeliveryStatus_value (Delivery.status d)));
   Some (VInt (Delivery.attempt_count d)); VTime <$> Delivery.next_attempt_at d; VText <$> Delivery.lease_owner d;
   VTime <$> Delivery.lease_expires_at d; VUuid <$> Delivery.lease_token d; VTime <$> Delivery.delivered_at d;
   VText <$> Delivery.last_error d; Some (VTime (Delivery.created_at d)); Some (VTime (Delivery.updated_at d))].
Definition delivery_row (d : Delivery) : row := model_row Delivery_model (delivery_cells d).

Definition attempt_cells (a : DeliveryAttempt) : list (option value) :=
  [Some (VUuid (DeliveryAttempt.id a)); Some (VUuid (DeliveryAttempt.delivery_id a));
   Some (VInt (DeliveryAttempt.attempt_number a));
   Some (VEnum "delivery_attempt_status" (DeliveryAttemptStatus_value (DeliveryAttempt.status a)));
   Some (VUuid (DeliveryAttempt.lease_token a));
   VEnum "delivery_disposition" ∘ DeliveryDisposition_value <$> DeliveryAttempt.disposition a;
   VInt <$> DeliveryAttempt.http_status_code a; VText <$> DeliveryAttempt.error_type a;
   VText <$> DeliveryAttempt.error_message a; VText <$> DeliveryAttempt.response_body_excerpt a;
   VInt <$> DeliveryAttempt.duration_ms a; VInt <$> DeliveryAttempt.request_timestamp a;
   VTime <$> DeliveryAttempt.retry_scheduled_for a; VTime <$> DeliveryAttempt.started_at a;
   VTime <$> DeliveryAttempt.finished_at a; VTime <$> DeliveryAttempt.resolved_at a;
   Some (VTime (DeliveryAttempt.created_at a))].
Definition attempt_row (a : DeliveryAttempt) : row := model_row DeliveryAttempt_model (attempt_cells a).

Definition stored {A : Type} (f : A → row) (tbl : gmap UUID A) : list row := f <$> (map_to_list tbl).*2.

Definition to_data (db : Db) : data :=
  <["endpoints" := stored endpoint_row (endpoints db)]> (
  <["events" := stored event_row (events db)]> (
  <["deliveries" := stored delivery_row (deliveries db)]> (
  <["delivery_attempts" := stored attempt_row (attempts db)]> ∅))).

(** ** CHECK constraints *)

(** The text and the name of the CHECK constraints of a class, in their order. *)
Definition check_args (m : model) : list (string * string) :=
  flat_map (λ a, match a with CheckArg text name => [(text, name)] | _ => [] end) (table_args m).

Definition evaluated (m : model) (r : row) : list (pystr * bool) :=
  map (λ '(text, name), (lit name, passes r (sql text))) (check_args m).

Lemma not_empty_length {A} (l : list A) : (0 <? Z.of_nat (length l))%Z = not_empty l.
Proof. by destruct l. Qed.

Lemma length_is {A} (l : list A) (n : nat) : (Z.of_nat (length l) =? Z.of_nat n)%Z = bool_decide (length l = n).
Proof. destruct (Z.eqb_spec (Z.of_nat (length l)) (Z.of_nat n)); case_bool_decide; (done || lia). Qed.

Lemma is_null_fmap {A B} (f : A → B) (o : option A) : is_null (f <$> o) = is_null o.
Proof. by destruct o. Qed.

Lemma and3_Some a b : and3 (Some a) (Some b) = Some (a && b).
Proof. by destruct a, b. Qed.

Lemma or3_Some a b : or3 (Some a) (Some b) = Some (a || b).
Proof. by destruct a, b. Qed.

Lemma if_bool (b : bool) : (if b then true else false) = b.
Proof. by destruct b. Qed.

(** Read the texts of constraints, and the cells of a row given by its values. *)
Ltac read_texts :=
  repeat match goal with
  | |- context [sql ?s] => let e := eval vm_compute in (sql s) in change (sql s) with e
  end.

Ltac read_cells :=
  rewrite !lookup_model_row;
  repeat match goal with
  | |- context [cell ?l ?c] =>
      let v := eval cbv -[fmap option_fmap compose DeliveryStatus_value DeliveryAttemptStatus_value
        DeliveryDisposition_value] in (cell l c) in change (cell l c) with v
  end.

Lemma check_cons (n : pystr) (b b' : bool) l l' : b = b' → l = l' → (n, b) :: l = (n, b') :: l'.
Proof. by intros -> ->. Qed.

Ltac read_checks :=
  read_texts; unfold passes; cbn [eval]; read_cells;
  cbn -[and3 or3 is_null fmap length cmp_null nullable];
  rewrite ?is_null_fmap; cbn -[and3 or3 is_null length cmp_null nullable Z.leb Z.ltb Z.eqb];
  rewrite ?and3_Some, ?or3_Some;
  repeat (apply check_cons; [|]); [..|reflexivity].

Lemma endpoint_checks e : evaluated Endpoint_model (endpoint_row e) = Endpoint.checks e.
Proof.
  destruct e as [id name url secret version enabled created updated].
  unfold evaluated, Endpoint.checks, endpoint_row, endpoint_cells. cbn [check_args table_args flat_map app map Endpoint_model].
  read_checks. all: cbn -[Z.leb Z.ltb length Z.of_nat].
  all: rewrite if_bool, ?not_empty_length; done.
Qed.

Lemma event_checks e : evaluated Event_model (event_row e) = Event.checks e.
Proof.
  destruct e as [id src type key payload bytes fp digest created].
  unfold evaluated, Event.checks, event_row, event_cells. cbn [check_args table_args flat_map app map Event_model].
  read_checks. all: cbn -[Z.leb Z.ltb length Z.of_nat Z.eqb].
  all: rewrite if_bool, ?not_empty_length; try done; by rewrite <- length_is.
Qed.

Lemma delivery_checks d : evaluated Delivery_model (delivery_row d) = Delivery.checks d.
Proof.
  destruct d as [id ev ep gen src key st count next owner expires token dat err created updated].
  unfold evaluated, Delivery.checks, delivery_row, delivery_cells. cbn [check_args table_args flat_map app map Delivery_model].
  read_checks.
  - exact (if_bool _).
  - by destruct src, key.
  - by destruct key as [[|c s]|].
  - exact (if_bool _).
  - by destruct owner, expires, token.
  - by destruct st, owner.
  - by destruct st, dat.
Qed.

Lemma attempt_checks a : evaluated DeliveryAttempt_model (attempt_row a) = DeliveryAttempt.checks a.
Proof.
  destruct a as [id del num st token disp http ety emsg excerpt dur ts retry started finished resolved created].
  unfold evaluated, DeliveryAttempt.checks, attempt_row, attempt_cells.
  cbn [check_args table_args flat_map app map DeliveryAttempt_model].
  read_checks.
  - exact (if_bool _).
  - destruct dur; [exact (if_bool _)|done].
  - destruct ts; [exact (if_bool _)|done].
  - destruct http; [|done]. cbn -[and3 or3 Z.leb]. rewrite and3_Some. cbn -[or3 Z.leb andb].
    rewrite or3_Some. exact (if_bool _).
  - destruct started, finished; [exact (if_bool _)|done..].
  - unfold DeliveryAttempt.lifecycle_in_progress, DeliveryAttempt.lifecycle_completed,
      DeliveryAttempt.lifecycle_indeterminate.
    destruct st; repeat (progress (cbn -[and3 or3 is_null andb orb negb]; rewrite ?and3_Some, ?or3_Some)).
    all: rewrite if_bool, !andb_assoc, !orb_assoc; reflexivity.
Qed.

(** ** Tables that come from a class *)

Definition column_matches (t : table) (mc : mapped_column) : bool :=
  match t_columns t !! mc_name mc with
  | Some col => bool_decide (col_type col = mc_type mc) && Bool.eqb (col_nullable col) (mc_optional mc)
  | None => false
  end.

Definition check_matches (m : model) (t : table) (c : string * string) : bool :=
  bool_decide (t_checks t !! ck_name (tablename m) c.2 = Some (sql c.1)).

(** A table has the columns and the conditions of a class, and no others. *)
Definition table_matches (m : model) (t : table) : bool :=
  bool_decide (NoDup (mc_name <$> mapped_columns m)) &&
  forallb (column_matches t) (mapped_columns m) &&
  bool_decide (length (keys (t_columns t)) = length (mapped_columns m)) &&
  forallb (check_matches m t) (check_args m) &&
  forallb (λ n, bool_decide (n ∈ map (λ c, ck_name (tablename m) c.2) (check_args m))) (keys (t_checks t)).

Lemma elem_of_keys {A} (m : gmap string A) k : k ∈ keys m ↔ is_Some (m !! k).
Proof.
  unfold keys. rewrite list_elem_of_fmap. split.
  - intros ([k' x] & -> & H%elem_of_map_to_list). by exists x.
  - intros [x H]. exists (k, x). split; [done|]. by apply elem_of_map_to_list.
Qed.

Lemma column_matches_inv t mc : column_matches t mc = true →
  ∃ d, t_columns t !! mc_name mc = Some (mkColumn (mc_type mc) (mc_optional mc) d).
Proof.
  unfold column_matches. destruct (t_columns t !! mc_name mc) as [[ty nl d]|]; [|done].
  intros [E1 E2]%andb_true_iff. apply bool_decide_eq_true in E1. apply eqb_prop in E2. simpl in *. subst. by exists d.
Qed.

Section matching.
Context (m : model) (t : table) (Hm : table_matches m t = true).

Lemma matches_parts :
  NoDup (mc_name <$> mapped_columns m) ∧
  (∀ mc, mc ∈ mapped_columns m → column_matches t mc = true) ∧
  length (keys (t_columns t)) = length (mapped_columns m) ∧
  (∀ c, c ∈ check_args m → check_matches m t c = true) ∧
  (∀ n, n ∈ keys (t_checks t) → n ∈ map (λ c, ck_name (tablename m) c.2) (check_args m)).
Proof using Hm.
  pose proof Hm as H. unfold table_matches in H. rewrite !andb_true_iff, !forallb_elem, !bool_decide_eq_true in H.
  destruct H as [[[[H1 H2] H3] H4] H5]. split_and!; [done..|].
  intros n Hn. apply H5 in Hn. by apply bool_decide_eq_true in Hn.
Qed.

Lemma names_NoDup : NoDup (mc_name <$> mapped_columns m).
Proof using Hm. apply matches_parts. Qed.

Lemma matching_column mc : mc ∈ mapped_columns m →
  ∃ d, t_columns t !! mc_name mc = Some (mkColumn (mc_type mc) (mc_optional mc) d).
Proof using Hm. intros Hmc. by apply column_matches_inv, matches_parts. Qed.

(** No column but the mapped ones: they are as many. *)
Lemma matching_column_inv c col : t_columns t !! c = Some col →
  ∃ mc, mc ∈ mapped_columns m ∧ mc_name mc = c ∧ col_type col = mc_type mc ∧ col_nullable col = mc_optional mc.
Proof using Hm.
  intros Hc. assert (c ∈ mc_name <$> mapped_columns m) as Hin.
  { pose proof matches_parts as (_ & _ & Hlen & _).
    assert (mc_name <$> mapped_columns m ≡ₚ keys (t_columns t)) as Hp.
    { apply submseteq_length_Permutation; [|rewrite length_fmap; lia].
      apply NoDup_submseteq; [apply names_NoDup|].
      intros c' (mc & -> & Hmc)%list_elem_of_fmap. apply elem_of_keys.
      destruct (matching_column mc Hmc) as [d Hd]. by eexists. }
    rewrite Hp. apply elem_of_keys. by eexists. }
  apply list_elem_of_fmap in Hin as (mc & -> & Hmc). destruct (matching_column mc Hmc) as [d Hd].
  rewrite Hd in Hc. injection Hc as <-. by exists mc.
Qed.

Lemma matching_check n e : t_checks t !! n = Some e ↔
  ∃ text name, (text, name) ∈ check_args m ∧ n = ck_name (tablename m) name ∧ e = sql text.
Proof using Hm.
  pose proof matches_parts as (_ & _ & _ & Hc & Hn). split.
  - intros He. assert (n ∈ keys (t_checks t)) as Hk by (apply elem_of_keys; by eexists).
    apply Hn, list_elem_of_fmap in Hk as ([text name] & -> & Hin).
    exists text, name. split; [done|]. split; [done|]. specialize (Hc _ Hin).
    apply bool_decide_eq_true in Hc. simpl in Hc, He. rewrite He in Hc. by injection Hc.
  - intros (text & name & Hin & -> & ->). specialize (Hc _ Hin). by apply bool_decide_eq_true in Hc.
Qed.

(** ** Rows of such a table *)

Lemma cell_Some l c v : NoDup (mc_name ∘ fst <$> l) →
  cell l c = Some v ↔ ∃ mc, (mc, Some v) ∈ l ∧ mc_name mc = c.
Proof.
  induction l as [|[mc o] l IH]; intros Hnd; simpl; [split; [done|by intros (? & ?%elem_of_nil & _)]|].
  apply NoDup_cons in Hnd as [Hnin Hnd]. setoid_rewrite elem_of_cons. case_bool_decide as E.
  - split; [intros ->; exists mc; by auto|]. intros (mc' & [[= -> ->]|Hin] & E'); [done|].
    exfalso. apply Hnin. apply list_elem_of_fmap. exists (mc', Some v). split; [|done]. unfold compose. simpl. congruence.
  - rewrite (IH Hnd). split; [naive_solver|]. intros (mc' & [[= -> ->]|Hin] & E'); [done|eauto].
Qed.

Definition cells_typed (E : enums) (vals : list (option value)) : bool :=
  forallb (λ p, nullable (has_type E (mc_type p.1)) p.2) (zip (mapped_columns m) vals).

Definition cells_present (vals : list (option value)) : bool :=
  forallb (λ p, mc_optional p.1 || negb (is_null p.2)) (zip (mapped_columns m) vals).

Context (vals : list (option value)) (Hlen : length vals = length (mapped_columns m)).

Lemma zip_names_NoDup : NoDup (mc_name ∘ fst <$> zip (mapped_columns m) vals).
Proof using Hm Hlen.
  rewrite (list_fmap_compose fst mc_name), fst_zip by lia. apply names_NoDup.
Qed.

Lemma cells_ok_model_row E : cells_ok E t (model_row m vals) = true ↔ cells_typed E vals = true.
Proof using Hm Hlen.
  rewrite cells_ok_true. unfold cells_typed. rewrite forallb_elem. setoid_rewrite lookup_model_row. split.
  - intros H [mc o] Hin. destruct o as [v|]; [|done]. simpl.
    assert (cell (zip (mapped_columns m) vals) (mc_name mc) = Some v) as Hc
      by (apply cell_Some; [apply zip_names_NoDup|by exists mc]).
    destruct (H _ _ Hc) as (col & Hcol & Hv).
    destruct (matching_column mc) as [d Hd]; [by apply elem_of_zip_l in Hin|].
    rewrite Hd in Hcol. by injection Hcol as <-.
  - intros H c v Hc. apply cell_Some in Hc as (mc & Hin & <-); [|apply zip_names_NoDup].
    destruct (matching_column mc) as [d Hd]; [by apply elem_of_zip_l in Hin|].
    eexists. split; [exact Hd|]. exact (H _ Hin).
Qed.

Lemma present_model_row c col : cells_present vals = true →
  t_columns t !! c = Some col → col_nullable col = false → is_Some (model_row m vals !! c).
Proof using Hm Hlen.
  unfold cells_present. rewrite forallb_elem. intros H Hc Hn.
  destruct (matching_column_inv c col Hc) as (mc & Hmc & <- & _ & E). rewrite lookup_model_row.
  apply list_elem_of_lookup in Hmc as [i Hi].
  destruct (lookup_lt_is_Some_2 vals i) as [o Ho]; [rewrite Hlen; by eapply lookup_lt_Some|].
  assert ((mc, o) ∈ zip (mapped_columns m) vals) as Hin.
  { apply list_elem_of_lookup. exists i. apply lookup_zip_with_Some. by exists mc, o. }
  specialize (H _ Hin). simpl in H. rewrite <- E, Hn in H. destruct o as [v|]; [|done].
  exists v. apply cell_Some; [apply zip_names_NoDup|by exists mc].
Qed.
End matching.
