(* ===== verification/HeadSchema.v ===== *)
(** The schema at the head enforces what the development assumes of a database: [db_ok], stated on
    records, holds of a database exactly when its rows are sound for the catalog of models.py. *)
From S2P Require Import Prelude PyStr Retry StateMachine Models Database Sql SqlText Schema SchemaSound Metadata Revisions.
From S2P Require Import StoredRows.
From Stdlib Require Import ZArith.

Lemma forallb_map' {A B} (f : B → bool) (h : A → B) l : forallb f (map h l) = forallb (λ x, f (h x)) l.
Proof. induction l as [|x l IH]; simpl; [done|]. by rewrite IH. Qed.

(** ** Demands on stored records *)

Lemma elem_of_stored {A} (f : A → row) (tbl : gmap UUID A) r :
  r ∈ stored f tbl ↔ ∃ k x, tbl !! k = Some x ∧ r = f x.
Proof.
  unfold stored. rewrite list_elem_of_fmap. setoid_rewrite list_elem_of_fmap. split.
  - intros (x & -> & [k y] & -> & H%elem_of_map_to_list). eauto.
  - intros (k & x & H & ->). exists x. split; [done|]. exists (k, x). split; [done|]. by apply elem_of_map_to_list.
Qed.

(** Two records with the same value of a unique key are the same. *)
Definition key_unique {A : Type} (key : A → option (list value)) (tbl : gmap UUID A) : Prop :=
  ∀ k k' x y v, tbl !! k = Some x → tbl !! k' = Some y → key x = Some v → key y = Some v → k = k'.

Lemma NoDup_omap_iff {A B} (f : A → option B) (l : list A) :
  NoDup l → NoDup (omap f l) ↔ ∀ x y v, x ∈ l → y ∈ l → f x = Some v → f y = Some v → x = y.
Proof.
  induction 1 as [|a l Ha Hl IH]; cbn; [split; [set_solver|constructor]|]. split.
  - intros Hnd x y v Hx Hy Ex Ey. apply elem_of_cons in Hx as [->|Hx], Hy as [->|Hy]; [done| | |].
    + rewrite Ex in Hnd. apply NoDup_cons in Hnd as [Hv _]. destruct Hv. apply list_elem_of_omap. eauto.
    + rewrite Ey in Hnd. apply NoDup_cons in Hnd as [Hv _]. destruct Hv. apply list_elem_of_omap. eauto.
    + apply IH with v; try done. destruct (f a); [by apply NoDup_cons in Hnd as [_ ?]|done].
  - intros H. assert (NoDup (omap f l)) as Hnd by (apply IH; intros x y v Hx Hy; apply H; set_solver).
    destruct (f a) as [v|] eqn:Ea; [|done]. apply NoDup_cons. split; [|done].
    intros (x & Hx & Ex)%list_elem_of_omap. by rewrite (H a x v ltac:(set_solver) ltac:(set_solver) Ea Ex) in Ha.
Qed.

Section stored.
Context {A : Type} (f : A → row) (tbl : gmap UUID A) (D : data) (tn : string) (HD : rows D tn = stored f tbl).

Lemma meets_satisfies n e :
  meets D tn (Satisfies n e) = true ↔ ∀ k x, tbl !! k = Some x → passes (f x) e = true.
Proof using HD.
  simpl. rewrite HD, forallb_elem. setoid_rewrite elem_of_stored. naive_solver.
Qed.

Lemma meets_unique n cols cond :
  meets D tn (Unique n cols cond) = true ↔ key_unique (λ x, index_key cols cond (f x)) tbl.
Proof using HD.
  simpl. unfold unique_on, stored in *. rewrite bool_decide_eq_true, HD.
  assert (omap (index_key cols cond) (f <$> (map_to_list tbl).*2) =
    omap (λ p, index_key cols cond (f p.2)) (map_to_list tbl)) as ->.
  { clear HD. induction (map_to_list tbl) as [|[k x] l IH]; [done|]. cbn.
    destruct (index_key cols cond (f x)); [f_equal|]; exact IH. }
  rewrite NoDup_omap_iff by apply NoDup_map_to_list. unfold key_unique. split.
  - intros H k k' x y v Hx Hy Ex Ey. apply elem_of_map_to_list in Hx, Hy.
    by injection (H (k, x) (k', y) v Hx Hy Ex Ey).
  - intros H [k x] [k' y] v Hx Hy Ex Ey. apply elem_of_map_to_list in Hx, Hy. simpl in *.
    assert (k = k') as -> by (by eapply H). congruence.
Qed.

Lemma meets_references {B} (g : B → row) (tbl' : gmap UUID B) n fk :
  rows D (fk_table fk) = stored g tbl' →
  meets D tn (References n fk) = true ↔
  ∀ k x v, tbl !! k = Some x → key_of (fk_columns fk) (f x) = Some v →
    ∃ k' y, tbl' !! k' = Some y ∧ key_of (fk_referred fk) (g y) = Some v.
Proof using HD.
  intros HD'. simpl. rewrite HD, forallb_elem. setoid_rewrite elem_of_stored. unfold refers. rewrite HD'. split.
  - intros H k x v Hx Hv. specialize (H (f x) ltac:(eauto)). rewrite Hv, bool_decide_eq_true in H.
    apply list_elem_of_omap in H as (r & (k' & y & Hy & ->)%elem_of_stored & Hk). eauto.
  - intros H r (k & x & Hx & ->). destruct (key_of (fk_columns fk) (f x)) as [v|] eqn:Ev; [|done].
    apply bool_decide_eq_true. destruct (H k x v Hx Ev) as (k' & y & Hy & Ey).
    apply list_elem_of_omap. exists (g y). split; [|done]. apply elem_of_stored. eauto.
Qed.
End stored.

(** ** The table of a class *)

Definition uniques_of (t : table) : list (list string * option expr) :=
  omap (λ d, match d with Unique _ cols cond => Some (cols, cond) | _ => None end) (demands t).

Section class_table.
Context (C : catalog) (t : table) (m : model) (Hm : table_matches m t = true).
Context {A : Type} (cells : A → list (option value)) (tbl : gmap UUID A) (D : data).
Context (HD : rows D (tablename m) = stored (λ x, model_row m (cells x)) tbl).
Context (Hlen : ∀ x, length (cells x) = length (mapped_columns m)) (Hpresent : ∀ x, cells_present m (cells x) = true).

Lemma class_table_sound :
  table_sound C D (tablename m) t ↔
  (∀ k x, tbl !! k = Some x →
     cells_typed m (c_enums C) (cells x) = true ∧
     forallb snd (evaluated m (model_row m (cells x))) = true) ∧
  (∀ u, u ∈ uniques_of t → key_unique (λ x, index_key u.1 u.2 (model_row m (cells x))) tbl) ∧
  (∀ n fk, t_foreign t !! n = Some fk → meets D (tablename m) (References n fk) = true).
Proof using Hm HD Hlen Hpresent.
  unfold table_sound, uniques_of. split.
  - intros [Hc Hd]. split_and!.
    + intros k x Hx. split.
      * apply (cells_ok_model_row m t Hm _ (Hlen x)), Hc. rewrite HD. apply elem_of_stored. eauto.
      * unfold evaluated. rewrite forallb_map', forallb_elem. intros [text name] Hin. simpl.
        assert (Satisfies (ck_name (tablename m) name) (sql text) ∈ demands t) as Hd'.
        { apply elem_of_demands, (matching_check m t Hm). eauto. }
        apply Hd in Hd'. rewrite (meets_satisfies _ tbl _ _ HD) in Hd'. eauto.
    + intros u (d & Hdd & E)%list_elem_of_omap. destruct d; try done. injection E as <-.
      apply Hd in Hdd. by rewrite (meets_unique _ tbl _ _ HD) in Hdd.
    + intros n fk Hn. apply Hd. by apply elem_of_demands.
  - intros (H1 & H2 & H3). split.
    + intros r. rewrite HD. intros (k & x & Hx & ->)%elem_of_stored.
      apply (cells_ok_model_row m t Hm _ (Hlen x)). by destruct (H1 k x Hx).
    + intros d Hd. destruct d as [c|n e|n cols cond|n fk].
      * apply elem_of_demands in Hd as (col & Hc & Hn). simpl. rewrite HD, forallb_elem.
        intros r (k & x & Hx & ->)%elem_of_stored. apply bool_decide_eq_true.
        by apply (present_model_row m t Hm _ (Hlen x) c col).
      * apply elem_of_demands in Hd. apply (matching_check m t Hm) in Hd as (text & name & Hin & -> & ->).
        rewrite (meets_satisfies _ tbl _ _ HD). intros k x Hx. destruct (H1 k x Hx) as [_ He].
        unfold evaluated in He. rewrite forallb_map', forallb_elem in He. exact (He _ Hin).
      * rewrite (meets_unique _ tbl _ _ HD). apply (H2 (cols, cond)). apply list_elem_of_omap. by eexists.
      * apply H3. by apply elem_of_demands in Hd.
Qed.
End class_table.

(** ** Keys of stored records *)

Ltac read_key :=
  unfold index_key, key_of, holds; cbn [from_option mapM eval]; read_cells.

Lemma endpoint_id_key e : key_of ["id"] (endpoint_row e) = Some [VUuid (Endpoint.id e)].
Proof. destruct e. unfold endpoint_row, endpoint_cells. read_key. done. Qed.

Lemma event_id_key e : key_of ["id"] (event_row e) = Some [VUuid (Event.id e)].
Proof. destruct e. unfold event_row, event_cells. read_key. done. Qed.

Lemma delivery_id_key d : key_of ["id"] (delivery_row d) = Some [VUuid (Delivery.id d)].
Proof. destruct d. unfold delivery_row, delivery_cells. read_key. done. Qed.

Lemma attempt_id_key a : key_of ["id"] (attempt_row a) = Some [VUuid (DeliveryAttempt.id a)].
Proof. destruct a. unfold attempt_row, attempt_cells. read_key. done. Qed.

Lemma event_idempotency_key e :
  key_of ["source"; "idempotency_key"] (event_row e) = Some [VText (Event.source e); VText (Event.idempotency_key e)].
Proof. destruct e. unfold event_row, event_cells. read_key. done. Qed.

Lemma delivery_generation_key d :
  key_of ["event_id"; "endpoint_id"; "replay_generation"] (delivery_row d) =
  Some [VUuid (Delivery.event_id d); VUuid (Delivery.endpoint_id d); VInt (Delivery.replay_generation d)].
Proof. destruct d. unfold delivery_row, delivery_cells. read_key. done. Qed.

Lemma delivery_replay_key d :
  key_of ["replayed_from_delivery_id"; "replay_idempotency_key"] (delivery_row d) =
  match Delivery.replayed_from_delivery_id d, Delivery.replay_idempotency_key d with
  | Some s, Some k => Some [VUuid s; VText k]
  | _, _ => None
  end.
Proof.
  destruct d as [id ev ep gen src key st count next owner expires token dat err created updated].
  unfold delivery_row, delivery_cells. read_key. by destruct src, key.
Qed.

Lemma delivery_active_key d :
  index_key ["event_id"; "endpoint_id"] (Some (sql "status IN ('pending', 'in_progress', 'retry_wait')")) (delivery_row d) =
  if active (Delivery.status d) then Some [VUuid (Delivery.event_id d); VUuid (Delivery.endpoint_id d)] else None.
Proof.
  destruct d as [id ev ep gen src key st count next owner expires token dat err created updated].
  unfold delivery_row, delivery_cells. read_texts. read_key. by destruct st.
Qed.

Lemma delivery_reference_keys d :
  key_of ["event_id"] (delivery_row d) = Some [VUuid (Delivery.event_id d)] ∧
  key_of ["endpoint_id"] (delivery_row d) = Some [VUuid (Delivery.endpoint_id d)] ∧
  key_of ["replayed_from_delivery_id"] (delivery_row d) =
    (s ← Delivery.replayed_from_delivery_id d; Some [VUuid s]).
Proof.
  destruct d as [id ev ep gen src key st count next owner expires token dat err created updated].
  unfold delivery_row, delivery_cells. read_key. split_and!; [done|done|by destruct src].
Qed.

Lemma attempt_keys a :
  key_of ["delivery_id"; "attempt_number"] (attempt_row a) =
    Some [VUuid (DeliveryAttempt.delivery_id a); VInt (DeliveryAttempt.attempt_number a)] ∧
  key_of ["delivery_id"; "lease_token"] (attempt_row a) =
    Some [VUuid (DeliveryAttempt.delivery_id a); VUuid (DeliveryAttempt.lease_token a)] ∧
  index_key ["delivery_id"] (Some (sql "status = 'in_progress'")) (attempt_row a) =
    (if bool_decide (DeliveryAttempt.status a = ATTEMPT_IN_PROGRESS)
     then Some [VUuid (DeliveryAttempt.delivery_id a)] else None) ∧
  key_of ["delivery_id"] (attempt_row a) = Some [VUuid (DeliveryAttempt.delivery_id a)].
Proof.
  destruct a as [id del num st token disp http ety emsg excerpt dur ts retry started finished resolved created].
  unfold attempt_row, attempt_cells. read_texts. read_key. split_and!; [done|done|by destruct st|done].
Qed.

(** ** The head *)

(** What the rest needs to know of the catalog of the classes. *)
Record head_facts (C : catalog) (tE tV tD tA : table) : Prop := {
  hf_tables : ∀ tn t, c_tables C !! tn = Some t ↔
    (tn = "endpoints" ∧ t = tE) ∨ (tn = "events" ∧ t = tV) ∨ (tn = "deliveries" ∧ t = tD) ∨
    (tn = "delivery_attempts" ∧ t = tA);
  hf_endpoints : table_matches Endpoint_model tE = true;
  hf_events : table_matches Event_model tV = true;
  hf_deliveries : table_matches Delivery_model tD = true;
  hf_attempts : table_matches DeliveryAttempt_model tA = true;
  hf_endpoint_keys : uniques_of tE = [(["id"], None)];
  hf_event_keys : uniques_of tV = [(["id"], None); (["source"; "idempotency_key"], None)];
  hf_delivery_keys : uniques_of tD =
    [(["id"], None); (["event_id"; "endpoint_id"; "replay_generation"], None);
     (["replayed_from_delivery_id"; "replay_idempotency_key"], None);
     (["event_id"; "endpoint_id"], Some (sql "status IN ('pending', 'in_progress', 'retry_wait')"))];
  hf_attempt_keys : uniques_of tA =
    [(["id"], None); (["delivery_id"; "attempt_number"], None); (["delivery_id"; "lease_token"], None);
     (["delivery_id"], Some (sql "status = 'in_progress'"))];
  hf_no_references : t_foreign tE = ∅ ∧ t_foreign tV = ∅;
  hf_delivery_references : elems (t_foreign tD) =
    [mkForeignKey ["endpoint_id"] "endpoints" ["id"] RESTRICT; mkForeignKey ["event_id"] "events" ["id"] RESTRICT;
     mkForeignKey ["replayed_from_delivery_id"] "deliveries" ["id"] RESTRICT];
  hf_attempt_references : elems (t_foreign tA) = [mkForeignKey ["delivery_id"] "deliveries" ["id"] CASCADE];
  hf_enums : c_enums C !! "delivery_status" =
      Some (map DeliveryStatus_value [PENDING; IN_PROGRESS; RETRY_WAIT; DELIVERED; DEAD_LETTERED]) ∧
    c_enums C !! "delivery_attempt_status" =
      Some (map DeliveryAttemptStatus_value [ATTEMPT_IN_PROGRESS; ATTEMPT_COMPLETED; ATTEMPT_INDETERMINATE]) ∧
    c_enums C !! "delivery_disposition" = Some (map DeliveryDisposition_value [SUCCEEDED; RETRY; TERMINAL_FAILURE])
}.

Definition head_catalog : catalog := match models_catalog with Done C => C | Error _ => empty_catalog end.
Definition head_table (m : model) : table := default empty_table (c_tables head_catalog !! tablename m).

Lemma models_catalog_is_head : models_catalog = Done head_catalog.
Proof.
  assert ((match models_catalog with Done _ => true | Error _ => false end) = true) as E by (vm_compute; reflexivity).
  unfold head_catalog. by destruct models_catalog.
Qed.

Lemma head_catalog_tables :
  c_tables head_catalog =
  list_to_map (map (λ m, (tablename m, head_table m)) [Endpoint_model; Event_model; Delivery_model; DeliveryAttempt_model]).
Proof. refine (bool_decide_unpack _ _). vm_compute. exact I. Qed.

Lemma head_tables_iff tn t :
  c_tables head_catalog !! tn = Some t ↔
    (tn = "endpoints" ∧ t = head_table Endpoint_model) ∨ (tn = "events" ∧ t = head_table Event_model) ∨
    (tn = "deliveries" ∧ t = head_table Delivery_model) ∨ (tn = "delivery_attempts" ∧ t = head_table DeliveryAttempt_model).
Proof.
  rewrite head_catalog_tables. cbn [map].
  generalize (head_table Endpoint_model), (head_table Event_model), (head_table Delivery_model),
    (head_table DeliveryAttempt_model). intros tE tV tD tA.
  rewrite <- elem_of_list_to_map; [|refine (bool_decide_unpack _ _); vm_compute; exact I].
  cbn [tablename Endpoint_model Event_model Delivery_model DeliveryAttempt_model].
  rewrite !elem_of_cons, elem_of_nil, !pair_eq. tauto.
Qed.

Lemma head_catalog_facts :
  head_facts head_catalog (head_table Endpoint_model) (head_table Event_model) (head_table Delivery_model)
    (head_table DeliveryAttempt_model).
Proof.
  split; [exact head_tables_iff|..].
  1-4: vm_compute; reflexivity.
  1-4: refine (bool_decide_unpack _ _); vm_compute; exact I.
  all: repeat split; refine (bool_decide_unpack _ _); vm_compute; exact I.
Qed.

(** ** Soundness at the head *)

Lemma violated_forallb cs : violated cs = None ↔ forallb snd cs = true.
Proof.
  rewrite violated_None, forallb_elem, Forall_forall. done.
Qed.

Section head.
Context (C : catalog) (tE tV tD tA : table) (F : head_facts C tE tV tD tA).

Lemma endpoint_typed e : cells_typed Endpoint_model (c_enums C) (endpoint_cells e) = Endpoint.types e.
Proof. unfold cells_typed, Endpoint.types. cbn. by rewrite !andb_true_r, <- andb_assoc. Qed.

Lemma event_typed e : cells_typed Event_model (c_enums C) (event_cells e) = Event.types e.
Proof. unfold cells_typed, Event.types. cbn. by rewrite !andb_true_r, <- !andb_assoc. Qed.

Lemma nullable_fmap {A B} (p : B → bool) (f : A → B) (o : option A) : nullable p (f <$> o) = nullable (p ∘ f) o.
Proof. by destruct o. Qed.

Lemma nullable_true {A} (p : A → bool) o : (∀ x, p x = true) → nullable p o = true.
Proof. intros H. destruct o; simpl; auto. Qed.

Lemma status_in_enum s :
  bool_decide (DeliveryStatus_value s ∈ map DeliveryStatus_value [PENDING; IN_PROGRESS; RETRY_WAIT; DELIVERED; DEAD_LETTERED]) = true.
Proof. by destruct s. Qed.

Lemma attempt_status_in_enum s :
  bool_decide (DeliveryAttemptStatus_value s ∈
    map DeliveryAttemptStatus_value [ATTEMPT_IN_PROGRESS; ATTEMPT_COMPLETED; ATTEMPT_INDETERMINATE]) = true.
Proof. by destruct s. Qed.

Lemma disposition_in_enum s :
  bool_decide (DeliveryDisposition_value s ∈ map DeliveryDisposition_value [SUCCEEDED; RETRY; TERMINAL_FAILURE]) = true.
Proof. by destruct s. Qed.

Ltac null_columns :=
  rewrite !nullable_fmap; unfold compose;
  repeat match goal with
  | |- context [nullable (λ x, has_type ?E TDateTime (VTime x)) ?o] =>
      rewrite (nullable_true (λ x, has_type E TDateTime (VTime x)) o) by done
  | |- context [nullable (λ x, has_type ?E TUuid (VUuid x)) ?o] =>
      rewrite (nullable_true (λ x, has_type E TUuid (VUuid x)) o) by done
  end.

Lemma delivery_typed d : cells_typed Delivery_model (c_enums C) (delivery_cells d) = Delivery.types d.
Proof using F.
  destruct d as [id ev ep gen src key st count next owner expires token dat err created updated].
  destruct (hf_enums _ _ _ _ _ F) as (E1 & _ & _). unfold cells_typed, Delivery.types.
  cbn -[fmap option_fmap DeliveryStatus_value map]. rewrite E1. null_columns. cbn -[nullable DeliveryStatus_value map].
  rewrite status_in_enum, !andb_true_r, <- !andb_assoc. done.
Qed.

Lemma attempt_typed a : cells_typed DeliveryAttempt_model (c_enums C) (attempt_cells a) = DeliveryAttempt.types a.
Proof using F.
  destruct a as [id del num st token disp http ety emsg excerpt dur ts retry started finished resolved created].
  destruct (hf_enums _ _ _ _ _ F) as (_ & E1 & E2). unfold cells_typed, DeliveryAttempt.types.
  cbn -[fmap option_fmap DeliveryAttemptStatus_value DeliveryDisposition_value map]. rewrite E1. null_columns.
  rewrite (nullable_true (λ x, has_type (c_enums C) (TEnum "delivery_disposition") _) disp)
    by (intros x; cbn -[map]; rewrite E2; apply disposition_in_enum).
  cbn -[nullable DeliveryAttemptStatus_value map].
  rewrite attempt_status_in_enum, !andb_true_r, <- !andb_assoc. done.
Qed.

Context (db : Db).

Lemma rows_endpoints : rows (to_data db) "endpoints" = stored endpoint_row (endpoints db).
Proof. unfold to_data. by rewrite rows_insert_eq. Qed.

Lemma rows_events : rows (to_data db) "events" = stored event_row (events db).
Proof. unfold to_data. rewrite !rows_insert_ne by done. by rewrite rows_insert_eq. Qed.

Lemma rows_deliveries : rows (to_data db) "deliveries" = stored delivery_row (deliveries db).
Proof. unfold to_data. rewrite !rows_insert_ne by done. by rewrite rows_insert_eq. Qed.

Lemma rows_attempts : rows (to_data db) "delivery_attempts" = stored attempt_row (attempts db).
Proof. unfold to_data. rewrite !rows_insert_ne by done. by rewrite rows_insert_eq. Qed.

(** The primary key is unique in a table whose keys are the identifiers. *)
Lemma key_unique_id `{HasId A} (f : A → row) (tbl : gmap UUID A) :
  keyed tbl → (∀ x, key_of ["id"] (f x) = Some [VUuid (row_id x)]) →
  key_unique (λ x, index_key ["id"] None (f x)) tbl.
Proof.
  intros Hk Hf k k' x y v Hx Hy. unfold index_key. cbn [from_option]. rewrite !Hf. intros [= <-] [= E].
  by rewrite <- (Hk _ _ Hx), <- (Hk _ _ Hy).
Qed.

(** A single-column foreign key to the identifier of a table. *)
Lemma reference_is_Some {A} `{HasId B} (f : A → row) (g : B → row) (tbl : gmap UUID A) (tbl' : gmap UUID B)
    tn n fk (ref : A → option UUID) :
  keyed tbl' → rows (to_data db) tn = stored f tbl → rows (to_data db) (fk_table fk) = stored g tbl' →
  fk_referred fk = ["id"] → (∀ y, key_of ["id"] (g y) = Some [VUuid (row_id y)]) →
  (∀ x, key_of (fk_columns fk) (f x) = (s ← ref x; Some [VUuid s])) →
  meets (to_data db) tn (References n fk) = true ↔
  ∀ k x s, tbl !! k = Some x → ref x = Some s → is_Some (tbl' !! s).
Proof.
  intros Hk Hf Hg Hr Hid Href. rewrite (meets_references _ _ _ _ Hf _ _ _ _ Hg), Hr. split.
  - intros Hm k x s Hx Hs. destruct (Hm k x [VUuid s] Hx) as (k' & y & Hy & E); [by rewrite Href, Hs|].
    rewrite Hid in E. injection E as E. apply Hk in Hy as Hy'. exists y. by rewrite <- E, Hy'.
  - intros Hm k x v Hx Hv. rewrite Href in Hv. apply bind_Some in Hv as (s & Hs & [= <-]).
    destruct (Hm k x s Hx Hs) as [y Hy]. exists s, y. split; [done|]. rewrite Hid. by rewrite (Hk _ _ Hy).
Qed.

Lemma endpoints_sound : keyed (endpoints db) →
  table_sound C (to_data db) "endpoints" tE ↔
  ∀ k e, endpoints db !! k = Some e → Endpoint.types e = true ∧ violated (Endpoint.checks e) = None.
Proof using F.
  intros Hk. destruct (hf_no_references _ _ _ _ _ F) as [Hfk _].
  rewrite (class_table_sound C tE Endpoint_model (hf_endpoints _ _ _ _ _ F) endpoint_cells (endpoints db) _
    rows_endpoints (λ _, eq_refl) (λ _, eq_refl)).
  rewrite (hf_endpoint_keys _ _ _ _ _ F), Hfk. split.
  - intros (H & _) k e He. specialize (H k e He). rewrite endpoint_typed in H.
    rewrite violated_forallb, <- endpoint_checks. exact H.
  - intros H. split_and!; [| |by intros n fk].
    + intros k e He. rewrite endpoint_typed. fold (endpoint_row e). rewrite endpoint_checks, <- violated_forallb. eauto.
    + intros u ->%list_elem_of_singleton. apply (key_unique_id endpoint_row); [done|exact endpoint_id_key].
Qed.

Lemma events_sound : keyed (events db) →
  table_sound C (to_data db) "events" tV ↔
  (∀ k e, events db !! k = Some e → Event.types e = true ∧ violated (Event.checks e) = None) ∧
  (∀ k k' e e', events db !! k = Some e → events db !! k' = Some e' → Event.conflict e e' → k = k').
Proof using F.
  intros Hk. destruct (hf_no_references _ _ _ _ _ F) as [_ Hfk].
  rewrite (class_table_sound C tV Event_model (hf_events _ _ _ _ _ F) event_cells (events db) _
    rows_events (λ _, eq_refl) (λ _, eq_refl)).
  rewrite (hf_event_keys _ _ _ _ _ F), Hfk. fold event_row.
  assert (key_unique (λ x, index_key ["source"; "idempotency_key"] None (event_row x)) (events db) ↔
    ∀ k k' e e', events db !! k = Some e → events db !! k' = Some e' → Event.conflict e e' → k = k') as Hu.
  { unfold key_unique, index_key, Event.conflict. cbn [from_option]. setoid_rewrite event_idempotency_key. split.
    - intros H k k' e e' He He' [E1 E2]. eapply H; [done..|]. by rewrite E1, E2.
    - intros H k k' e e' v He He' [= <-] [= E1 E2]. by eapply H. }
  split.
  - intros (H & Hkeys & _). split.
    + intros k e He. specialize (H k e He). rewrite event_typed in H.
      rewrite violated_forallb, <- event_checks. exact H.
    + apply Hu, (Hkeys (_, _)). right; left.
  - intros [H Hc]. split_and!; [| |by intros n fk].
    + intros k e He. rewrite event_typed. fold (event_row e). rewrite event_checks, <- violated_forallb. eauto.
    + intros u [->|[->|[]%elem_of_nil]%elem_of_cons]%elem_of_cons;
        [apply (key_unique_id event_row); [done|exact event_id_key]|by apply Hu].
Qed.

Lemma delivery_conflict_keys :
  (∀ k k' d d', deliveries db !! k = Some d → deliveries db !! k' = Some d' → Delivery.conflict d d' → k = k') ↔
  key_unique (λ d, key_of ["event_id"; "endpoint_id"; "replay_generation"] (delivery_row d)) (deliveries db) ∧
  key_unique (λ d, key_of ["replayed_from_delivery_id"; "replay_idempotency_key"] (delivery_row d)) (deliveries db) ∧
  key_unique (λ d, index_key ["event_id"; "endpoint_id"]
    (Some (sql "status IN ('pending', 'in_progress', 'retry_wait')")) (delivery_row d)) (deliveries db).
Proof.
  unfold key_unique, Delivery.conflict, Delivery.same_generation, Delivery.same_replay_request, Delivery.both_active.
  split.
  - intros H. split_and!; intros k k' d d' v Hd Hd' E E'; apply (H k k' d d' Hd Hd').
    + rewrite delivery_generation_key in E, E'. left. by simplify_eq.
    + rewrite delivery_replay_key in E, E'. right; left.
      destruct (Delivery.replayed_from_delivery_id d), (Delivery.replay_idempotency_key d),
        (Delivery.replayed_from_delivery_id d'), (Delivery.replay_idempotency_key d'); by simplify_eq.
    + rewrite delivery_active_key in E, E'. right; right. repeat case_match; by simplify_eq.
  - intros (H1 & H2 & H3) k k' d d' Hd Hd' [(E1 & E2 & E3)|[(E1 & E2 & N1 & N2)|(E1 & E2 & A1 & A2)]].
    + eapply H1; [done..| |]; rewrite delivery_generation_key; [done|]. by rewrite E1, E2, E3.
    + destruct (Delivery.replayed_from_delivery_id d) as [s|] eqn:Es; [|done].
      destruct (Delivery.replay_idempotency_key d) as [key|] eqn:Ek; [|done].
      eapply H2; [done..| |]; rewrite delivery_replay_key; [by rewrite Es, Ek|]. by rewrite <- E1, <- E2.
    + eapply H3; [done..| |]; rewrite delivery_active_key; [by rewrite A1|]. by rewrite A2, E1, E2.
Qed.

Lemma attempt_conflict_keys :
  (∀ k k' a a', attempts db !! k = Some a → attempts db !! k' = Some a' → DeliveryAttempt.conflict a a' → k = k') ↔
  key_unique (λ a, key_of ["delivery_id"; "attempt_number"] (attempt_row a)) (attempts db) ∧
  key_unique (λ a, key_of ["delivery_id"; "lease_token"] (attempt_row a)) (attempts db) ∧
  key_unique (λ a, index_key ["delivery_id"] (Some (sql "status = 'in_progress'")) (attempt_row a)) (attempts db).
Proof.
  unfold key_unique, DeliveryAttempt.conflict. split.
  - intros H. split_and!; intros k k' a a' v Ha Ha' E E'; apply (H k k' a a' Ha Ha');
      destruct (attempt_keys a) as (K1 & K2 & K3 & _), (attempt_keys a') as (K1' & K2' & K3' & _).
    + rewrite K1 in E. rewrite K1' in E'. simplify_eq. auto.
    + rewrite K2 in E. rewrite K2' in E'. simplify_eq. auto.
    + rewrite K3 in E. rewrite K3' in E'. repeat case_bool_decide; simplify_eq. auto.
  - intros (H1 & H2 & H3) k k' a a' Ha Ha' [Ed E].
    destruct (attempt_keys a) as (K1 & K2 & K3 & _), (attempt_keys a') as (K1' & K2' & K3' & _).
    destruct E as [E|[E|[E E']]].
    + eapply H1; [exact Ha|exact Ha'|exact K1|]. by rewrite K1', Ed, E.
    + eapply H2; [exact Ha|exact Ha'|exact K2|]. by rewrite K2', Ed, E.
    + rewrite bool_decide_eq_true_2 in K3, K3' by done. rewrite Ed in K3. by eapply H3.
Qed.

Lemma deliveries_sound : keyed (endpoints db) → keyed (events db) → keyed (deliveries db) →
  table_sound C (to_data db) "deliveries" tD ↔
  (∀ k d, deliveries db !! k = Some d → Delivery.types d = true ∧ violated (Delivery.checks d) = None) ∧
  (∀ k k' d d', deliveries db !! k = Some d → deliveries db !! k' = Some d' → Delivery.conflict d d' → k = k') ∧
  (∀ k d, deliveries db !! k = Some d → is_Some (events db !! Delivery.event_id d)) ∧
  (∀ k d, deliveries db !! k = Some d → is_Some (endpoints db !! Delivery.endpoint_id d)) ∧
  (∀ k d s, deliveries db !! k = Some d → Delivery.replayed_from_delivery_id d = Some s → is_Some (deliveries db !! s)).
Proof using F.
  intros Hke Hkv Hk. pose proof (hf_delivery_references _ _ _ _ _ F) as Hfk.
  rewrite (class_table_sound C tD Delivery_model (hf_deliveries _ _ _ _ _ F) delivery_cells (deliveries db) _
    rows_deliveries (λ _, eq_refl) (λ _, eq_refl)).
  rewrite (hf_delivery_keys _ _ _ _ _ F), delivery_conflict_keys. fold delivery_row.
  pose proof (λ n, reference_is_Some delivery_row event_row (deliveries db) (events db) "deliveries" n
    (mkForeignKey ["event_id"] "events" ["id"] RESTRICT) (Some ∘ Delivery.event_id) Hkv rows_deliveries
    rows_events eq_refl event_id_key (λ d, proj1 (delivery_reference_keys d))) as R1.
  pose proof (λ n, reference_is_Some delivery_row endpoint_row (deliveries db) (endpoints db) "deliveries" n
    (mkForeignKey ["endpoint_id"] "endpoints" ["id"] RESTRICT) (Some ∘ Delivery.endpoint_id) Hke rows_deliveries
    rows_endpoints eq_refl endpoint_id_key (λ d, proj1 (proj2 (delivery_reference_keys d)))) as R2.
  pose proof (λ n, reference_is_Some delivery_row delivery_row (deliveries db) (deliveries db) "deliveries" n
    (mkForeignKey ["replayed_from_delivery_id"] "deliveries" ["id"] RESTRICT) Delivery.replayed_from_delivery_id Hk
    rows_deliveries rows_deliveries eq_refl delivery_id_key (λ d, proj2 (proj2 (delivery_reference_keys d)))) as R3.
  assert (∀ fk, fk ∈ elems (t_foreign tD) ↔ ∃ n, t_foreign tD !! n = Some fk) as Hel by (intros; apply elem_of_elems).
  rewrite Hfk in Hel. split.
  - intros (H & Hkeys & Href). split_and!.
    + intros k d Hd. specialize (H k d Hd). rewrite delivery_typed in H.
      rewrite violated_forallb, <- delivery_checks. exact H.
    + apply (Hkeys (["event_id"; "endpoint_id"; "replay_generation"], None)). right; left.
    + apply (Hkeys (["replayed_from_delivery_id"; "replay_idempotency_key"], None)). right; right; left.
    + apply (Hkeys (_, _)). right; right; right; left.
    + destruct (proj1 (Hel (mkForeignKey ["event_id"] "events" ["id"] RESTRICT))) as [n Hn]; [right; left|].
      intros k d Hd. by eapply (proj1 (R1 n) (Href _ _ Hn)).
    + destruct (proj1 (Hel (mkForeignKey ["endpoint_id"] "endpoints" ["id"] RESTRICT))) as [n Hn]; [left|].
      intros k d Hd. by eapply (proj1 (R2 n) (Href _ _ Hn)).
    + destruct (proj1 (Hel (mkForeignKey ["replayed_from_delivery_id"] "deliveries" ["id"] RESTRICT))) as [n Hn];
        [right; right; left|]. exact (proj1 (R3 n) (Href _ _ Hn)).
  - intros (H & (K1 & K2 & K3) & Hv & He & Hs). split_and!.
    + intros k d Hd. rewrite delivery_typed. fold (delivery_row d). rewrite delivery_checks, <- violated_forallb. eauto.
    + intros u Hu. rewrite !elem_of_cons, elem_of_nil in Hu. destruct Hu as [->|[->|[->|[->|[]]]]]; [|done..].
      apply (key_unique_id delivery_row); [done|exact delivery_id_key].
    + intros n fk Hn. assert (Hin : ∃ n, t_foreign tD !! n = Some fk) by eauto. apply Hel in Hin.
      rewrite !elem_of_cons, elem_of_nil in Hin. destruct Hin as [->|[->|[->|[]]]].
      * apply R2. intros k d s Hd [= <-]. eauto.
      * apply R1. intros k d s Hd [= <-]. eauto.
      * apply R3. exact Hs.
Qed.

Lemma attempts_sound : keyed (deliveries db) → keyed (attempts db) →
  table_sound C (to_data db) "delivery_attempts" tA ↔
  (∀ k a, attempts db !! k = Some a → DeliveryAttempt.types a = true ∧ violated (DeliveryAttempt.checks a) = None) ∧
  (∀ k k' a a', attempts db !! k = Some a → attempts db !! k' = Some a' → DeliveryAttempt.conflict a a' → k = k') ∧
  (∀ k a, attempts db !! k = Some a → is_Some (deliveries db !! DeliveryAttempt.delivery_id a)).
Proof using F.
  intros Hkd Hk. pose proof (hf_attempt_references _ _ _ _ _ F) as Hfk.
  rewrite (class_table_sound C tA DeliveryAttempt_model (hf_attempts _ _ _ _ _ F) attempt_cells (attempts db) _
    rows_attempts (λ _, eq_refl) (λ _, eq_refl)).
  rewrite (hf_attempt_keys _ _ _ _ _ F), attempt_conflict_keys. fold attempt_row.
  pose proof (λ n, reference_is_Some attempt_row delivery_row (attempts db) (deliveries db) "delivery_attempts" n
    (mkForeignKey ["delivery_id"] "deliveries" ["id"] CASCADE) (Some ∘ DeliveryAttempt.delivery_id) Hkd rows_attempts
    rows_deliveries eq_refl delivery_id_key (λ a, proj2 (proj2 (proj2 (attempt_keys a))))) as R.
  assert (∀ fk, fk ∈ elems (t_foreign tA) ↔ ∃ n, t_foreign tA !! n = Some fk) as Hel by (intros; apply elem_of_elems).
  rewrite Hfk in Hel. split.
  - intros (H & Hkeys & Href). split_and!.
    + intros k a Ha. specialize (H k a Ha). rewrite attempt_typed in H.
      rewrite violated_forallb, <- attempt_checks. exact H.
    + apply (Hkeys (["delivery_id"; "attempt_number"], None)). right; left.
    + apply (Hkeys (["delivery_id"; "lease_token"], None)). right; right; left.
    + apply (Hkeys (_, _)). right; right; right; left.
    + destruct (proj1 (Hel (mkForeignKey ["delivery_id"] "deliveries" ["id"] CASCADE))) as [n Hn]; [left|].
      intros k a Ha. by eapply (proj1 (R n) (Href _ _ Hn)).
  - intros (H & (K1 & K2 & K3) & Hd). split_and!.
    + intros k a Ha. rewrite attempt_typed. fold (attempt_row a). rewrite attempt_checks, <- violated_forallb. eauto.
    + intros u Hu. rewrite !elem_of_cons, elem_of_nil in Hu. destruct Hu as [->|[->|[->|[->|[]]]]]; [|done..].
      apply (key_unique_id attempt_row); [done|exact attempt_id_key].
    + intros n fk Hn. assert (Hin : ∃ n, t_foreign tA !! n = Some fk) by eauto. apply Hel in Hin.
      apply list_elem_of_singleton in Hin as ->. apply R. intros k a s Ha [= <-]. eauto.
Qed.
End head.

(** C6: the schema enforces the assumptions of this development: for tables keyed by their
    identifiers, [db_ok], the predicate on records that every service theorem starts from, holds
    exactly when the rows are sound for the catalog of models.py (types, required columns, the CHECK
    texts evaluated on the rows, unique constraints, partial unique indexes, foreign keys). *)
Theorem schema_enforces_db_ok db :
  models_catalog = Done head_catalog ∧
  (db_ok db ↔
   (keyed (endpoints db) ∧ keyed (events db) ∧ keyed (deliveries db) ∧ keyed (attempts db)) ∧
   sound head_catalog (to_data db)).
Proof.
  split; [exact models_catalog_is_head|]. pose proof head_catalog_facts as F.
  revert F. generalize head_catalog, (head_table Endpoint_model), (head_table Event_model),
    (head_table Delivery_model), (head_table DeliveryAttempt_model). intros C tE tV tD tA F. split.
  - intros []. split; [done|]. intros tn t Ht. apply (hf_tables _ _ _ _ _ F) in Ht.
    destruct Ht as [[-> ->]|[[-> ->]|[[-> ->]|[-> ->]]]].
    + by apply (endpoints_sound C tE tV tD tA F).
    + by apply (events_sound C tE tV tD tA F).
    + by apply (deliveries_sound C tE tV tD tA F).
    + by apply (attempts_sound C tE tV tD tA F).
  - intros [(K1 & K2 & K3 & K4) Hs].
    pose proof (hf_tables _ _ _ _ _ F) as Htab.
    assert (table_sound C (to_data db) "endpoints" tE) as S1 by (apply Hs, Htab; auto).
    assert (table_sound C (to_data db) "events" tV) as S2 by (apply Hs, Htab; auto).
    assert (table_sound C (to_data db) "deliveries" tD) as S3 by (apply Hs, Htab; auto).
    assert (table_sound C (to_data db) "delivery_attempts" tA) as S4 by (apply Hs, Htab; auto 7).
    pose proof (proj1 (endpoints_sound C tE tV tD tA F db K1) S1) as H1.
    destruct (proj1 (events_sound C tE tV tD tA F db K2) S2) as [H2 H3].
    destruct (proj1 (deliveries_sound C tE tV tD tA F db K1 K2 K3) S3) as (H4 & H5 & H6 & H7 & H8).
    destruct (proj1 (attempts_sound C tE tV tD tA F db K3 K4) S4) as (H9 & H10 & H11).
    by split.
Qed.
