(* ===== verification/Backfills.v ===== *)
(** The data migrations: revision 20260823_0002 computes the digest of every stored payload, revision
    20260823_0003 completes the evidence of every delivery; both downgrades restore the stored rows.

    A revision is run on a database that is sound for the catalog of the revision before.  What a
    catalog contains is computed ([catalog_fact]); what the statements do to rows is reasoned about
    for all rows. *)
From S2P Require Import Prelude PyStr Sha256 Models Sql SqlText Schema SchemaSound Migrations Metadata Revisions.
From S2P Require Import Publishing.
From Stdlib Require Import ZArith.

(** ** Running a script *)

Lemma alter_all_cons o ops C C' :
  alter_all (o :: ops) C = Done C' → ∃ C1, alter_catalog o C = Done C1 ∧ alter_all ops C1 = Done C'.
Proof. unfold alter_all. cbn [fold_result]. by intros (C1 & ? & ?)%result_bind_Done; exists C1. Qed.

Lemma exec_all_cons now C D v o ops C1 :
  alter_catalog o C = Done C1 →
  exec_all now (mkDatabase C D v) (o :: ops) =
  D1 ← alter_rows now o C C1 D; exec_all now (mkDatabase C1 D1 v) ops.
Proof.
  intros E. unfold exec_all. cbn [fold_result].
  assert (exec now (mkDatabase C D v) o = D1 ← alter_rows now o C C1 D; Done (mkDatabase C1 D1 v)) as ->.
  { unfold exec. cbn [db_catalog db_rows db_version]. by rewrite E. }
  by destruct (alter_rows now o C C1 D).
Qed.

Lemma exec_all_app now db ops1 ops2 db1 :
  exec_all now db ops1 = Done db1 → exec_all now db (ops1 ++ ops2) = exec_all now db1 ops2.
Proof. unfold exec_all. rewrite fold_result_app. by intros ->. Qed.

(** A property of the catalog after the first [k] revisions and [i] operations of the next, checked by computation. *)
Definition catalog_during (k i : nat) (ops : list op) : result catalog :=
  catalog_at k ≫= alter_all (take i ops).

Definition catalog_fact (r : result catalog) (f : catalog → bool) : bool :=
  match r with Done C => f C | Error _ => false end.

Lemma catalog_fact_Done r f C : catalog_fact r f = true → r = Done C → f C = true.
Proof. by intros H ->. Qed.

Definition table_fact (tn : string) (f : table → bool) (C : catalog) : bool :=
  from_option f false (c_tables C !! tn).

Lemma table_fact_lookup tn f C : table_fact tn f C = true → ∃ t, c_tables C !! tn = Some t ∧ f t = true.
Proof. unfold table_fact. destruct (c_tables C !! tn) as [t|]; simpl; [eauto|done]. Qed.

(** ** Cells of sound rows *)

Definition has_column (c : string) (ty : sqltype) (nullable : bool) (t : table) : bool :=
  match t_columns t !! c with
  | Some col => bool_decide (col_type col = ty) && Bool.eqb (col_nullable col) nullable
  | None => false
  end.

Lemma has_column_inv c ty nl t : has_column c ty nl t = true → ∃ d, t_columns t !! c = Some (mkColumn ty nl d).
Proof.
  unfold has_column. destruct (t_columns t !! c) as [[ty' nl' d]|]; [|done].
  intros [E1 E2]%andb_true_iff. apply bool_decide_eq_true in E1. apply eqb_prop in E2. simpl in *. subst. by exists d.
Qed.

Section sound_cells.
Context (C : catalog) (D : data) (tn : string) (t : table) (Hs : table_sound C D tn t).

Lemma cell_typed c ty nl r v : has_column c ty nl t = true → r ∈ rows D tn → r !! c = Some v → has_type (c_enums C) ty v = true.
Proof using Hs.
  intros (d & Hc)%has_column_inv Hr Hv. destruct Hs as [Hcells _].
  destruct (proj1 (cells_ok_true _ _ _) (Hcells r Hr) c v Hv) as (col & Hcol & Ht).
  rewrite Hc in Hcol. by injection Hcol as <-.
Qed.

Lemma required_cell c ty r : has_column c ty false t = true → r ∈ rows D tn →
  ∃ v, r !! c = Some v ∧ has_type (c_enums C) ty v = true.
Proof using Hs.
  intros Hh Hr. destruct (has_column_inv _ _ _ _ Hh) as [d Hc]. destruct Hs as [_ Hd].
  assert (Required c ∈ demands t) as Hin by (apply elem_of_demands; by eexists).
  apply Hd in Hin. simpl in Hin. rewrite forallb_elem in Hin. specialize (Hin r Hr).
  apply bool_decide_eq_true in Hin as [v Hv]. exists v. split; [done|]. by eapply cell_typed.
Qed.

Lemma absent_cell c r : t_columns t !! c = None → r ∈ rows D tn → r !! c = None.
Proof using Hs.
  intros Hc Hr. apply eq_None_not_Some. intros [v Hv]. destruct Hs as [Hcells _].
  destruct (proj1 (cells_ok_true _ _ _) (Hcells r Hr) c v Hv) as (col & Hcol & _). congruence.
Qed.

Lemma check_holds n e r : t_checks t !! n = Some e → r ∈ rows D tn → passes r e = true.
Proof using Hs.
  intros Hn Hr. destruct Hs as [_ Hd].
  assert (Satisfies n e ∈ demands t) as Hin by by apply elem_of_demands.
  apply Hd in Hin. simpl in Hin. rewrite forallb_elem in Hin. by apply Hin.
Qed.
End sound_cells.

(** An UPDATE that touches no column any constraint mentions passes the checks of a statement. *)
Definition unmentioned (tn : string) (cs : list string) (C : catalog) : bool :=
  forallb (λ nt, forallb (λ d,
    forallb (λ c, negb (bool_decide (nt.1 = tn) && bool_decide (c ∈ demand_columns d)) &&
                  negb (bool_decide (c ∈ referred_columns tn d))) cs) (demands nt.2)) (map_to_list (c_tables C)).

Lemma unmentioned_inv tn cs C n t d c :
  unmentioned tn cs C = true → c_tables C !! n = Some t → d ∈ demands t → c ∈ cs →
  (n = tn → c ∉ demand_columns d) ∧ c ∉ referred_columns tn d.
Proof.
  unfold unmentioned. rewrite forallb_elem. intros H Ht Hd Hc. apply elem_of_map_to_list in Ht.
  specialize (H _ Ht). rewrite forallb_elem in H. specialize (H d Hd). rewrite forallb_elem in H. specialize (H c Hc).
  apply andb_true_iff in H as [H1 H2]. apply negb_true_iff in H1, H2. apply bool_decide_eq_false in H2.
  split; [|done]. simpl in H1. intros ->. rewrite bool_decide_eq_true_2 in H1 by done.
  by apply bool_decide_eq_false in H1.
Qed.

Lemma validate_rewritten C D tn t cs h :
  sound C D → c_tables C !! tn = Some t → unmentioned tn cs C = true →
  (∀ r c, r ∈ rows D tn → c ∉ cs → h r !! c = r !! c) →
  (∀ r, r ∈ rows D tn → cells_ok (c_enums C) t (h r) = true) →
  validate C (rewritten D tn h) tn t = Done tt.
Proof.
  intros Hs Ht Hu Hh Hc.
  assert (∀ n t' d, c_tables C !! n = Some t' → d ∈ demands t' → meets (rewritten D tn h) n d = true) as Hm.
  { intros n t' d Ht' Hd. rewrite meets_rewritten; [by apply (Hs n t')|..].
    - intros -> r c Hr Hcd. apply Hh; [done|]. intros Hin.
      destruct (unmentioned_inv _ _ _ _ _ _ _ Hu Ht' Hd Hin) as [Hx _]. by apply (Hx eq_refl).
    - intros r c Hr Hcd. apply Hh; [done|]. intros Hin.
      by destruct (unmentioned_inv _ _ _ _ _ _ _ Hu Ht' Hd Hin) as [_ Hx]. }
  unfold validate. assert (forallb (cells_ok (c_enums C) t) (rows (rewritten D tn h) tn) = true) as ->.
  { rewrite rows_rewritten, bool_decide_eq_true_2 by done. apply forallb_elem.
    intros r' (r & -> & Hr)%list_elem_of_fmap. auto. }
  simpl. apply check_demands_Done. intros n d Hin. apply elem_of_app in Hin as [Hin|Hin].
  - apply list_elem_of_fmap in Hin as (d' & [= -> ->] & Hd). eauto.
  - apply elem_of_all_references in Hin as (t' & m & fk & Ht' & -> & Hm'). apply (Hm n t'); [done|].
    by apply elem_of_demands.
Qed.

(** ** 20260823_0002: digests of the stored payloads *)

(** What the revision makes of an event row. *)
Definition split_hashes (r : row) : row :=
  let r' := rename_columns "payload_sha256" "request_fingerprint_sha256" r in
  match r !! "payload_bytes" with
  | Some (VBytes b) => <["payload_sha256" := VText (sha256_hex b)]> r'
  | _ => r'
  end.

(** What is needed of the table of events before the revision. *)
Definition events_before (t : table) : bool :=
  has_column "payload_bytes" TLargeBinary false t && has_column "payload_sha256" (TString 64) false t &&
  bool_decide (t_columns t !! "request_fingerprint_sha256" = None) &&
  bool_decide (t_checks t !! "ck_events_payload_sha256_length" = Some (sql "length(payload_sha256) = 64")).

Lemma events_at_1 C : catalog_at 1 = Done C → ∃ t, c_tables C !! "events" = Some t ∧ events_before t = true.
Proof. intros HC. apply table_fact_lookup. eapply catalog_fact_Done; [|exact HC]. vm_compute. reflexivity. Qed.

Lemma passes_length c s r :
  r !! c = Some (VText s) → passes r (Cmp Eq (Length (Col c)) (Int 64)) = true ↔ length s = 64.
Proof.
  intros E. unfold passes. cbn [eval]. rewrite E. cbn -[Z.of_nat Z.eqb].
  destruct (Z.eqb_spec (Z.of_nat (length s)) 64); split; (done || lia).
Qed.

Section split_hashes.
Context (C : catalog) (D : data) (t : table) (Hs : table_sound C D "events" t) (Ht : events_before t = true).

(** The cells of an event before the revision. *)
Lemma event_cells_before r : r ∈ rows D "events" →
  ∃ b s, r !! "payload_bytes" = Some (VBytes b) ∧ r !! "payload_sha256" = Some (VText s) ∧ length s = 64 ∧
    r !! "request_fingerprint_sha256" = None.
Proof using Hs Ht.
  intros Hr. unfold events_before in Ht. rewrite !andb_true_iff, !bool_decide_eq_true in Ht. destruct Ht as [[[H1 H2] H3] H4].
  destruct (required_cell _ _ _ _ Hs _ _ _ H1 Hr) as (v & Hv & Tv). destruct v; try done.
  destruct (required_cell _ _ _ _ Hs _ _ _ H2 Hr) as (w & Hw & Tw). destruct w; try done.
  eexists _, _. split; [exact Hv|]. split; [exact Hw|]. split; [|by eapply absent_cell].
  pose proof (check_holds _ _ _ _ Hs _ _ _ H4 Hr) as Hp. by apply (passes_length _ _ _ Hw) in Hp.
Qed.

Lemma split_hashes_cells r : r ∈ rows D "events" →
  ∃ b, r !! "payload_bytes" = Some (VBytes b) ∧
  split_hashes r !! "payload_sha256" = Some (VText (sha256_hex b)) ∧
  split_hashes r !! "request_fingerprint_sha256" = r !! "payload_sha256" ∧
  ∀ c, c ≠ "payload_sha256" → c ≠ "request_fingerprint_sha256" → split_hashes r !! c = r !! c.
Proof using Hs Ht.
  intros Hr. destruct (event_cells_before r Hr) as (b & s & Hb & Hp & _ & Hn). exists b.
  unfold split_hashes, rename_columns. rewrite Hb, Hp. split_and!; [done|by rewrite lookup_insert_eq| |].
  - rewrite lookup_insert_ne by done. by rewrite lookup_insert_eq.
  - intros c H1 H2. by rewrite !lookup_insert_ne, lookup_delete_ne.
Qed.

(** The downgrade of a row. *)
Lemma split_hashes_undo r : r ∈ rows D "events" →
  rename_columns "request_fingerprint_sha256" "payload_sha256" (delete "payload_sha256" (split_hashes r)) = r.
Proof using Hs Ht.
  intros Hr. destruct (event_cells_before r Hr) as (b & s & Hb & Hp & _ & Hn).
  destruct (split_hashes_cells r Hr) as (b' & Hb' & _ & Hf & Ho).
  unfold rename_columns. rewrite lookup_delete_ne, Hf, Hp by done. apply map_eq. intros c.
  destruct (decide (c = "payload_sha256")) as [->|H1]; [by rewrite lookup_insert_eq|].
  rewrite lookup_insert_ne by done. destruct (decide (c = "request_fingerprint_sha256")) as [->|H2].
  - by rewrite lookup_delete_eq.
  - by rewrite !lookup_delete_ne, Ho.
Qed.
End split_hashes.

(** The catalog when the UPDATE runs. *)
Definition events_at_update (C : catalog) : bool :=
  unmentioned "events" ["payload_sha256"] C &&
  table_fact "events" (λ t, bool_decide (t_columns t !! "payload_sha256" = Some (mkColumn (TString 64) true None)) &&
    has_column "payload_bytes" TLargeBinary false t) C.

(** A script in two parts, with the catalogs between. *)
Lemma script_catalogs k r n C0 C2 (f : catalog → bool) :
  revisions !! k = Some r → catalog_at k = Done C0 → catalog_at (S k) = Done C2 →
  catalog_fact (catalog_during k n (rev_upgrade r)) f = true →
  catalog_fact (catalog_at k) (path_closed (take n (rev_upgrade r))) = true →
  ∃ C1, alter_all (take n (rev_upgrade r)) C0 = Done C1 ∧ alter_all (drop n (rev_upgrade r)) C1 = Done C2 ∧
    path_closed (take n (rev_upgrade r)) C0 = true ∧ f C1 = true.
Proof.
  intros Er H0 H2 Hf Hp. rewrite (catalog_at_S k r Er), H0 in H2. cbn [mbind result_bind] in H2.
  unfold catalog_during in Hf. rewrite H0 in Hf, Hp. cbn [mbind result_bind] in Hf.
  rewrite <- (take_drop n (rev_upgrade r)), alter_all_app in H2.
  destruct (alter_all (take n (rev_upgrade r)) C0) as [C1|e]; [|discriminate Hf].
  exists C1. cbn [mbind result_bind] in H2. by repeat split.
Qed.

Lemma digest_varchar b : varchar 64 (sha256_hex b) = true.
Proof. unfold varchar. rewrite sha256_hex_text, sha256_hex_length. done. Qed.

Definition rename_hash : row → row := rename_columns "payload_sha256" "request_fingerprint_sha256".

Definition write_digest (r : row) : row :=
  match r !! "payload_bytes" with Some (VBytes b) => <["payload_sha256" := VText (sha256_hex b)]> r | _ => r end.

Ltac read_sql :=
  repeat match goal with |- context [sql ?s] => let e := eval vm_compute in (sql s) in change (sql s) with e end.

Ltac run_op E := rewrite (exec_all_cons _ _ _ _ _ _ _ E); cbn [alter_rows demand_of violation].

Lemma meets_check D tn n e (h : row → row) :
  (∀ r, r ∈ rows D tn → passes (h r) e = true) → meets (rewritten D tn h) tn (Satisfies n e) = true.
Proof.
  intros H. simpl. rewrite rows_rewritten, bool_decide_eq_true_2 by done. apply forallb_elem.
  intros r' (r & -> & Hr)%list_elem_of_fmap. auto.
Qed.

Section split_upgrade.
Context (now : datetime) (C0 C4 C7 : catalog) (D : data) (v : option string) (t0 : table).
Context (Hs : sound C0 D) (Ht0 : c_tables C0 !! "events" = Some t0) (Hbefore : events_before t0 = true).
Context (Hupd : events_at_update C4 = true).

Lemma split_before_update :
  alter_all (take 4 R0002.upgrade) C0 = Done C4 →
  exec_all now (mkDatabase C0 D v) (take 4 R0002.upgrade) = Done (mkDatabase C4 (rewritten D "events" rename_hash) v).
Proof using Hs Ht0 Hbefore Hupd.
  intros Ha. cbn [take R0002.upgrade] in *.
  apply alter_all_cons in Ha as (C1 & E1 & Ha). apply alter_all_cons in Ha as (C2 & E2 & Ha).
  apply alter_all_cons in Ha as (C3 & E3 & Ha). apply alter_all_cons in Ha as (C4' & E4 & Ha). injection Ha as ->.
  run_op E1. cbn [mbind result_bind]. run_op E2. cbn [mbind result_bind]. run_op E3.
  fold rename_hash. fold (rewritten D "events" rename_hash).
  rewrite meets_check; [cbn [ensure mbind result_bind]|].
  - run_op E4. unfold events_at_update in Hupd. apply andb_true_iff in Hupd as [_ H].
    apply table_fact_lookup in H as (t & -> & H). rewrite andb_true_iff, bool_decide_eq_true in H.
    cbn [mbind option_bind]. destruct H as [-> _]. reflexivity.
  - intros r Hr. destruct (event_cells_before C0 D t0 (Hs _ _ Ht0) Hbefore r Hr) as (b & s & Hb & Hp & Hl & Hn).
    apply (passes_length _ s); [|done]. unfold rename_hash, rename_columns. by rewrite Hp, lookup_insert_eq.
Qed.

Lemma renamed_cells r : r ∈ rows D "events" →
  ∃ b, rename_hash r !! "payload_bytes" = Some (VBytes b) ∧ rename_hash r !! "payload_sha256" = None.
Proof using Hs Ht0 Hbefore.
  intros Hr. destruct (event_cells_before C0 D t0 (Hs _ _ Ht0) Hbefore r Hr) as (b & s & Hb & Hp & _ & Hn).
  exists b. unfold rename_hash, rename_columns. rewrite Hp. split.
  - by rewrite lookup_insert_ne, lookup_delete_ne.
  - by rewrite lookup_insert_ne, lookup_delete_eq.
Qed.

Lemma write_digest_renamed r : r ∈ rows D "events" → write_digest (rename_hash r) = split_hashes r.
Proof using Hs Ht0 Hbefore.
  intros Hr. destruct (renamed_cells r Hr) as (b & Hb & _). unfold write_digest, split_hashes. rewrite Hb.
  destruct (event_cells_before C0 D t0 (Hs _ _ Ht0) Hbefore r Hr) as (b' & s & Hb' & Hp & _).
  rewrite Hb'. unfold rename_hash, rename_columns in *. rewrite Hp in *.
  rewrite lookup_insert_ne, lookup_delete_ne, Hb' in Hb by done. by injection Hb as ->.
Qed.

Lemma elem_of_renamed r1 : r1 ∈ rows (rewritten D "events" rename_hash) "events" → ∃ r, r1 = rename_hash r ∧ r ∈ rows D "events".
Proof. rewrite rows_rewritten, bool_decide_eq_true_2 by done. apply list_elem_of_fmap. Qed.

(** What the UPDATE does to the renamed rows. *)
Lemma update_events t4 :
  t_columns t4 !! "payload_sha256" = Some (mkColumn (TString 64) true None) →
  (λ r, if from_option (holds r) true (Some (sql "payload_sha256 IS NULL")) then
     update_row t4 [("payload_sha256", sql "encode(sha256(payload_bytes), 'hex')")] r else r)
    <$> rows (rewritten D "events" rename_hash) "events" =
  write_digest <$> rows (rewritten D "events" rename_hash) "events".
Proof using Hs Ht0 Hbefore.
  intros Hc. apply list_fmap_ext. intros i r1 Hi. apply list_elem_of_lookup_2, elem_of_renamed in Hi as (r & -> & Hr).
  destruct (renamed_cells r Hr) as (b & Hb & Hn). read_sql.
  unfold holds, update_row, write_digest. cbn [from_option eval foldl]. rewrite Hn, Hb. cbn. by rewrite Hc.
Qed.

Lemma split_after_update :
  sound C4 (rewritten D "events" rename_hash) → alter_all (drop 4 R0002.upgrade) C4 = Done C7 →
  exec_all now (mkDatabase C4 (rewritten D "events" rename_hash) v) (drop 4 R0002.upgrade) =
  Done (mkDatabase C7 (rewritten (rewritten D "events" rename_hash) "events" write_digest) v).
Proof using Hs Ht0 Hbefore Hupd.
  intros Hs4 Ha. cbn [drop R0002.upgrade] in *.
  apply alter_all_cons in Ha as (C5 & E5 & Ha). apply alter_all_cons in Ha as (C6 & E6 & Ha).
  apply alter_all_cons in Ha as (C7' & E7 & Ha). injection Ha as ->.
  unfold events_at_update in Hupd. apply andb_true_iff in Hupd as [Hun H].
  apply table_fact_lookup in H as (t4 & Ht4 & H). rewrite andb_true_iff, bool_decide_eq_true in H. destruct H as [Hc4 _].
  run_op E5. rewrite Ht4. cbn [find mbind result_bind]. rewrite (update_events t4 Hc4).
  fold (rewritten (rewritten D "events" rename_hash) "events" write_digest).
  assert (∀ r1, r1 ∈ rows (rewritten D "events" rename_hash) "events" →
    ∃ b, write_digest r1 = <["payload_sha256" := VText (sha256_hex b)]> r1) as Hw.
  { intros r1 (r & -> & Hr)%elem_of_renamed. destruct (renamed_cells r Hr) as (b & Hb & _).
    exists b. unfold write_digest. by rewrite Hb. }
  rewrite (validate_rewritten C4 _ "events" t4 ["payload_sha256"]); [|done..| |].
  - cbn [mbind result_bind]. run_op E6. cbn [orb].
    assert (∀ c, meets (rewritten (rewritten D "events" rename_hash) "events" write_digest) "events" c = true → ensure
      (meets (rewritten (rewritten D "events" rename_hash) "events" write_digest) "events" c) (violation c) = Done tt) as Hen
      by (intros c ->; done).
    rewrite Hen; [cbn [mbind result_bind]|].
    + run_op E7. rewrite Hen; [reflexivity|]. read_sql. apply meets_check. intros r1 Hr1.
      destruct (Hw r1 Hr1) as [b ->]. apply (passes_length _ (sha256_hex b)); [by rewrite lookup_insert_eq|].
      apply sha256_hex_length.
    + simpl. rewrite rows_rewritten, bool_decide_eq_true_2 by done. apply forallb_elem.
      intros r2 (r1 & -> & Hr1)%list_elem_of_fmap. apply bool_decide_eq_true.
      destruct (Hw r1 Hr1) as [b ->]. by rewrite lookup_insert_eq.
  - intros r1 c Hr1 Hc. destruct (Hw r1 Hr1) as [b ->]. apply lookup_insert_ne. set_solver.
  - intros r1 Hr1. destruct (Hw r1 Hr1) as [b ->]. apply cells_ok_true. intros c x.
    intros [[<- <-]|[Hne Hx]]%lookup_insert_Some; [eexists; split; [exact Hc4|]; apply digest_varchar|].
    by apply (proj1 (cells_ok_true _ _ _) (proj1 (Hs4 _ _ Ht4) r1 Hr1)).
Qed.
End split_upgrade.

Lemma rows_rewritten_twice D tn h1 h2 :
  rows (rewritten (rewritten D tn h1) tn h2) tn = h2 ∘ h1 <$> rows D tn.
Proof. rewrite !rows_rewritten, bool_decide_eq_true_2 by done. by rewrite list_fmap_compose. Qed.

Lemma rows_rewritten_ne D tn h n : n ≠ tn → rows (rewritten D tn h) n = rows D n.
Proof. intros Hn. by rewrite rows_rewritten, bool_decide_eq_false_2, list_fmap_id. Qed.

Lemma split_downgrade now C7 C0 D D2 v t0 :
  table_sound C0 D "events" t0 → events_before t0 = true →
  rows D2 "events" = split_hashes <$> rows D "events" → alter_all R0002.downgrade C7 = Done C0 →
  ∃ D', exec_all now (mkDatabase C7 D2 v) R0002.downgrade = Done (mkDatabase C0 D' v) ∧
    rows D' "events" = rows D "events" ∧ ∀ n, n ≠ "events" → rows D' n = rows D2 n.
Proof.
  intros Hs Hb H2 Ha. unfold R0002.downgrade in *.
  apply alter_all_cons in Ha as (C1 & E1 & Ha). apply alter_all_cons in Ha as (C2 & E2 & Ha).
  apply alter_all_cons in Ha as (C3 & E3 & Ha). apply alter_all_cons in Ha as (C4 & E4 & Ha).
  apply alter_all_cons in Ha as (C5 & E5 & Ha). injection Ha as ->.
  run_op E1. cbn [mbind result_bind]. run_op E2. cbn [mbind result_bind]. fold (rewritten D2 "events" (delete "payload_sha256")).
  run_op E3. cbn [mbind result_bind]. run_op E4. cbn [mbind result_bind].
  fold (rewritten (rewritten D2 "events" (delete "payload_sha256")) "events"
    (rename_columns "request_fingerprint_sha256" "payload_sha256")).
  set (D4 := rewritten (rewritten D2 "events" _) "events" _).
  assert (rows D4 "events" = rows D "events") as HD4.
  { unfold D4. rewrite rows_rewritten_twice, H2, <- list_fmap_compose.
    rewrite <- (list_fmap_id (rows D "events")) at 2. apply list_fmap_ext. intros i r Hi.
    apply (split_hashes_undo C0 D t0); [done..|]. by apply list_elem_of_lookup_2 in Hi. }
  run_op E5. exists D4. split_and!; [|done|].
  - assert (meets D4 "events" (Satisfies "ck_events_payload_sha256_length" (sql "length(payload_sha256) = 64")) = true) as ->;
      [|reflexivity].
    simpl. rewrite HD4, forallb_elem. intros r Hr. read_sql.
    destruct (event_cells_before C0 D t0 Hs Hb r Hr) as (b & s & _ & Hp & Hl & _). by apply (passes_length _ s).
  - intros n Hn. unfold D4. by rewrite !rows_rewritten_ne.
Qed.

(** C20: revision 0002 on any database that is sound for revision 0001 succeeds: every event gets in
    payload_sha256 the SHA-256 digest of its stored payload bytes, its old hash moves unchanged to
    request_fingerprint_sha256, and nothing else changes; the downgrade gives back the catalog and
    the rows as they were. *)
Theorem payload_digests_backfilled now now' db :
  db_version db = Some "20260823_0001" → catalog_at 1 = Done (db_catalog db) → sound (db_catalog db) (db_rows db) →
  ∃ db1, upgrade_one now db = Done db1 ∧ db_version db1 = Some "20260823_0002" ∧
    rows (db_rows db1) "events" = split_hashes <$> rows (db_rows db) "events" ∧
    (∀ n, n ≠ "events" → rows (db_rows db1) n = rows (db_rows db) n) ∧
    (∀ r, r ∈ rows (db_rows db) "events" → ∃ b, r !! "payload_bytes" = Some (VBytes b) ∧
      split_hashes r !! "payload_sha256" = Some (VText (sha256_hex b)) ∧
      split_hashes r !! "request_fingerprint_sha256" = r !! "payload_sha256" ∧
      ∀ c, c ≠ "payload_sha256" → c ≠ "request_fingerprint_sha256" → split_hashes r !! c = r !! c) ∧
    ∃ db2, downgrade_one now' db1 = Done db2 ∧ db_version db2 = db_version db ∧ db_catalog db2 = db_catalog db ∧
      ∀ n, rows (db_rows db2) n = rows (db_rows db) n.
Proof.
  destruct db as [C0 D v]. simpl. intros -> HC0 Hs.
  set (r := mkRevision "20260823_0002" (Some "20260823_0001") R0002.upgrade R0002.downgrade).
  assert (revisions !! 1 = Some r) as Er by reflexivity.
  assert (∃ C7, catalog_at 2 = Done C7) as [C7 HC7].
  { assert (catalog_fact (catalog_at 2) (λ _, true) = true) as Hx by (vm_compute; reflexivity).
    destruct (catalog_at 2) as [C7|e]; [by exists C7|discriminate Hx]. }
  destruct (script_catalogs 1 r 4 C0 C7 events_at_update Er HC0 HC7) as (C4 & Ha1 & Ha2 & Hp & Hf);
    [vm_compute; reflexivity|vm_compute; reflexivity|].
  pose proof (downgrade_catalog 1 r Er) as Hdown. rewrite HC7, HC0 in Hdown. cbn [mbind result_bind] in Hdown.
  destruct (events_at_1 C0 HC0) as (t0 & Ht0 & Hb). clear HC0 HC7. pose proof (Hs _ _ Ht0) as Hs0.
  pose proof (split_before_update now C0 C4 D (Some "20260823_0001") t0 Hs Ht0 Hb Hf Ha1) as X1.
  assert (sound C4 (rewritten D "events" rename_hash)) as Hs4 by exact (exec_all_sound now _ (mkDatabase C0 D _) (mkDatabase C4 _ _) Hp Hs X1).
  pose proof (split_after_update now C0 C4 C7 D (Some "20260823_0001") t0 Hs Ht0 Hb Hf Hs4 Ha2) as X2.
  set (D2 := rewritten (rewritten D "events" rename_hash) "events" write_digest) in *.
  assert (rows D2 "events" = split_hashes <$> rows D "events") as HD2.
  { unfold D2. rewrite rows_rewritten_twice. apply list_fmap_ext. intros i x Hi. apply list_elem_of_lookup_2 in Hi.
    by apply (write_digest_renamed C0 D t0). }
  exists (mkDatabase C7 D2 (Some "20260823_0002")). split_and!; [|done|done| | |].
  - unfold upgrade_one. change (next_revision _) with (Some r). cbn [rev_upgrade r].
    rewrite <- (take_drop 4 R0002.upgrade), (exec_all_app _ _ _ _ _ X1), X2. reflexivity.
  - intros n Hn. cbn [db_rows]. unfold D2. by rewrite !rows_rewritten_ne.
  - intros x Hx. by apply (split_hashes_cells C0 D t0).
  - destruct (split_downgrade now' C7 C0 D D2 (Some "20260823_0002") t0 Hs0 Hb HD2 Hdown) as (D' & X3 & R1 & R2).
    exists (mkDatabase C0 D' (Some "20260823_0001")). split_and!; [|done|done|].
    + unfold downgrade_one. change (current_revision _) with (Some r). cbn [rev_downgrade r]. rewrite X3. reflexivity.
    + intros n. cbn [db_rows]. destruct (decide (n = "events")) as [->|Hn]; [done|].
      rewrite R2 by done. unfold D2. by rewrite !rows_rewritten_ne.
Qed.
