(* ===== verification/Ledger.v ===== *)
(** Revision 20260823_0003: every attempt that was stored becomes a completed one, every active lease
    without evidence gets its attempt, and the downgrade restores the rows.

    [complete_row] and [reserve_row] are what the two statements of the revision do to a row;
    [deployable] is what the stored rows have to satisfy for the revision to succeed. *)
From S2P Require Import Prelude PyStr Models Sql SqlText Schema SchemaSound Migrations Metadata Revisions Backfills.
From Stdlib Require Import ZArith.

#[export] Instance demand_eq_dec : EqDecision demand.
Proof. solve_decision. Defined.

Abbreviation attempts_table := "delivery_attempts".
Abbreviation deliveries_table := "deliveries".

(** A column that is none of some others. *)
Ltac not_in := refine (bool_decide_unpack _ _); vm_compute; exact I.

(** ** The statements on rows *)

Definition status_value (s : pystr) : value := VEnum R0003.attempt_status s.

(** UPDATE delivery_attempts SET status = 'completed', lease_token = id, resolved_at = created_at *)
Definition complete_row (r : row) : row :=
  match r !! "id", r !! "created_at" with
  | Some i, Some c => <["resolved_at" := c]> (<["lease_token" := i]> (<["status" := status_value (lit "completed")]> r))
  | _, _ => r
  end.

(** The attempt reserved for a leased delivery. *)
Definition reserve_row (d : row) : row :=
  set_cell "created_at" (d !! "updated_at") (set_cell "lease_token" (d !! "lease_token")
    (set_cell "status" (Some (status_value (lit "in_progress"))) (set_cell "attempt_number" (d !! "attempt_count")
      (set_cell "delivery_id" (d !! "id") (set_cell "id" (d !! "lease_token") ∅))))).

Definition leased (d : row) : bool := holds d (sql "status = 'in_progress' AND lease_token IS NOT NULL").

(** A leased delivery whose current attempt has no row. *)
Definition unrecorded (attempts : list row) (d : row) : bool :=
  leased d && no_match [("delivery_id", "id"); ("attempt_number", "attempt_count")] attempts d.

Definition reserved (D : data) : list row :=
  filter (λ d, unrecorded (rows D attempts_table) d = true) (rows D deliveries_table).

(** The state of the leases that the old workers leave behind. *)
Record deployable (D : data) : Prop := {
  dp_leases : ∀ d, d ∈ rows D deliveries_table →
    passes d (sql "(status = 'in_progress') = (lease_owner IS NOT NULL)") = true;
  dp_counted : ∀ d, d ∈ reserved D → ∃ n, d !! "attempt_count" = Some (VInt n) ∧ (1 ≤ n)%Z;
  dp_fresh : ∀ d a, d ∈ reserved D → a ∈ rows D attempts_table → a !! "id" ≠ d !! "lease_token";
  dp_distinct : NoDup ((λ d, d !! "lease_token") <$> reserved D)
}.

(** ** Catalogs on the way *)

Definition attempts_before (t : table) : bool :=
  has_column "id" TUuid false t && has_column "delivery_id" TUuid false t && has_column "attempt_number" TInteger false t &&
  has_column "created_at" TDateTime false t && has_column "disposition" (TEnum "delivery_disposition") false t &&
  has_column "duration_ms" TInteger false t && has_column "request_timestamp" TBigInteger false t &&
  has_column "started_at" TDateTime false t && has_column "finished_at" TDateTime false t &&
  bool_decide (t_columns t !! "status" = None) && bool_decide (t_columns t !! "lease_token" = None) &&
  bool_decide (t_columns t !! "resolved_at" = None) && bool_decide (t_primary t = Some ("pk_delivery_attempts", ["id"])).

Definition deliveries_before (t : table) : bool :=
  has_column "id" TUuid false t && has_column "attempt_count" TInteger false t && has_column "updated_at" TDateTime false t &&
  has_column "status" (TEnum "delivery_status") false t && has_column "lease_token" TUuid true t &&
  bool_decide (t_primary t = Some ("pk_deliveries", ["id"])).

(** What the table of attempts demands while the statements run. *)
Definition attempt_demands : list demand :=
  [Required "id"; Required "delivery_id"; Required "attempt_number"; Required "created_at";
   Satisfies "ck_delivery_attempts_attempt_number_positive" (sql "attempt_number >= 1");
   Satisfies "ck_delivery_attempts_duration_ms_nonnegative" (sql "duration_ms >= 0");
   Satisfies "ck_delivery_attempts_request_timestamp_nonnegative" (sql "request_timestamp >= 0");
   Satisfies "ck_delivery_attempts_http_status_code_valid" (sql "http_status_code IS NULL OR http_status_code BETWEEN 100 AND 599");
   Satisfies "ck_delivery_attempts_timestamps_ordered" (sql "finished_at >= started_at");
   Unique "pk_delivery_attempts" ["id"] None;
   Unique "uq_delivery_attempts_delivery_id_attempt_number" ["delivery_id"; "attempt_number"] None;
   References "fk_delivery_attempts_delivery_id_deliveries"
     (mkForeignKey ["delivery_id"] "deliveries" ["id"] CASCADE)].

Definition attempts_at_statements (t : table) : bool :=
  bool_decide (t_columns t !! "status" = Some (mkColumn (TEnum R0003.attempt_status) true None)) &&
  bool_decide (t_columns t !! "lease_token" = Some (mkColumn TUuid true None)) &&
  bool_decide (t_columns t !! "resolved_at" = Some (mkColumn TDateTime true None)) &&
  bool_decide (t_columns t !! "id" = Some (mkColumn TUuid false None)) &&
  bool_decide (t_columns t !! "delivery_id" = Some (mkColumn TUuid false None)) &&
  bool_decide (t_columns t !! "attempt_number" = Some (mkColumn TInteger false None)) &&
  bool_decide (t_columns t !! "created_at" = Some (mkColumn TDateTime false (Some DNow))) &&
  bool_decide (omap col_default (t_columns t) = {["created_at" := DNow]}) &&
  forallb (λ d, bool_decide (d ∈ attempt_demands)) (demands t).

(** No foreign key refers to the attempts. *)
Definition unreferred (C : catalog) : bool :=
  forallb (λ p, match p.2 with References _ fk => negb (bool_decide (fk_table fk = attempts_table)) | _ => true end)
    (all_references C).

Definition ledger_at_statements (C : catalog) : bool :=
  unmentioned attempts_table ["status"; "lease_token"; "resolved_at"] C &&
  bool_decide (c_enums C !! R0003.attempt_status = Some R0003.attempt_status_labels) &&
  unreferred C &&
  table_fact attempts_table attempts_at_statements C.

Lemma ledger_facts :
  catalog_fact (catalog_at 2) (table_fact attempts_table attempts_before) = true ∧
  catalog_fact (catalog_at 2) (table_fact deliveries_table deliveries_before) = true ∧
  catalog_fact (catalog_during 2 9 R0003.upgrade) ledger_at_statements = true ∧
  catalog_fact (catalog_at 2) (path_closed (take 9 R0003.upgrade)) = true.
Proof. split_and!; vm_compute; reflexivity. Qed.

Lemma ledger_after : ∃ C, catalog_at 3 = Done C ∧ unreferred C = true.
Proof.
  assert (catalog_fact (catalog_at 3) unreferred = true) as Hx by (vm_compute; reflexivity).
  destruct (catalog_at 3) as [C|e]; [by exists C|discriminate Hx].
Qed.

Lemma no_references_inv C : unreferred C = true →
  ∀ tn n fk, (tn, References n fk) ∈ all_references C → fk_table fk ≠ attempts_table.
Proof.
  unfold unreferred. rewrite forallb_elem. intros H tn n fk Hin. specialize (H _ Hin). simpl in H.
  apply negb_true_iff in H. by apply bool_decide_eq_false in H.
Qed.

Lemma add_plain_column now tn c ty C C' D :
  alter_catalog (add_column tn (Column c ty None true)) C = Done C' →
  alter_rows now (add_column tn (Column c ty None true)) C C' D = Done D.
Proof.
  intros H. cbn [alter_catalog] in H. done_inv H. injection H as <-. cbn [add_column_to] in E0. done_inv E0. injection E0 as <-.
  cbn [alter_rows put_table c_tables]. rewrite lookup_insert_eq. cbn [mbind option_bind set_columns t_columns].
  by rewrite lookup_insert_eq.
Qed.

Lemma statement_catalog o C C' :
  match o with execute_update _ _ _ | execute_insert_select _ _ _ _ _ _ | execute_delete _ _ => true | _ => false end = true →
  alter_catalog o C = Done C' → C' = C.
Proof. destruct o; try done; intros _ H; cbn [alter_catalog] in H; done_inv H; by injection H. Qed.

(** Nothing is done to the rows before the statements. *)
Lemma ledger_before_statements now C0 C9 D v :
  alter_all (take 9 R0003.upgrade) C0 = Done C9 →
  exec_all now (mkDatabase C0 D v) (take 9 R0003.upgrade) = Done (mkDatabase C9 D v).
Proof.
  intros Ha. unfold R0003.upgrade, R0003.completed_columns in *. cbn [app map take] in *.
  apply alter_all_cons in Ha as (C1 & E1 & Ha). rewrite (exec_all_cons _ _ _ _ _ _ _ E1). cbn [alter_rows mbind result_bind].
  do 3 (let C := fresh "C" in let E := fresh "E" in apply alter_all_cons in Ha as (C & E & Ha);
    rewrite (exec_all_cons _ _ _ _ _ _ _ E), (add_plain_column _ _ _ _ _ _ _ E); cbn [mbind result_bind]).
  do 5 (let C := fresh "C" in let E := fresh "E" in apply alter_all_cons in Ha as (C & E & Ha);
    rewrite (exec_all_cons _ _ _ _ _ _ _ E); cbn [alter_rows orb ensure mbind result_bind]).
  by injection Ha as ->.
Qed.

(** ** Cells before the revision *)

Section ledger.
Context (C0 C9 : catalog) (D : data) (t0 d0 t9 : table).
Context (Hs0 : sound C0 D) (Ht0 : c_tables C0 !! attempts_table = Some t0) (Hb0 : attempts_before t0 = true)
  (Hd0 : c_tables C0 !! deliveries_table = Some d0) (Hbd : deliveries_before d0 = true).
Context (Hs9 : sound C9 D) (Ht9 : c_tables C9 !! attempts_table = Some t9) (H9 : attempts_at_statements t9 = true)
  (Hun : unmentioned attempts_table ["status"; "lease_token"; "resolved_at"] C9 = true)
  (Henum : c_enums C9 !! R0003.attempt_status = Some R0003.attempt_status_labels)
  (Hrefs : ∀ tn n fk, (tn, References n fk) ∈ all_references C9 → fk_table fk ≠ attempts_table).

Lemma attempt_before r : r ∈ rows D attempts_table →
  ∃ i dl n c, r !! "id" = Some (VUuid i) ∧ r !! "delivery_id" = Some (VUuid dl) ∧
    r !! "attempt_number" = Some (VInt n) ∧ r !! "created_at" = Some (VTime c) ∧
    r !! "status" = None ∧ r !! "lease_token" = None ∧ r !! "resolved_at" = None ∧
    ∀ x, x ∈ R0003.completed_columns → is_Some (r !! x).
Proof using Hs0 Ht0 Hb0.
  intros Hr. pose proof (Hs0 _ _ Ht0) as Hs. unfold attempts_before in Hb0.
  rewrite !andb_true_iff, !bool_decide_eq_true in Hb0.
  destruct Hb0 as [[[[[[[[[[[[B1 B2] B3] B4] B5] B6] B7] B8] B9] N1] N2] N3] _].
  destruct (required_cell _ _ _ _ Hs _ _ _ B1 Hr) as ([] & V1 & T1); try done.
  destruct (required_cell _ _ _ _ Hs _ _ _ B2 Hr) as ([] & V2 & T2); try done.
  destruct (required_cell _ _ _ _ Hs _ _ _ B3 Hr) as ([] & V3 & T3); try done.
  destruct (required_cell _ _ _ _ Hs _ _ _ B4 Hr) as ([] & V4 & T4); try done.
  eexists _, _, _, _. split; [exact V1|]. split; [exact V2|]. split; [exact V3|]. split; [exact V4|].
  split; [by eapply absent_cell|]. split; [by eapply absent_cell|]. split; [by eapply absent_cell|].
  intros x Hx. unfold R0003.completed_columns in Hx. rewrite !elem_of_cons, elem_of_nil in Hx.
  destruct Hx as [->|[->|[->|[->|[->|[]]]]]];
    [destruct (required_cell _ _ _ _ Hs _ _ _ B5 Hr) as (? & ? & _)|destruct (required_cell _ _ _ _ Hs _ _ _ B6 Hr) as (? & ? & _)
    |destruct (required_cell _ _ _ _ Hs _ _ _ B7 Hr) as (? & ? & _)|destruct (required_cell _ _ _ _ Hs _ _ _ B8 Hr) as (? & ? & _)
    |destruct (required_cell _ _ _ _ Hs _ _ _ B9 Hr) as (? & ? & _)]; by eexists.
Qed.

Lemma delivery_before d : d ∈ rows D deliveries_table →
  ∃ i n u, d !! "id" = Some (VUuid i) ∧ d !! "attempt_count" = Some (VInt n) ∧ int4 n = true ∧
    d !! "updated_at" = Some (VTime u) ∧ (∀ v, d !! "lease_token" = Some v → ∃ tok, v = VUuid tok).
Proof using Hs0 Hd0 Hbd.
  intros Hr. pose proof (Hs0 _ _ Hd0) as Hs. unfold deliveries_before in Hbd.
  rewrite !andb_true_iff in Hbd. destruct Hbd as [[[[[B1 B2] B3] B4] B5] _].
  destruct (required_cell _ _ _ _ Hs _ _ _ B1 Hr) as ([] & V1 & T1); try done.
  destruct (required_cell _ _ _ _ Hs _ _ _ B2 Hr) as ([] & V2 & T2); try done.
  destruct (required_cell _ _ _ _ Hs _ _ _ B3 Hr) as ([] & V3 & T3); try done.
  eexists _, _, _. split; [exact V1|]. split; [exact V2|]. split; [exact T2|]. split; [exact V3|].
  intros v Hv. pose proof (cell_typed _ _ _ _ Hs _ _ _ _ _ B5 Hr Hv) as Tv. destruct v; try done. eauto.
Qed.

Lemma deliveries_distinct : NoDup (omap (key_of ["id"]) (rows D deliveries_table)).
Proof using Hs0 Hd0 Hbd.
  unfold deliveries_before in Hbd. rewrite !andb_true_iff, bool_decide_eq_true in Hbd. destruct Hbd as [_ Hp].
  destruct (Hs0 _ _ Hd0) as [_ Hd].
  assert (Unique "pk_deliveries" ["id"] None ∈ demands d0) as Hin by (apply elem_of_demands; by left).
  apply Hd in Hin. simpl in Hin. unfold unique_on in Hin. by apply bool_decide_eq_true in Hin.
Qed.

(** ** The UPDATE *)

Lemma complete_row_cells r : r ∈ rows D attempts_table →
  complete_row r !! "status" = Some (status_value (lit "completed")) ∧ complete_row r !! "lease_token" = r !! "id" ∧
  complete_row r !! "resolved_at" = r !! "created_at" ∧
  ∀ c, c ∉ ["status"; "lease_token"; "resolved_at"] → complete_row r !! c = r !! c.
Proof using Hs0 Ht0 Hb0.
  intros Hr. destruct (attempt_before r Hr) as (i & dl & n & c & V1 & _ & _ & V4 & _).
  unfold complete_row. rewrite V1, V4. split_and!.
  - rewrite !lookup_insert_ne by done. by rewrite lookup_insert_eq.
  - rewrite !lookup_insert_ne by done. by rewrite lookup_insert_eq.
  - by rewrite lookup_insert_eq.
  - intros x Hx. rewrite !elem_of_cons in Hx. rewrite !lookup_insert_ne; [done|intros <-; apply Hx; auto..].
Qed.

Lemma update_attempts :
  (λ r, if from_option (holds r) true None then update_row t9
     [("status", sql "'completed'"); ("lease_token", sql "id"); ("resolved_at", sql "created_at")] r else r)
    <$> rows D attempts_table = complete_row <$> rows D attempts_table.
Proof using Hs0 Ht0 Hb0 H9.
  apply list_fmap_ext. intros i r Hi. apply list_elem_of_lookup_2 in Hi.
  destruct (attempt_before r Hi) as (id & dl & n & c & V1 & _ & _ & V4 & _).
  unfold attempts_at_statements in H9. rewrite !andb_true_iff, !bool_decide_eq_true in H9.
  destruct H9 as [[[[[[[[B1 B2] B3] _] _] _] _] _] _].
  read_sql. unfold update_row, complete_row. cbn [from_option foldl eval].
  rewrite V1, V4, B1, B2, B3. reflexivity.
Qed.

Lemma complete_cells_ok r : r ∈ rows D attempts_table → cells_ok (c_enums C9) t9 (complete_row r) = true.
Proof using Hs0 Ht0 Hb0 Hs9 Ht9 H9 Henum.
  intros Hr. destruct (attempt_before r Hr) as (i & dl & n & c & V1 & _ & _ & V4 & _).
  unfold attempts_at_statements in H9. rewrite !andb_true_iff, !bool_decide_eq_true in H9.
  destruct H9 as [[[[[[[[B1 B2] B3] _] _] _] _] _] _].
  apply cells_ok_true. unfold complete_row. rewrite V1, V4. intros x v Hv.
  apply lookup_insert_Some in Hv as [[<- <-]|[_ Hv]]; [eexists; split; [exact B3|done]|].
  apply lookup_insert_Some in Hv as [[<- <-]|[_ Hv]]; [eexists; split; [exact B2|done]|].
  apply lookup_insert_Some in Hv as [[<- <-]|[_ Hv]]; [eexists; split; [exact B1|]|].
  - unfold status_value. cbn [has_type col_type]. rewrite Henum. vm_compute. reflexivity.
  - by apply (proj1 (cells_ok_true _ _ _) (proj1 (Hs9 _ _ Ht9) r Hr)).
Qed.

Definition completed : data := rewritten D attempts_table complete_row.

Lemma validate_completed : validate C9 completed attempts_table t9 = Done tt.
Proof using Hs0 Ht0 Hb0 Hs9 Ht9 H9 Hun Henum.
  apply (validate_rewritten C9 D attempts_table t9 ["status"; "lease_token"; "resolved_at"]); [done..| |exact complete_cells_ok].
  intros r c Hr Hc. by apply complete_row_cells.
Qed.

Lemma sound_completed : sound C9 completed.
Proof using Hs0 Ht0 Hb0 Hs9 Ht9 H9 Hun Henum.
  apply (sound_validated C9 D attempts_table t9); [done..|]. exact validate_completed.
Qed.

Lemma rows_completed : rows completed attempts_table = complete_row <$> rows D attempts_table.
Proof. unfold completed. by rewrite rows_rewritten, bool_decide_eq_true_2. Qed.

Lemma rows_completed_ne n : n ≠ attempts_table → rows completed n = rows D n.
Proof. intros Hn. unfold completed. by rewrite rows_rewritten_ne. Qed.

(** ** The INSERT *)

Definition preserved_cells : list (string * expr) :=
  zip ["id"; "delivery_id"; "attempt_number"; "status"; "lease_token"; "created_at"]
    [sql "lease_token"; sql "id"; sql "attempt_count"; sql "'in_progress'"; sql "lease_token"; sql "updated_at"].

Lemma no_match_completed d :
  no_match [("delivery_id", "id"); ("attempt_number", "attempt_count")] (rows completed attempts_table) d =
  no_match [("delivery_id", "id"); ("attempt_number", "attempt_count")] (rows D attempts_table) d.
Proof using Hs0 Ht0 Hb0.
  unfold no_match. rewrite rows_completed. apply forallb_map. intros r Hr.
  destruct (complete_row_cells r Hr) as (_ & _ & _ & Ho). cbn [forallb].
  by rewrite !Ho by (rewrite !elem_of_cons, elem_of_nil; naive_solver).
Qed.

Lemma chosen_reserved :
  filter (λ d, holds d (sql "status = 'in_progress' AND lease_token IS NOT NULL") &&
    no_match [("delivery_id", "id"); ("attempt_number", "attempt_count")] (rows completed attempts_table) d = true)
    (rows completed deliveries_table) = reserved D.
Proof using Hs0 Ht0 Hb0.
  unfold reserved, unrecorded, leased. rewrite (rows_completed_ne deliveries_table) by done.
  apply list_filter_iff. intros d. by rewrite no_match_completed.
Qed.

(** The cells of a leased delivery and of its attempt. *)
Lemma reserve_row_cells d : d ∈ reserved D →
  d ∈ rows D deliveries_table ∧ unrecorded (rows D attempts_table) d = true ∧
  ∃ tok i n u, d !! "lease_token" = Some (VUuid tok) ∧ d !! "id" = Some (VUuid i) ∧ d !! "attempt_count" = Some (VInt n) ∧
    int4 n = true ∧ d !! "updated_at" = Some (VTime u) ∧
    reserve_row d = <["created_at" := VTime u]> (<["lease_token" := VUuid tok]> (
      <["status" := status_value (lit "in_progress")]> (<["attempt_number" := VInt n]> (
      <["delivery_id" := VUuid i]> (<["id" := VUuid tok]> ∅))))).
Proof using Hs0 Hd0 Hbd.
  intros [Hu Hd]%list_elem_of_filter. split; [done|]. split; [done|].
  destruct (delivery_before d Hd) as (i & n & u & V1 & V2 & T2 & V3 & Htok).
  unfold unrecorded in Hu. apply andb_true_iff in Hu as [Hl _].
  destruct (d !! "lease_token") as [v|] eqn:E.
  - destruct (Htok v eq_refl) as [tok ->]. exists tok, i, n, u. split_and!; try done.
    unfold reserve_row. by rewrite V1, V2, V3, E.
  - exfalso. unfold leased, holds in Hl.
    let e := eval vm_compute in (sql "status = 'in_progress' AND lease_token IS NOT NULL") in
      change (sql "status = 'in_progress' AND lease_token IS NOT NULL") with e in Hl.
    cbn [eval] in Hl. rewrite E in Hl. destruct (d !! "status") as [[]|]; cbn in Hl; try done;
      by case_bool_decide.
Qed.

Lemma insert_preserved now d : d ∈ reserved D → insert_row now t9 preserved_cells d = reserve_row d.
Proof using Hs0 Hd0 Hbd H9.
  intros Hd. destruct (reserve_row_cells d Hd) as (_ & _ & tok & i & n & u & V1 & V2 & V3 & _ & V4 & ->).
  unfold attempts_at_statements in H9. rewrite !andb_true_iff, !bool_decide_eq_true in H9.
  destruct H9 as [[[[[[[[B1 B2] B3] B4] B5] B6] B7] B8] _].
  assert (omap (λ col, default_cell now <$> col_default col) (t_columns t9) = {["created_at" := VTime now]}) as Hdef.
  { transitivity (default_cell now <$> omap col_default (t_columns t9)).
    - apply map_eq. intros c. rewrite lookup_fmap, !lookup_omap. by destruct (t_columns t9 !! c).
    - rewrite B8. by rewrite map_fmap_singleton. }
  unfold insert_row, preserved_cells. read_sql. cbn [zip zip_with foldl eval]. rewrite V1, V2, V3, V4, B1, B2, B4, B5, B6, B7, Hdef.
  cbn [store set_cell from_option id]. apply map_eq. intros c.
  do 6 match goal with
  | |- <[?k := _]> _ !! c = _ =>
      destruct (decide (c = k)) as [->|?]; [by rewrite !lookup_insert_eq|rewrite !(lookup_insert_ne _ k c) by congruence]
  end.
  by rewrite lookup_singleton_ne, lookup_empty by congruence.
Qed.

Definition ledger_rows : list row := (complete_row <$> rows D attempts_table) ++ (reserve_row <$> reserved D).

Lemma inserted_rows now :
  rows completed attempts_table ++ (insert_row now t9 preserved_cells <$>
    filter (λ d, holds d (sql "status = 'in_progress' AND lease_token IS NOT NULL") &&
      no_match [("delivery_id", "id"); ("attempt_number", "attempt_count")] (rows completed attempts_table) d = true)
      (rows completed deliveries_table)) = ledger_rows.
Proof using Hs0 Ht0 Hb0 Hd0 Hbd H9.
  rewrite chosen_reserved, rows_completed. unfold ledger_rows. f_equal.
  apply list_fmap_ext. intros k d Hd. apply insert_preserved. by apply list_elem_of_lookup_2 in Hd.
Qed.

(** ** The rows after both statements *)

Context (Hdep : deployable D).

Definition ledger : data := <[attempts_table := ledger_rows]> completed.

Lemma rows_ledger : rows ledger attempts_table = ledger_rows.
Proof. unfold ledger. by rewrite rows_insert_eq. Qed.

Lemma rows_ledger_ne n : n ≠ attempts_table → rows ledger n = rows D n.
Proof. intros Hn. unfold ledger. rewrite rows_insert_ne by done. by apply rows_completed_ne. Qed.

Lemma elem_of_ledger_rows r : r ∈ ledger_rows →
  (∃ a, a ∈ rows D attempts_table ∧ r = complete_row a) ∨ (∃ d, d ∈ reserved D ∧ r = reserve_row d).
Proof. unfold ledger_rows. rewrite elem_of_app, !list_elem_of_fmap. naive_solver. Qed.

(** The identifier of a row of the ledger is its lease token. *)
Lemma ledger_token r : r ∈ ledger_rows → ∃ i, r !! "id" = Some (VUuid i) ∧ r !! "lease_token" = Some (VUuid i).
Proof using Hs0 Ht0 Hb0 Hd0 Hbd.
  intros [(a & Ha & ->)|(d & Hd & ->)]%elem_of_ledger_rows.
  - destruct (attempt_before a Ha) as (i & _ & _ & _ & V1 & _).
    destruct (complete_row_cells a Ha) as (_ & -> & _ & ->); [by exists i|not_in].
  - destruct (reserve_row_cells d Hd) as (_ & _ & tok & i & n & u & _ & _ & _ & _ & _ & ->). by exists tok.
Qed.

Lemma key_of_uuid c r i : r !! c = Some (VUuid i) → key_of [c] r = Some [VUuid i].
Proof. intros E. unfold key_of. simpl. by rewrite E. Qed.

Lemma omap_key_complete cols : (∀ c, c ∈ cols → c ∉ ["status"; "lease_token"; "resolved_at"]) →
  omap (key_of cols) (complete_row <$> rows D attempts_table) = omap (key_of cols) (rows D attempts_table).
Proof using Hs0 Ht0 Hb0.
  intros Hc. apply omap_map. intros r Hr. apply key_of_ext. intros c Hin. apply (complete_row_cells r Hr). auto.
Qed.

(** Keys of the two parts that never meet stay unique. *)
Lemma unique_ledger cols :
  NoDup (omap (key_of cols) (complete_row <$> rows D attempts_table)) →
  NoDup (omap (key_of cols) (reserve_row <$> reserved D)) →
  (∀ a d k, a ∈ rows D attempts_table → d ∈ reserved D → key_of cols (complete_row a) = Some k →
     key_of cols (reserve_row d) ≠ Some k) →
  unique_on cols None ledger_rows = true.
Proof.
  intros H1 H2 H3. unfold unique_on, ledger_rows. apply bool_decide_eq_true.
  change (NoDup (omap (key_of cols) ((complete_row <$> rows D attempts_table) ++ (reserve_row <$> reserved D)))).
  rewrite omap_app. apply NoDup_app.
  split; [done|]. split; [|done].
  intros k (r & (a & -> & Ha)%list_elem_of_fmap & Ek)%list_elem_of_omap
    (r' & (d & -> & Hd)%list_elem_of_fmap & Ek')%list_elem_of_omap. by eapply H3.
Qed.

Lemma reserved_tokens_distinct : NoDup (omap (key_of ["id"]) (reserve_row <$> reserved D)).
Proof using Hs0 Hd0 Hbd Hdep.
  pose proof (dp_distinct D Hdep) as Hn.
  assert (∀ l : list row, (∀ d, d ∈ l → d ∈ reserved D) →
    (λ v, from_option (λ x, [x]) [] v) <$> ((λ d, d !! "lease_token") <$> l) = omap (key_of ["id"]) (reserve_row <$> l)) as E.
  { induction l as [|d l IH]; intros Hl; [done|]. rewrite !fmap_cons. cbn [omap list_omap].
    destruct (reserve_row_cells d) as (_ & _ & tok & i & n & u & V1 & _ & _ & _ & _ & E); [apply Hl; left|].
    rewrite V1. assert (key_of ["id"] (reserve_row d) = Some [VUuid tok]) as -> by (by rewrite E).
    f_equal. apply IH. intros d' Hd'. apply Hl. by right. }
  rewrite <- (E (reserved D)) by done. apply NoDup_fmap_2_strong; [|done].
  intros x y (d & -> & Hd)%list_elem_of_fmap (d' & -> & Hd')%list_elem_of_fmap.
  destruct (reserve_row_cells d Hd) as (_ & _ & tok & _ & _ & _ & -> & _).
  destruct (reserve_row_cells d' Hd') as (_ & _ & tok' & _ & _ & _ & -> & _). simpl. congruence.
Qed.

(** Each leased delivery appears once. *)
Lemma reserved_deliveries_distinct : NoDup (omap (key_of ["delivery_id"]) (reserve_row <$> reserved D)).
Proof using Hs0 Hd0 Hbd.
  assert (omap (key_of ["delivery_id"]) (reserve_row <$> reserved D) = omap (key_of ["id"]) (reserved D)) as ->.
  { apply omap_map. intros d Hd. destruct (reserve_row_cells d Hd) as (_ & _ & tok & i & n & u & _ & V2 & _ & _ & _ & ->).
    by rewrite (key_of_uuid "id" d i V2). }
  eapply sublist_NoDup; [exact deliveries_distinct|]. unfold reserved. apply omap_filter_sublist.
Qed.

Lemma reserved_attempts_distinct : NoDup (omap (key_of ["delivery_id"; "attempt_number"]) (reserve_row <$> reserved D)).
Proof using Hs0 Hd0 Hbd.
  pose proof reserved_deliveries_distinct as Hn. revert Hn.
  assert (∀ d, d ∈ reserved D → ∃ i n, key_of ["delivery_id"] (reserve_row d) = Some [VUuid i] ∧
    key_of ["delivery_id"; "attempt_number"] (reserve_row d) = Some [VUuid i; VInt n]) as Hk.
  { intros d Hd. destruct (reserve_row_cells d Hd) as (_ & _ & tok & i & n & u & _ & _ & _ & _ & _ & ->). by exists i, n. }
  revert Hk. generalize (reserved D). induction l as [|d l IH]; intros Hk Hn; [done|]. rewrite fmap_cons in *.
  cbn [omap list_omap] in Hn |- *.
  destruct (Hk d) as (i & n & E1 & E2); [left|]. rewrite E1 in Hn. rewrite E2. apply NoDup_cons in Hn as [Hni Hn].
  apply NoDup_cons. split; [|apply IH; [intros d' Hd'; apply Hk; by right|done]].
  intros (r & (d' & -> & Hd')%list_elem_of_fmap & E)%list_elem_of_omap. apply Hni.
  destruct (Hk d') as (i' & n' & E1' & E2'); [by right|]. rewrite E2' in E. injection E as -> _.
  apply list_elem_of_omap. exists (reserve_row d'). split; [|done]. apply list_elem_of_fmap. by exists d'.
Qed.

Lemma ledger_ids_unique : unique_on ["id"] None ledger_rows = true.
Proof using Hs0 Ht0 Hb0 Hd0 Hbd Hdep.
  apply unique_ledger.
  - rewrite omap_key_complete by (intros c ->%list_elem_of_singleton; not_in).
    unfold attempts_before in Hb0. rewrite !andb_true_iff, !bool_decide_eq_true in Hb0. destruct Hb0 as [_ Hp].
    destruct (Hs0 _ _ Ht0) as [_ Hd].
    assert (Unique "pk_delivery_attempts" ["id"] None ∈ demands t0) as Hin by (apply elem_of_demands; by left).
    apply Hd in Hin. simpl in Hin. unfold unique_on in Hin. by apply bool_decide_eq_true in Hin.
  - exact reserved_tokens_distinct.
  - intros a d k Ha Hd E E'. destruct (attempt_before a Ha) as (i & _ & _ & _ & V1 & _).
    destruct (complete_row_cells a Ha) as (_ & _ & _ & Ho).
    destruct (reserve_row_cells d Hd) as (_ & _ & tok & j & n & u & V & _ & _ & _ & _ & Er).
    rewrite (key_of_uuid "id" _ i) in E by (rewrite Ho; [done|not_in]). rewrite Er in E'.
    assert (Some [VUuid tok] = Some k) as E'' by exact E'. apply (dp_fresh D Hdep d a Hd Ha). congruence.
Qed.

Lemma ledger_attempts_unique : Unique "uq_delivery_attempts_delivery_id_attempt_number" ["delivery_id"; "attempt_number"] None ∈ demands t9 →
  unique_on ["delivery_id"; "attempt_number"] None ledger_rows = true.
Proof using Hs0 Ht0 Hb0 Hd0 Hbd Hs9 Ht9.
  intros Hin. apply unique_ledger.
  - rewrite omap_key_complete by (intros c; rewrite !elem_of_cons, elem_of_nil; intros [->|[->|[]]]; not_in).
    destruct (Hs9 _ _ Ht9) as [_ Hd]. apply Hd in Hin. simpl in Hin. unfold unique_on in Hin. by apply bool_decide_eq_true in Hin.
  - exact reserved_attempts_distinct.
  - intros a d k Ha Hd E E'. destruct (attempt_before a Ha) as (_ & dl & m & _ & _ & V2 & V3 & _).
    destruct (complete_row_cells a Ha) as (_ & _ & _ & Ho).
    destruct (reserve_row_cells d Hd) as (_ & Hu & tok & j & n & u & V & W1 & W2 & _ & _ & Er).
    unfold key_of in E. cbn [mapM] in E. rewrite !Ho, V2, V3 in E by not_in. rewrite Er in E'.
    assert (Some [VUuid j; VInt n] = Some k) as E2 by exact E'. assert (Some [VUuid dl; VInt m] = Some k) as E1 by exact E.
    rewrite <- E2 in E1.
    unfold unrecorded, no_match in Hu. apply andb_true_iff in Hu as [_ Hu]. rewrite forallb_elem in Hu.
    specialize (Hu a Ha). cbn [forallb] in Hu. rewrite V2, V3, W1, W2 in Hu.
    assert (dl = j ∧ m = n) as [-> ->] by (split; congruence).
    rewrite !bool_decide_eq_true_2 in Hu by done. done.
Qed.

Lemma reserve_cells_ok d : d ∈ reserved D → cells_ok (c_enums C9) t9 (reserve_row d) = true.
Proof using Hs0 Hd0 Hbd H9 Henum.
  intros Hd. destruct (reserve_row_cells d Hd) as (_ & _ & tok & i & n & u & _ & _ & _ & Tn & _ & ->).
  unfold attempts_at_statements in H9. rewrite !andb_true_iff, !bool_decide_eq_true in H9.
  destruct H9 as [[[[[[[[B1 B2] _] B4] B5] B6] B7] _] _].
  apply cells_ok_true. intros x v Hv.
  apply lookup_insert_Some in Hv as [[<- <-]|[_ Hv]]; [eexists; split; [exact B7|done]|].
  apply lookup_insert_Some in Hv as [[<- <-]|[_ Hv]]; [eexists; split; [exact B2|done]|].
  apply lookup_insert_Some in Hv as [[<- <-]|[_ Hv]].
  { eexists; split; [exact B1|]. unfold status_value. cbn [has_type col_type]. rewrite Henum. vm_compute. reflexivity. }
  apply lookup_insert_Some in Hv as [[<- <-]|[_ Hv]]; [eexists; split; [exact B6|exact Tn]|].
  apply lookup_insert_Some in Hv as [[<- <-]|[_ Hv]]; [eexists; split; [exact B5|done]|].
  apply lookup_insert_Some in Hv as [[<- <-]|[_ Hv]]; [eexists; split; [exact B4|done]|].
  by rewrite lookup_empty in Hv.
Qed.

(** The conditions on the columns that only a completed attempt fills are unknown, and pass. *)
Lemma reserve_passes d n e : d ∈ reserved D → Satisfies n e ∈ attempt_demands → passes (reserve_row d) e = true.
Proof using Hs0 Hd0 Hbd Hdep.
  intros Hd Hin. destruct (reserve_row_cells d Hd) as (_ & _ & tok & i & m & u & _ & _ & V3 & _ & _ & ->).
  destruct (dp_counted D Hdep d Hd) as (m' & V3' & Hm). rewrite V3 in V3'. injection V3' as <-.
  unfold attempt_demands in Hin. rewrite !elem_of_cons, elem_of_nil in Hin.
  destruct_or! Hin; try done; injection Hin as -> ->; read_sql; try (vm_compute; reflexivity).
  unfold passes. cbn [eval].
  replace (_ !! "attempt_number") with (Some (VInt m)) by reflexivity.
  cbn -[Z.leb]. by rewrite (proj2 (Z.leb_le 1 m) Hm).
Qed.

Lemma reserve_required d c : d ∈ reserved D → Required c ∈ attempt_demands → is_Some (reserve_row d !! c).
Proof using Hs0 Hd0 Hbd.
  intros Hd Hin. destruct (reserve_row_cells d Hd) as (_ & _ & tok & i & m & u & _ & _ & _ & _ & _ & ->).
  unfold attempt_demands in Hin. rewrite !elem_of_cons, elem_of_nil in Hin.
  destruct_or! Hin; try done; injection Hin as ->; eexists; reflexivity.
Qed.

Lemma demand_listed dm : dm ∈ demands t9 → dm ∈ attempt_demands.
Proof using H9.
  unfold attempts_at_statements in H9. apply andb_true_iff in H9 as [_ H]. rewrite forallb_elem in H.
  intros Hd. specialize (H dm Hd). by apply bool_decide_eq_true in H.
Qed.

Lemma ledger_meets dm : dm ∈ demands t9 → meets ledger attempts_table dm = true.
Proof using Hs0 Ht0 Hb0 Hd0 Hbd Hs9 Ht9 H9 Hun Henum Hdep.
  intros Hd. pose proof (demand_listed dm Hd) as Hl.
  destruct (sound_completed _ _ Ht9) as [_ Hold]. specialize (Hold dm Hd).
  assert (∀ f : row → bool, forallb f (rows completed attempts_table) = true → (∀ d, d ∈ reserved D → f (reserve_row d) = true) →
    forallb f ledger_rows = true) as Happ.
  { intros f H1 H2. unfold ledger_rows. rewrite rows_completed in H1. rewrite forallb_app, H1. apply forallb_elem.
    intros r (d & -> & Hr)%list_elem_of_fmap. auto. }
  destruct dm as [c|n e|n cols cond|n fk]; simpl in *; rewrite rows_ledger.
  - apply Happ; [done|]. intros d Hr. apply bool_decide_eq_true. by apply reserve_required.
  - apply Happ; [done|]. intros d Hr. by apply (reserve_passes d n e).
  - unfold attempt_demands in Hl. rewrite !elem_of_cons, elem_of_nil in Hl.
    destruct_or! Hl; try done; injection Hl as -> -> ->; [exact ledger_ids_unique|by apply ledger_attempts_unique].
  - unfold attempt_demands in Hl. rewrite !elem_of_cons, elem_of_nil in Hl.
    destruct_or! Hl; try done; injection Hl as -> ->. apply Happ.
    + rewrite forallb_elem in *. intros r Hr. specialize (Hold r Hr). unfold refers in *. simpl in *.
      rewrite rows_ledger_ne by done. rewrite rows_completed_ne in Hold by done. exact Hold.
    + intros d Hr. destruct (reserve_row_cells d Hr) as (Hin & _ & tok & i & m & u & _ & W & _ & _ & _ & E).
      unfold refers. assert (key_of ["delivery_id"] (reserve_row d) = Some [VUuid i]) as Hk by (by rewrite E).
      cbn [fk_columns fk_table fk_referred]. rewrite Hk, rows_ledger_ne by done. apply bool_decide_eq_true.
      apply list_elem_of_omap. exists d. split; [done|]. by apply key_of_uuid.
Qed.

Lemma validate_ledger : validate C9 ledger attempts_table t9 = Done tt.
Proof using Hs0 Ht0 Hb0 Hd0 Hbd Hs9 Ht9 H9 Hun Henum Hrefs Hdep.
  unfold validate. assert (forallb (cells_ok (c_enums C9) t9) (rows ledger attempts_table) = true) as ->.
  { rewrite rows_ledger. apply forallb_elem. intros r [(a & Ha & ->)|(d & Hd & ->)]%elem_of_ledger_rows;
      [by apply complete_cells_ok|by apply reserve_cells_ok]. }
  cbn [ensure mbind result_bind]. apply check_demands_Done. intros n dm Hin. apply elem_of_app in Hin as [Hin|Hin].
  - apply list_elem_of_fmap in Hin as (d' & [= -> ->] & Hd). by apply ledger_meets.
  - pose proof Hin as Hin'. apply elem_of_all_references in Hin as (t' & m & fk & Ht' & -> & Hm).
    destruct (decide (n = attempts_table)) as [->|Hn].
    + rewrite Ht9 in Ht'. injection Ht' as <-. apply ledger_meets. by apply elem_of_demands.
    + rewrite (meets_other D); [|by apply rows_ledger_ne|].
      * apply (Hs9 _ _ Ht'). by apply elem_of_demands.
      * intros m' fk' [= <- <-]. apply rows_ledger_ne. by apply (Hrefs n m).
Qed.

(** ** The constraints of the ledger *)

Lemma ledger_status r : r ∈ ledger_rows →
  (∃ a, a ∈ rows D attempts_table ∧ r = complete_row a ∧ r !! "status" = Some (status_value (lit "completed"))) ∨
  (∃ d, d ∈ reserved D ∧ r = reserve_row d ∧ r !! "status" = Some (status_value (lit "in_progress"))).
Proof using Hs0 Ht0 Hb0 Hd0 Hbd.
  intros [(a & Ha & ->)|(d & Hd & ->)]%elem_of_ledger_rows; [left|right].
  - exists a. split; [done|]. split; [done|]. by apply complete_row_cells.
  - exists d. split; [done|]. split; [done|].
    destruct (reserve_row_cells d Hd) as (_ & _ & tok & i & n & u & _ & _ & _ & _ & _ & ->). reflexivity.
Qed.

Lemma ledger_tokens_unique : unique_on ["delivery_id"; "lease_token"] None ledger_rows = true.
Proof using Hs0 Ht0 Hb0 Hd0 Hbd Hdep.
  pose proof ledger_ids_unique as Hu. unfold unique_on in *. apply bool_decide_eq_true in Hu. apply bool_decide_eq_true.
  change (NoDup (omap (key_of ["id"]) ledger_rows)) in Hu. change (NoDup (omap (key_of ["delivery_id"; "lease_token"]) ledger_rows)).
  pose proof ledger_token as Ht. revert Hu Ht. generalize ledger_rows. induction l as [|r l IH]; intros Hu Ht; [done|].
  cbn [omap list_omap] in *. destruct (Ht r) as (i & Hi & Htok); [left|]. rewrite (key_of_uuid "id" r i Hi) in Hu.
  apply NoDup_cons in Hu as [Hni Hu].
  assert (NoDup (omap (key_of ["delivery_id"; "lease_token"]) l)) as Hl by (apply IH; [done|intros x Hx; apply Ht; by right]).
  unfold key_of at 1. cbn [mapM]. rewrite Htok. destruct (r !! "delivery_id") as [dl|]; [|done].
  apply NoDup_cons. split; [|done]. intros (r' & Hr' & E)%list_elem_of_omap.
  destruct (Ht r') as (j & Hj & Htok'); [by right|]. unfold key_of in E. cbn [mapM] in E. rewrite Htok' in E.
  destruct (r' !! "delivery_id") as [dl'|]; [|done]. cbn in E. injection E as -> ->.
  apply Hni. apply list_elem_of_omap. exists r'. split; [done|]. by apply key_of_uuid.
Qed.

Lemma ledger_one_in_progress : unique_on ["delivery_id"] (Some (sql "status = 'in_progress'")) ledger_rows = true.
Proof using Hs0 Ht0 Hb0 Hd0 Hbd.
  unfold unique_on, ledger_rows. apply bool_decide_eq_true. read_sql. rewrite omap_app.
  assert (∀ r s, r !! "status" = Some (status_value s) → ∀ e, e = Cmp Eq (Col "status") (Str (lit "in_progress")) →
    index_key ["delivery_id"] (Some e) r = if bool_decide (s = lit "in_progress") then key_of ["delivery_id"] r else None) as Hk.
  { intros r s E e ->. unfold index_key, holds. cbn [from_option eval]. rewrite E. cbn -[lit]. by case_bool_decide. }
  match goal with |- NoDup (omap (index_key _ (Some ?e)) _ ++ _) =>
    assert (∀ l : list row, (∀ r, r ∈ l → r !! "status" = Some (status_value (lit "completed"))) →
      omap (index_key ["delivery_id"] (Some e)) l = []) as Hnone;
    [|assert (omap (index_key ["delivery_id"] (Some e)) (reserve_row <$> reserved D) =
       omap (key_of ["delivery_id"]) (reserve_row <$> reserved D)) as ->] end.
  - induction l as [|r l IH]; intros Hl; [done|]. cbn [omap list_omap].
    rewrite (Hk r (lit "completed")) by (done || (apply Hl; left)). apply IH. intros x Hx. apply Hl. by right.
  - rewrite <- (list_fmap_id (reserve_row <$> reserved D)) at 1. apply omap_map. intros r (d & -> & Hd)%list_elem_of_fmap.
    apply (Hk _ (lit "in_progress")); [|done].
    destruct (reserve_row_cells d Hd) as (_ & _ & tok & i & n & u & _ & _ & _ & _ & _ & ->). reflexivity.
  - rewrite Hnone; [exact reserved_deliveries_distinct|]. intros r (a & -> & Ha)%list_elem_of_fmap. by apply complete_row_cells.
Qed.

Lemma ledger_lifecycle r : r ∈ ledger_rows → passes r (sql R0003.lifecycle_fields) = true.
Proof using Hs0 Ht0 Hb0 Hd0 Hbd.
  unfold R0003.lifecycle_fields. read_sql. intros [(a & Ha & ->)|(d & Hd & ->)]%elem_of_ledger_rows.
  - destruct (complete_row_cells a Ha) as (Hst & _ & Hres & Ho).
    destruct (attempt_before a Ha) as (_ & _ & _ & c & _ & _ & _ & V4 & _ & _ & _ & Hfull).
    unfold passes. cbn [eval]. rewrite Hst, Hres, V4, !Ho by not_in.
    destruct (Hfull "disposition") as [? ->]; [not_in|]. destruct (Hfull "duration_ms") as [? ->]; [not_in|].
    destruct (Hfull "request_timestamp") as [? ->]; [not_in|]. destruct (Hfull "started_at") as [? ->]; [not_in|].
    destruct (Hfull "finished_at") as [? ->]; [not_in|].
    cbn [mbind option_bind].
    repeat match goal with |- context [is_null (a !! ?c)] => generalize (is_null (a !! c)); intros [] end; reflexivity.
  - destruct (reserve_row_cells d Hd) as (_ & _ & tok & i & n & u & _ & _ & _ & _ & _ & ->). vm_compute. reflexivity.
Qed.

Lemma ledger_filled c : c ∈ ["status"; "lease_token"] → meets ledger attempts_table (Required c) = true.
Proof using Hs0 Ht0 Hb0 Hd0 Hbd.
  intros Hc. unfold meets. rewrite rows_ledger. apply forallb_elem. intros r Hr. apply bool_decide_eq_true.
  rewrite !elem_of_cons, elem_of_nil in Hc. destruct Hc as [->|[->|[]]].
  - destruct (ledger_status r Hr) as [(a & _ & _ & ->)|(d & _ & _ & ->)]; by eexists.
  - destruct (ledger_token r Hr) as (i & _ & ->). by eexists.
Qed.

Lemma ledger_leases : meets ledger deliveries_table
  (Satisfies "ck_deliveries_lease_matches_status" (sql "(status = 'in_progress') = (lease_owner IS NOT NULL)")) = true.
Proof using Hdep. unfold meets. rewrite rows_ledger_ne by done. apply forallb_elem. exact (dp_leases D Hdep). Qed.

Lemma ledger_constraints :
  meets ledger attempts_table (Unique "uq_delivery_attempts_delivery_id_lease_token" ["delivery_id"; "lease_token"] None) = true ∧
  meets ledger attempts_table
    (Unique "uq_delivery_attempts_one_in_progress" ["delivery_id"] (Some (sql "status = 'in_progress'"))) = true ∧
  meets ledger attempts_table (Satisfies "ck_delivery_attempts_lifecycle_fields" (sql R0003.lifecycle_fields)) = true.
Proof using Hs0 Ht0 Hb0 Hd0 Hbd Hdep.
  unfold meets. rewrite rows_ledger. split; [exact ledger_tokens_unique|]. split; [exact ledger_one_in_progress|].
  apply forallb_elem. exact ledger_lifecycle.
Qed.

Lemma ledger_statements now C5 v :
  alter_all (drop 9 R0003.upgrade) C9 = Done C5 →
  exec_all now (mkDatabase C9 D v) (drop 9 R0003.upgrade) = Done (mkDatabase C5 ledger v).
Proof using Hs0 Ht0 Hb0 Hd0 Hbd Hs9 Ht9 H9 Hun Henum Hrefs Hdep.
  unfold R0003.upgrade. cbn [app map drop R0003.completed_columns]. intros Ha.
  apply alter_all_cons in Ha as (C & E & Ha). rewrite (exec_all_cons _ _ _ _ _ _ _ E).
  pose proof (statement_catalog R0003.complete_existing _ _ eq_refl E) as ->. clear E. unfold R0003.complete_existing. cbn [alter_rows].
  rewrite Ht9. cbn [find mbind result_bind]. rewrite update_attempts. fold (rewritten D attempts_table complete_row). fold completed.
  rewrite validate_completed. cbn [mbind result_bind].
  apply alter_all_cons in Ha as (C & E & Ha). rewrite (exec_all_cons _ _ _ _ _ _ _ E).
  pose proof (statement_catalog R0003.preserve_leases _ _ eq_refl E) as ->. clear E. unfold R0003.preserve_leases. cbn [alter_rows].
  rewrite Ht9. cbn [find mbind result_bind]. fold preserved_cells. rewrite inserted_rows. fold ledger.
  rewrite validate_ledger. cbn [mbind result_bind].
  do 2 (let C := fresh "C" in let E := fresh "E" in apply alter_all_cons in Ha as (C & E & Ha);
    rewrite (exec_all_cons _ _ _ _ _ _ _ E); cbn [alter_rows orb]; rewrite ledger_filled by not_in; cbn [ensure mbind result_bind]).
  do 1 (let C := fresh "C" in let E := fresh "E" in apply alter_all_cons in Ha as (C & E & Ha);
    rewrite (exec_all_cons _ _ _ _ _ _ _ E); cbn [alter_rows mbind result_bind]).
  pose proof ledger_constraints as (M1 & M2 & M3).
  do 4 (let C := fresh "C" in let E := fresh "E" in apply alter_all_cons in Ha as (C & E & Ha);
    rewrite (exec_all_cons _ _ _ _ _ _ _ E); cbn [alter_rows demand_of negb orb];
    first [rewrite M1|rewrite M2|rewrite M3|rewrite ledger_leases]; cbn [ensure mbind result_bind]).
  by injection Ha as ->.
Qed.

(** ** The downgrade *)

Lemma ledger_kept :
  filter (λ r, holds r (sql "status != 'completed'") = false) ledger_rows = complete_row <$> rows D attempts_table.
Proof using Hs0 Ht0 Hb0 Hd0 Hbd.
  unfold ledger_rows. read_sql. rewrite filter_app.
  assert (∀ r l, r !! "status" = Some (status_value l) → holds r (Cmp Ne (Col "status") (Str (lit "completed"))) =
    negb (bool_decide (l = lit "completed"))) as Hh.
  { intros r l E. unfold holds. cbn [eval]. rewrite E. cbn -[lit]. by case_bool_decide. }
  rewrite (filter_none _ (reserve_row <$> _)), (filter_all _ (complete_row <$> _)); [by rewrite app_nil_r| |].
  - intros r (a & -> & Ha)%list_elem_of_fmap. rewrite (Hh _ (lit "completed")); [reflexivity|]. by apply complete_row_cells.
  - intros r (d & -> & Hd)%list_elem_of_fmap.
    destruct (reserve_row_cells d Hd) as (_ & _ & tok & i & n & u & _ & _ & _ & _ & _ & ->).
    rewrite (Hh _ (lit "in_progress")) by reflexivity. by vm_compute.
Qed.

(** What the deletion leaves, and what the dropped columns leave of it. *)
Lemma ledger_undo r : r ∈ rows D attempts_table →
  delete "status" (delete "lease_token" (delete "resolved_at" (complete_row r))) = r.
Proof using Hs0 Ht0 Hb0.
  intros Hr. destruct (complete_row_cells r Hr) as (_ & _ & _ & Ho).
  destruct (attempt_before r Hr) as (_ & _ & _ & _ & _ & _ & _ & _ & N1 & N2 & N3 & _).
  apply map_eq. intros c.
  destruct (decide (c = "status")) as [->|H1]; [by rewrite lookup_delete_eq|rewrite lookup_delete_ne by congruence].
  destruct (decide (c = "lease_token")) as [->|H2]; [by rewrite lookup_delete_eq|rewrite lookup_delete_ne by congruence].
  destruct (decide (c = "resolved_at")) as [->|H3]; [by rewrite lookup_delete_eq|rewrite lookup_delete_ne by congruence].
  apply Ho. rewrite !elem_of_cons, elem_of_nil. naive_solver.
Qed.

Section ledger_downgrade.
Context (C5 : catalog) (Hs5 : sound C5 ledger)
  (Hrefs5 : ∀ tn n fk, (tn, References n fk) ∈ all_references C5 → fk_table fk ≠ attempts_table).

Definition kept : data := <[attempts_table := complete_row <$> rows D attempts_table]> ledger.

Lemma kept_references : check_demands kept (all_references C5) = Done tt.
Proof using Hs5 Hrefs5.
  apply check_demands_Done. intros n dm Hin. pose proof Hin as Hin'.
  apply elem_of_all_references in Hin as (t & m & fk & Ht & -> & Hm). pose proof (Hrefs5 _ _ _ Hin') as Hne.
  assert (meets ledger n (References m fk) = true) as Hold by (apply (Hs5 _ _ Ht); by apply elem_of_demands).
  unfold meets in *. rewrite forallb_elem in *. intros r Hr.
  assert (r ∈ rows ledger n) as Hr'.
  { unfold kept in Hr. destruct (decide (n = attempts_table)) as [->|Hn]; [|by rewrite rows_insert_ne in Hr].
    rewrite rows_insert_eq in Hr. rewrite rows_ledger. unfold ledger_rows. apply elem_of_app. by left. }
  specialize (Hold r Hr'). unfold refers, kept in *. by rewrite rows_insert_ne.
Qed.

Lemma kept_filled c : c ∈ R0003.completed_columns → meets kept attempts_table (Required c) = true.
Proof using Hs0 Ht0 Hb0.
  intros Hc. unfold meets, kept. rewrite rows_insert_eq. apply forallb_elem. intros r (a & -> & Ha)%list_elem_of_fmap.
  apply bool_decide_eq_true. destruct (complete_row_cells a Ha) as (_ & _ & _ & ->).
  - destruct (attempt_before a Ha) as (_ & _ & _ & _ & _ & _ & _ & _ & _ & _ & _ & Hfull). auto.
  - unfold R0003.completed_columns in Hc. rewrite !elem_of_cons, elem_of_nil in Hc.
    destruct Hc as [->|[->|[->|[->|[->|[]]]]]]; not_in.
Qed.

Lemma ledger_downgrade now C' v :
  alter_all R0003.downgrade C5 = Done C' →
  ∃ D', exec_all now (mkDatabase C5 ledger v) R0003.downgrade = Done (mkDatabase C' D' v) ∧ ∀ n, rows D' n = rows D n.
Proof using Hs0 Ht0 Hb0 Hd0 Hbd Hs5 Hrefs5.
  unfold R0003.downgrade. cbn [app map R0003.completed_columns]. intros Ha.
  apply alter_all_cons in Ha as (C & E & Ha). rewrite (exec_all_cons _ _ _ _ _ _ _ E). cbn [alter_rows].
  rewrite rows_ledger, ledger_kept. fold kept. rewrite kept_references. cbn [mbind result_bind].
  do 4 (let C := fresh "C" in let E := fresh "E" in apply alter_all_cons in Ha as (C & E & Ha);
    rewrite (exec_all_cons _ _ _ _ _ _ _ E); cbn [alter_rows mbind result_bind]).
  do 5 (let C := fresh "C" in let E := fresh "E" in apply alter_all_cons in Ha as (C & E & Ha);
    rewrite (exec_all_cons _ _ _ _ _ _ _ E); cbn [alter_rows orb]; rewrite kept_filled by not_in; cbn [ensure mbind result_bind]).
  do 4 (let C := fresh "C" in let E := fresh "E" in apply alter_all_cons in Ha as (C & E & Ha);
    rewrite (exec_all_cons _ _ _ _ _ _ _ E); cbn [alter_rows mbind result_bind]).
  injection Ha as ->. eexists. split; [reflexivity|]. intros n.
  destruct (decide (n = attempts_table)) as [->|Hn].
  - rewrite !rows_insert_eq. unfold kept. rewrite rows_insert_eq, <- !list_fmap_compose.
    rewrite <- (list_fmap_id (rows D attempts_table)) at 2. apply list_fmap_ext. intros i r Hr.
    apply list_elem_of_lookup_2 in Hr. exact (ledger_undo r Hr).
  - rewrite !rows_insert_ne by done. unfold kept. rewrite rows_insert_ne by done. by apply rows_ledger_ne.
Qed.
End ledger_downgrade.
End ledger.

(** C14: revision 0003 on any database that is sound for revision 0002 and whose leases are consistent
    succeeds: every stored attempt becomes completed, with its own id as lease token and resolved when
    it was created; every leased delivery whose current attempt has no row gets one that is in
    progress under the token of its lease; no other table changes.  The downgrade deletes those and
    gives back the catalog and every row as it was. *)
Theorem leases_survive_the_ledger now now' db :
  db_version db = Some "20260823_0002" → catalog_at 2 = Done (db_catalog db) → sound (db_catalog db) (db_rows db) →
  deployable (db_rows db) →
  ∃ db1, upgrade_one now db = Done db1 ∧ db_version db1 = Some "20260823_0003" ∧
    rows (db_rows db1) attempts_table =
      (complete_row <$> rows (db_rows db) attempts_table) ++ (reserve_row <$> reserved (db_rows db)) ∧
    (∀ n, n ≠ attempts_table → rows (db_rows db1) n = rows (db_rows db) n) ∧
    ∃ db2, downgrade_one now' db1 = Done db2 ∧ db_version db2 = db_version db ∧ db_catalog db2 = db_catalog db ∧
      ∀ n, rows (db_rows db2) n = rows (db_rows db) n.
Proof.
  destruct db as [C0 D v]. simpl. intros -> HC0 Hs Hdep.
  set (r := mkRevision "20260823_0003" (Some "20260823_0002") R0003.upgrade R0003.downgrade).
  assert (revisions !! 2 = Some r) as Er by reflexivity.
  destruct ledger_facts as (F1 & F2 & F3 & F4). destruct ledger_after as (C5 & HC5 & F5).
  destruct (script_catalogs 2 r 9 C0 C5 ledger_at_statements Er HC0 HC5 F3 F4) as (C9 & Ha1 & Ha2 & Hp & Hf).
  pose proof (downgrade_catalog 2 r Er) as Hdown. rewrite HC5, HC0 in Hdown. cbn [mbind result_bind] in Hdown.
  pose proof (catalog_fact_Done _ _ _ F1 HC0) as (t0 & Ht0 & Hb0)%table_fact_lookup.
  pose proof (catalog_fact_Done _ _ _ F2 HC0) as (d0 & Hd0 & Hbd)%table_fact_lookup.
  pose proof (upgrade_path_closed 2 r C0 Er HC0) as Hpath. clear F1 F2 F3 F4 HC0 HC5.
  unfold ledger_at_statements in Hf. rewrite !andb_true_iff, bool_decide_eq_true in Hf. destruct Hf as [[[Hun Henum] Hrefs] Ht9].
  apply table_fact_lookup in Ht9 as (t9 & Ht9 & H9). pose proof (no_references_inv _ Hrefs) as Hrefs'.
  pose proof (ledger_before_statements now C0 C9 D (Some "20260823_0002") Ha1) as X1.
  assert (sound C9 D) as Hs9 by exact (exec_all_sound now _ (mkDatabase C0 D _) (mkDatabase C9 D _) Hp Hs X1).
  pose proof (ledger_statements C0 C9 D t0 d0 t9 Hs Ht0 Hb0 Hd0 Hbd Hs9 Ht9 H9 Hun Henum Hrefs' Hdep now C5 (Some "20260823_0002") Ha2) as X2.
  assert (exec_all now (mkDatabase C0 D (Some "20260823_0002")) R0003.upgrade = Done (mkDatabase C5 (ledger D) (Some "20260823_0002"))) as X.
  { by rewrite <- (take_drop 9 R0003.upgrade), (exec_all_app _ _ _ _ _ X1), X2. }
  assert (sound C5 (ledger D)) as Hs5 by exact (exec_all_sound now _ (mkDatabase C0 D _) (mkDatabase C5 _ _) Hpath Hs X).
  exists (mkDatabase C5 (ledger D) (Some "20260823_0003")). split_and!; [|done|by apply rows_ledger|intros n Hn; by apply rows_ledger_ne|].
  - unfold upgrade_one. change (next_revision _) with (Some r). cbn [rev_upgrade r]. rewrite X. reflexivity.
  - destruct (ledger_downgrade C0 D t0 d0 Hs Ht0 Hb0 Hd0 Hbd C5 Hs5 (no_references_inv _ F5) now' C0 (Some "20260823_0003") Hdown)
      as (D' & X3 & HD').
    exists (mkDatabase C0 D' (Some "20260823_0002")). split_and!; [|done|done|exact HD'].
    unfold downgrade_one. change (current_revision _) with (Some r). cbn [rev_downgrade r]. rewrite X3. reflexivity.
Qed.
