(* ===== verification/MigrationExamples.v ===== *)
(** The data of tests/integration/test_migrations.py at revision 20260823_0001, its way to the head
    and back, and the data migrations applied to it. *)
From S2P Require Import Prelude PyStr Json Decoding Sha256 Models Sql SqlText Schema SchemaSound Migrations Metadata Revisions Backfills Ledger.
From Stdlib Require Import ZArith.

(** ** Checking soundness by computation *)

Definition soundb (C : catalog) (D : data) : bool :=
  forallb (λ nt, forallb (cells_ok (c_enums C) nt.2) (rows D nt.1) && forallb (meets D nt.1) (demands nt.2))
    (map_to_list (c_tables C)).

Lemma soundb_sound C D : soundb C D = true → sound C D.
Proof.
  unfold soundb. rewrite forallb_elem. intros H tn t Ht. apply elem_of_map_to_list in Ht.
  specialize (H _ Ht). apply andb_true_iff in H as [H1 H2]. rewrite forallb_elem in H1. rewrite forallb_elem in H2. by split.
Qed.

(** ** The seed of the test *)

Definition at_noon (seconds micros : Z) : value := VTime ((1787486400 + seconds) * 1000000 + micros)%Z.

Definition ENDPOINT_ID : N := 257.
Definition EVENT_ID : N := 258.
Definition COMPLETED_DELIVERY_ID : N := 259.
Definition LEASED_DELIVERY_ID : N := 260.
Definition COMPLETED_ATTEMPT_ID : N := 261.
Definition ACTIVE_LEASE_TOKEN : N := 262.

Definition CREATED_AT := at_noon 0 0.
Definition ATTEMPT_STARTED_AT := at_noon 60 0.
Definition ATTEMPT_FINISHED_AT := at_noon 60 125000.
Definition DELIVERED_AT := at_noon 61 0.
Definition LEASE_UPDATED_AT := at_noon 120 0.
Definition LEASE_EXPIRES_AT := at_noon 420 0.

(** The spaces and the line feed are those of the outbound bytes, not of the JSON value. *)
Definition PAYLOAD_BYTES : bytes :=
  ascii_encode (lit "{ " ++ [34%N] ++ lit "amount" ++ [34%N] ++ lit ": 42, " ++ [34%N] ++ lit "event" ++ [34%N] ++
    lit ": " ++ [34%N] ++ lit "legacy" ++ [34%N] ++ lit " }" ++ [10%N]).

Definition REQUEST_FINGERPRINT : pystr := sha256_hex (blit "legacy publish request fingerprint").

(** A row that an INSERT with these cells stores. *)
Definition seed_row (C : catalog) (tn : string) (cells : list (string * value)) : row :=
  list_to_map cells ∪
  from_option (λ t, omap (λ col, default_cell 1787486400000000 <$> col_default col) (t_columns t)) ∅ (c_tables C !! tn).

Definition delivery_cells (id : N) (generation : Z) (status : string) : list (string * value) :=
  [("id", VUuid id); ("event_id", VUuid EVENT_ID); ("endpoint_id", VUuid ENDPOINT_ID);
   ("replay_generation", VInt generation); ("status", VEnum "delivery_status" (lit status));
   ("attempt_count", VInt 1); ("created_at", CREATED_AT)].

Definition seed_v1 (C : catalog) : data :=
  list_to_map
    [("endpoints", [seed_row C "endpoints"
        [("id", VUuid ENDPOINT_ID); ("name", VText (lit "Legacy receiver"));
         ("target_url", VText (lit "http://receiver-lab.test/webhooks")); ("signing_secret", VBytes (blit "migration-test-secret"));
         ("created_at", CREATED_AT); ("updated_at", CREATED_AT)]]);
     ("events", [seed_row C "events"
        [("id", VUuid EVENT_ID); ("source", VText (lit "migration-test")); ("event_type", VText (lit "invoice.created"));
         ("idempotency_key", VText (lit "legacy-event-1"));
         ("payload", VJson (JDict [(lit "event", JStr (lit "legacy")); (lit "amount", JInt 42)]));
         ("payload_bytes", VBytes PAYLOAD_BYTES); ("payload_sha256", VText REQUEST_FINGERPRINT); ("created_at", CREATED_AT)]]);
     ("deliveries",
       [seed_row C "deliveries" (delivery_cells COMPLETED_DELIVERY_ID 0 "delivered" ++
          [("delivered_at", DELIVERED_AT); ("updated_at", DELIVERED_AT)]);
        seed_row C "deliveries" (delivery_cells LEASED_DELIVERY_ID 1 "in_progress" ++
          [("lease_owner", VText (lit "legacy-worker")); ("lease_expires_at", LEASE_EXPIRES_AT);
           ("lease_token", VUuid ACTIVE_LEASE_TOKEN); ("updated_at", LEASE_UPDATED_AT)])]);
     ("delivery_attempts", [seed_row C "delivery_attempts"
        [("id", VUuid COMPLETED_ATTEMPT_ID); ("delivery_id", VUuid COMPLETED_DELIVERY_ID); ("attempt_number", VInt 1);
         ("disposition", VEnum "delivery_disposition" (lit "succeeded")); ("http_status_code", VInt 204);
         ("response_body_excerpt", VText (lit "accepted")); ("duration_ms", VInt 125); ("request_timestamp", VInt 1787486460);
         ("started_at", ATTEMPT_STARTED_AT); ("finished_at", ATTEMPT_FINISHED_AT); ("created_at", ATTEMPT_FINISHED_AT)]])].

Definition catalog_or_empty (k : nat) : catalog := match catalog_at k with Done C => C | Error _ => empty_catalog end.

Definition seeded : database := mkDatabase (catalog_or_empty 1) (seed_v1 (catalog_or_empty 1)) (Some "20260823_0001").

(** The seed satisfies the constraints of the first schema. *)
Example seed_sound : soundb (db_catalog seeded) (db_rows seeded) = true.
Proof. vm_compute. reflexivity. Qed.

(** ** The way to the head and back *)

Definition done_or (db : database) (r : result database) : database := match r with Done db' => db' | Error _ => db end.

Definition seeded_v2 : database := done_or seeded (upgrade_one 0 seeded).

Definition cells (cs : list string) (r : row) : list (option value) := (λ c, r !! c) <$> cs.

(** The event at revision 0002: the fingerprint of the request, and the digest of the exact bytes. *)
Example event_at_v2 :
  cells ["payload_bytes"; "request_fingerprint_sha256"; "payload_sha256"] <$> rows (db_rows seeded_v2) "events" =
  [[Some (VBytes PAYLOAD_BYTES); Some (VText REQUEST_FINGERPRINT); Some (VText (sha256_hex PAYLOAD_BYTES))]].
Proof. vm_compute. reflexivity. Qed.

Definition seeded_head : database := upgrade_head 0 seeded_v2.

Definition ledger_cells : list string :=
  ["id"; "delivery_id"; "status"; "lease_token"; "disposition"; "http_status_code"; "started_at"; "resolved_at"; "created_at"].

(** The stored attempt completed, and the active lease with its attempt in progress. *)
Example attempts_at_head :
  db_version seeded_head = Some head ∧
  cells ledger_cells <$> rows (db_rows seeded_head) "delivery_attempts" =
  [[Some (VUuid COMPLETED_ATTEMPT_ID); Some (VUuid COMPLETED_DELIVERY_ID); Some (status_value (lit "completed"));
    Some (VUuid COMPLETED_ATTEMPT_ID); Some (VEnum "delivery_disposition" (lit "succeeded")); Some (VInt 204);
    Some ATTEMPT_STARTED_AT; Some ATTEMPT_FINISHED_AT; Some ATTEMPT_FINISHED_AT];
   [Some (VUuid ACTIVE_LEASE_TOKEN); Some (VUuid LEASED_DELIVERY_ID); Some (status_value (lit "in_progress"));
    Some (VUuid ACTIVE_LEASE_TOKEN); None; None; None; None; Some LEASE_UPDATED_AT]].
Proof. split; vm_compute; reflexivity. Qed.

(** Four downgrades give back the seed. *)
Fixpoint downgrades (n : nat) (now : datetime) (db : database) : result database :=
  match n with
  | 0 => Done db
  | S n => db ← downgrade_one now db; downgrades n now db
  end.

Example round_trip_of_the_seed :
  let db := done_or empty_database (downgrades 4 0 seeded_head) in
  db_version db = db_version seeded ∧
  forallb (λ n, bool_decide (rows (db_rows db) n = rows (db_rows seeded) n))
    ["endpoints"; "events"; "deliveries"; "delivery_attempts"] = true.
Proof. split; vm_compute; reflexivity. Qed.

(** ** The data migrations on the seed *)

Definition deployableb (D : data) : bool :=
  forallb (λ d, passes d (sql "(status = 'in_progress') = (lease_owner IS NOT NULL)")) (rows D deliveries_table) &&
  forallb (λ d, match d !! "attempt_count" with Some (VInt n) => (1 <=? n)%Z | _ => false end) (reserved D) &&
  forallb (λ d, forallb (λ a, negb (bool_decide (a !! "id" = d !! "lease_token"))) (rows D attempts_table)) (reserved D) &&
  bool_decide (NoDup ((λ d, d !! "lease_token") <$> reserved D)).

Lemma deployableb_deployable D : deployableb D = true → deployable D.
Proof.
  unfold deployableb. rewrite !andb_true_iff, !forallb_elem, bool_decide_eq_true. intros [[[H1 H2] H3] H4].
  constructor; [exact H1| | |exact H4].
  - intros d Hd. specialize (H2 d Hd). destruct (d !! "attempt_count") as [[| | |n| | | |]|]; try done.
    exists n. split; [done|]. by apply Z.leb_le.
  - intros d a Hd Ha. specialize (H3 d Hd). rewrite forallb_elem in H3. specialize (H3 a Ha).
    apply negb_true_iff in H3. by apply bool_decide_eq_false in H3.
Qed.

Lemma catalog_at_v1 : catalog_at 1 = Done (db_catalog seeded).
Proof. refine (bool_decide_unpack _ _). vm_compute. exact I. Qed.

Lemma catalog_at_v2 : catalog_at 2 = Done (db_catalog seeded_v2).
Proof. refine (bool_decide_unpack _ _). vm_compute. exact I. Qed.

Lemma payload_digests_backfilled_witness :
  ∃ db1, upgrade_one 0 seeded = Done db1 ∧ length (rows (db_rows seeded) "events") = 1 ∧
    rows (db_rows db1) "events" = split_hashes <$> rows (db_rows seeded) "events".
Proof.
  destruct (payload_digests_backfilled 0 0 seeded eq_refl catalog_at_v1 (soundb_sound _ _ seed_sound))
    as (db1 & E & _ & Hr & _).
  exists db1. split; [exact E|]. split; [vm_compute; reflexivity|exact Hr].
Defined.

Lemma seed_v2_sound : soundb (db_catalog seeded_v2) (db_rows seeded_v2) = true.
Proof. vm_compute. reflexivity. Qed.

Lemma seed_v2_deployable : deployableb (db_rows seeded_v2) = true.
Proof. vm_compute. reflexivity. Qed.

Lemma seed_v2_version : db_version seeded_v2 = Some "20260823_0002".
Proof. vm_compute. reflexivity. Qed.

Lemma leases_survive_the_ledger_witness :
  ∃ db1, upgrade_one 0 seeded_v2 = Done db1 ∧ length (reserved (db_rows seeded_v2)) = 1 ∧
    rows (db_rows db1) attempts_table =
      (complete_row <$> rows (db_rows seeded_v2) attempts_table) ++ (reserve_row <$> reserved (db_rows seeded_v2)).
Proof.
  destruct (leases_survive_the_ledger 0 0 seeded_v2 seed_v2_version catalog_at_v2 (soundb_sound _ _ seed_v2_sound)
    (deployableb_deployable _ seed_v2_deployable)) as (db1 & E & _ & Hr & _).
  exists db1. split; [exact E|]. split; [vm_compute; reflexivity|exact Hr].
Defined.
